(** * Trading-Engine: the order book core, embedded and verified

    A shallow embedding of [include/orderbook/types.hpp], [order.hpp],
    [price_level.hpp], [order_book.hpp] and of the matching [.cpp] files.

    Conventions of the embedding.
    - [Price] and [Quantity] wrap an [int64_t]; both are modelled by [Z].
      Signed overflow is undefined behaviour in C++ and the engine does not
      defend against it; quantities are added and subtracted in [Z].  The
      two queries that add or subtract prices, [spread] and [midpoint],
      wrap around as the two's complement machine does ([wrap64]): the sum
      of two prices that an [int64_t] holds need not be one.
    - [OrderPtr = std::shared_ptr<Order>]: orders live in a heap (a list of
      [Order.t], a pointer is an index into it).  The book's id index, the
      FIFO of a price level and the caller all hold pointers to the same
      object, so a mutation through one of them is seen through the others.
    - [std::map<Price, PriceLevelPtr, Cmp>] is an association list kept in
      the order of [Cmp]; [begin()] is its head.
    - [std::unordered_map] is a [gmap].
    - [current_timestamp()] reads the clock; the fields [timestamp_] and
      [last_update_] are never read by the engine and are left out.
    - The [while] loops take fuel; [None] means that the fuel ran out or that
      a pointer outside the heap was dereferenced. *)

From Stdlib Require Import Ascii.
From stdpp Require Import gmap list sorting strings pretty.

Local Open Scope Z_scope.
#[local] Set Warnings "-clear-no-such-hyp".

(** ** types.hpp *)

Abbreviation OrderId := N (only parsing).
Abbreviation Price := Z (only parsing).
Abbreviation Quantity := Z (only parsing).
Abbreviation ptr := nat (only parsing).

Definition INVALID_ORDER_ID : OrderId := 0%N.

Definition SCALE_FACTOR : Z := 10000.
(** [std::numeric_limits<int64_t>::lowest()], [max()], [min()] *)
Definition int64_lowest : Z := - 2 ^ 63.
Definition int64_max : Z := 2 ^ 63 - 1.
Definition int64_min : Z := - 2 ^ 63.

Definition INVALID : Z := int64_lowest.
Definition MAX_VALUE : Z := int64_max.
Definition MIN_VALUE : Z := int64_min.
Definition ZERO : Z := 0.

(** What an [int64_t] holds after an addition or a subtraction whose exact
    result is [z]. *)
Definition wrap64 (z : Z) : Z := (z + 2 ^ 63) `mod` 2 ^ 64 - 2 ^ 63.

Inductive Side := BUY | SELL.
Inductive OrderType := LIMIT | MARKET | CANCEL | MODIFY.
Inductive TimeInForce := GTC | IOC | FOK.
Inductive OrderStatus :=
  NEW | ACCEPTED | REJECTED | FILLED | PARTIALLY_FILLED | CANCELLED | REPLACED.

Global Instance Side_eq_dec : EqDecision Side.
Proof. solve_decision. Defined.
Global Instance OrderType_eq_dec : EqDecision OrderType.
Proof. solve_decision. Defined.
Global Instance TimeInForce_eq_dec : EqDecision TimeInForce.
Proof. solve_decision. Defined.
Global Instance OrderStatus_eq_dec : EqDecision OrderStatus.
Proof. solve_decision. Defined.

(** *** Price::to_string / Quantity::to_string (types.cpp)

    The two bodies are the same text.  [operator<<] on an [int64_t] is
    [pretty]; [std::setw(4) << std::setfill('0')] pads the next item on the
    left up to width four. *)

Fixpoint fill (n : nat) (c : ascii) : string :=
  match n with
  | O => EmptyString
  | S n' => String c (fill n' c)
  end.

Definition setw_setfill (w : nat) (c : ascii) (item : string) : string :=
  fill (w - String.length item) c +:+ item.

Definition to_string (value_ : Z) : string :=
  if decide (value_ = INVALID) then "INVALID"
  else if decide (value_ = MAX_VALUE) then "MAX"
  else if decide (value_ = MIN_VALUE) then "MIN"
  else
    let negative := bool_decide (value_ < 0) in
    let abs_value := if negative then - value_ else value_ in
    let int_part := Z.quot abs_value SCALE_FACTOR in
    let frac_part := Z.rem abs_value SCALE_FACTOR in
    (if negative then "-" else "")
      +:+ pretty int_part +:+ "."
      +:+ setw_setfill 4 "0" (pretty frac_part).

(** The decimal digit [d] (0..9) as a character, and a number below 10000
    written with exactly four digits. *)
Definition digit_char (d : Z) : ascii :=
  ascii_of_nat (48 + Z.to_nat d).

Definition four_digits (n : Z) : string :=
  String (digit_char ((n / 1000) `mod` 10))
    (String (digit_char ((n / 100) `mod` 10))
      (String (digit_char ((n / 10) `mod` 10))
        (String (digit_char (n `mod` 10)) EmptyString))).

(** ** order.hpp / order.cpp *)

Module Order.

Record t := mk {
  id_ : OrderId;
  symbol_ : string;
  side_ : Side;
  type_ : OrderType;
  quantity_ : Quantity;
  executed_quantity_ : Quantity;
  price_ : Price;
  time_in_force_ : TimeInForce;
  status_ : OrderStatus
}.

(** [Order::Order(id, symbol, side, type, quantity, price, tif)] *)
Definition make (id : OrderId) (symbol : string) (side : Side)
    (type : OrderType) (quantity : Quantity) (price : Price)
    (tif : TimeInForce) : t :=
  mk id symbol side type quantity ZERO price tif NEW.

Definition remaining_quantity (o : t) : Quantity :=
  quantity_ o - executed_quantity_ o.

Definition set_quantity (quantity : Quantity) (o : t) : t :=
  mk (id_ o) (symbol_ o) (side_ o) (type_ o) quantity
     (executed_quantity_ o) (price_ o) (time_in_force_ o) (status_ o).

Definition set_status (status : OrderStatus) (o : t) : t :=
  mk (id_ o) (symbol_ o) (side_ o) (type_ o) (quantity_ o)
     (executed_quantity_ o) (price_ o) (time_in_force_ o) status.

Definition set_executed_quantity (executed : Quantity) (o : t) : t :=
  mk (id_ o) (symbol_ o) (side_ o) (type_ o) (quantity_ o)
     executed (price_ o) (time_in_force_ o) (status_ o).

Definition is_active (o : t) : bool :=
  bool_decide (status_ o = NEW)
  || bool_decide (status_ o = ACCEPTED)
  || bool_decide (status_ o = PARTIALLY_FILLED).

Definition is_filled (o : t) : bool :=
  bool_decide (executed_quantity_ o = quantity_ o)
  || bool_decide (status_ o = FILLED).

Definition is_valid (o : t) : bool :=
  bool_decide (id_ o ≠ INVALID_ORDER_ID).

Definition execute (exec_qty : Quantity) (o : t) : t :=
  let exec_qty :=
    if decide (exec_qty > remaining_quantity o)
    then remaining_quantity o else exec_qty in
  let o1 := set_executed_quantity (executed_quantity_ o + exec_qty) o in
  if decide (executed_quantity_ o1 = quantity_ o1) then set_status FILLED o1
  else if decide (executed_quantity_ o1 > ZERO)
       then set_status PARTIALLY_FILLED o1
       else o1.

Definition cancel (o : t) : t :=
  if is_active o then set_status CANCELLED o else o.

End Order.

Abbreviation heap := (list Order.t) (only parsing).

(** [std::make_shared<Order>(...)]: the new object gets the next address. *)
Definition alloc (h : heap) (o : Order.t) : heap * ptr := (h ++ [o], length h).

(** ** std::map<Price, V, Cmp>

    An association list in the order of [Cmp]: [before a b] holds when key
    [a] comes before key [b] ([std::greater] for the bids, [std::less] for
    the asks).  [set] models a mutation of the mapped object through the
    [shared_ptr] stored under a key that is present. *)

Module PriceMap.
Section defs.
Context {V : Type}.

Fixpoint find (k : Price) (m : list (Price * V)) : option V :=
  match m with
  | [] => None
  | (k', v) :: m' => if decide (k' = k) then Some v else find k m'
  end.

Fixpoint set (k : Price) (v : V) (m : list (Price * V)) : list (Price * V) :=
  match m with
  | [] => []
  | (k', v') :: m' =>
      if decide (k' = k) then (k', v) :: m' else (k', v') :: set k v m'
  end.

Fixpoint erase (k : Price) (m : list (Price * V)) : list (Price * V) :=
  match m with
  | [] => []
  | (k', v') :: m' =>
      if decide (k' = k) then m' else (k', v') :: erase k m'
  end.

(** [m[k] = v] for a key that [find] did not find *)
Fixpoint insert (before : Price → Price → bool) (k : Price) (v : V)
    (m : list (Price * V)) : list (Price * V) :=
  match m with
  | [] => [(k, v)]
  | (k', v') :: m' =>
      if decide (k' = k) then (k', v) :: m'
      else if before k k' then (k, v) :: (k', v') :: m'
      else (k', v') :: insert before k v m'
  end.
End defs.
End PriceMap.

(** [std::list<OrderPtr>::erase(it)]: the node is named by the pointer it
    holds. *)
Fixpoint list_erase (it : ptr) (l : list ptr) : list ptr :=
  match l with
  | [] => []
  | x :: l' => if decide (x = it) then l' else x :: list_erase it l'
  end.

(** ** price_level.hpp / price_level.cpp *)

Module PriceLevel.

Record t := mk {
  price_ : Price;
  total_quantity_ : Quantity;
  orders_ : list ptr;
  order_map_ : gmap OrderId ptr
}.

Definition make (price : Price) : t := mk price ZERO [] ∅.

Definition is_empty (l : t) : bool := bool_decide (orders_ l = []).

(** A pointer outside the heap stands for the null pointer of [!order]. *)
Definition add_order (h : heap) (order : ptr) (l : t) : t :=
  match h !! order with
  | None => l
  | Some o =>
      if decide (Order.price_ o ≠ price_ l) then l
      else mk (price_ l)
              (total_quantity_ l + Order.remaining_quantity o)
              (orders_ l ++ [order])
              (<[Order.id_ o := order]> (order_map_ l))
  end.

Definition remove_order (h : heap) (order_id : OrderId) (l : t)
    : option (bool * t) :=
  match order_map_ l !! order_id with
  | None => Some (false, l)
  | Some it =>
      o ← h !! it;
      Some (true, mk (price_ l)
                     (total_quantity_ l - Order.remaining_quantity o)
                     (list_erase it (orders_ l))
                     (delete order_id (order_map_ l)))
  end.

Definition modify_order_quantity (h : heap) (order_id : OrderId)
    (new_quantity : Quantity) (l : t) : option (bool * heap * t) :=
  match order_map_ l !! order_id with
  | None => Some (false, h, l)
  | Some it =>
      o ← h !! it;
      let old_remaining := Order.remaining_quantity o in
      if decide (new_quantity < Order.executed_quantity_ o)
      then Some (false, h, l)
      else
        let o1 := Order.set_quantity new_quantity o in
        let new_remaining := Order.remaining_quantity o1 in
        Some (true, <[it := o1]> h,
              mk (price_ l)
                 (total_quantity_ l - old_remaining + new_remaining)
                 (orders_ l) (order_map_ l))
  end.

Definition get_first_order (l : t) : option ptr := head (orders_ l).

Definition get_order (order_id : OrderId) (l : t) : option ptr :=
  order_map_ l !! order_id.

(** One turn of the [while] loop of [execute_quantity]: [order] is
    [orders_.front()], [rest] the queue behind it and [o] the object that
    [order] points to. *)
Definition execute_body (h : heap) (remaining_qty : Quantity) (l : t)
    (executed_orders : list (ptr * Quantity)) (order : ptr) (rest : list ptr)
    (o : Order.t) : heap * Quantity * t * list (ptr * Quantity) :=
  let order_remaining := Order.remaining_quantity o in
  let exec_qty :=
    if decide (remaining_qty < order_remaining)
    then remaining_qty else order_remaining in
  let '(o1, total1, executed1, remaining1) :=
    if decide (exec_qty > ZERO)
    then (Order.execute exec_qty o,
          total_quantity_ l - exec_qty,
          executed_orders ++ [(order, exec_qty)],
          remaining_qty - exec_qty)
    else (o, total_quantity_ l, executed_orders, remaining_qty) in
  let h1 := <[order := o1]> h in
  let l1 :=
    if Order.is_filled o1
    then mk (price_ l) total1 rest (delete (Order.id_ o1) (order_map_ l))
    else mk (price_ l) total1 (orders_ l) (order_map_ l) in
  (h1, remaining1, l1, executed1).

(** The [while] loop of [execute_quantity]; one unit of fuel per turn. *)
Fixpoint execute_loop (fuel : nat) (h : heap) (remaining_qty : Quantity)
    (l : t) (executed_orders : list (ptr * Quantity))
    : option (heap * t * list (ptr * Quantity)) :=
  match orders_ l with
  | [] => Some (h, l, executed_orders)
  | order :: rest =>
      if decide (remaining_qty > ZERO) then
        match fuel with
        | O => None
        | S fuel' =>
            o ← h !! order;
            let '(h1, remaining1, l1, executed1) :=
              execute_body h remaining_qty l executed_orders order rest o in
            execute_loop fuel' h1 remaining1 l1 executed1
        end
      else Some (h, l, executed_orders)
  end.

Definition execute_quantity (fuel : nat) (h : heap) (quantity : Quantity)
    (l : t) : option (heap * t * list (ptr * Quantity)) :=
  if bool_decide (orders_ l = []) || bool_decide (quantity ≤ ZERO)
  then Some (h, l, [])
  else execute_loop fuel h quantity l [].

Definition get_all_orders (l : t) : list ptr := orders_ l.

Definition order_count (l : t) : nat := length (orders_ l).

End PriceLevel.

(** ** order_book.hpp / order_book.cpp *)

Module OrderBook.

Record OrderMatch := mkMatch {
  maker_order_id : OrderId;
  taker_order_id : OrderId;
  match_price : Price;
  match_quantity : Quantity
}.

Abbreviation levels := (list (Price * PriceLevel.t)) (only parsing).

Record t := mk {
  symbol_ : string;
  bid_levels_ : levels;
  ask_levels_ : levels;
  orders_ : gmap OrderId ptr;
  total_bid_quantity_ : Quantity;
  total_ask_quantity_ : Quantity
}.

Definition make (symbol : string) : t := mk symbol [] [] ∅ ZERO ZERO.

(** The code for [Side::BUY] and for [Side::SELL] is the same text over
    [bid_levels_]/[total_bid_quantity_] and
    [ask_levels_]/[total_ask_quantity_]; the embedding selects the pair
    by the side. *)
Definition side_levels (s : Side) (b : t) : levels :=
  match s with BUY => bid_levels_ b | SELL => ask_levels_ b end.

Definition side_total (s : Side) (b : t) : Quantity :=
  match s with
  | BUY => total_bid_quantity_ b
  | SELL => total_ask_quantity_ b
  end.

Definition set_side (s : Side) (lv : levels) (total : Quantity) (b : t) : t :=
  match s with
  | BUY => mk (symbol_ b) lv (ask_levels_ b) (orders_ b)
              total (total_ask_quantity_ b)
  | SELL => mk (symbol_ b) (bid_levels_ b) lv (orders_ b)
               (total_bid_quantity_ b) total
  end.

Definition set_orders (idx : gmap OrderId ptr) (b : t) : t :=
  mk (symbol_ b) (bid_levels_ b) (ask_levels_ b) idx
     (total_bid_quantity_ b) (total_ask_quantity_ b).

Definition opposite (s : Side) : Side :=
  match s with BUY => SELL | SELL => BUY end.

(** [std::greater<Price>] orders the bids, [std::less<Price>] the asks. *)
Definition before (s : Side) (a b : Price) : bool :=
  match s with
  | BUY => bool_decide (a > b)
  | SELL => bool_decide (a < b)
  end.

Definition get_order (order_id : OrderId) (b : t) : option ptr :=
  orders_ b !! order_id.

Definition best_bid (b : t) : option Price := fst <$> head (bid_levels_ b).
Definition best_ask (b : t) : option Price := fst <$> head (ask_levels_ b).

Definition get_orders_at_level (price : Price) (side : Side) (b : t)
    : list ptr :=
  match PriceMap.find price (side_levels side b) with
  | Some l => PriceLevel.get_all_orders l
  | None => []
  end.

Definition get_quantity_at_level (price : Price) (side : Side) (b : t)
    : Quantity :=
  match PriceMap.find price (side_levels side b) with
  | Some l => PriceLevel.total_quantity_ l
  | None => ZERO
  end.

Definition get_total_bid_quantity (b : t) : Quantity := total_bid_quantity_ b.
Definition get_total_ask_quantity (b : t) : Quantity := total_ask_quantity_ b.

Definition create_match (h : heap) (maker taker : ptr) (match_qty : Quantity)
    : option OrderMatch :=
  m ← h !! maker;
  t ← h !! taker;
  Some (mkMatch (Order.id_ m) (Order.id_ t) (Order.price_ m) match_qty).

(** The [for] loop over the pairs that [execute_quantity] returned: a match
    record per pair, and the pair's quantity taken off [remaining_qty] and
    off the side total. *)
Fixpoint record_matches (h : heap) (taker : ptr)
    (executed : list (ptr * Quantity)) (matches : list OrderMatch)
    (remaining_qty total : Quantity)
    : option (list OrderMatch * Quantity * Quantity) :=
  match executed with
  | [] => Some (matches, remaining_qty, total)
  | (maker, exec_qty) :: executed' =>
      m ← create_match h maker taker exec_qty;
      record_matches h taker executed' (matches ++ [m])
        (remaining_qty - exec_qty) (total - exec_qty)
  end.

(** One turn of the [while] loop of the matching functions, up to the test
    that ends it: the best level [(price, level)] is executed against, the
    matches are recorded, and the level is erased when it is empty. *)
Definition take_level (fuel : nat) (taker : ptr) (h : heap) (price : Price)
    (level : PriceLevel.t) (rest : levels) (total remaining_qty : Quantity)
    (matches : list OrderMatch)
    : option (heap * levels * Quantity * Quantity * list OrderMatch) :=
  '(h1, level1, executed) ←
    PriceLevel.execute_quantity fuel h remaining_qty level;
  '(matches1, remaining1, total1) ←
    record_matches h1 taker executed matches remaining_qty total;
  let lv1 :=
    if PriceLevel.is_empty level1 then rest else (price, level1) :: rest in
  Some (h1, lv1, total1, remaining1, matches1).

(** The [while] loop of [match_market_order] and [match_limit_order].  The
    four copies in the source differ in the side they walk ([lv], [total])
    and in the price test before the level is taken ([past_limit]; none for
    a market order). *)
Fixpoint match_loop (fuel : nat) (past_limit : Price → bool) (taker : ptr)
    (h : heap) (lv : levels) (total remaining_qty : Quantity)
    (matches : list OrderMatch)
    : option (heap * levels * Quantity * Quantity * list OrderMatch) :=
  match lv with
  | [] => Some (h, lv, total, remaining_qty, matches)
  | (price, level) :: rest =>
      if decide (remaining_qty > ZERO) then
        if past_limit price then Some (h, lv, total, remaining_qty, matches)
        else
          match fuel with
          | O => None
          | S fuel' =>
              '(h1, lv1, total1, remaining1, matches1) ←
                take_level fuel' taker h price level rest total
                  remaining_qty matches;
              order ← h1 !! taker;
              if bool_decide (remaining1 ≤ ZERO)
                 || (bool_decide (Order.time_in_force_ order = FOK)
                     && bool_decide (remaining1 < Order.quantity_ order))
              then Some (h1, lv1, total1, remaining1, matches1)
              else match_loop fuel' past_limit taker h1 lv1 total1
                     remaining1 matches1
          end
      else Some (h, lv, total, remaining_qty, matches)
  end.

(** What follows the loops in both matching functions. *)
Definition match_order (fuel : nat) (past_limit : Price → bool) (h : heap)
    (b : t) (order : ptr) (o : Order.t)
    : option (list OrderMatch * heap * t) :=
  let opp := opposite (Order.side_ o) in
  '(h1, lv1, total1, remaining_qty, matches) ←
    match_loop fuel past_limit order h (side_levels opp b)
      (side_total opp b) (Order.remaining_quantity o) [];
  let b1 := set_side opp lv1 total1 b in
  o1 ← h1 !! order;
  let o2 := Order.execute (Order.quantity_ o1 - remaining_qty) o1 in
  if bool_decide (Order.time_in_force_ o2 = FOK)
     && bool_decide (remaining_qty > ZERO)
  then Some ([], <[order := Order.set_status CANCELLED o2]> h1, b1)
  else Some (matches, <[order := o2]> h1, b1).

Definition match_market_order (fuel : nat) (h : heap) (b : t) (order : ptr)
    : option (list OrderMatch * heap * t) :=
  match h !! order with
  | None => Some ([], h, b)
  | Some o =>
      if decide (Order.type_ o ≠ MARKET) then Some ([], h, b)
      else match_order fuel (λ _, false) h b order o
  end.

(** [it->first > limit_price] for a buy, [it->first < limit_price] for a
    sell. *)
Definition past_limit (s : Side) (limit_price : Price) (best : Price) : bool :=
  match s with
  | BUY => bool_decide (best > limit_price)
  | SELL => bool_decide (best < limit_price)
  end.

Definition match_limit_order (fuel : nat) (h : heap) (b : t) (order : ptr)
    : option (list OrderMatch * heap * t) :=
  match h !! order with
  | None => Some ([], h, b)
  | Some o =>
      if decide (Order.type_ o ≠ LIMIT) then Some ([], h, b)
      else match_order fuel (past_limit (Order.side_ o) (Order.price_ o))
             h b order o
  end.

Definition add_limit_order_to_book (h : heap) (b : t) (order : ptr) : t :=
  match h !! order with
  | None => b
  | Some o =>
      if bool_decide (Order.type_ o ≠ LIMIT) || Order.is_filled o then b
      else
        let side := Order.side_ o in
        let price := Order.price_ o in
        let lv := side_levels side b in
        let '(level, lv1) :=
          match PriceMap.find price lv with
          | None =>
              let level := PriceLevel.make price in
              (level, PriceMap.insert (before side) price level lv)
          | Some level => (level, lv)
          end in
        let total1 := side_total side b + Order.remaining_quantity o in
        let level1 := PriceLevel.add_order h order level in
        set_orders (<[Order.id_ o := order]> (orders_ b))
          (set_side side (PriceMap.set price level1 lv1) total1 b)
  end.

Definition remove_price_level_if_empty (price : Price) (side : Side) (b : t)
    : t :=
  match PriceMap.find price (side_levels side b) with
  | Some l =>
      if PriceLevel.is_empty l
      then set_side side (PriceMap.erase price (side_levels side b))
             (side_total side b) b
      else b
  | None => b
  end.

Definition cancel_order (h : heap) (b : t) (order_id : OrderId)
    : option (bool * heap * t) :=
  match orders_ b !! order_id with
  | None => Some (false, h, b)
  | Some order =>
      o ← h !! order;
      let price := Order.price_ o in
      let side := Order.side_ o in
      match PriceMap.find price (side_levels side b) with
      | None => Some (false, h, b)
      | Some level =>
          '(removed, level1) ← PriceLevel.remove_order h order_id level;
          if (removed : bool) then
            let b1 :=
              set_side side
                (PriceMap.set price level1 (side_levels side b))
                (side_total side b - Order.remaining_quantity o) b in
            let b2 := remove_price_level_if_empty price side b1 in
            Some (true, <[order := Order.cancel o]> h,
                  set_orders (delete order_id (orders_ b2)) b2)
          else Some (false, h, b)
      end
  end.

Definition add_order (fuel : nat) (h : heap) (b : t) (order : ptr)
    : option (list OrderMatch * heap * t) :=
  match h !! order with
  | None => Some ([], h, b)
  | Some o =>
      if negb (Order.is_valid o) then Some ([], h, b)
      else
        let o1 := Order.set_status ACCEPTED o in
        let h1 := <[order := o1]> h in
        match Order.type_ o1 with
        | MARKET => match_market_order fuel h1 b order
        | LIMIT =>
            '(matches, h2, b2) ← match_limit_order fuel h1 b order;
            o2 ← h2 !! order;
            if negb (Order.is_filled o2)
               && bool_decide (Order.time_in_force_ o2 ≠ IOC)
            then Some (matches, h2, add_limit_order_to_book h2 b2 order)
            else Some (matches, h2, b2)
        | _ => Some ([], h1, b)
        end
  end.

(** The block of [modify_order] for a quantity decrease: the level is
    adjusted in place and the order is marked REPLACED. *)
Definition modify_in_place (h : heap) (b : t) (order_id : OrderId)
    (order : ptr) (o : Order.t) (new_quantity : Quantity)
    : option (list OrderMatch * heap * t) :=
  let price := Order.price_ o in
  let side := Order.side_ o in
  '(h1, b1) ←
    match PriceMap.find price (side_levels side b) with
    | Some level =>
        let old_remaining := Order.remaining_quantity o in
        '(modified, h1, level1) ←
          PriceLevel.modify_order_quantity h order_id new_quantity level;
        o1 ← h1 !! order;
        let new_remaining := Order.remaining_quantity o1 in
        Some (h1,
              set_side side
                (PriceMap.set price level1 (side_levels side b))
                (side_total side b - old_remaining + new_remaining)
                b)
    | None => Some (h, b)
    end;
  o2 ← h1 !! order;
  Some ([], <[order := Order.set_status REPLACED o2]> h1, b1).

(** The block of [modify_order] that cancels the order and submits a new
    one with the same id. *)
Definition cancel_and_replace (fuel : nat) (h : heap) (b : t)
    (order_id : OrderId) (order : ptr) (new_price : option Price)
    (new_quantity : option Quantity)
    : option (list OrderMatch * heap * t) :=
  '(cancelled, h1, b1) ← cancel_order h b order_id;
  if negb cancelled then Some ([], h1, b1)
  else
    o1 ← h1 !! order;
    let '(h2, new_order) :=
      alloc h1
        (Order.make order_id (Order.symbol_ o1) (Order.side_ o1)
           (Order.type_ o1)
           (default (Order.quantity_ o1) new_quantity)
           (default (Order.price_ o1) new_price)
           (Order.time_in_force_ o1)) in
    add_order fuel h2 b1 new_order.

Definition modify_order (fuel : nat) (h : heap) (b : t) (order_id : OrderId)
    (new_price : option Price) (new_quantity : option Quantity)
    : option (list OrderMatch * heap * t) :=
  match new_price, new_quantity with
  | None, None => Some ([], h, b)
  | _, _ =>
    match orders_ b !! order_id with
    | None => Some ([], h, b)
    | Some order =>
        o ← h !! order;
        let in_place :=
          match new_price, new_quantity with
          | None, Some q => bool_decide (q ≤ Order.quantity_ o)
          | _, _ => false
          end in
        if in_place
        then modify_in_place h b order_id order o (default ZERO new_quantity)
        else cancel_and_replace fuel h b order_id order new_price
               new_quantity
    end
  end.

Definition clear (b : t) : t := mk (symbol_ b) [] [] ∅ ZERO ZERO.

(** [spread] and [midpoint].  [*ba - *bb] and
    [bb->raw_value() + ba->raw_value()] are computed in [int64_t];
    [sum / 2] divides two [int64_t]: the quotient is truncated toward
    zero. *)
Definition spread (b : t) : option Price :=
  match best_bid b, best_ask b with
  | Some bb, Some ba => Some (wrap64 (ba - bb))
  | _, _ => None
  end.

Definition midpoint (b : t) : option Price :=
  match best_bid b, best_ask b with
  | Some bb, Some ba =>
      let sum := wrap64 (bb + ba) in
      Some (Z.quot sum 2)
  | _, _ => None
  end.

(** [get_bid_prices], [get_ask_prices]: the keys in the order of the map. *)
Definition get_bid_prices (b : t) : list Price := (bid_levels_ b).*1.
Definition get_ask_prices (b : t) : list Price := (ask_levels_ b).*1.

(** [get_bids], [get_asks]: a new map, filled by [result[price] = ...] in
    the order of the loop over the levels. *)
Definition get_bids (b : t) : list (Price * Quantity) :=
  foldl (λ result kl,
           PriceMap.insert (before BUY) kl.1
             (PriceLevel.total_quantity_ kl.2) result)
    [] (bid_levels_ b).

Definition get_asks (b : t) : list (Price * Quantity) :=
  foldl (λ result kl,
           PriceMap.insert (before SELL) kl.1
             (PriceLevel.total_quantity_ kl.2) result)
    [] (ask_levels_ b).

Definition bid_level_count (b : t) : nat := length (bid_levels_ b).
Definition ask_level_count (b : t) : nat := length (ask_levels_ b).
Definition order_count (b : t) : nat := size (orders_ b).

End OrderBook.

(** ** The operations of the public contract, run in sequence

    [Submit] is a caller that builds a new order with [std::make_shared]
    and hands it to [add_order]; the state of a run is the heap and the
    book. *)

Inductive Op :=
  | Submit (id : OrderId) (symbol : string) (side : Side) (type : OrderType)
      (quantity : Quantity) (price : Price) (tif : TimeInForce)
  | Cancel (id : OrderId)
  | Modify (id : OrderId) (new_price : option Price)
      (new_quantity : option Quantity).

Definition run_op (fuel : nat) (st : heap * OrderBook.t) (op : Op)
    : option (heap * OrderBook.t) :=
  let '(h, b) := st in
  match op with
  | Submit id symbol side type quantity price tif =>
      let '(h1, order) :=
        alloc h (Order.make id symbol side type quantity price tif) in
      '(matches, h2, b2) ← OrderBook.add_order fuel h1 b order;
      Some (h2, b2)
  | Cancel id =>
      '(cancelled, h1, b1) ← OrderBook.cancel_order h b id;
      Some (h1, b1)
  | Modify id new_price new_quantity =>
      '(matches, h1, b1) ←
        OrderBook.modify_order fuel h b id new_price new_quantity;
      Some (h1, b1)
  end.

Fixpoint run_ops (fuel : nat) (st : heap * OrderBook.t) (ops : list Op)
    : option (heap * OrderBook.t) :=
  match ops with
  | [] => Some st
  | op :: ops' => st1 ← run_op fuel st op; run_ops fuel st1 ops'
  end.

Definition initial : heap * OrderBook.t := ([], OrderBook.make "AAPL").

(** ** Specification vocabulary *)

Definition sumZ (l : list Z) : Z := foldr Z.add 0 l.

(** Remaining quantity of the order behind a pointer. *)
Definition remaining_at (h : heap) (p : ptr) : Quantity :=
  from_option Order.remaining_quantity 0 (h !! p).

Definition sum_remaining (h : heap) (ps : list ptr) : Quantity :=
  sumZ (remaining_at h <$> ps).

Definition level_totals (lv : list (Price * PriceLevel.t)) : Quantity :=
  sumZ ((λ kl, PriceLevel.total_quantity_ kl.2) <$> lv).

(** The pointers queued on one side, best level first, and on the book. *)
Definition level_ptrs (lv : list (Price * PriceLevel.t)) : list ptr :=
  concat ((λ kl, PriceLevel.orders_ kl.2) <$> lv).

Definition book_ptrs (b : OrderBook.t) : list ptr :=
  level_ptrs (OrderBook.bid_levels_ b) ++ level_ptrs (OrderBook.ask_levels_ b).

(** An order rests on the book when a price level queues a pointer to it. *)
Definition resting (h : heap) (b : OrderBook.t) (p : ptr) (o : Order.t) : Prop :=
  p ∈ book_ptrs b ∧ h !! p = Some o.

Definition resting_id (h : heap) (b : OrderBook.t) (id : OrderId) : Prop :=
  ∃ p o, resting h b p o ∧ Order.id_ o = id.

(** The fields of an order that no member function writes. *)
Definition static_eq (o o' : Order.t) : Prop :=
  Order.id_ o = Order.id_ o' ∧ Order.side_ o = Order.side_ o'
  ∧ Order.price_ o = Order.price_ o' ∧ Order.type_ o = Order.type_ o'
  ∧ Order.time_in_force_ o = Order.time_in_force_ o'.

Definition heap_le (h h' : heap) : Prop :=
  ∀ p o, h !! p = Some o → ∃ o', h' !! p = Some o' ∧ static_eq o o'.

Definition keys_sorted (s : Side) (lv : list (Price * PriceLevel.t)) : Prop :=
  StronglySorted (λ a b, OrderBook.before s a b = true) lv.*1.

(** *** Well-formed books

    [P] is a property of the resting orders that a particular result wants
    to carry along; the structural part is the same for all of them. *)
Section wf.
Variable P : Order.t → Prop.

Definition order_ok (h : heap) (idx : gmap OrderId ptr) (s : Side)
    (l : PriceLevel.t) (p : ptr) : Prop :=
  ∃ o, h !! p = Some o
       ∧ Order.price_ o = PriceLevel.price_ l
       ∧ Order.side_ o = s
       ∧ PriceLevel.order_map_ l !! Order.id_ o = Some p
       ∧ idx !! Order.id_ o = Some p
       ∧ 0 ≤ Order.remaining_quantity o
       ∧ Order.status_ o ≠ FILLED
       ∧ P o.

Definition level_ok (h : heap) (idx : gmap OrderId ptr) (s : Side)
    (kl : Price * PriceLevel.t) : Prop :=
  PriceLevel.price_ kl.2 = kl.1
  ∧ PriceLevel.total_quantity_ kl.2 = sum_remaining h (PriceLevel.orders_ kl.2)
  ∧ Forall (order_ok h idx s kl.2) (PriceLevel.orders_ kl.2)
  ∧ (∀ i p, PriceLevel.order_map_ kl.2 !! i = Some p →
       p ∈ PriceLevel.orders_ kl.2 ∧ ∃ o, h !! p = Some o ∧ Order.id_ o = i).

Definition side_ok (h : heap) (idx : gmap OrderId ptr) (s : Side)
    (lv : list (Price * PriceLevel.t)) (total : Quantity) : Prop :=
  keys_sorted s lv
  ∧ total = level_totals lv
  ∧ Forall (level_ok h idx s) lv.

Record wf (h : heap) (b : OrderBook.t) : Prop := mk_wf {
  wf_side : ∀ s, side_ok h (OrderBook.orders_ b) s
                   (OrderBook.side_levels s b) (OrderBook.side_total s b);
  wf_nodup : NoDup (book_ptrs b);
  wf_index : ∀ i p, OrderBook.orders_ b !! i = Some p →
               ∃ o, h !! p = Some o ∧ Order.id_ o = i
}.
End wf.

(** *** Valid operations (spec section 4.3, preconditions of submit) *)

Definition valid_op (h : heap) (b : OrderBook.t) (op : Op) : Prop :=
  match op with
  | Submit id _ _ type quantity price _ =>
      id ≠ INVALID_ORDER_ID ∧ ¬ resting_id h b id
      ∧ quantity > 0 ∧ (type = LIMIT → price > 0)
  | Cancel _ => True
  | Modify _ new_price new_quantity =>
      (∀ p, new_price = Some p → p > 0)
      ∧ (∀ q, new_quantity = Some q → q > 0)
  end.

(** The states a book goes through from its construction, by operations
    that satisfy [valid]. *)
Inductive reachable (valid : heap → OrderBook.t → Op → Prop)
    : heap → OrderBook.t → Prop :=
  | reach_init symbol : reachable valid [] (OrderBook.make symbol)
  | reach_step h b op fuel h' b' :
      reachable valid h b →
      valid h b op →
      run_op fuel (h, b) op = Some (h', b') →
      reachable valid h' b'.

(** Invariants 1 and 2 of the spec's section 8. *)
Definition totals_ok (h : heap) (b : OrderBook.t) : Prop :=
  (∀ s k l, (k, l) ∈ OrderBook.side_levels s b →
     PriceLevel.total_quantity_ l = sum_remaining h (PriceLevel.orders_ l))
  ∧ (∀ s, OrderBook.side_total s b = level_totals (OrderBook.side_levels s b)).

(** [P] survives a partial execution of a resting order. *)
Definition exec_stable (P : Order.t → Prop) : Prop :=
  ∀ o q, P o → 0 < q → q ≤ Order.remaining_quantity o →
    Order.status_ o ≠ FILLED →
    Order.is_filled (Order.execute q o) = false →
    P (Order.execute q o).

Global Arguments sumZ : simpl never.
Global Arguments sum_remaining : simpl never.
Global Arguments level_totals : simpl never.
Global Arguments level_ptrs : simpl never.
Global Arguments remaining_at : simpl never.

(** What matching does to the object of the incoming order [o]: it is
    executed once, and a FOK order that was not filled is then cancelled. *)
Definition taker_result (o o' : Order.t) : Prop :=
  ∃ x, o' = Order.execute x o
       ∨ (Order.time_in_force_ o = FOK
          ∧ o' = Order.set_status CANCELLED (Order.execute x o)).

(** *** Valid operations without FOK orders

    A stricter notion for the invariant on resting orders: no submitted
    order is FOK, and a modify that gives a quantity gives more than what
    the order has executed. *)
Definition valid_op_strict (h : heap) (b : OrderBook.t) (op : Op) : Prop :=
  valid_op h b op
  ∧ match op with
    | Submit _ _ _ _ _ _ tif => tif ≠ FOK
    | Cancel _ => True
    | Modify id _ new_quantity =>
        ∀ q p o, new_quantity = Some q →
          OrderBook.get_order id b = Some p → h !! p = Some o →
          Order.executed_quantity_ o < q
    end.

(** What holds of every resting order in a run without FOK orders. *)
Definition live (o : Order.t) : Prop :=
  (Order.is_active o = true ∨ Order.status_ o = REPLACED)
  ∧ 0 < Order.remaining_quantity o
  ∧ Order.time_in_force_ o ≠ FOK.

(** *** Checking a run *)

Definition resting_idb (h : heap) (b : OrderBook.t) (id : OrderId) : bool :=
  existsb (λ p, match h !! p with
                | Some o => bool_decide (Order.id_ o = id)
                | None => false
                end) (book_ptrs b).

Definition valid_opb (st : heap * OrderBook.t) (op : Op) : bool :=
  match op with
  | Submit id _ _ type quantity price _ =>
      bool_decide (id ≠ INVALID_ORDER_ID)
      && negb (resting_idb st.1 st.2 id)
      && bool_decide (quantity > 0)
      && (bool_decide (type ≠ LIMIT) || bool_decide (price > 0))
  | Cancel _ => true
  | Modify _ new_price new_quantity =>
      from_option (λ p, bool_decide (p > 0)) true new_price
      && from_option (λ q, bool_decide (q > 0)) true new_quantity
  end.

Definition valid_op_strictb (st : heap * OrderBook.t) (op : Op) : bool :=
  valid_opb st op
  && match op with
     | Submit _ _ _ _ _ _ tif => bool_decide (tif ≠ FOK)
     | Cancel _ => true
     | Modify id _ new_quantity =>
         match new_quantity, OrderBook.get_order id st.2 with
         | Some q, Some p =>
             match st.1 !! p with
             | Some o => bool_decide (Order.executed_quantity_ o < q)
             | None => true
             end
         | _, _ => true
         end
     end.

(** [run_ops] that also checks each operation before it runs it. *)
Fixpoint run_checked (check : heap * OrderBook.t → Op → bool) (fuel : nat)
    (st : heap * OrderBook.t) (ops : list Op) : option (heap * OrderBook.t) :=
  match ops with
  | [] => Some st
  | op :: ops' =>
      if check st op
      then st1 ← run_op fuel st op; run_checked check fuel st1 ops'
      else None
  end.

(** Fuel that is enough for any walk over the book. *)
Definition enough_fuel (b : OrderBook.t) : nat :=
  S (length (OrderBook.bid_levels_ b) + length (OrderBook.ask_levels_ b)
     + length (book_ptrs b)).

(** *** The kind of order that rests

    What holds of every resting order in any run of valid operations: it is
    a LIMIT order, not IOC, at a positive price. *)
Definition limit_order (o : Order.t) : Prop :=
  Order.type_ o = LIMIT ∧ Order.time_in_force_ o ≠ IOC ∧ 0 < Order.price_ o.

(** *** Two more invariants of the book *)

(** Every price level of the book queues at least one order. *)
Definition levels_nonempty (b : OrderBook.t) : Prop :=
  ∀ s, Forall (λ kl, PriceLevel.orders_ kl.2 ≠ [])
         (OrderBook.side_levels s b).

(** Every bid price is below every ask price. *)
Definition uncrossed (b : OrderBook.t) : Prop :=
  ∀ kb ka, kb ∈ (OrderBook.bid_levels_ b).*1 →
           ka ∈ (OrderBook.ask_levels_ b).*1 → kb < ka.

(** *** Matches

    [m] is a match of the taker with id [tid] against an order that the
    levels [lv] queue, at that order's price, which [past] lets through. *)
Definition match_against (h : heap) (lv : list (Price * PriceLevel.t))
    (past : Price → bool) (tid : OrderId) (m : OrderBook.OrderMatch) : Prop :=
  OrderBook.taker_order_id m = tid
  ∧ 0 < OrderBook.match_quantity m
  ∧ past (OrderBook.match_price m) = false
  ∧ ∃ p o, p ∈ level_ptrs lv ∧ h !! p = Some o
           ∧ OrderBook.maker_order_id m = Order.id_ o
           ∧ OrderBook.match_price m = Order.price_ o.

Definition matched_quantity (ms : list OrderBook.OrderMatch) : Quantity :=
  sumZ (OrderBook.match_quantity <$> ms).

(** *** Price-time priority

    The allocation that price-time priority prescribes for a quantity
    [remaining_qty] over the queue [ps], taken from the front: each order
    gets the smaller of what is left and its own remaining quantity, an
    order with nothing remaining is passed over, and the walk ends when
    nothing is left. *)
Fixpoint priority_fill (h : heap) (remaining_qty : Quantity) (ps : list ptr)
    : list (ptr * Quantity) :=
  match ps with
  | [] => []
  | p :: ps' =>
      if decide (remaining_qty > 0) then
        let x := Z.min remaining_qty (remaining_at h p) in
        if decide (x > 0)
        then (p, x) :: priority_fill h (remaining_qty - x) ps'
        else priority_fill h remaining_qty ps'
      else []
  end.

(** The levels, best first, up to the first one whose price fails the
    incoming order's price test. *)
Fixpoint within_limit (past : Price → bool) (lv : list (Price * PriceLevel.t))
    : list (Price * PriceLevel.t) :=
  match lv with
  | [] => []
  | (k, l) :: rest => if past k then [] else (k, l) :: within_limit past rest
  end.

(** The match record of the maker [pq.1] for the quantity [pq.2]. *)
Definition match_of (h : heap) (tid : OrderId) (pq : ptr * Quantity)
    (m : OrderBook.OrderMatch) : Prop :=
  ∃ o, h !! pq.1 = Some o
       ∧ m = OrderBook.mkMatch (Order.id_ o) tid (Order.price_ o) pq.2.

(** The price test of the walk that [add_order] starts for an order of
    type [ty]: the limit test for a LIMIT order, none for a MARKET order;
    an order of another type walks no level. *)
Definition price_test (ty : OrderType) (s : Side) (k : Price)
    : Price → bool :=
  match ty with
  | LIMIT => OrderBook.past_limit s k
  | MARKET => λ _, false
  | _ => λ _, true
  end.

(** *** Valid operations that leave no dead order on the book

    Two kinds of valid operation leave on the book an order that is not
    live: the submit of a LIMIT FOK order that is not filled whole, which
    the code cancels and rests all the same, and a modify without a price
    that sets the quantity of a resting order to exactly what the order has
    executed, which leaves it resting with nothing remaining.
    [valid_op_live] leaves out these two and nothing else. *)

(** The best level of the side opposite to [s] is within the limit [k] and
    holds the quantity [q].  This is what fills a FOK order whole: its walk
    ends after the first level that it takes from. *)
Definition fok_fillable (b : OrderBook.t) (s : Side) (k : Price)
    (q : Quantity) : Prop :=
  match OrderBook.side_levels (OrderBook.opposite s) b with
  | [] => False
  | (k0, l0) :: _ =>
      OrderBook.past_limit s k k0 = false ∧ q ≤ PriceLevel.total_quantity_ l0
  end.

Definition valid_op_live (h : heap) (b : OrderBook.t) (op : Op) : Prop :=
  valid_op h b op
  ∧ match op with
    | Submit _ _ s type q k tif =>
        type = LIMIT → tif = FOK → fok_fillable b s k q
    | Cancel _ => True
    | Modify id new_price new_quantity =>
        ∀ q p o, new_price = None → new_quantity = Some q →
          OrderBook.get_order id b = Some p → resting h b p o →
          q ≠ Order.executed_quantity_ o
    end.

Definition fok_fillableb (b : OrderBook.t) (s : Side) (k : Price)
    (q : Quantity) : bool :=
  match OrderBook.side_levels (OrderBook.opposite s) b with
  | [] => false
  | (k0, l0) :: _ =>
      negb (OrderBook.past_limit s k k0)
      && bool_decide (q ≤ PriceLevel.total_quantity_ l0)
  end.

Definition valid_op_liveb (st : heap * OrderBook.t) (op : Op) : bool :=
  valid_opb st op
  && match op with
     | Submit _ _ s type q k tif =>
         if bool_decide (type = LIMIT) && bool_decide (tif = FOK)
         then fok_fillableb st.2 s k q
         else true
     | Cancel _ => true
     | Modify id new_price new_quantity =>
         match new_price, new_quantity, OrderBook.get_order id st.2 with
         | None, Some q, Some p =>
             match st.1 !! p with
             | Some o =>
                 if bool_decide (p ∈ book_ptrs st.2)
                 then bool_decide (q ≠ Order.executed_quantity_ o)
                 else true
             | None => true
             end
         | _, _, _ => true
         end
     end.

(** * Lemmas *)

(** ** Wrap-around *)

Lemma wrap64_small (z : Z) : int64_min ≤ z ≤ int64_max → wrap64 z = z.
Proof.
  unfold wrap64, int64_min, int64_max.
  change (2 ^ 63) with 9223372036854775808.
  change (2 ^ 64) with 18446744073709551616.
  intros Hz. rewrite Z.mod_small by lia. lia.
Qed.

Lemma wrap64_over (z : Z) :
  int64_max < z ≤ 2 * int64_max → wrap64 z = z - 2 ^ 64.
Proof.
  unfold wrap64, int64_max.
  change (2 ^ 63) with 9223372036854775808.
  change (2 ^ 64) with 18446744073709551616.
  intros Hz.
  replace (z + 9223372036854775808)
    with (z - 9223372036854775808 + 1 * 18446744073709551616) by lia.
  rewrite Z_mod_plus_full, Z.mod_small by lia. lia.
Qed.

(** ** Numeric formatting *)

Lemma app_String (c : ascii) (s t : string) :
  String c s +:+ t = String c (s +:+ t).
Proof. reflexivity. Qed.

Lemma app_EmptyString (t : string) : "" +:+ t = t.
Proof. reflexivity. Qed.

Lemma pretty_N_char_digit (d : N) :
  (d < 10)%N → pretty_N_char d = digit_char (Z.of_N d).
Proof.
  intros Hd.
  assert (d = 0 ∨ d = 1 ∨ d = 2 ∨ d = 3 ∨ d = 4 ∨ d = 5 ∨ d = 6 ∨ d = 7
          ∨ d = 8 ∨ d = 9)%N as Hc by lia.
  repeat (destruct Hc as [->|Hc]; [reflexivity|]). by subst.
Qed.

Lemma digit_char_eq (a b : Z) : a = b → digit_char a = digit_char b.
Proof. by intros ->. Qed.

Local Ltac digits_eq :=
  try change "0"%char with (digit_char 0);
  try apply digit_char_eq; zify; Z.to_euclidean_division_equations; lia.

Local Ltac padded :=
  rewrite pretty_N_go_0; unfold setw_setfill; cbn;
  rewrite ?app_String, app_EmptyString;
  rewrite !pretty_N_char_digit by done;
  repeat f_equal; digits_eq.

Lemma setw_setfill_four_digits (f : Z) :
  0 ≤ f < 10000 → setw_setfill 4 "0" (pretty f) = four_digits f.
Proof.
  intros Hf.
  destruct (decide (f = 0)) as [->|Hne]; [reflexivity|].
  assert (Hp : pretty f = pretty_N_go (Z.to_N f) "").
  { destruct f as [|p|p]; [done| |lia].
    unfold pretty, pretty_Z, pretty, pretty_positive, pretty, pretty_N.
    by rewrite decide_False. }
  rewrite Hp. remember (Z.to_N f) as n eqn:Hn.
  assert (f = Z.of_N n) as -> by lia. clear Hn Hp.
  assert (Hd : ∀ m : N, (m `mod` 10 < 10)%N) by (intros; apply N.mod_lt; lia).
  unfold four_digits.
  rewrite pretty_N_go_step by lia.
  remember (n `div` 10)%N as n1 eqn:Hn1.
  destruct (decide (n1 = 0%N)) as [E1|E1]; [rewrite E1 in *; padded|].
  rewrite pretty_N_go_step by (by apply N.neq_0_lt_0).
  remember (n1 `div` 10)%N as n2 eqn:Hn2.
  destruct (decide (n2 = 0%N)) as [E2|E2]; [rewrite E2 in *; padded|].
  rewrite pretty_N_go_step by (by apply N.neq_0_lt_0).
  remember (n2 `div` 10)%N as n3 eqn:Hn3.
  destruct (decide (n3 = 0%N)) as [E3|E3]; [rewrite E3 in *; padded|].
  rewrite pretty_N_go_step by (by apply N.neq_0_lt_0).
  assert (E4 : (n3 `div` 10 = 0)%N)
    by (zify; Z.to_euclidean_division_equations; lia).
  rewrite E4. padded.
Qed.

(** ** Sums *)

Lemma sumZ_cons (x : Z) (l : list Z) : sumZ (x :: l) = x + sumZ l.
Proof. done. Qed.

Lemma sumZ_app (l1 l2 : list Z) : sumZ (l1 ++ l2) = sumZ l1 + sumZ l2.
Proof.
  induction l1 as [|x l1 IH]; [done|].
  rewrite <- app_comm_cons, !sumZ_cons, IH. lia.
Qed.

Lemma sum_remaining_nil (h : heap) : sum_remaining h [] = 0.
Proof. done. Qed.

Lemma sum_remaining_cons (h : heap) (p : ptr) (ps : list ptr) :
  sum_remaining h (p :: ps) = remaining_at h p + sum_remaining h ps.
Proof. done. Qed.

Lemma sum_remaining_app (h : heap) (ps qs : list ptr) :
  sum_remaining h (ps ++ qs) = sum_remaining h ps + sum_remaining h qs.
Proof. unfold sum_remaining. by rewrite fmap_app, sumZ_app. Qed.

Lemma sum_remaining_frame (h h' : heap) (ps : list ptr) :
  (∀ p, p ∈ ps → h' !! p = h !! p) →
  sum_remaining h' ps = sum_remaining h ps.
Proof.
  induction ps as [|p ps IH]; intros Hfr; [done|].
  rewrite !sum_remaining_cons, IH.
  - unfold remaining_at. rewrite Hfr; [done|]. apply list_elem_of_here.
  - intros q Hq. apply Hfr. by apply list_elem_of_further.
Qed.

Lemma remaining_at_lookup (h : heap) (p : ptr) (o : Order.t) :
  h !! p = Some o → remaining_at h p = Order.remaining_quantity o.
Proof. unfold remaining_at. by intros ->. Qed.

Lemma level_totals_app (l1 l2 : list (Price * PriceLevel.t)) :
  level_totals (l1 ++ l2) = level_totals l1 + level_totals l2.
Proof. unfold level_totals. by rewrite fmap_app, sumZ_app. Qed.

Lemma level_totals_cons (k : Price) (l : PriceLevel.t)
    (lv : list (Price * PriceLevel.t)) :
  level_totals ((k, l) :: lv) = PriceLevel.total_quantity_ l + level_totals lv.
Proof. done. Qed.

Lemma level_ptrs_app (l1 l2 : list (Price * PriceLevel.t)) :
  level_ptrs (l1 ++ l2) = level_ptrs l1 ++ level_ptrs l2.
Proof. unfold level_ptrs. by rewrite fmap_app, concat_app. Qed.

Lemma level_ptrs_cons (k : Price) (l : PriceLevel.t)
    (lv : list (Price * PriceLevel.t)) :
  level_ptrs ((k, l) :: lv) = PriceLevel.orders_ l ++ level_ptrs lv.
Proof. done. Qed.

Lemma elem_of_level_ptrs (p : ptr) (lv : list (Price * PriceLevel.t)) :
  p ∈ level_ptrs lv ↔ ∃ k l, (k, l) ∈ lv ∧ p ∈ PriceLevel.orders_ l.
Proof.
  induction lv as [|[k l] lv IH].
  - split; [by intros ?%elem_of_nil|]. by intros (? & ? & ?%elem_of_nil & _).
  - rewrite level_ptrs_cons, elem_of_app, IH. split.
    + intros [Hp|(k' & l' & Hin & Hp)].
      * exists k, l. split; [apply list_elem_of_here|done].
      * exists k', l'. split; [by apply list_elem_of_further|done].
    + intros (k' & l' & Hin & Hp).
      apply elem_of_cons in Hin as [[= -> ->]|Hin]; [by left|].
      right. eauto.
Qed.

(** ** The queue of a level *)

Lemma list_erase_notin (p : ptr) (l : list ptr) :
  p ∉ l → list_erase p l = l.
Proof.
  induction l as [|x l IH]; [done|]. intros Hp. cbn.
  rewrite decide_False by (intros ->; apply Hp, list_elem_of_here).
  f_equal. apply IH. intros ?. by apply Hp, list_elem_of_further.
Qed.

Lemma list_erase_middle (p : ptr) (l1 l2 : list ptr) :
  p ∉ l1 → list_erase p (l1 ++ p :: l2) = l1 ++ l2.
Proof.
  induction l1 as [|x l1 IH]; intros Hp; cbn.
  - by rewrite decide_True.
  - rewrite decide_False by (intros ->; apply Hp, list_elem_of_here).
    f_equal. apply IH. intros ?. by apply Hp, list_elem_of_further.
Qed.

(** ** std::map *)

Lemma find_None {V} (k : Price) (m : list (Price * V)) :
  PriceMap.find k m = None ↔ k ∉ m.*1.
Proof.
  induction m as [|[k' v] m IH]; cbn.
  - split; [intros _ ?%elem_of_nil; done|done].
  - case_decide as Hk.
    + subst. split; [done|]. intros Hn. destruct Hn. apply list_elem_of_here.
    + rewrite IH, not_elem_of_cons. intuition congruence.
Qed.

Lemma find_split {V} (k : Price) (v : V) (m : list (Price * V)) :
  PriceMap.find k m = Some v →
  ∃ m1 m2, m = m1 ++ (k, v) :: m2 ∧ k ∉ m1.*1.
Proof.
  induction m as [|[k' v'] m IH]; cbn; [done|].
  case_decide as Hk.
  - intros [= ->]. subst. exists [], m. split; [done|]. by intros ?%elem_of_nil.
  - intros Hf. destruct (IH Hf) as (m1 & m2 & -> & Hn).
    exists ((k', v') :: m1), m2.
    split; [done|]. cbn. rewrite not_elem_of_cons. by split.
Qed.

Lemma find_middle {V} (k : Price) (v : V) (m1 m2 : list (Price * V)) :
  k ∉ m1.*1 → PriceMap.find k (m1 ++ (k, v) :: m2) = Some v.
Proof.
  induction m1 as [|[k' v'] m1 IH]; cbn; intros Hn.
  - by rewrite decide_True.
  - apply not_elem_of_cons in Hn as [? ?]. rewrite decide_False by done. auto.
Qed.

Lemma set_middle {V} (k : Price) (v v' : V) (m1 m2 : list (Price * V)) :
  k ∉ m1.*1 →
  PriceMap.set k v' (m1 ++ (k, v) :: m2) = m1 ++ (k, v') :: m2.
Proof.
  induction m1 as [|[k1 v1] m1 IH]; cbn; intros Hn.
  - by rewrite decide_True.
  - apply not_elem_of_cons in Hn as [? ?]. rewrite decide_False by done.
    f_equal. auto.
Qed.

Lemma erase_middle {V} (k : Price) (v : V) (m1 m2 : list (Price * V)) :
  k ∉ m1.*1 → PriceMap.erase k (m1 ++ (k, v) :: m2) = m1 ++ m2.
Proof.
  induction m1 as [|[k1 v1] m1 IH]; cbn; intros Hn.
  - by rewrite decide_True.
  - apply not_elem_of_cons in Hn as [? ?]. rewrite decide_False by done.
    f_equal. auto.
Qed.

Lemma set_find_id {V} (k : Price) (v : V) (m : list (Price * V)) :
  PriceMap.find k m = Some v → PriceMap.set k v m = m.
Proof.
  intros (m1 & m2 & -> & Hn)%find_split. by apply set_middle.
Qed.

(** ** Orders and the heap *)

Lemma static_eq_refl (o : Order.t) : static_eq o o.
Proof. by repeat split. Qed.

Lemma static_eq_trans (o1 o2 o3 : Order.t) :
  static_eq o1 o2 → static_eq o2 o3 → static_eq o1 o3.
Proof. unfold static_eq. intuition congruence. Qed.

Lemma static_eq_set_status (s : OrderStatus) (o : Order.t) :
  static_eq o (Order.set_status s o).
Proof. by repeat split. Qed.

Lemma static_eq_set_quantity (q : Quantity) (o : Order.t) :
  static_eq o (Order.set_quantity q o).
Proof. by repeat split. Qed.

Lemma static_eq_execute (q : Quantity) (o : Order.t) :
  static_eq o (Order.execute q o).
Proof. unfold Order.execute. repeat case_decide; by repeat split. Qed.

Lemma static_eq_cancel (o : Order.t) : static_eq o (Order.cancel o).
Proof. unfold Order.cancel. destruct (Order.is_active o); by repeat split. Qed.

Lemma heap_le_refl (h : heap) : heap_le h h.
Proof. intros p o Hp. exists o. split; [done|apply static_eq_refl]. Qed.

Lemma heap_le_trans (h1 h2 h3 : heap) :
  heap_le h1 h2 → heap_le h2 h3 → heap_le h1 h3.
Proof.
  intros H12 H23 p o Hp.
  destruct (H12 p o Hp) as (o2 & Hp2 & He2).
  destruct (H23 p o2 Hp2) as (o3 & Hp3 & He3).
  exists o3. split; [done|]. by eapply static_eq_trans.
Qed.

Lemma heap_le_insert (h : heap) (p : ptr) (o o' : Order.t) :
  h !! p = Some o → static_eq o o' → heap_le h (<[p := o']> h).
Proof.
  intros Hp He q oq Hq. destruct (decide (q = p)) as [->|Hne].
  - exists o'. rewrite list_lookup_insert_eq by (by eapply lookup_lt_Some).
    split; [done|]. congruence.
  - exists oq. rewrite list_lookup_insert_ne by done.
    split; [done|apply static_eq_refl].
Qed.

Lemma heap_le_alloc (h : heap) (o : Order.t) : heap_le h (h ++ [o]).
Proof.
  intros p op Hp. exists op. split; [|apply static_eq_refl].
  by apply lookup_app_l_Some.
Qed.

Lemma heap_le_is_Some (h h' : heap) (p : ptr) :
  heap_le h h' → is_Some (h !! p) → is_Some (h' !! p).
Proof. intros Hle [o Hp]. destruct (Hle p o Hp) as (o' & ? & _). eauto. Qed.

(** What [Order::execute] leaves behind, whatever it is asked. *)
Lemma execute_spec (q : Quantity) (o : Order.t) :
  Order.quantity_ (Order.execute q o) = Order.quantity_ o
  ∧ Order.remaining_quantity (Order.execute q o)
    = Order.remaining_quantity o - Z.min q (Order.remaining_quantity o)
  ∧ 0 ≤ Order.remaining_quantity (Order.execute q o)
  ∧ (Order.status_ (Order.execute q o) = FILLED →
     Order.status_ o = FILLED
     ∨ Order.remaining_quantity (Order.execute q o) = 0)
  ∧ (Order.remaining_quantity (Order.execute q o) = 0 →
     Order.status_ (Order.execute q o) = FILLED).
Proof.
  destruct o as [i sy sd ty qt e p tif st].
  unfold Order.execute, Order.remaining_quantity, ZERO; cbn.
  repeat (case_decide; cbn in * ); repeat split; intros;
    first [lia | discriminate | reflexivity | by left | right; lia].
Qed.

Lemma is_filled_true (o : Order.t) :
  Order.status_ o ≠ FILLED →
  Order.is_filled o = true → Order.remaining_quantity o = 0.
Proof.
  unfold Order.is_filled, Order.remaining_quantity. intros Hst.
  rewrite orb_true_iff, !bool_decide_eq_true. intros [?|?]; [lia|done].
Qed.

Lemma is_filled_false (o : Order.t) :
  Order.is_filled o = false →
  Order.status_ o ≠ FILLED ∧ Order.remaining_quantity o ≠ 0.
Proof.
  unfold Order.is_filled, Order.remaining_quantity.
  rewrite orb_false_iff, !bool_decide_eq_false. intros [? ?]. split; [done|lia].
Qed.

(** ** PriceLevel::execute_quantity *)

Section level_lemmas.
Context (P : Order.t → Prop) (idx : gmap OrderId ptr) (s : Side).

Lemma order_ok_change (h h' : heap) (l l' : PriceLevel.t) (p : ptr) :
  order_ok P h idx s l p →
  h' !! p = h !! p →
  PriceLevel.price_ l' = PriceLevel.price_ l →
  (∀ o, h !! p = Some o →
     PriceLevel.order_map_ l !! Order.id_ o = Some p →
     PriceLevel.order_map_ l' !! Order.id_ o = Some p) →
  order_ok P h' idx s l' p.
Proof.
  intros (o & Hp & Hpr & Hs & Hm & Hi & Hr & Hst & HP) Hfr Hprice Hmap.
  exists o. rewrite Hfr, Hprice. repeat split; auto.
Qed.

Lemma level_ok_frame (h h' : heap) (kl : Price * PriceLevel.t) :
  level_ok P h idx s kl →
  (∀ p, p ∈ PriceLevel.orders_ kl.2 → h' !! p = h !! p) →
  level_ok P h' idx s kl.
Proof.
  intros (Hpr & Htot & Hall & Hmap) Hfr. split_and!.
  - done.
  - rewrite Htot. symmetry. by apply sum_remaining_frame.
  - rewrite Forall_forall in Hall |- *. intros p Hp.
    eapply order_ok_change; eauto.
  - intros i p H. destruct (Hmap i p H) as [Hin (o & Ho & Hid)].
    split; [done|]. exists o. by rewrite Hfr.
Qed.

Lemma execute_body_ok (h h1 : heap) (rem rem1 : Quantity)
    (l l1 : PriceLevel.t) (ex ex1 : list (ptr * Quantity))
    (order : ptr) (rest : list ptr) (o : Order.t) :
  exec_stable P →
  level_ok P h idx s (PriceLevel.price_ l, l) →
  NoDup (PriceLevel.orders_ l) →
  PriceLevel.orders_ l = order :: rest →
  h !! order = Some o →
  rem > 0 →
  PriceLevel.execute_body h rem l ex order rest o = (h1, rem1, l1, ex1) →
  level_ok P h1 idx s (PriceLevel.price_ l, l1)
  ∧ PriceLevel.price_ l1 = PriceLevel.price_ l
  ∧ (PriceLevel.orders_ l1 = rest
     ∨ PriceLevel.orders_ l1 = PriceLevel.orders_ l ∧ rem1 ≤ 0)
  ∧ (∀ p, p ∉ PriceLevel.orders_ l → h1 !! p = h !! p)
  ∧ heap_le h h1
  ∧ PriceLevel.total_quantity_ l1 + sumZ ex1.*2
    = PriceLevel.total_quantity_ l + sumZ ex.*2
  ∧ rem1 + sumZ ex1.*2 = rem + sumZ ex.*2
  ∧ (∃ new, ex1 = ex ++ new ∧ Forall (λ pq, pq.1 = order) new).
Proof.
  intros Hstable (Hpr & Htot & Hall & Hmap) Hnd Hq Ho Hrem Hbody.
  cbn in Hpr, Htot, Hall, Hmap.
  rewrite Hq in Hall, Hnd, Htot.
  apply Forall_cons in Hall as [Hord Hrest].
  apply NoDup_cons in Hnd as [Hnin Hnd].
  destruct Hord as (o' & Ho' & Hopr & Hos & Hom & Hoi & Hor & Host & HoP).
  rewrite Ho in Ho'. injection Ho' as <-.
  rewrite sum_remaining_cons, (remaining_at_lookup _ _ _ Ho) in Htot.
  unfold PriceLevel.execute_body in Hbody.
  set (exec_qty := if decide (rem < Order.remaining_quantity o)
                   then rem else Order.remaining_quantity o) in *.
  assert (Hle : exec_qty ≤ Order.remaining_quantity o)
    by (unfold exec_qty; destruct (decide (rem < Order.remaining_quantity o)); lia).
  assert (Hle' : exec_qty ≤ rem) by (unfold exec_qty; destruct (decide (rem < Order.remaining_quantity o)); lia).
  (* the object after the turn, and what the turn did to the counters *)
  assert (∃ o1 e,
    h1 = <[order := o1]> h ∧ static_eq o o1
    ∧ 0 ≤ e ∧ e ≤ Order.remaining_quantity o
    ∧ Order.remaining_quantity o1 = Order.remaining_quantity o - e
    ∧ rem1 = rem - e
    ∧ (Order.is_filled o1 = true → Order.remaining_quantity o1 = 0)
    ∧ (Order.is_filled o1 = false → Order.status_ o1 ≠ FILLED ∧ P o1
                                     ∧ rem1 ≤ 0)
    ∧ (∃ new, ex1 = ex ++ new ∧ Forall (λ pq, pq.1 = order) new
              ∧ sumZ ex1.*2 = sumZ ex.*2 + e)
    ∧ l1 = (if Order.is_filled o1
            then PriceLevel.mk (PriceLevel.price_ l)
                   (PriceLevel.total_quantity_ l - e) rest
                   (delete (Order.id_ o1) (PriceLevel.order_map_ l))
            else PriceLevel.mk (PriceLevel.price_ l)
                   (PriceLevel.total_quantity_ l - e) (PriceLevel.orders_ l)
                   (PriceLevel.order_map_ l)))
    as (o1 & e & -> & Hse & He0 & Hee & Hr1 & -> & Hf1 & Hf0 & Hnew & ->).
  { unfold ZERO in Hbody. destruct (decide (exec_qty > 0)) as [Hpos|Hnpos].
    - injection Hbody as <- <- <- <-.
      destruct (execute_spec exec_qty o) as (Hq1 & Hr1 & Hr0 & Hs1 & Hs2).
      rewrite Z.min_l in Hr1 by lia.
      exists (Order.execute exec_qty o), exec_qty.
      split_and!; try done; try lia.
      + apply static_eq_execute.
      + intros Hfl. unfold Order.is_filled in Hfl.
        rewrite orb_true_iff, !bool_decide_eq_true in Hfl.
        destruct Hfl as [Hfl|Hfl].
        * unfold Order.remaining_quantity. lia.
        * by destruct (Hs1 Hfl).
      + intros H. split_and!.
        * by apply is_filled_false.
        * apply Hstable; auto; lia.
        * apply is_filled_false in H as [_ Hne].
          unfold exec_qty in *. destruct (decide (rem < Order.remaining_quantity o)); lia.
      + exists [(order, exec_qty)]. split_and!.
        * done.
        * by apply Forall_singleton.
        * rewrite fmap_app, sumZ_app.
          change (sumZ [(order, exec_qty)].*2) with (exec_qty + 0). lia.
    - injection Hbody as <- <- <- <-.
      assert (Hz : Order.remaining_quantity o = 0)
        by (unfold exec_qty; destruct (decide (rem < Order.remaining_quantity o)); lia).
      exists o, 0. split_and!; try done; try lia.
      + intros H. by apply is_filled_false in H as [? ?].
      + exists []. rewrite app_nil_r. split_and!; [done|done|lia].
      + by rewrite !Z.sub_0_r. }
  assert (Hfr : ∀ p, p ∉ PriceLevel.orders_ l → <[order := o1]> h !! p = h !! p).
  { intros p Hp. apply list_lookup_insert_ne. intros <-. apply Hp.
    rewrite Hq. apply list_elem_of_here. }
  assert (Hfr' : ∀ p, p ∈ rest → <[order := o1]> h !! p = h !! p).
  { intros p Hp. apply list_lookup_insert_ne. by intros <-. }
  assert (Hlk : <[order := o1]> h !! order = Some o1).
  { apply list_lookup_insert_eq. by eapply lookup_lt_Some. }
  destruct Hse as (Hid & Hsd & Hprc & Hty & Htif).
  destruct Hnew as (new & Hex & Hnew & Hsum).
  destruct (Order.is_filled o1) eqn:Hfilled.
  - (* the head is filled and popped *)
    specialize (Hf1 eq_refl).
    split_and!; cbn; [|done|by left|done|by eapply heap_le_insert|lia|lia
                      |by exists new].
    unfold level_ok; cbn. split_and!; [done|..].
    + rewrite (sum_remaining_frame h) by done. lia.
    + rewrite Forall_forall in Hrest |- *. intros p Hp.
      eapply order_ok_change; [by apply Hrest|by apply Hfr'|done|].
      cbn. intros op Hop Hmp. rewrite lookup_delete_ne; [done|].
      intros Heq. rewrite Hid, Heq in Hom. rewrite Hom in Hmp.
      injection Hmp as <-. done.
    + intros i p H. destruct (decide (i = Order.id_ o1)) as [->|Hne].
      { by rewrite lookup_delete_eq in H. }
      rewrite lookup_delete_ne in H by done.
      destruct (Hmap i p H) as [Hin (o' & Ho' & Hid')].
      rewrite Hq in Hin.
      apply elem_of_cons in Hin as [->|Hin]; [congruence|].
      split; [done|]. exists o'. by rewrite Hfr'.
  - (* the head stays: the request is exhausted *)
    destruct (Hf0 eq_refl) as (Hst1 & HP1 & Hrem1).
    split_and!; cbn; [|done|right; split; [done|lia]|done
                      |by eapply heap_le_insert|lia|lia|by exists new].
    unfold level_ok; cbn. split_and!; [done|..].
    + rewrite Hq, sum_remaining_cons, (remaining_at_lookup _ _ _ Hlk).
      rewrite (sum_remaining_frame h) by done. lia.
    + rewrite Hq. apply Forall_cons. split.
      * exists o1. split_and!; try done; try congruence; try lia.
        { cbn. by rewrite <- Hprc. }
        { cbn. by rewrite <- Hid. }
      * rewrite Forall_forall in Hrest |- *. intros p Hp.
        eapply order_ok_change; [by apply Hrest|by apply Hfr'|done|done].
    + intros i p H. destruct (Hmap i p H) as [Hin (o' & Ho' & Hid')].
      split; [done|]. destruct (decide (p = order)) as [->|Hne].
      * exists o1. split; [done|]. congruence.
      * exists o'. by rewrite list_lookup_insert_ne.
Qed.

End level_lemmas.

Section level_loop.
Context (P : Order.t → Prop) (idx : gmap OrderId ptr) (s : Side).
Hypothesis Hstable : exec_stable P.

Lemma execute_loop_ok (fuel : nat) :
  ∀ (h : heap) (rem : Quantity) (l : PriceLevel.t)
    (ex : list (ptr * Quantity)) h' l' ex',
  PriceLevel.execute_loop fuel h rem l ex = Some (h', l', ex') →
  level_ok P h idx s (PriceLevel.price_ l, l) →
  NoDup (PriceLevel.orders_ l) →
  level_ok P h' idx s (PriceLevel.price_ l, l')
  ∧ (∃ popped, PriceLevel.orders_ l = popped ++ PriceLevel.orders_ l')
  ∧ (∀ p, p ∉ PriceLevel.orders_ l → h' !! p = h !! p)
  ∧ heap_le h h'
  ∧ (∃ new, ex' = ex ++ new
            ∧ Forall (λ pq, pq.1 ∈ PriceLevel.orders_ l) new
            ∧ PriceLevel.total_quantity_ l'
              = PriceLevel.total_quantity_ l - sumZ new.*2
            ∧ (PriceLevel.orders_ l' = [] ∨ rem - sumZ new.*2 ≤ 0)).
Proof.
  assert (Hstop : ∀ (h : heap) rem l (ex : list (ptr * Quantity)),
    level_ok P h idx s (PriceLevel.price_ l, l) →
    PriceLevel.orders_ l = [] ∨ rem ≤ 0 →
    level_ok P h idx s (PriceLevel.price_ l, l)
    ∧ (∃ popped, PriceLevel.orders_ l = popped ++ PriceLevel.orders_ l)
    ∧ (∀ p, p ∉ PriceLevel.orders_ l → h !! p = h !! p)
    ∧ heap_le h h
    ∧ (∃ new, ex = ex ++ new
              ∧ Forall (λ pq, pq.1 ∈ PriceLevel.orders_ l) new
              ∧ PriceLevel.total_quantity_ l
                = PriceLevel.total_quantity_ l - sumZ new.*2
              ∧ (PriceLevel.orders_ l = [] ∨ rem - sumZ new.*2 ≤ 0))).
  { intros h rem l ex Hok Hexit. split_and!; [done|by exists []|done
      |apply heap_le_refl|].
    exists []. rewrite app_nil_r. split_and!; [done|done|..].
    - change (sumZ ([] : list (ptr * Quantity)).*2) with 0. lia.
    - change (sumZ ([] : list (ptr * Quantity)).*2) with 0.
      destruct Hexit; [by left|right; lia]. }
  induction fuel as [|fuel IH]; intros h rem l ex h' l' ex' Hrun Hok Hnd.
  - destruct l as [pr tot [|order rest] mp]; cbn in Hrun.
    + injection Hrun as <- <- <-. apply Hstop; auto.
    + unfold ZERO in Hrun. case_decide; [done|].
      injection Hrun as <- <- <-. apply Hstop; [done|right; lia].
  - destruct l as [pr tot [|order rest] mp]; cbn in Hrun.
    + injection Hrun as <- <- <-. apply Hstop; auto.
    + unfold ZERO in Hrun. case_decide as Hrem; cycle 1.
      { injection Hrun as <- <- <-. apply Hstop; [done|right; lia]. }
      destruct (h !! order) as [o|] eqn:Ho; [|done]. cbn in Hrun.
      set (l := PriceLevel.mk pr tot (order :: rest) mp) in *.
      assert (Hq : PriceLevel.orders_ l = order :: rest) by done.
      destruct (PriceLevel.execute_body h rem l ex order rest o)
        as [[[h1 rem1] l1] ex1] eqn:Hbody.
      destruct (execute_body_ok P idx s _ _ _ _ _ _ _ _ _ _ _
                  Hstable Hok Hnd Hq Ho Hrem Hbody)
        as (Hok1 & Hpr1 & Hq1 & Hfr1 & Hle1 & Htot1 & Hrem1 & new1 & -> & Hnew1).
      assert (Hsub : ∀ p, p ∈ PriceLevel.orders_ l1 → p ∈ PriceLevel.orders_ l).
      { intros p Hp. destruct Hq1 as [Hq1|[Hq1 _]]; rewrite Hq1 in Hp.
        - rewrite Hq. by apply list_elem_of_further.
        - done. }
      assert (Hnd1 : NoDup (PriceLevel.orders_ l1)).
      { destruct Hq1 as [Hq1|[Hq1 _]]; rewrite Hq1; [|done].
        rewrite Hq in Hnd. by apply NoDup_cons in Hnd as [_ ?]. }
      rewrite <- Hpr1 in Hok1.
      destruct (IH _ _ _ _ _ _ _ Hrun Hok1 Hnd1)
        as (Hok' & (popped & Hpop) & Hfr' & Hle' & new & -> & Hnew & Htot' & Hexit).
      rewrite Hpr1 in Hok'.
      rewrite fmap_app, sumZ_app in Htot1, Hrem1.
      split_and!.
      * done.
      * destruct Hq1 as [Hq1|[Hq1 _]]; rewrite Hq1 in Hpop.
        -- exists (order :: popped). rewrite Hq, Hpop. done.
        -- by exists popped.
      * intros p Hp. rewrite Hfr', Hfr1; [done|done|]. intros ?. by apply Hp, Hsub.
      * by eapply heap_le_trans.
      * exists (new1 ++ new). rewrite fmap_app, sumZ_app, app_assoc.
        split_and!; [done| |lia|destruct Hexit; [by left|right; lia]].
        apply Forall_app. split.
        -- eapply Forall_impl; [done|]. intros pq ->. rewrite Hq.
           apply list_elem_of_here.
        -- eapply Forall_impl; [done|]. intros pq Hp. by apply Hsub.
Qed.

Lemma execute_quantity_ok (fuel : nat) (h : heap) (q : Quantity)
    (l : PriceLevel.t) h' l' ex :
  PriceLevel.execute_quantity fuel h q l = Some (h', l', ex) →
  level_ok P h idx s (PriceLevel.price_ l, l) →
  NoDup (PriceLevel.orders_ l) →
  level_ok P h' idx s (PriceLevel.price_ l, l')
  ∧ (∃ popped, PriceLevel.orders_ l = popped ++ PriceLevel.orders_ l')
  ∧ (∀ p, p ∉ PriceLevel.orders_ l → h' !! p = h !! p)
  ∧ heap_le h h'
  ∧ Forall (λ pq, pq.1 ∈ PriceLevel.orders_ l) ex
  ∧ PriceLevel.total_quantity_ l'
    = PriceLevel.total_quantity_ l - sumZ ex.*2
  ∧ (PriceLevel.orders_ l' = [] ∨ q - sumZ ex.*2 ≤ 0).
Proof.
  unfold PriceLevel.execute_quantity, ZERO. intros Hrun Hok Hnd.
  destruct (bool_decide (PriceLevel.orders_ l = [])
            || bool_decide (q ≤ 0)) eqn:Hearly.
  - injection Hrun as <- <- <-.
    change (sumZ ([] : list (ptr * Quantity)).*2) with 0.
    split_and!; [done|by exists []|done|apply heap_le_refl|done|lia|].
    apply orb_true_iff in Hearly as [Hb|Hb]; apply bool_decide_eq_true in Hb;
      [by left|right; lia].
  - destruct (execute_loop_ok _ _ _ _ _ _ _ _ Hrun Hok Hnd)
      as (Hok' & Hpop & Hfr & Hle & new & -> & Hnew & Htot & Hexit).
    by split_and!.
Qed.

End level_loop.

(** ** The matching loop *)

Lemma record_matches_spec (h : heap) (taker : ptr)
    (ex : list (ptr * Quantity)) :
  ∀ (ms : list OrderBook.OrderMatch) (rem total : Quantity) ms' rem' total',
  OrderBook.record_matches h taker ex ms rem total = Some (ms', rem', total') →
  rem' = rem - sumZ ex.*2 ∧ total' = total - sumZ ex.*2.
Proof.
  induction ex as [|[maker q] ex IH]; intros ms rem total ms' rem' total' Hrun.
  - injection Hrun as <- <- <-.
    change (sumZ ([] : list (ptr * Quantity)).*2) with 0. lia.
  - cbn in Hrun.
    destruct (OrderBook.create_match h maker taker q) as [m|]; [|done].
    cbn in Hrun. apply IH in Hrun as [-> ->].
    rewrite fmap_cons, sumZ_cons. cbn. lia.
Qed.

Lemma record_matches_total (h : heap) (taker : ptr)
    (ex : list (ptr * Quantity)) :
  is_Some (h !! taker) →
  Forall (λ pq, is_Some (h !! pq.1)) ex →
  ∀ (ms : list OrderBook.OrderMatch) (rem total : Quantity),
  is_Some (OrderBook.record_matches h taker ex ms rem total).
Proof.
  intros [t Ht]. induction ex as [|[maker q] ex IH]; intros Hall ms rem total.
  - by eexists.
  - apply Forall_cons in Hall as [[m Hm] Hall]. cbn in Hm. cbn.
    unfold OrderBook.create_match. rewrite Hm, Ht. cbn. by apply IH.
Qed.

Lemma keys_sorted_tail (s : Side) (kl : Price * PriceLevel.t)
    (lv : list (Price * PriceLevel.t)) :
  keys_sorted s (kl :: lv) → keys_sorted s lv.
Proof. unfold keys_sorted. rewrite fmap_cons. by intros [? ?]%StronglySorted_inv. Qed.

Lemma keys_sorted_head (s : Side) (k : Price) (l l' : PriceLevel.t)
    (lv : list (Price * PriceLevel.t)) :
  keys_sorted s ((k, l) :: lv) → keys_sorted s ((k, l') :: lv).
Proof. done. Qed.

Section match_loop.
Context (P : Order.t → Prop) (idx : gmap OrderId ptr) (s : Side).
Hypothesis Hstable : exec_stable P.

Lemma take_level_ok (fuel : nat) (taker : ptr) (h : heap) (price : Price)
    (level : PriceLevel.t) (rest : list (Price * PriceLevel.t))
    (total rem : Quantity) (ms : list OrderBook.OrderMatch)
    h1 lv1 total1 rem1 ms1 :
  OrderBook.take_level fuel taker h price level rest total rem ms
    = Some (h1, lv1, total1, rem1, ms1) →
  side_ok P h idx s ((price, level) :: rest) total →
  NoDup (level_ptrs ((price, level) :: rest)) →
  side_ok P h1 idx s lv1 total1
  ∧ NoDup (level_ptrs lv1)
  ∧ (∀ p, p ∈ level_ptrs lv1 → p ∈ level_ptrs ((price, level) :: rest))
  ∧ (∀ p, p ∉ level_ptrs ((price, level) :: rest) → h1 !! p = h !! p)
  ∧ heap_le h h1
  ∧ (lv1 = rest ∨ rem1 ≤ 0).
Proof.
  unfold OrderBook.take_level. intros Hrun (Hsort & Htot & Hall) Hnd.
  apply Forall_cons in Hall as [Hlvl Hrest].
  rewrite level_ptrs_cons in Hnd |- *.
  apply NoDup_app in Hnd as (Hnd1 & Hdisj & Hnd2).
  destruct (PriceLevel.execute_quantity fuel h rem level)
    as [[[h' level1] ex]|] eqn:Hexec; [|done]. cbn in Hrun.
  destruct (OrderBook.record_matches h' taker ex ms rem total)
    as [[[ms' rem'] total']|] eqn:Hrec; [|done]. cbn in Hrun.
  injection Hrun as <- <- <- <- <-.
  apply record_matches_spec in Hrec as [-> ->].
  assert (Hpr : PriceLevel.price_ level = price) by apply Hlvl.
  rewrite <- Hpr in Hlvl.
  destruct (execute_quantity_ok P idx s Hstable _ _ _ _ _ _ _ Hexec Hlvl Hnd1)
    as (Hok1 & (popped & Hpop) & Hfr & Hle & Hmk & Htot1 & Hexit).
  rewrite Hpr in Hok1.
  assert (Hrest' : Forall (level_ok P h' idx s) rest).
  { rewrite Forall_forall in Hrest |- *. intros [k l] Hkl.
    apply (level_ok_frame P idx s h); [by apply Hrest|].
    intros p Hp. apply Hfr. intros Hp'. apply (Hdisj p Hp').
    apply elem_of_level_ptrs. eauto. }
  assert (Hsub : ∀ p, p ∈ PriceLevel.orders_ level1 →
                      p ∈ PriceLevel.orders_ level).
  { intros p Hp. rewrite Hpop. apply elem_of_app. by right. }
  rewrite level_totals_cons in Htot.
  unfold PriceLevel.is_empty. case_bool_decide as Hemp.
  - (* the level is erased *)
    assert (Hz : PriceLevel.total_quantity_ level1 = 0).
    { destruct Hok1 as (_ & Hsum & _). cbn in Hsum. by rewrite Hsum, Hemp. }
    split_and!.
    + split_and!; [by eapply keys_sorted_tail|lia|done].
    + done.
    + intros p Hp. apply elem_of_app. by right.
    + intros p Hp. apply Hfr. intros ?. apply Hp, elem_of_app. by left.
    + done.
    + by left.
  - split_and!.
    + split_and!; [done|rewrite level_totals_cons; lia|].
      by apply Forall_cons.
    + rewrite level_ptrs_cons. apply NoDup_app. split_and!.
      * rewrite Hpop in Hnd1. by apply NoDup_app in Hnd1 as (_ & _ & ?).
      * intros p Hp. by apply Hdisj, Hsub.
      * done.
    + intros p. rewrite level_ptrs_cons, !elem_of_app.
      intros [?|?]; [left; by apply Hsub|by right].
    + intros p Hp. apply Hfr. intros ?. apply Hp, elem_of_app. by left.
    + done.
    + right. by destruct Hexit.
Qed.

Lemma match_loop_ok (fuel : nat) (past : Price → bool) (taker : ptr) :
  ∀ (h : heap) (lv : list (Price * PriceLevel.t)) (total rem : Quantity)
    (ms : list OrderBook.OrderMatch) h' lv' total' rem' ms',
  OrderBook.match_loop fuel past taker h lv total rem ms
    = Some (h', lv', total', rem', ms') →
  side_ok P h idx s lv total →
  NoDup (level_ptrs lv) →
  side_ok P h' idx s lv' total'
  ∧ NoDup (level_ptrs lv')
  ∧ (∀ p, p ∈ level_ptrs lv' → p ∈ level_ptrs lv)
  ∧ (∀ p, p ∉ level_ptrs lv → h' !! p = h !! p)
  ∧ heap_le h h'.
Proof.
  induction fuel as [|fuel IH];
    intros h lv total rem ms h' lv' total' rem' ms' Hrun Hok Hnd.
  - destruct lv as [|[price level] rest]; cbn in Hrun.
    + injection Hrun as <- <- <- <- <-. split_and!; auto using heap_le_refl.
    + case_decide; [destruct (past price); [|done]|];
        injection Hrun as <- <- <- <- <-; split_and!; auto using heap_le_refl.
  - destruct lv as [|[price level] rest]; cbn in Hrun.
    + injection Hrun as <- <- <- <- <-. split_and!; auto using heap_le_refl.
    + case_decide; [destruct (past price)|];
        [injection Hrun as <- <- <- <- <-; split_and!; auto using heap_le_refl
        | |injection Hrun as <- <- <- <- <-; split_and!; auto using heap_le_refl].
      destruct (OrderBook.take_level fuel taker h price level rest total rem ms)
        as [[[[[h1 lv1] total1] rem1] ms1]|] eqn:Htake; [|done].
      cbn in Hrun.
      destruct (take_level_ok _ _ _ _ _ _ _ _ _ _ _ _ _ _ Htake Hok Hnd)
        as (Hok1 & Hnd1 & Hsub1 & Hfr1 & Hle1 & _).
      destruct (h1 !! taker) as [order|]; [|done]. cbn in Hrun.
      destruct (bool_decide (rem1 ≤ ZERO)
                || bool_decide (Order.time_in_force_ order = FOK)
                   && bool_decide (rem1 < Order.quantity_ order)).
      * injection Hrun as <- <- <- <- <-. by split_and!.
      * destruct (IH _ _ _ _ _ _ _ _ _ _ Hrun Hok1 Hnd1)
          as (Hok' & Hnd' & Hsub' & Hfr' & Hle').
        split_and!; [done|done| | |by eapply heap_le_trans].
        -- intros p Hp. by apply Hsub1, Hsub'.
        -- intros p Hp. rewrite Hfr', Hfr1; [done|done|].
           intros ?. by apply Hp, Hsub1.
Qed.

End match_loop.

(** ** The two sides of a book *)

Lemma opposite_involutive (s : Side) :
  OrderBook.opposite (OrderBook.opposite s) = s.
Proof. by destruct s. Qed.

Lemma opposite_ne (s : Side) : OrderBook.opposite s ≠ s.
Proof. by destruct s. Qed.

Lemma side_cases (s s' : Side) : s' = s ∨ s' = OrderBook.opposite s.
Proof. destruct s, s'; auto. Qed.

Lemma side_levels_set_side (s : Side) lv total (b : OrderBook.t) :
  OrderBook.side_levels s (OrderBook.set_side s lv total b) = lv.
Proof. by destruct s. Qed.

Lemma side_total_set_side (s : Side) lv total (b : OrderBook.t) :
  OrderBook.side_total s (OrderBook.set_side s lv total b) = total.
Proof. by destruct s. Qed.

Lemma side_levels_set_side_opp (s : Side) lv total (b : OrderBook.t) :
  OrderBook.side_levels (OrderBook.opposite s) (OrderBook.set_side s lv total b)
  = OrderBook.side_levels (OrderBook.opposite s) b.
Proof. by destruct s. Qed.

Lemma side_total_set_side_opp (s : Side) lv total (b : OrderBook.t) :
  OrderBook.side_total (OrderBook.opposite s) (OrderBook.set_side s lv total b)
  = OrderBook.side_total (OrderBook.opposite s) b.
Proof. by destruct s. Qed.

Lemma orders_set_side (s : Side) lv total (b : OrderBook.t) :
  OrderBook.orders_ (OrderBook.set_side s lv total b) = OrderBook.orders_ b.
Proof. by destruct s. Qed.

Lemma side_levels_set_orders (s : Side) idx (b : OrderBook.t) :
  OrderBook.side_levels s (OrderBook.set_orders idx b)
  = OrderBook.side_levels s b.
Proof. by destruct s. Qed.

Lemma side_total_set_orders (s : Side) idx (b : OrderBook.t) :
  OrderBook.side_total s (OrderBook.set_orders idx b)
  = OrderBook.side_total s b.
Proof. by destruct s. Qed.

Lemma book_ptrs_sides (s : Side) (b : OrderBook.t) :
  book_ptrs b ≡ₚ level_ptrs (OrderBook.side_levels s b)
                 ++ level_ptrs (OrderBook.side_levels (OrderBook.opposite s) b).
Proof. destruct s; cbn; [done|]. apply Permutation_app_comm. Qed.

Lemma elem_of_book_ptrs (p : ptr) (b : OrderBook.t) :
  p ∈ book_ptrs b ↔ ∃ s, p ∈ level_ptrs (OrderBook.side_levels s b).
Proof.
  unfold book_ptrs. rewrite elem_of_app. split.
  - intros [?|?]; [by exists BUY|by exists SELL].
  - intros [[] ?]; auto.
Qed.

Lemma book_ptrs_set_orders idx (b : OrderBook.t) :
  book_ptrs (OrderBook.set_orders idx b) = book_ptrs b.
Proof. done. Qed.

Lemma before_irrefl (s : Side) (k : Price) : OrderBook.before s k k = false.
Proof. destruct s; cbn; apply bool_decide_eq_false; lia. Qed.

Lemma keys_sorted_NoDup (s : Side) (lv : list (Price * PriceLevel.t)) :
  keys_sorted s lv → NoDup lv.*1.
Proof.
  unfold keys_sorted. induction (lv.*1) as [|k ks IH]; intros Hs.
  - apply NoDup_nil_2.
  - apply StronglySorted_inv in Hs as [Hs Hall]. apply NoDup_cons. split; auto.
    intros Hin. rewrite Forall_forall in Hall. specialize (Hall k Hin).
    by rewrite before_irrefl in Hall.
Qed.

Lemma find_elem {V} (k : Price) (v : V) (m : list (Price * V)) :
  NoDup m.*1 → (k, v) ∈ m → PriceMap.find k m = Some v.
Proof.
  intros Hnd (m1 & m2 & ->)%list_elem_of_split. apply find_middle.
  rewrite fmap_app, fmap_cons in Hnd.
  apply NoDup_app in Hnd as (_ & Hd & _). intros Hin.
  apply (Hd k Hin). cbn. apply list_elem_of_here.
Qed.

Lemma find_Some_elem {V} (k : Price) (v : V) (m : list (Price * V)) :
  PriceMap.find k m = Some v → (k, v) ∈ m.
Proof.
  intros (m1 & m2 & -> & _)%find_split. apply elem_of_app. right.
  apply list_elem_of_here.
Qed.

Section side_lemmas.
Context (P : Order.t → Prop).

Lemma level_ok_change (h h' : heap) (idx idx' : gmap OrderId ptr) (s : Side)
    (kl : Price * PriceLevel.t) :
  level_ok P h idx s kl →
  (∀ p, p ∈ PriceLevel.orders_ kl.2 → h' !! p = h !! p) →
  (∀ p o, p ∈ PriceLevel.orders_ kl.2 → h !! p = Some o →
     idx !! Order.id_ o = Some p → idx' !! Order.id_ o = Some p) →
  level_ok P h' idx' s kl.
Proof.
  intros (Hpr & Htot & Hall & Hmap) Hfr Hidx. split_and!.
  - done.
  - rewrite Htot. symmetry. by apply sum_remaining_frame.
  - rewrite Forall_forall in Hall |- *. intros p Hp.
    destruct (Hall p Hp) as (o & Ho & ? & ? & ? & ? & ? & ? & ?).
    exists o. rewrite Hfr by done. split_and!; eauto.
  - intros i p H. destruct (Hmap i p H) as [Hin (o & Ho & Hid)].
    split; [done|]. exists o. by rewrite Hfr.
Qed.

Lemma side_ok_change (h h' : heap) (idx idx' : gmap OrderId ptr) (s : Side)
    (lv : list (Price * PriceLevel.t)) (total : Quantity) :
  side_ok P h idx s lv total →
  (∀ p, p ∈ level_ptrs lv → h' !! p = h !! p) →
  (∀ p o, p ∈ level_ptrs lv → h !! p = Some o →
     idx !! Order.id_ o = Some p → idx' !! Order.id_ o = Some p) →
  side_ok P h' idx' s lv total.
Proof.
  intros (Hsort & Htot & Hall) Hfr Hidx. split_and!; [done|done|].
  rewrite Forall_forall in Hall |- *. intros [k l] Hkl.
  apply (level_ok_change h _ idx); [by apply Hall|..].
  - intros p Hp. apply Hfr, elem_of_level_ptrs. eauto.
  - intros p o Hp. apply Hidx, elem_of_level_ptrs. eauto.
Qed.

Lemma side_ok_frame (h h' : heap) (idx : gmap OrderId ptr) (s : Side)
    (lv : list (Price * PriceLevel.t)) (total : Quantity) :
  side_ok P h idx s lv total →
  (∀ p, p ∈ level_ptrs lv → h' !! p = h !! p) →
  side_ok P h' idx s lv total.
Proof. intros Hok Hfr. eapply side_ok_change; eauto. Qed.

Lemma wf_of_sides (h : heap) (b : OrderBook.t) (s : Side) :
  side_ok P h (OrderBook.orders_ b) s
    (OrderBook.side_levels s b) (OrderBook.side_total s b) →
  side_ok P h (OrderBook.orders_ b) (OrderBook.opposite s)
    (OrderBook.side_levels (OrderBook.opposite s) b)
    (OrderBook.side_total (OrderBook.opposite s) b) →
  NoDup (level_ptrs (OrderBook.side_levels s b)
         ++ level_ptrs (OrderBook.side_levels (OrderBook.opposite s) b)) →
  (∀ i p, OrderBook.orders_ b !! i = Some p →
     ∃ o, h !! p = Some o ∧ Order.id_ o = i) →
  wf P h b.
Proof.
  intros Hs Ho Hnd Hidx. split.
  - intros s'. by destruct (side_cases s s') as [->| ->].
  - by rewrite (book_ptrs_sides s).
  - done.
Qed.

Lemma index_ok_le (h h' : heap) (idx : gmap OrderId ptr) :
  (∀ i p, idx !! i = Some p → ∃ o, h !! p = Some o ∧ Order.id_ o = i) →
  heap_le h h' →
  ∀ i p, idx !! i = Some p → ∃ o, h' !! p = Some o ∧ Order.id_ o = i.
Proof.
  intros Hidx Hle i p Hip. destruct (Hidx i p Hip) as (o & Ho & Hid).
  destruct (Hle p o Ho) as (o' & Ho' & He). exists o'. split; [done|].
  destruct He as [<- _]. done.
Qed.

Lemma wf_frame (h h' : heap) (b : OrderBook.t) :
  wf P h b →
  (∀ p, p ∈ book_ptrs b → h' !! p = h !! p) →
  heap_le h h' →
  wf P h' b.
Proof.
  intros [Hside Hnd Hidx] Hfr Hle. split; [|done|by eapply index_ok_le].
  intros s. apply (side_ok_frame h); [done|].
  intros p Hp. apply Hfr, elem_of_book_ptrs. eauto.
Qed.

(** A resting order is found where its side and its price say. *)
Lemma wf_resting (h : heap) (b : OrderBook.t) (p : ptr) :
  wf P h b → p ∈ book_ptrs b →
  ∃ o l, h !! p = Some o
    ∧ PriceMap.find (Order.price_ o) (OrderBook.side_levels (Order.side_ o) b)
      = Some l
    ∧ p ∈ PriceLevel.orders_ l
    ∧ order_ok P h (OrderBook.orders_ b) (Order.side_ o) l p.
Proof.
  intros [Hside Hnd Hidx] [s Hp]%elem_of_book_ptrs.
  apply elem_of_level_ptrs in Hp as (k & l & Hkl & Hp).
  destruct (Hside s) as (Hsort & _ & Hall).
  rewrite Forall_forall in Hall.
  destruct (Hall _ Hkl) as (Hpr & _ & Hords & _). cbn in Hpr, Hords.
  rewrite Forall_forall in Hords.
  destruct (Hords p Hp) as (o & Ho & Hopr & Hos & Hrest).
  exists o, l. subst s. rewrite Hopr, Hpr. split_and!; [done| |done|].
  - apply find_elem; [|done]. by apply (keys_sorted_NoDup (Order.side_ o)).
  - destruct Hrest as (? & ? & ? & ? & ?). exists o. by split_and!.
Qed.

End side_lemmas.

(** ** Insertion of a level *)

Lemma before_trans (s : Side) (a b c : Price) :
  OrderBook.before s a b = true → OrderBook.before s b c = true →
  OrderBook.before s a c = true.
Proof.
  destruct s; cbn; rewrite !bool_decide_eq_true; lia.
Qed.

Lemma before_total (s : Side) (a b : Price) :
  a ≠ b → OrderBook.before s a b = false → OrderBook.before s b a = true.
Proof.
  destruct s; cbn; rewrite bool_decide_eq_true, bool_decide_eq_false; lia.
Qed.

Lemma insert_sorted (s : Side) (k : Price) (v : PriceLevel.t)
    (lv : list (Price * PriceLevel.t)) :
  PriceMap.find k lv = None → keys_sorted s lv →
  ∃ m1 m2, lv = m1 ++ m2
    ∧ PriceMap.insert (OrderBook.before s) k v lv = m1 ++ (k, v) :: m2
    ∧ keys_sorted s (m1 ++ (k, v) :: m2).
Proof.
  unfold keys_sorted.
  induction lv as [|[k' v'] lv IH]; cbn; intros Hfind Hsort.
  - exists [], []. split_and!; [done|done|].
    cbn. apply SSorted_cons; [apply SSorted_nil|done].
  - case_decide as Hk; [done|].
    apply StronglySorted_inv in Hsort as [Hsort Hall].
    destruct (OrderBook.before s k k') eqn:Hb.
    + exists [], ((k', v') :: lv). split_and!; [done|done|].
      cbn. apply SSorted_cons; [by apply SSorted_cons|].
      apply Forall_cons. split; [done|].
      eapply Forall_impl; [done|]. intros x Hx. by eapply before_trans.
    + destruct (IH Hfind Hsort) as (m1 & m2 & -> & -> & Hs').
      exists ((k', v') :: m1), m2. split_and!; [done|done|].
      cbn. apply SSorted_cons; [done|].
      rewrite fmap_app in Hall. rewrite fmap_app, fmap_cons. cbn.
      apply Forall_app in Hall as [H1 H2].
      apply Forall_app. split; [done|]. apply Forall_cons. split; [|done].
      apply before_total; [done|done].
Qed.

Section find_or_create.
Context (P : Order.t → Prop).

Lemma level_ok_make (h : heap) (idx : gmap OrderId ptr) (s : Side) (k : Price) :
  level_ok P h idx s (k, PriceLevel.make k).
Proof.
  split_and!; cbn; [done|done|apply Forall_nil_2|].
  intros i p Hip. by rewrite lookup_empty in Hip.
Qed.

Lemma find_or_create_ok (h : heap) (idx : gmap OrderId ptr) (s : Side)
    (lv : list (Price * PriceLevel.t)) (total : Quantity) (k : Price) :
  side_ok P h idx s lv total →
  ∃ level m1 m2,
    (match PriceMap.find k lv with
     | None =>
         (PriceLevel.make k,
          PriceMap.insert (OrderBook.before s) k (PriceLevel.make k) lv)
     | Some level => (level, lv)
     end) = (level, m1 ++ (k, level) :: m2)
    ∧ (k ∉ m1.*1)
    ∧ side_ok P h idx s (m1 ++ (k, level) :: m2) total
    ∧ level_ptrs (m1 ++ (k, level) :: m2) = level_ptrs lv.
Proof.
  intros (Hsort & Htot & Hall).
  destruct (PriceMap.find k lv) as [level|] eqn:Hfind.
  - destruct (find_split _ _ _ Hfind) as (m1 & m2 & -> & Hn).
    exists level, m1, m2. by split_and!.
  - destruct (insert_sorted s k (PriceLevel.make k) lv Hfind Hsort)
      as (m1 & m2 & -> & -> & Hs').
    exists (PriceLevel.make k), m1, m2. split_and!.
    + done.
    + apply find_None in Hfind. rewrite fmap_app in Hfind.
      intros ?. apply Hfind, elem_of_app. by left.
    + split_and!; [done| |].
      * rewrite level_totals_app in Htot.
        rewrite level_totals_app, level_totals_cons. cbn. unfold ZERO. lia.
      * apply Forall_app in Hall as [H1 H2]. apply Forall_app. split; [done|].
        apply Forall_cons. split; [apply level_ok_make|done].
    + by rewrite !level_ptrs_app, level_ptrs_cons.
Qed.

End find_or_create.

(** ** OrderBook::add_limit_order_to_book *)

Lemma keys_sorted_middle (s : Side) (k : Price) (l l' : PriceLevel.t)
    (m1 m2 : list (Price * PriceLevel.t)) :
  keys_sorted s (m1 ++ (k, l) :: m2) → keys_sorted s (m1 ++ (k, l') :: m2).
Proof. unfold keys_sorted. by rewrite !fmap_app, !fmap_cons. Qed.

Section add_to_book.
Context (P : Order.t → Prop).

Lemma add_limit_order_to_book_ok (h : heap) (b : OrderBook.t) (order : ptr)
    (o : Order.t) :
  wf P h b →
  h !! order = Some o →
  order ∉ book_ptrs b →
  ¬ resting_id h b (Order.id_ o) →
  0 ≤ Order.remaining_quantity o →
  (Order.is_filled o = false → Order.type_ o = LIMIT → P o) →
  wf P h (OrderBook.add_limit_order_to_book h b order)
  ∧ (OrderBook.add_limit_order_to_book h b order = b
     ∨ book_ptrs (OrderBook.add_limit_order_to_book h b order)
         ≡ₚ order :: book_ptrs b
       ∧ OrderBook.orders_ (OrderBook.add_limit_order_to_book h b order)
         = <[Order.id_ o := order]> (OrderBook.orders_ b)).
Proof.
  intros Hwf Ho Hnin Hfresh Hrem HP.
  unfold OrderBook.add_limit_order_to_book. rewrite Ho.
  destruct (bool_decide (Order.type_ o ≠ LIMIT) || Order.is_filled o)
    eqn:Hskip; [by split; [|left]|].
  apply orb_false_iff in Hskip as [Hty Hfl].
  apply bool_decide_eq_false in Hty. apply dec_stable in Hty.
  specialize (HP Hfl Hty). apply is_filled_false in Hfl as [Hst Hne].
  set (s := Order.side_ o). set (k := Order.price_ o).
  set (idx := OrderBook.orders_ b).
  set (idx' := <[Order.id_ o := order]> idx).
  destruct Hwf as [Hside Hnd Hidx].
  destruct (find_or_create_ok P h idx s (OrderBook.side_levels s b)
              (OrderBook.side_total s b) k (Hside s))
    as (level & m1 & m2 & -> & Hn & (Hsort & Htot & Hall) & Hptrs).
  assert (Hids : ∀ p o', p ∈ book_ptrs b → h !! p = Some o' →
                         Order.id_ o' ≠ Order.id_ o).
  { intros p o' Hp Ho' Heq. apply Hfresh. by exists p, o'. }
  assert (Hidx' : ∀ p o', p ∈ book_ptrs b → h !! p = Some o' →
            idx !! Order.id_ o' = Some p → idx' !! Order.id_ o' = Some p).
  { intros p o' Hp Ho' Hi. subst idx'. rewrite lookup_insert_ne; [done|].
    intros Heq. by eapply Hids. }
  assert (Hsub : ∀ p, p ∈ level_ptrs (m1 ++ (k, level) :: m2) →
                      p ∈ book_ptrs b).
  { intros p Hp. apply elem_of_book_ptrs. exists s. by rewrite <- Hptrs. }
  apply Forall_app in Hall as [Hall1 Hall2].
  apply Forall_cons in Hall2 as [(Hpr & Hlt & Hords & Hmap) Hall2].
  cbn in Hpr, Hlt, Hords, Hmap.
  unfold PriceLevel.add_order. rewrite Ho.
  rewrite decide_False by (intros Hc; apply Hc; by rewrite Hpr).
  rewrite set_middle by done.
  set (level1 := PriceLevel.mk _ _ _ _).
  set (lv2 := m1 ++ (k, level1) :: m2).
  assert (Hperm : level_ptrs lv2
                  ≡ₚ order :: level_ptrs (OrderBook.side_levels s b)).
  { rewrite <- Hptrs. subst lv2 level1.
    rewrite !level_ptrs_app, !level_ptrs_cons. cbn.
    solve_Permutation. }
  split; [|right; split; [|by destruct s]].
  - apply (wf_of_sides P _ _ s).
    + (* the side of the order *)
      rewrite side_levels_set_orders, side_total_set_orders,
        side_levels_set_side, side_total_set_side. cbn.
      fold idx idx'. split_and!.
      * by eapply keys_sorted_middle.
      * subst lv2. rewrite level_totals_app, level_totals_cons in Htot |- *.
        cbn. lia.
      * apply Forall_app. split; [|apply Forall_cons; split].
        -- rewrite Forall_forall in Hall1 |- *. intros [k1 l1] Hin.
           apply (level_ok_change P h h idx); [by apply Hall1|done|].
           intros p o' Hp. apply Hidx', Hsub.
           rewrite level_ptrs_app, elem_of_app. left.
           apply elem_of_level_ptrs. eauto.
        -- split_and!; cbn.
           ++ done.
           ++ rewrite sum_remaining_app, <- Hlt, sum_remaining_cons,
                (remaining_at_lookup _ _ _ Ho), sum_remaining_nil. lia.
           ++ apply Forall_app. split.
              ** rewrite Forall_forall in Hords |- *. intros p Hp.
                 assert (Hpb : p ∈ book_ptrs b).
                 { apply Hsub. rewrite level_ptrs_app, level_ptrs_cons,
                     !elem_of_app. right. by left. }
                 destruct (Hords p Hp)
                   as (o' & Ho' & ? & ? & Hm' & Hi' & ? & ? & ?).
                 exists o'. split_and!; try done.
                 --- cbn. rewrite lookup_insert_ne; [done|].
                     intros Heq. by eapply Hids.
                 --- by eapply Hidx'.
              ** apply Forall_singleton. exists o. split_and!; try done.
                 --- cbn. by rewrite lookup_insert_eq.
                 --- subst idx'. by rewrite lookup_insert_eq.
           ++ intros i p Hip.
              destruct (decide (i = Order.id_ o)) as [->|Hi].
              ** rewrite lookup_insert_eq in Hip. injection Hip as <-.
                 split; [apply elem_of_app; right; apply list_elem_of_here|].
                 by exists o.
              ** rewrite lookup_insert_ne in Hip by done.
                 destruct (Hmap i p Hip) as [? ?].
                 split; [apply elem_of_app; by left|done].
        -- rewrite Forall_forall in Hall2 |- *. intros [k1 l1] Hin.
           apply (level_ok_change P h h idx); [by apply Hall2|done|].
           intros p o' Hp. apply Hidx', Hsub.
           rewrite level_ptrs_app, level_ptrs_cons, !elem_of_app. right. right.
           apply elem_of_level_ptrs. eauto.
    + (* the other side *)
      rewrite side_levels_set_orders, side_total_set_orders,
        side_levels_set_side_opp, side_total_set_side_opp. cbn.
      fold idx idx'.
      apply (side_ok_change P h h idx); [apply Hside|done|].
      intros p o' Hp. apply Hidx', elem_of_book_ptrs. eauto.
    + rewrite !side_levels_set_orders, side_levels_set_side,
        side_levels_set_side_opp.
      rewrite Hperm. cbn. apply NoDup_cons. split.
      * intros Hin. apply Hnin. by rewrite (book_ptrs_sides s).
      * by rewrite <- (book_ptrs_sides s).
    + cbn. fold idx idx'. intros i p Hip.
      destruct (decide (i = Order.id_ o)) as [->|Hi].
      * subst idx'. rewrite lookup_insert_eq in Hip. injection Hip as <-.
        by exists o.
      * subst idx'. rewrite lookup_insert_ne in Hip by done. by apply Hidx.
  - rewrite book_ptrs_set_orders, (book_ptrs_sides s),
      side_levels_set_side, side_levels_set_side_opp, Hperm.
    cbn. by rewrite <- (book_ptrs_sides s).
Qed.

End add_to_book.

(** ** Matching and OrderBook::add_order *)

Lemma taker_result_static (o o' : Order.t) : taker_result o o' → static_eq o o'.
Proof.
  intros [x [->|[_ ->]]]; [apply static_eq_execute|].
  eapply static_eq_trans; [apply static_eq_execute|apply static_eq_set_status].
Qed.

Lemma taker_result_remaining (o o' : Order.t) :
  taker_result o o' → 0 ≤ Order.remaining_quantity o'.
Proof.
  intros [x [->|[_ ->]]]; by destruct (execute_spec x o) as (_ & _ & ? & _).
Qed.

Section add_order.
Context (P : Order.t → Prop).
Hypothesis Hstable : exec_stable P.

Lemma match_order_ok (fuel : nat) (past : Price → bool) (h : heap)
    (b : OrderBook.t) (order : ptr) (o : Order.t) ms h' b' :
  OrderBook.match_order fuel past h b order o = Some (ms, h', b') →
  wf P h b →
  h !! order = Some o →
  order ∉ book_ptrs b →
  wf P h' b'
  ∧ OrderBook.orders_ b' = OrderBook.orders_ b
  ∧ (∀ p, p ∈ book_ptrs b' → p ∈ book_ptrs b)
  ∧ heap_le h h'
  ∧ ∃ o', h' !! order = Some o' ∧ taker_result o o'.
Proof.
  unfold OrderBook.match_order. intros Hrun [Hside Hnd Hidx] Ho Hnin.
  set (opp := OrderBook.opposite (Order.side_ o)) in *.
  destruct (OrderBook.match_loop fuel past order h
              (OrderBook.side_levels opp b) (OrderBook.side_total opp b)
              (Order.remaining_quantity o) [])
    as [[[[[h1 lv1] total1] rem1] ms1]|] eqn:Hloop; [|done].
  cbn in Hrun.
  rewrite (book_ptrs_sides opp) in Hnd.
  apply NoDup_app in Hnd as (Hnd1 & Hdisj & Hnd2).
  destruct (match_loop_ok P (OrderBook.orders_ b) opp Hstable _ _ _ _ _ _ _
              _ _ _ _ _ _ Hloop (Hside opp) Hnd1)
    as (Hok1 & Hnd1' & Hsub1 & Hfr1 & Hle1).
  assert (Ho1 : h1 !! order = Some o).
  { rewrite Hfr1; [done|]. intros Hin. apply Hnin, elem_of_book_ptrs. eauto. }
  rewrite Ho1 in Hrun. cbn in Hrun.
  set (b1 := OrderBook.set_side opp lv1 total1 b) in *.
  assert (Hsubb : ∀ p, p ∈ book_ptrs b1 → p ∈ book_ptrs b).
  { intros p. rewrite (book_ptrs_sides opp b1), (book_ptrs_sides opp b).
    subst b1. rewrite side_levels_set_side, side_levels_set_side_opp.
    rewrite !elem_of_app. intros [?|?]; [left; by apply Hsub1|by right]. }
  assert (Hwf1 : wf P h1 b1).
  { apply (wf_of_sides P _ _ opp); subst b1.
    - by rewrite side_levels_set_side, side_total_set_side, orders_set_side.
    - rewrite side_levels_set_side_opp, side_total_set_side_opp,
        orders_set_side.
      apply (side_ok_frame P h); [apply Hside|].
      intros p Hp. apply Hfr1. intros Hin. by apply (Hdisj p Hin).
    - rewrite side_levels_set_side, side_levels_set_side_opp.
      apply NoDup_app. split_and!; [done| |done].
      intros p Hp. by apply Hdisj, Hsub1.
    - rewrite orders_set_side. by eapply index_ok_le. }
  assert (Hfin : ∀ o2, static_eq o o2 →
            wf P (<[order := o2]> h1) b1 ∧ heap_le h (<[order := o2]> h1)
            ∧ <[order := o2]> h1 !! order = Some o2).
  { intros o2 Hst. split_and!.
    - apply (wf_frame P h1); [done| |by eapply heap_le_insert].
      intros p Hp. apply list_lookup_insert_ne. intros <-. by apply Hnin, Hsubb.
    - eapply heap_le_trans; [done|]. by eapply heap_le_insert.
    - apply list_lookup_insert_eq. by eapply lookup_lt_Some. }
  set (x := Order.quantity_ o - rem1) in *.
  destruct (bool_decide (Order.time_in_force_ (Order.execute x o) = FOK)
            && bool_decide (rem1 > ZERO)) eqn:Hfok;
    injection Hrun as <- <- <-.
  - apply andb_true_iff in Hfok as [Hfok _].
    apply bool_decide_eq_true in Hfok.
    assert (Hres : taker_result o (Order.set_status CANCELLED (Order.execute x o))).
    { exists x. right. split; [|done].
      by destruct (static_eq_execute x o) as (_ & _ & _ & _ & ->). }
    destruct (Hfin _ (taker_result_static _ _ Hres)) as (? & ? & ?).
    split_and!; [done|apply orders_set_side|done|done|eauto].
  - assert (Hres : taker_result o (Order.execute x o)) by (exists x; by left).
    destruct (Hfin _ (taker_result_static _ _ Hres)) as (? & ? & ?).
    split_and!; [done|apply orders_set_side|done|done|eauto].
Qed.

Lemma resting_id_mono (h h' : heap) (b b' : OrderBook.t) (id : OrderId) :
  heap_le h h' →
  (∀ p, p ∈ book_ptrs b' → p ∈ book_ptrs b) →
  (∀ p, p ∈ book_ptrs b → is_Some (h !! p)) →
  ¬ resting_id h b id → ¬ resting_id h' b' id.
Proof.
  intros Hle Hsub Hval Hfresh (p & o' & [Hp Ho'] & Hid).
  destruct (Hval p (Hsub p Hp)) as [o Ho].
  destruct (Hle p o Ho) as (o2 & Ho2 & He). rewrite Ho' in Ho2.
  injection Ho2 as <-. apply Hfresh. exists p, o. split; [split; auto|].
  destruct He as [-> _]. done.
Qed.

Lemma wf_valid (h : heap) (b : OrderBook.t) (p : ptr) :
  wf P h b → p ∈ book_ptrs b → is_Some (h !! p).
Proof.
  intros Hwf Hp. destruct (wf_resting P h b p Hwf Hp) as (o & _ & Ho & _).
  eauto.
Qed.

Lemma add_order_ok (fuel : nat) (h : heap) (b : OrderBook.t) (order : ptr)
    (o : Order.t) ms h' b' :
  OrderBook.add_order fuel h b order = Some (ms, h', b') →
  wf P h b →
  h !! order = Some o →
  order ∉ book_ptrs b →
  ¬ resting_id h b (Order.id_ o) →
  (∀ o', taker_result (Order.set_status ACCEPTED o) o' →
         Order.is_filled o' = false →
         Order.time_in_force_ o' ≠ IOC →
         Order.type_ o' = LIMIT → P o') →
  wf P h' b' ∧ heap_le h h'.
Proof.
  unfold OrderBook.add_order. intros Hrun Hwf Ho Hnin Hfresh HP.
  rewrite Ho in Hrun.
  destruct (Order.is_valid o); cbn in Hrun; cycle 1.
  { injection Hrun as <- <- <-. split; [done|apply heap_le_refl]. }
  set (o1 := Order.set_status ACCEPTED o) in *.
  set (h1 := <[order := o1]> h) in *.
  assert (Hle1 : heap_le h h1)
    by (eapply heap_le_insert; [done|apply static_eq_set_status]).
  assert (Ho1 : h1 !! order = Some o1).
  { apply list_lookup_insert_eq. by eapply lookup_lt_Some. }
  assert (Hwf1 : wf P h1 b).
  { apply (wf_frame P h); [done| |done].
    intros p Hp. apply list_lookup_insert_ne. by intros <-. }
  destruct (Order.type_ o) eqn:Hty.
  - (* LIMIT *)
    unfold OrderBook.match_limit_order in Hrun. rewrite Ho1 in Hrun.
    rewrite decide_False in Hrun by (cbn; rewrite Hty; auto).
    destruct (OrderBook.match_order fuel _ h1 b order o1)
      as [[[ms2 h2] b2]|] eqn:Hm; [|done]. cbn in Hrun.
    destruct (match_order_ok _ _ _ _ _ _ _ _ _ Hm Hwf1 Ho1 Hnin)
      as (Hwf2 & Hidx2 & Hsub2 & Hle2 & o2 & Ho2 & Hres).
    rewrite Ho2 in Hrun. cbn in Hrun.
    assert (Hle : heap_le h h2) by (by eapply heap_le_trans).
    destruct (negb (Order.is_filled o2)
              && bool_decide (Order.time_in_force_ o2 ≠ IOC)) eqn:Hadd;
      injection Hrun as <- <- <-; [|done].
    apply andb_true_iff in Hadd as [Hnf Hioc].
    apply negb_true_iff in Hnf. apply bool_decide_eq_true in Hioc.
    split; [|done].
    refine (proj1 (add_limit_order_to_book_ok P h2 b2 order o2
                     Hwf2 Ho2 _ _ _ _)).
    + intros Hin. by apply Hnin, Hsub2.
    + destruct (taker_result_static _ _ Hres) as (<- & _). cbn.
      eapply resting_id_mono; [exact Hle|done| |done].
      intros p Hp. by eapply wf_valid.
    + by eapply taker_result_remaining.
    + intros Hfl Hlim. by apply HP.
  - (* MARKET *)
    unfold OrderBook.match_market_order in Hrun. rewrite Ho1 in Hrun.
    rewrite decide_False in Hrun by (cbn; rewrite Hty; auto).
    destruct (match_order_ok _ _ _ _ _ _ _ _ _ Hrun Hwf1 Ho1 Hnin)
      as (Hwf2 & Hidx2 & Hsub2 & Hle2 & o2 & Ho2 & Hres).
    split; [done|by eapply heap_le_trans].
  - injection Hrun as <- <- <-. done.
  - injection Hrun as <- <- <-. done.
Qed.

End add_order.

(** ** OrderBook::cancel_order *)

Lemma keys_sorted_remove (s : Side) (kl : Price * PriceLevel.t)
    (m1 m2 : list (Price * PriceLevel.t)) :
  keys_sorted s (m1 ++ kl :: m2) → keys_sorted s (m1 ++ m2).
Proof.
  unfold keys_sorted. rewrite !fmap_app, fmap_cons.
  induction (m1.*1) as [|k ks IH]; cbn.
  - by intros [? ?]%StronglySorted_inv.
  - intros [Hs Hall]%StronglySorted_inv. apply SSorted_cons; [by apply IH|].
    apply Forall_app in Hall as [H1 [_ H2]%Forall_cons].
    apply Forall_app. by split.
Qed.

Section cancel.
Context (P : Order.t → Prop).

(** The book after the cancellation of the resting order [p]: its side is
    [m1 ++ (k, level) :: m2] and its level queues [q1 ++ p :: q2]. *)
Lemma cancel_order_resting (h : heap) (b : OrderBook.t) (id : OrderId)
    (p : ptr) :
  wf P h b →
  OrderBook.orders_ b !! id = Some p →
  p ∈ book_ptrs b →
  ∃ o level m1 m2 q1 q2,
    h !! p = Some o ∧ Order.id_ o = id
    ∧ OrderBook.side_levels (Order.side_ o) b
      = m1 ++ (Order.price_ o, level) :: m2
    ∧ (Order.price_ o ∉ m1.*1)
    ∧ PriceLevel.orders_ level = q1 ++ p :: q2
    ∧ (p ∉ q1) ∧ (p ∉ q2)
    ∧ PriceLevel.order_map_ level !! id = Some p
    ∧ OrderBook.cancel_order h b id
      = Some (true, <[p := Order.cancel o]> h,
              OrderBook.set_orders (delete id (OrderBook.orders_ b))
                (OrderBook.set_side (Order.side_ o)
                   (if decide (q1 ++ q2 = []) then m1 ++ m2
                    else m1 ++ (Order.price_ o,
                                PriceLevel.mk (PriceLevel.price_ level)
                                  (PriceLevel.total_quantity_ level
                                   - Order.remaining_quantity o)
                                  (q1 ++ q2)
                                  (delete id (PriceLevel.order_map_ level)))
                            :: m2)
                   (OrderBook.side_total (Order.side_ o) b
                    - Order.remaining_quantity o) b)).
Proof.
  intros Hwf Hidx Hp.
  destruct (wf_resting P h b p Hwf Hp)
    as (o & level & Ho & Hfind & Hin & (o' & Ho' & _ & _ & Hmap & Hix & _)).
  rewrite Ho in Ho'. injection Ho' as <-.
  destruct (wf_index P h b Hwf id p Hidx) as (o' & Ho' & Hid).
  rewrite Ho in Ho'. injection Ho' as <-.
  destruct (find_split _ _ _ Hfind) as (m1 & m2 & Hlv & Hn).
  destruct (list_elem_of_split_l _ _ Hin) as (q1 & q2 & Hq & Hq1).
  assert (Hq2 : p ∉ q2).
  { pose proof (wf_nodup P h b Hwf) as Hnd.
    rewrite (book_ptrs_sides (Order.side_ o)), Hlv, level_ptrs_app,
      level_ptrs_cons, Hq in Hnd.
    apply NoDup_app in Hnd as (Hnd & _). apply NoDup_app in Hnd as (_ & _ & Hnd).
    apply NoDup_app in Hnd as (Hnd & _). apply NoDup_app in Hnd as (_ & _ & Hnd).
    by apply NoDup_cons in Hnd as [? _]. }
  exists o, level, m1, m2, q1, q2. rewrite Hid in Hmap.
  split_and!; try done.
  unfold OrderBook.cancel_order. rewrite Hidx, Ho. cbn. rewrite Hfind.
  unfold PriceLevel.remove_order. rewrite Hmap, Ho. cbn.
  rewrite Hlv, set_middle by done. rewrite Hq, list_erase_middle by done.
  unfold OrderBook.remove_price_level_if_empty.
  rewrite side_levels_set_side, side_total_set_side, find_middle by done.
  unfold PriceLevel.is_empty. cbn.
  case_bool_decide as Hemp.
  - rewrite decide_True by done. rewrite erase_middle by done.
    by destruct (Order.side_ o).
  - rewrite decide_False by done. by destruct (Order.side_ o).
Qed.

Lemma cancel_order_not_resting (h : heap) (b : OrderBook.t) (id : OrderId) :
  wf P h b →
  (∀ p, OrderBook.orders_ b !! id = Some p → p ∉ book_ptrs b) →
  OrderBook.cancel_order h b id = Some (false, h, b).
Proof.
  intros Hwf Hnr. unfold OrderBook.cancel_order.
  destruct (OrderBook.orders_ b !! id) as [p|] eqn:Hidx; [|done].
  destruct (wf_index P h b Hwf id p Hidx) as (o & Ho & Hid).
  rewrite Ho. cbn.
  destruct (PriceMap.find (Order.price_ o)
              (OrderBook.side_levels (Order.side_ o) b))
    as [level|] eqn:Hfind; [|done].
  unfold PriceLevel.remove_order.
  destruct (PriceLevel.order_map_ level !! id) as [it|] eqn:Hmap; [|done].
  exfalso.
  destruct (wf_side P h b Hwf (Order.side_ o)) as (_ & _ & Hall).
  rewrite Forall_forall in Hall.
  destruct (Hall _ (find_Some_elem _ _ _ Hfind)) as (_ & _ & Hords & Hm).
  cbn in Hords, Hm. destruct (Hm id it Hmap) as [Hit (o' & Ho' & Hid')].
  rewrite Forall_forall in Hords.
  destruct (Hords it Hit) as (o2 & Ho2 & _ & _ & _ & Hix & _).
  rewrite Ho' in Ho2. injection Ho2 as <-. rewrite Hid', Hidx in Hix.
  injection Hix as <-. apply (Hnr p eq_refl).
  apply elem_of_book_ptrs. exists (Order.side_ o).
  apply elem_of_level_ptrs. exists (Order.price_ o), level.
  split; [by apply find_Some_elem|done].
Qed.

End cancel.

Lemma NoDup_remove_middle {A} (a q1 q2 c : list A) (p : A) :
  NoDup (a ++ (q1 ++ p :: q2) ++ c) → NoDup (a ++ (q1 ++ q2) ++ c).
Proof.
  intros H.
  assert (Hp : a ++ (q1 ++ p :: q2) ++ c ≡ₚ p :: (a ++ (q1 ++ q2) ++ c))
    by solve_Permutation.
  rewrite Hp in H. by apply NoDup_cons in H as [_ ?].
Qed.

Section cancel_wf.
Context (P : Order.t → Prop).

Lemma cancel_order_ok (h : heap) (b : OrderBook.t) (id : OrderId)
    (r : bool) h' b' :
  OrderBook.cancel_order h b id = Some (r, h', b') →
  wf P h b →
  wf P h' b'
  ∧ heap_le h h'
  ∧ (∀ p, p ∈ book_ptrs b' → p ∈ book_ptrs b)
  ∧ (r = true → ¬ resting_id h' b' id
                ∧ ∃ p, OrderBook.orders_ b !! id = Some p ∧ p ∈ book_ptrs b
                       ∧ length h' = length h).
Proof.
  intros Hrun Hwf.
  destruct (OrderBook.orders_ b !! id) as [p|] eqn:Hidx; cycle 1.
  { rewrite (cancel_order_not_resting P) in Hrun; [|done|].
    - injection Hrun as <- <- <-. split_and!; [done|apply heap_le_refl|done|done].
    - intros p. by rewrite Hidx. }
  destruct (decide (p ∈ book_ptrs b)) as [Hp|Hp]; cycle 1.
  { rewrite (cancel_order_not_resting P) in Hrun; [|done|].
    - injection Hrun as <- <- <-. split_and!; [done|apply heap_le_refl|done|done].
    - intros p'. rewrite Hidx. by intros [= <-]. }
  destruct (cancel_order_resting P h b id p Hwf Hidx Hp)
    as (o & level & m1 & m2 & q1 & q2 & Ho & Hid & Hlv & Hn & Hq & Hq1 & Hq2
        & Hmap & Hres).
  rewrite Hres in Hrun. injection Hrun as <- <- <-. clear Hres.
  set (s := Order.side_ o) in *. set (k := Order.price_ o) in *.
  set (idx := OrderBook.orders_ b) in *.
  set (level1 := PriceLevel.mk _ _ _ _).
  set (lv' := if decide (q1 ++ q2 = []) then m1 ++ m2
              else m1 ++ (k, level1) :: m2).
  set (h' := <[p := Order.cancel o]> h).
  destruct Hwf as [Hside Hnd Hix].
  pose proof Hnd as Hnd'.
  rewrite (book_ptrs_sides s), Hlv, level_ptrs_app, level_ptrs_cons, Hq in Hnd'.
  apply NoDup_app in Hnd' as (Hnds & Hdisj & Hndo).
  assert (Hle : heap_le h h')
    by (eapply heap_le_insert; [done|apply static_eq_cancel]).
  (* the pointers that stay *)
  assert (Hstay : ∀ p', p' ∈ level_ptrs m1 ++ (q1 ++ q2) ++ level_ptrs m2
                       ∨ p' ∈ level_ptrs (OrderBook.side_levels
                                            (OrderBook.opposite s) b) →
                        p' ≠ p ∧ p' ∈ book_ptrs b).
  { intros p' Hp'. split.
    - intros ->. destruct Hp' as [Hp'|Hp'].
      + apply NoDup_app in Hnds as (_ & Hd1 & Hnds).
        apply NoDup_app in Hnds as (Hnq & Hd2 & _).
        rewrite !elem_of_app in Hp'. destruct Hp' as [?|[[?|?]|?]]; try done.
        * apply (Hd1 p); [done|]. rewrite !elem_of_app. left. right.
          apply list_elem_of_here.
        * apply (Hd2 p); [|done]. rewrite !elem_of_app. right.
          apply list_elem_of_here.
      + apply (Hdisj p); [|done]. rewrite !elem_of_app. right. left. right.
        apply list_elem_of_here.
    - rewrite (book_ptrs_sides s), Hlv, level_ptrs_app, level_ptrs_cons, Hq.
      clear -Hp'. set_solver. }
  assert (Hfr : ∀ p', p' ≠ p → h' !! p' = h !! p').
  { intros p' Hne. by apply list_lookup_insert_ne. }
  assert (Hidx' : ∀ p' o', p' ≠ p → h !! p' = Some o' →
            idx !! Order.id_ o' = Some p' →
            delete id idx !! Order.id_ o' = Some p').
  { intros p' o' Hne Ho' Hi. rewrite lookup_delete_ne; [done|].
    intros Heq. rewrite <- Heq, Hidx in Hi. by injection Hi as ->. }
  destruct (Hside s) as (Hsort & Htot & Hall). rewrite Hlv in Hsort, Htot, Hall.
  apply Forall_app in Hall as [Hall1 Hall2].
  apply Forall_cons in Hall2 as [(Hpr & Hlt & Hords & Hlmap) Hall2].
  cbn in Hpr, Hlt, Hords, Hlmap.
  rewrite Hq, sum_remaining_app, sum_remaining_cons,
    (remaining_at_lookup _ _ _ Ho) in Hlt.
  rewrite level_totals_app, level_totals_cons in Htot.
  assert (Hlevels : ∀ m, (∀ p', p' ∈ level_ptrs m → p' ≠ p) →
            Forall (level_ok P h idx s) m →
            Forall (level_ok P h' (delete id idx) s) m).
  { intros m Hm Hf. rewrite Forall_forall in Hf |- *. intros [k1 l1] Hin.
    assert (Hne : ∀ p', p' ∈ PriceLevel.orders_ l1 → p' ≠ p).
    { intros p' Hp'. apply Hm, elem_of_level_ptrs. eauto. }
    apply (level_ok_change P h h' idx); [by apply Hf|..].
    - intros p' Hp'. by apply Hfr, Hne.
    - intros p' o' Hp'. by apply Hidx', Hne. }
  assert (Hok1 : level_ok P h' (delete id idx) s (k, level1)).
  { split_and!; cbn.
    - done.
    - rewrite (sum_remaining_frame h).
      + rewrite sum_remaining_app. lia.
      + intros p' Hp'. apply Hfr, Hstay. left. clear -Hp'. set_solver.
    - rewrite Hq in Hords. apply Forall_app in Hords as [Ho1 Ho2].
      apply Forall_cons in Ho2 as [_ Ho2].
      assert (Hoo : Forall (order_ok P h idx s level) (q1 ++ q2))
        by (apply Forall_app; by split).
      rewrite Forall_forall in Hoo |- *. intros p' Hp'.
      assert (Hne : p' ≠ p).
      { apply Hstay. left. clear -Hp'. set_solver. }
      destruct (Hoo p' Hp') as (o' & Ho' & ? & ? & Hm' & Hi' & ? & ? & ?).
      exists o'. rewrite Hfr by done. split_and!; try done.
      + cbn. rewrite lookup_delete_ne; [done|]. intros Heq.
        rewrite <- Heq, Hmap in Hm'. by injection Hm' as ->.
      + by apply Hidx'.
    - intros i p' Hip. destruct (decide (i = id)) as [->|Hi].
      { by rewrite lookup_delete_eq in Hip. }
      rewrite lookup_delete_ne in Hip by done.
      destruct (Hlmap i p' Hip) as [Hin (o' & Ho' & Hid')].
      assert (Hne : p' ≠ p).
      { intros ->. rewrite Ho in Ho'. injection Ho' as <-. by subst. }
      split.
      + rewrite Hq in Hin. clear -Hin Hne. set_solver.
      + exists o'. by rewrite Hfr. }
  assert (Hptrs : level_ptrs lv'
                  = level_ptrs m1 ++ (q1 ++ q2) ++ level_ptrs m2).
  { subst lv'. case_decide as Hemp.
    - by rewrite Hemp, level_ptrs_app.
    - by rewrite level_ptrs_app, level_ptrs_cons. }
  assert (Hsub : ∀ p', p' ∈ level_ptrs lv' →
            p' ∈ level_ptrs m1 ++ (q1 ++ q2) ++ level_ptrs m2).
  { intros p'. by rewrite Hptrs. }
  split_and!.
  - apply (wf_of_sides P _ _ s).
    + rewrite side_levels_set_orders, side_total_set_orders,
        side_levels_set_side, side_total_set_side. cbn.
      assert (H1 : Forall (level_ok P h' (delete id idx) s) m1).
      { apply Hlevels; [|done]. intros p' Hp'. apply Hstay. left.
        clear -Hp'. set_solver. }
      assert (H2 : Forall (level_ok P h' (delete id idx) s) m2).
      { apply Hlevels; [|done]. intros p' Hp'. apply Hstay. left.
        clear -Hp'. set_solver. }
      subst lv'. case_decide as Hemp.
      * apply app_eq_nil in Hemp as [-> ->].
        rewrite !sum_remaining_nil in Hlt.
        split_and!; [by eapply keys_sorted_remove
                    |rewrite level_totals_app; lia|by apply Forall_app].
      * split_and!; [by eapply keys_sorted_middle| |].
        -- rewrite level_totals_app, level_totals_cons. cbn. lia.
        -- apply Forall_app. split; [done|by apply Forall_cons].
    + rewrite side_levels_set_orders, side_total_set_orders,
        side_levels_set_side_opp, side_total_set_side_opp. cbn.
      apply (side_ok_change P h h' idx); [apply Hside|..].
      * intros p' Hp'. apply Hfr, Hstay. by right.
      * intros p' o' Hp'. apply Hidx', Hstay. by right.
    + rewrite !side_levels_set_orders, side_levels_set_side,
        side_levels_set_side_opp.
      apply NoDup_app. split_and!; [| |done].
      * rewrite Hptrs. by eapply NoDup_remove_middle.
      * intros p' Hp1 Hp2. apply (Hdisj p'); [|done].
        apply Hsub in Hp1. clear -Hp1. set_solver.
    + cbn. intros i p' Hip. destruct (decide (i = id)) as [->|Hi].
      { by rewrite lookup_delete_eq in Hip. }
      rewrite lookup_delete_ne in Hip by done.
      by apply (index_ok_le h h' idx Hix Hle).
  - done.
  - intros p'. rewrite book_ptrs_set_orders, (book_ptrs_sides s _).
    rewrite side_levels_set_side, side_levels_set_side_opp.
    rewrite elem_of_app. intros [H1|H1]; apply Hstay; [left; by apply Hsub|by right].
  - intros _. split.
    + intros (p' & o' & [Hp' Ho'] & Hid').
      rewrite book_ptrs_set_orders, (book_ptrs_sides s _) in Hp'.
      rewrite side_levels_set_side, side_levels_set_side_opp in Hp'.
      assert (Hs : p' ≠ p ∧ p' ∈ book_ptrs b).
      { apply elem_of_app in Hp' as [H1|H1]; apply Hstay;
          [left; by apply Hsub|by right]. }
      destruct Hs as [Hne Hpb]. rewrite Hfr in Ho' by done.
      destruct (wf_resting P h b p' (mk_wf P h b Hside Hnd Hix) Hpb)
        as (o2 & l2 & Ho2 & _ & _ & (o3 & Ho3 & _ & _ & _ & Hi3 & _)).
      rewrite Ho' in Ho3. injection Ho3 as <-. fold idx in Hi3.
      rewrite Hid', Hidx in Hi3. by injection Hi3 as ->.
    + exists p. split_and!; [done|done|]. subst h'. by rewrite length_insert.
Qed.

End cancel_wf.

(** ** OrderBook::modify_order *)

Lemma set_side_id (s : Side) (b : OrderBook.t) :
  OrderBook.set_side s (OrderBook.side_levels s b) (OrderBook.side_total s b) b
  = b.
Proof. by destruct b, s. Qed.

Section update_resting.
Context (P : Order.t → Prop).

(** The object of a resting order is replaced by one with another quantity
    or status; the totals of its level and of its side follow. *)
Lemma wf_update_resting (h : heap) (b : OrderBook.t) (p : ptr)
    (o o' : Order.t) (level : PriceLevel.t)
    (m1 m2 : list (Price * PriceLevel.t)) :
  wf P h b →
  h !! p = Some o →
  OrderBook.side_levels (Order.side_ o) b
    = m1 ++ (Order.price_ o, level) :: m2 →
  p ∈ PriceLevel.orders_ level →
  static_eq o o' →
  0 ≤ Order.remaining_quantity o' →
  Order.status_ o' ≠ FILLED →
  P o' →
  wf P (<[p := o']> h)
    (OrderBook.set_side (Order.side_ o)
       (m1 ++ (Order.price_ o,
               PriceLevel.mk (PriceLevel.price_ level)
                 (PriceLevel.total_quantity_ level
                  - Order.remaining_quantity o + Order.remaining_quantity o')
                 (PriceLevel.orders_ level) (PriceLevel.order_map_ level))
           :: m2)
       (OrderBook.side_total (Order.side_ o) b
        - Order.remaining_quantity o + Order.remaining_quantity o') b).
Proof.
  intros [Hside Hnd Hix] Ho Hlv Hin Hst Hrem Hstat HP.
  set (s := Order.side_ o) in *. set (k := Order.price_ o) in *.
  set (h' := <[p := o']> h). set (level1 := PriceLevel.mk _ _ _ _).
  destruct (list_elem_of_split_l _ _ Hin) as (q1 & q2 & Hq & Hq1).
  pose proof Hnd as Hnd'.
  rewrite (book_ptrs_sides s), Hlv, level_ptrs_app, level_ptrs_cons, Hq in Hnd'.
  assert (Hperm : (level_ptrs m1 ++ (q1 ++ p :: q2) ++ level_ptrs m2)
                  ++ level_ptrs (OrderBook.side_levels (OrderBook.opposite s) b)
                  ≡ₚ p :: (level_ptrs m1 ++ (q1 ++ q2) ++ level_ptrs m2)
                     ++ level_ptrs (OrderBook.side_levels
                                      (OrderBook.opposite s) b))
    by solve_Permutation.
  rewrite Hperm in Hnd'. apply NoDup_cons in Hnd' as [Hpn _].
  assert (Hne : ∀ p', p' ∈ level_ptrs m1 ∨ p' ∈ q1 ∨ p' ∈ q2
                      ∨ p' ∈ level_ptrs m2
                      ∨ p' ∈ level_ptrs (OrderBook.side_levels
                                           (OrderBook.opposite s) b) →
                      h' !! p' = h !! p').
  { intros p' Hp'. apply list_lookup_insert_ne. intros <-. apply Hpn.
    clear -Hp'. set_solver. }
  assert (Hlk : h' !! p = Some o').
  { apply list_lookup_insert_eq. by eapply lookup_lt_Some. }
  assert (Hle : heap_le h h') by (by eapply heap_le_insert).
  destruct Hst as (Hid & Hsd & Hprc & _).
  destruct (Hside s) as (Hsort & Htot & Hall). rewrite Hlv in Hsort, Htot, Hall.
  apply Forall_app in Hall as [Hall1 Hall2].
  apply Forall_cons in Hall2 as [(Hpr & Hlt & Hords & Hlmap) Hall2].
  cbn in Hpr, Hlt, Hords, Hlmap.
  rewrite level_totals_app, level_totals_cons in Htot.
  assert (Hlevels : ∀ m, (∀ p', p' ∈ level_ptrs m → h' !! p' = h !! p') →
            Forall (level_ok P h (OrderBook.orders_ b) s) m →
            Forall (level_ok P h' (OrderBook.orders_ b) s) m).
  { intros m Hm Hf. rewrite Forall_forall in Hf |- *. intros [k1 l1] Hkl.
    apply (level_ok_frame P _ s h); [by apply Hf|].
    intros p' Hp'. apply Hm, elem_of_level_ptrs. eauto. }
  apply (wf_of_sides P _ _ s).
  - rewrite side_levels_set_side, side_total_set_side, orders_set_side.
    split_and!.
    + by eapply keys_sorted_middle.
    + rewrite level_totals_app, level_totals_cons. cbn. lia.
    + apply Forall_app. split; [|apply Forall_cons; split].
      * apply Hlevels; [|done]. intros p' Hp'. apply Hne. by left.
      * split_and!; cbn.
        -- done.
        -- rewrite Hlt, Hq, !sum_remaining_app, !sum_remaining_cons.
           rewrite (remaining_at_lookup _ _ _ Ho), (remaining_at_lookup _ _ _ Hlk).
           rewrite (sum_remaining_frame h h' q1), (sum_remaining_frame h h' q2);
             [lia|intros; apply Hne; auto..].
        -- rewrite Forall_forall in Hords |- *. intros p' Hp'.
           destruct (decide (p' = p)) as [->|Hnp].
           ++ destruct (Hords p Hp') as (o2 & Ho2 & ? & ? & ? & ? & _).
              rewrite Ho in Ho2. injection Ho2 as <-.
              exists o'. split_and!; try done; cbn;
                first [by rewrite <- Hprc | by rewrite <- Hid].
           ++ eapply order_ok_change; [by apply Hords| |done|done].
              apply Hne. rewrite Hq in Hp'. clear -Hp' Hnp. set_solver.
        -- intros i p' Hip. destruct (Hlmap i p' Hip) as [? (o2 & Ho2 & Hi2)].
           split; [done|]. destruct (decide (p' = p)) as [->|Hnp].
           ++ exists o'. split; [done|]. rewrite Ho in Ho2.
              injection Ho2 as <-. by rewrite <- Hid.
           ++ exists o2. subst h'. by rewrite list_lookup_insert_ne.
      * apply Hlevels; [|done]. intros p' Hp'. apply Hne. auto.
  - rewrite side_levels_set_side_opp, side_total_set_side_opp, orders_set_side.
    apply (side_ok_frame P h); [apply Hside|]. intros p' Hp'. apply Hne. auto 10.
  - rewrite side_levels_set_side, side_levels_set_side_opp.
    rewrite level_ptrs_app, level_ptrs_cons. cbn.
    pose proof Hnd as Hnd'.
    by rewrite (book_ptrs_sides s), Hlv, level_ptrs_app, level_ptrs_cons in Hnd'.
  - rewrite orders_set_side. by eapply index_ok_le.
Qed.

End update_resting.

Lemma level_eta (l : PriceLevel.t) :
  PriceLevel.mk (PriceLevel.price_ l) (PriceLevel.total_quantity_ l)
    (PriceLevel.orders_ l) (PriceLevel.order_map_ l) = l.
Proof. by destruct l. Qed.

Section modify_in_place.
Context (P : Order.t → Prop).

(** An id that a level knows is the id of an order the level queues, and
    the book's index sends it to the same order. *)
Lemma level_map_index (h : heap) (b : OrderBook.t) (s : Side) (k : Price)
    (level : PriceLevel.t) (id : OrderId) (it : ptr) :
  wf P h b →
  PriceMap.find k (OrderBook.side_levels s b) = Some level →
  PriceLevel.order_map_ level !! id = Some it →
  OrderBook.orders_ b !! id = Some it
  ∧ it ∈ PriceLevel.orders_ level
  ∧ it ∈ book_ptrs b.
Proof.
  intros Hwf Hfind Hmap.
  destruct (wf_side P h b Hwf s) as (_ & _ & Hall).
  rewrite Forall_forall in Hall.
  destruct (Hall _ (find_Some_elem _ _ _ Hfind)) as (_ & _ & Hords & Hm).
  cbn in Hords, Hm. destruct (Hm id it Hmap) as [Hit (o' & Ho' & Hid')].
  rewrite Forall_forall in Hords.
  destruct (Hords it Hit) as (o2 & Ho2 & _ & _ & _ & Hix & _).
  rewrite Ho' in Ho2. injection Ho2 as <-. rewrite Hid' in Hix.
  split_and!; [done|done|].
  apply elem_of_book_ptrs. exists s. apply elem_of_level_ptrs.
  exists k, level. split; [by apply find_Some_elem|done].
Qed.

(** Quantity underflow: [modify_order_quantity] refuses, the book is not
    touched, and [modify_order] marks the order REPLACED all the same. *)
Lemma modify_order_underflow (fuel : nat) (h : heap) (b : OrderBook.t)
    (id : OrderId) (p : ptr) (o : Order.t) (q : Quantity) :
  wf P h b →
  OrderBook.orders_ b !! id = Some p →
  h !! p = Some o →
  q < Order.executed_quantity_ o →
  q ≤ Order.quantity_ o →
  OrderBook.modify_order fuel h b id None (Some q)
  = Some ([], <[p := Order.set_status REPLACED o]> h, b).
Proof.
  intros Hwf Hidx Ho Hq Hle. unfold OrderBook.modify_order.
  rewrite Hidx, Ho. cbn. rewrite bool_decide_eq_true_2 by done.
  unfold OrderBook.modify_in_place.
  destruct (PriceMap.find (Order.price_ o)
              (OrderBook.side_levels (Order.side_ o) b))
    as [level|] eqn:Hfind; cbn; [|by rewrite Ho].
  unfold PriceLevel.modify_order_quantity.
  destruct (PriceLevel.order_map_ level !! id) as [it|] eqn:Hmap.
  - destruct (level_map_index h b _ _ _ _ _ Hwf Hfind Hmap) as (Hi & _).
    rewrite Hidx in Hi. injection Hi as <-. rewrite Ho. cbn.
    rewrite decide_True by done. cbn. rewrite Ho. cbn. rewrite Ho. cbn.
    rewrite set_find_id by done.
    replace (OrderBook.side_total (Order.side_ o) b
             - Order.remaining_quantity o + Order.remaining_quantity o)
      with (OrderBook.side_total (Order.side_ o) b) by lia.
    by rewrite set_side_id.
  - cbn. rewrite Ho. cbn. rewrite Ho. cbn. rewrite set_find_id by done.
    replace (OrderBook.side_total (Order.side_ o) b
             - Order.remaining_quantity o + Order.remaining_quantity o)
      with (OrderBook.side_total (Order.side_ o) b) by lia.
    by rewrite set_side_id.
Qed.

(** The index entry is stale (its order no longer rests): nothing but the
    status of that order changes. *)
Lemma modify_order_stale (fuel : nat) (h : heap) (b : OrderBook.t)
    (id : OrderId) (p : ptr) (o : Order.t) (q : Quantity) :
  wf P h b →
  OrderBook.orders_ b !! id = Some p →
  h !! p = Some o →
  p ∉ book_ptrs b →
  q ≤ Order.quantity_ o →
  OrderBook.modify_order fuel h b id None (Some q)
  = Some ([], <[p := Order.set_status REPLACED o]> h, b).
Proof.
  intros Hwf Hidx Ho Hp Hle. unfold OrderBook.modify_order.
  rewrite Hidx, Ho. cbn. rewrite bool_decide_eq_true_2 by done.
  unfold OrderBook.modify_in_place.
  destruct (PriceMap.find (Order.price_ o)
              (OrderBook.side_levels (Order.side_ o) b))
    as [level|] eqn:Hfind; cbn; [|by rewrite Ho].
  unfold PriceLevel.modify_order_quantity.
  destruct (PriceLevel.order_map_ level !! id) as [it|] eqn:Hmap.
  - destruct (level_map_index h b _ _ _ _ _ Hwf Hfind Hmap) as (Hi & _ & Hin).
    rewrite Hidx in Hi. injection Hi as <-. done.
  - cbn. rewrite Ho. cbn. rewrite Ho. cbn. rewrite set_find_id by done.
    replace (OrderBook.side_total (Order.side_ o) b
             - Order.remaining_quantity o + Order.remaining_quantity o)
      with (OrderBook.side_total (Order.side_ o) b) by lia.
    by rewrite set_side_id.
Qed.

(** The in-place path on a resting order, when the new quantity covers what
    was executed. *)
Lemma modify_order_in_place (fuel : nat) (h : heap) (b : OrderBook.t)
    (id : OrderId) (p : ptr) (q : Quantity) :
  wf P h b →
  OrderBook.orders_ b !! id = Some p →
  p ∈ book_ptrs b →
  ∃ o level m1 m2,
    h !! p = Some o
    ∧ OrderBook.side_levels (Order.side_ o) b
      = m1 ++ (Order.price_ o, level) :: m2
    ∧ p ∈ PriceLevel.orders_ level
    ∧ 0 ≤ Order.remaining_quantity o
    ∧ (Order.executed_quantity_ o ≤ q → q ≤ Order.quantity_ o →
       OrderBook.modify_order fuel h b id None (Some q)
       = Some ([],
               <[p := Order.set_status REPLACED (Order.set_quantity q o)]> h,
               OrderBook.set_side (Order.side_ o)
                 (m1 ++ (Order.price_ o,
                         PriceLevel.mk (PriceLevel.price_ level)
                           (PriceLevel.total_quantity_ level
                            - Order.remaining_quantity o
                            + Order.remaining_quantity
                                (Order.set_quantity q o))
                           (PriceLevel.orders_ level)
                           (PriceLevel.order_map_ level)) :: m2)
                 (OrderBook.side_total (Order.side_ o) b
                  - Order.remaining_quantity o
                  + Order.remaining_quantity (Order.set_quantity q o)) b)).
Proof.
  intros Hwf Hidx Hp.
  destruct (wf_resting P h b p Hwf Hp)
    as (o & level & Ho & Hfind & Hin & (o' & Ho' & _ & _ & Hmap & Hix & Hrem & _)).
  rewrite Ho in Ho'. injection Ho' as <-.
  destruct (wf_index P h b Hwf id p Hidx) as (o' & Ho' & Hid).
  rewrite Ho in Ho'. injection Ho' as <-.
  destruct (find_split _ _ _ Hfind) as (m1 & m2 & Hlv & Hn).
  exists o, level, m1, m2. split_and!; [done..|].
  intros Hge Hle. unfold OrderBook.modify_order.
  rewrite Hidx, Ho. cbn. rewrite bool_decide_eq_true_2 by done.
  unfold OrderBook.modify_in_place.
  rewrite Hfind. cbn. unfold PriceLevel.modify_order_quantity.
  rewrite <- Hid, Hmap, Ho. cbn. rewrite decide_False by lia. cbn.
  assert (Hlt : (p < length h)%nat) by (by eapply lookup_lt_Some).
  rewrite list_lookup_insert_eq by done. cbn.
  rewrite list_lookup_insert_eq by done. cbn.
  rewrite list_insert_insert_eq. rewrite Hlv, set_middle by done. done.
Qed.

End modify_in_place.

Lemma cancel_fields (o : Order.t) :
  Order.id_ (Order.cancel o) = Order.id_ o
  ∧ Order.symbol_ (Order.cancel o) = Order.symbol_ o
  ∧ Order.side_ (Order.cancel o) = Order.side_ o
  ∧ Order.type_ (Order.cancel o) = Order.type_ o
  ∧ Order.quantity_ (Order.cancel o) = Order.quantity_ o
  ∧ Order.executed_quantity_ (Order.cancel o) = Order.executed_quantity_ o
  ∧ Order.price_ (Order.cancel o) = Order.price_ o
  ∧ Order.time_in_force_ (Order.cancel o) = Order.time_in_force_ o.
Proof. unfold Order.cancel. by destruct (Order.is_active o). Qed.

Section modify_wf.
Context (P : Order.t → Prop).
Hypothesis Hstable : exec_stable P.

Lemma wf_alloc (h : heap) (b : OrderBook.t) (o : Order.t) :
  wf P h b →
  wf P (h ++ [o]) b ∧ (length h ∉ book_ptrs b)
  ∧ (h ++ [o]) !! length h = Some o.
Proof.
  intros Hwf. split_and!.
  - apply (wf_frame P h); [done| |apply heap_le_alloc].
    intros p Hp. destruct (wf_valid P h b p Hwf Hp) as [op Hop].
    rewrite Hop. by apply lookup_app_l_Some.
  - intros Hp. destruct (wf_valid P h b _ Hwf Hp) as [op Hop].
    apply lookup_lt_Some in Hop. lia.
  - by rewrite list_lookup_middle.
Qed.

Lemma cancel_and_replace_ok (fuel : nat) (h : heap) (b : OrderBook.t)
    (id : OrderId) (p : ptr) (o : Order.t)
    (np : option Price) (nq : option Quantity) ms h' b' :
  OrderBook.cancel_and_replace fuel h b id p np nq = Some (ms, h', b') →
  wf P h b →
  OrderBook.orders_ b !! id = Some p →
  h !! p = Some o →
  (p ∈ book_ptrs b →
   ∀ o', taker_result
           (Order.set_status ACCEPTED
              (Order.make id (Order.symbol_ o) (Order.side_ o) (Order.type_ o)
                 (default (Order.quantity_ o) nq)
                 (default (Order.price_ o) np) (Order.time_in_force_ o))) o' →
         Order.is_filled o' = false →
         Order.time_in_force_ o' ≠ IOC →
         Order.type_ o' = LIMIT → P o') →
  wf P h' b' ∧ heap_le h h'.
Proof.
  unfold OrderBook.cancel_and_replace. intros Hrun Hwf Hidx Ho Hrep.
  destruct (OrderBook.cancel_order h b id) as [[[c h1] b1]|] eqn:Hc; [|done].
  cbn in Hrun.
  destruct (cancel_order_ok P _ _ _ _ _ _ Hc Hwf) as (Hwf1 & Hle1 & Hsub1 & Htrue).
  destruct c; cbn in Hrun; cycle 1.
  { injection Hrun as <- <- <-. done. }
  destruct (Htrue eq_refl) as (Hfresh & p' & Hp' & Hpin & Hlen).
  rewrite Hidx in Hp'. injection Hp' as <-.
  destruct (cancel_order_resting P h b id p Hwf Hidx Hpin)
    as (o2 & lvl & m1 & m2 & q1 & q2 & Ho2 & _ & _ & _ & _ & _ & _ & _ & Hres).
  rewrite Ho in Ho2. injection Ho2 as <-.
  rewrite Hc in Hres. injection Hres as Hh1 _. subst h1.
  rewrite list_lookup_insert_eq in Hrun by (by eapply lookup_lt_Some).
  cbn in Hrun.
  destruct (cancel_fields o) as (_ & -> & -> & -> & -> & _ & -> & ->) in Hrun.
  set (no := Order.make _ _ _ _ _ _ _) in *.
  set (h1 := <[p := Order.cancel o]> h) in *.
  destruct (wf_alloc h1 b1 no Hwf1) as (Hwf2 & Hnew & Hlk).
  destruct (add_order_ok P Hstable _ _ _ _ _ _ _ _ Hrun Hwf2 Hlk Hnew)
    as (Hwf' & Hle').
  - intros (p' & o' & [Hp' Ho'] & Hid'). apply Hfresh.
    exists p', o'. split; [split; [done|]|done].
    destruct (wf_valid P h1 b1 p' Hwf1 Hp') as [op Hop].
    rewrite (lookup_app_l_Some _ _ _ _ Hop) in Ho'. congruence.
  - by apply Hrep.
  - split; [done|]. eapply heap_le_trans; [exact Hle1|].
    eapply heap_le_trans; [apply heap_le_alloc|done].
Qed.

Lemma wf_update_status (h : heap) (b : OrderBook.t) (p : ptr) (o o' : Order.t) :
  wf P h b →
  h !! p = Some o →
  static_eq o o' →
  Order.remaining_quantity o' = Order.remaining_quantity o →
  Order.status_ o' ≠ FILLED →
  (p ∈ book_ptrs b → P o') →
  wf P (<[p := o']> h) b.
Proof.
  intros Hwf Ho Hst Hrem Hstat HP.
  destruct (decide (p ∈ book_ptrs b)) as [Hp|Hp]; cycle 1.
  { apply (wf_frame P h); [done| |by eapply heap_le_insert].
    intros p' Hp'. apply list_lookup_insert_ne. by intros <-. }
  destruct (wf_resting P h b p Hwf Hp)
    as (o2 & level & Ho2 & Hfind & Hin & (o3 & Ho3 & _ & _ & _ & _ & Hr & _)).
  rewrite Ho in Ho2, Ho3. injection Ho2 as <-. injection Ho3 as <-.
  destruct (find_split _ _ _ Hfind) as (m1 & m2 & Hlv & Hn).
  pose proof (wf_update_resting P h b p o o' level m1 m2 Hwf Ho Hlv Hin Hst)
    as Hupd.
  rewrite Hrem in Hupd.
  replace (PriceLevel.total_quantity_ level - Order.remaining_quantity o
           + Order.remaining_quantity o)
    with (PriceLevel.total_quantity_ level) in Hupd by lia.
  replace (OrderBook.side_total (Order.side_ o) b
           - Order.remaining_quantity o + Order.remaining_quantity o)
    with (OrderBook.side_total (Order.side_ o) b) in Hupd by lia.
  rewrite level_eta, <- Hlv, set_side_id in Hupd. apply Hupd; auto.
Qed.

Lemma modify_order_ok (fuel : nat) (h : heap) (b : OrderBook.t)
    (id : OrderId) (np : option Price) (nq : option Quantity) ms h' b' :
  OrderBook.modify_order fuel h b id np nq = Some (ms, h', b') →
  wf P h b →
  (∀ p o q, OrderBook.orders_ b !! id = Some p → resting h b p o → P o →
     np = None → nq = Some q → q ≤ Order.quantity_ o →
     P (Order.set_status REPLACED
          (if decide (q < Order.executed_quantity_ o) then o
           else Order.set_quantity q o))) →
  (∀ p o o', OrderBook.orders_ b !! id = Some p → resting h b p o → P o →
     taker_result
       (Order.set_status ACCEPTED
          (Order.make id (Order.symbol_ o) (Order.side_ o) (Order.type_ o)
             (default (Order.quantity_ o) nq)
             (default (Order.price_ o) np) (Order.time_in_force_ o))) o' →
     Order.is_filled o' = false →
     Order.time_in_force_ o' ≠ IOC →
     Order.type_ o' = LIMIT → P o') →
  wf P h' b' ∧ heap_le h h'.
Proof.
  intros Hrun Hwf Hin Hrep.
  assert (Hnop : Some (([] : list OrderBook.OrderMatch), h, b)
                 = Some (ms, h', b') → wf P h' b' ∧ heap_le h h').
  { intros [= <- <- <-]. split; [done|apply heap_le_refl]. }
  destruct (OrderBook.orders_ b !! id) as [p|] eqn:Hidx; cycle 1.
  { unfold OrderBook.modify_order in Hrun. rewrite Hidx in Hrun.
    destruct np, nq; by apply Hnop. }
  destruct (wf_index P h b Hwf id p Hidx) as (o & Ho & Hid).
  assert (HPo : p ∈ book_ptrs b → P o ∧ 0 ≤ Order.remaining_quantity o).
  { intros Hp. destruct (wf_resting P h b p Hwf Hp)
      as (o2 & _ & Ho2 & _ & _ & (o3 & Ho3 & _ & _ & _ & _ & ? & _ & ?)).
    rewrite Ho in Ho2, Ho3. injection Ho2 as <-. by injection Ho3 as <-. }
  assert (Hreplace :
    OrderBook.cancel_and_replace fuel h b id p np nq = Some (ms, h', b') →
    wf P h' b' ∧ heap_le h h').
  { intros Hcr. eapply cancel_and_replace_ok; eauto.
    intros Hp o' Hres. eapply Hrep; eauto; [by split|by apply HPo]. }
  unfold OrderBook.modify_order in Hrun. rewrite Hidx, Ho in Hrun.
  cbn in Hrun.
  destruct np as [pr|], nq as [q|]; cbn in Hrun; try by apply Hreplace.
  - case_bool_decide as Hq; [|by apply Hreplace].
    assert (Hmod : OrderBook.modify_order fuel h b id None (Some q)
                   = OrderBook.modify_in_place h b id p o q).
    { unfold OrderBook.modify_order. rewrite Hidx, Ho. cbn.
      by rewrite bool_decide_eq_true_2. }
    rewrite <- Hmod in Hrun. clear Hmod.
    destruct (decide (p ∈ book_ptrs b)) as [Hp|Hp]; cycle 1.
    { rewrite (modify_order_stale P fuel h b id p o q) in Hrun by done.
      injection Hrun as <- <- <-. split.
      - apply wf_update_status with (o := o);
          [done|done|apply static_eq_set_status|done|done|done].
      - eapply heap_le_insert; [done|apply static_eq_set_status]. }
    destruct (HPo Hp) as [HP0 Hrem0].
    specialize (Hin p o q eq_refl (conj Hp Ho) HP0 eq_refl eq_refl Hq).
    destruct (decide (q < Order.executed_quantity_ o)) as [Hlt|Hge].
    + rewrite (modify_order_underflow P fuel h b id p o q) in Hrun by done.
      injection Hrun as <- <- <-. split.
      * apply wf_update_status with (o := o);
          [done|done|apply static_eq_set_status|done|done|done].
      * eapply heap_le_insert; [done|apply static_eq_set_status].
    + destruct (modify_order_in_place P fuel h b id p q Hwf Hidx Hp)
        as (o2 & level & m1 & m2 & Ho2 & Hlv & Hpl & _ & Hres).
      rewrite Ho in Ho2. injection Ho2 as <-.
      rewrite Hres in Hrun by lia. injection Hrun as <- <- <-. split.
      * change (Order.remaining_quantity (Order.set_quantity q o))
          with (Order.remaining_quantity
                  (Order.set_status REPLACED (Order.set_quantity q o))).
        apply (wf_update_resting P h b p o _ level m1 m2 Hwf Ho Hlv Hpl).
        -- eapply static_eq_trans;
             [apply static_eq_set_quantity|apply static_eq_set_status].
        -- unfold Order.remaining_quantity. cbn. lia.
        -- done.
        -- done.
      * eapply heap_le_insert; [done|].
        eapply static_eq_trans;
          [apply static_eq_set_quantity|apply static_eq_set_status].
  - by apply Hnop.
Qed.

End modify_wf.

(** ** Runs *)

Lemma wf_initial (P : Order.t → Prop) (symbol : string) :
  wf P [] (OrderBook.make symbol).
Proof.
  split.
  - intros []; (split_and!; [apply SSorted_nil|done|apply Forall_nil_2]).
  - apply NoDup_nil_2.
  - intros i p Hip. cbn in Hip. by rewrite lookup_empty in Hip.
Qed.

Lemma resting_id_alloc (P : Order.t → Prop) (h : heap) (b : OrderBook.t)
    (o : Order.t) (id : OrderId) :
  wf P h b → ¬ resting_id h b id → ¬ resting_id (h ++ [o]) b id.
Proof.
  intros Hwf Hfresh (p & o' & [Hp Ho'] & Hid). apply Hfresh.
  exists p, o'. split; [split; [done|]|done].
  destruct (wf_valid P h b p Hwf Hp) as [op Hop].
  rewrite (lookup_app_l_Some _ _ _ _ Hop) in Ho'. congruence.
Qed.

Section run_wf.
Context (P : Order.t → Prop).
Hypothesis Hstable : exec_stable P.

(** One operation keeps the book well formed, provided the orders it lets
    rest, or rewrites in place, satisfy [P]. *)
Lemma run_op_wf (fuel : nat) (h : heap) (b : OrderBook.t) (op : Op) h' b' :
  run_op fuel (h, b) op = Some (h', b') →
  wf P h b →
  match op with
  | Submit id symbol side type quantity price tif =>
      ¬ resting_id h b id
      ∧ ∀ o', taker_result
                (Order.set_status ACCEPTED
                   (Order.make id symbol side type quantity price tif)) o' →
              Order.is_filled o' = false →
              Order.time_in_force_ o' ≠ IOC →
              Order.type_ o' = LIMIT → P o'
  | Cancel _ => True
  | Modify id np nq =>
      (∀ p o q, OrderBook.orders_ b !! id = Some p → resting h b p o → P o →
         np = None → nq = Some q → q ≤ Order.quantity_ o →
         P (Order.set_status REPLACED
              (if decide (q < Order.executed_quantity_ o) then o
               else Order.set_quantity q o)))
      ∧ (∀ p o o', OrderBook.orders_ b !! id = Some p → resting h b p o →
           P o →
           taker_result
             (Order.set_status ACCEPTED
                (Order.make id (Order.symbol_ o) (Order.side_ o)
                   (Order.type_ o) (default (Order.quantity_ o) nq)
                   (default (Order.price_ o) np) (Order.time_in_force_ o)))
             o' →
           Order.is_filled o' = false →
           Order.time_in_force_ o' ≠ IOC →
           Order.type_ o' = LIMIT → P o')
  end →
  wf P h' b' ∧ heap_le h h'.
Proof.
  intros Hrun Hwf Hop. destruct op as [id sy sd ty q pr tif|id|id np nq];
    cbn in Hrun.
  - destruct Hop as [Hfresh HP].
    set (o := Order.make id sy sd ty q pr tif) in *.
    destruct (OrderBook.add_order fuel (h ++ [o]) b (length h))
      as [[[ms h2] b2]|] eqn:Hadd; [|done].
    injection Hrun as <- <-.
    destruct (wf_alloc P h b o Hwf) as (Hwf1 & Hnew & Hlk).
    destruct (add_order_ok P Hstable _ _ _ _ _ _ _ _ Hadd Hwf1 Hlk Hnew)
      as (Hwf' & Hle'); [by eapply resting_id_alloc|done|].
    split; [done|]. eapply heap_le_trans; [apply heap_le_alloc|done].
  - destruct (OrderBook.cancel_order h b id) as [[[c h1] b1]|] eqn:Hc; [|done].
    injection Hrun as <- <-.
    by destruct (cancel_order_ok P _ _ _ _ _ _ Hc Hwf) as (? & ? & _).
  - destruct (OrderBook.modify_order fuel h b id np nq)
      as [[[ms h1] b1]|] eqn:Hm; [|done].
    injection Hrun as <- <-. destruct Hop as [Hin Hrep].
    by eapply modify_order_ok.
Qed.

End run_wf.

Lemma exec_stable_True : exec_stable (λ _, True).
Proof. by intros o q. Qed.

Lemma reachable_wf (h : heap) (b : OrderBook.t) :
  reachable valid_op h b → wf (λ _, True) h b.
Proof.
  induction 1 as [symbol|h b op fuel h' b' _ IH Hvalid Hrun].
  - apply wf_initial.
  - refine (proj1 (run_op_wf _ exec_stable_True _ _ _ _ _ _ Hrun IH _)).
    destruct op as [id sy sd ty q pr tif|id|id np nq]; [|done|done].
    by destruct Hvalid as (_ & ? & _).
Qed.

(** ** Runs without FOK orders *)

Lemma exec_stable_live : exec_stable live.
Proof.
  intros o q ([Hact|Hrep] & Hrem & Htif) Hq Hle Hst Hfl;
    apply is_filled_false in Hfl as [Hst' Hne];
    destruct (execute_spec q o) as (Hqt & Hr & Hr0 & _);
    destruct (static_eq_execute q o) as (_ & _ & _ & _ & Htif');
    (split_and!; [|lia|congruence]).
  all: revert Hst'; unfold Order.execute, Order.is_active in *.
  all: repeat case_decide; cbn; intros; auto.
  all: right; done.
Qed.

Lemma live_taker (o o' : Order.t) :
  Order.time_in_force_ o ≠ FOK →
  taker_result (Order.set_status ACCEPTED o) o' →
  Order.is_filled o' = false →
  live o'.
Proof.
  intros Htif [x [->|[Hfok _]]] Hfl; [|done].
  apply is_filled_false in Hfl as [Hst Hne].
  destruct (execute_spec x (Order.set_status ACCEPTED o)) as (_ & _ & Hr0 & _).
  destruct (static_eq_execute x (Order.set_status ACCEPTED o))
    as (_ & _ & _ & _ & Htif').
  split_and!; [|lia|by rewrite <- Htif'].
  left. revert Hst. unfold Order.execute, Order.is_active.
  repeat case_decide; cbn; intros; done.
Qed.

Lemma reachable_strict_wf (h : heap) (b : OrderBook.t) :
  reachable valid_op_strict h b → wf live h b.
Proof.
  induction 1 as [symbol|h b op fuel h' b' _ IH Hvalid Hrun].
  - apply wf_initial.
  - refine (proj1 (run_op_wf _ exec_stable_live _ _ _ _ _ _ Hrun IH _)).
    destruct Hvalid as [Hvalid Hstrict].
    destruct op as [id sy sd ty q pr tif|id|id np nq]; [|done|].
    + split; [by destruct Hvalid as (_ & ? & _)|].
      intros o' Hres Hfl _ _.
      by apply (live_taker (Order.make id sy sd ty q pr tif)).
    + split.
      * intros p o q Hidx [Hp Ho] (_ & _ & Htif) _ -> Hq.
        specialize (Hstrict q p o eq_refl Hidx Ho).
        rewrite decide_False by lia.
        split_and!; [by right| |done].
        unfold Order.remaining_quantity. cbn. lia.
      * intros p o o' Hidx [Hp Ho] (_ & _ & Htif) Hres Hfl _ _.
        by eapply live_taker; [|exact Hres|].
Qed.

(** ** Checked runs are runs of valid operations *)

Lemma resting_idb_false (h : heap) (b : OrderBook.t) (id : OrderId) :
  resting_idb h b id = false → ¬ resting_id h b id.
Proof.
  intros Hb (p & o & [Hp Ho] & Hid).
  assert (Ht : resting_idb h b id = true); [|congruence].
  apply existsb_exists. exists p. split; [by apply list_elem_of_In|].
  rewrite Ho. by apply bool_decide_eq_true.
Qed.

Lemma valid_opb_sound (h : heap) (b : OrderBook.t) (op : Op) :
  valid_opb (h, b) op = true → valid_op h b op.
Proof.
  destruct op as [id sy sd ty q pr tif|id|id np nq]; cbn; [|done|].
  - rewrite !andb_true_iff, orb_true_iff, negb_true_iff, !bool_decide_eq_true.
    intros [[[? ?%resting_idb_false] ?] Hpr]. split_and!; try done.
    intros ->. by destruct Hpr.
  - rewrite andb_true_iff. intros [Hp Hq]. split.
    + intros p ->. by apply bool_decide_eq_true in Hp.
    + intros q ->. by apply bool_decide_eq_true in Hq.
Qed.

Lemma valid_op_strictb_sound (h : heap) (b : OrderBook.t) (op : Op) :
  valid_op_strictb (h, b) op = true → valid_op_strict h b op.
Proof.
  unfold valid_op_strictb. rewrite andb_true_iff.
  intros [Hv Hs]. split; [by apply valid_opb_sound|].
  destruct op as [id sy sd ty q pr tif|id|id np nq]; [|done|].
  - by apply bool_decide_eq_true in Hs.
  - intros q p o -> Hg Ho. cbn in Hs. rewrite Hg, Ho in Hs.
    by apply bool_decide_eq_true in Hs.
Qed.

Lemma reachable_run_checked (valid : heap → OrderBook.t → Op → Prop)
    (check : heap * OrderBook.t → Op → bool) (fuel : nat) (ops : list Op) :
  (∀ h b op, check (h, b) op = true → valid h b op) →
  ∀ h b h' b',
    reachable valid h b →
    run_checked check fuel (h, b) ops = Some (h', b') →
    reachable valid h' b'.
Proof.
  intros Hsound. induction ops as [|op ops IH]; intros h b h' b' Hreach Hrun.
  - by injection Hrun as <- <-.
  - change (run_checked check fuel (h, b) (op :: ops))
      with (if check (h, b) op
            then run_op fuel (h, b) op
                 ≫= (λ st1, run_checked check fuel st1 ops)
            else None) in Hrun.
    destruct (check (h, b) op) eqn:Hc; [|done].
    destruct (run_op fuel (h, b) op) as [[h1 b1]|] eqn:Hop; [|done].
    eapply IH; [|done].
    eapply reach_step; [done| |done]. by apply Hsound.
Qed.

(** ** Termination: enough fuel gives a result *)

Lemma execute_loop_stop (fuel : nat) (h : heap) (rem : Quantity)
    (l : PriceLevel.t) (ex : list (ptr * Quantity)) :
  rem ≤ 0 → PriceLevel.execute_loop fuel h rem l ex = Some (h, l, ex).
Proof.
  intros Hrem. destruct fuel, l as [pr tot [|order rest] mp]; cbn; try done.
  all: unfold ZERO; by rewrite decide_False by lia.
Qed.

Section total.
Context (P : Order.t → Prop) (idx : gmap OrderId ptr) (s : Side).
Hypothesis Hstable : exec_stable P.

Lemma execute_loop_total (fuel : nat) :
  ∀ (h : heap) (rem : Quantity) (l : PriceLevel.t)
    (ex : list (ptr * Quantity)),
  level_ok P h idx s (PriceLevel.price_ l, l) →
  NoDup (PriceLevel.orders_ l) →
  (length (PriceLevel.orders_ l) < fuel)%nat →
  is_Some (PriceLevel.execute_loop fuel h rem l ex).
Proof.
  induction fuel as [|fuel IH]; intros h rem l ex Hok Hnd Hlen; [lia|].
  destruct l as [pr tot [|order rest] mp]; cbn; [by eexists|].
  unfold ZERO. case_decide as Hrem; [|by eexists].
  set (l := PriceLevel.mk pr tot (order :: rest) mp) in *.
  assert (Hq : PriceLevel.orders_ l = order :: rest) by done.
  destruct Hok as (Hpr & Htot & Hall & Hmap). pose proof Hall as Hall'.
  cbn in Hall'. apply Forall_cons in Hall' as [(o & Ho & _) _].
  rewrite Ho. cbn.
  destruct (PriceLevel.execute_body h rem l ex order rest o)
    as [[[h1 rem1] l1] ex1] eqn:Hbody.
  destruct (execute_body_ok P idx s _ _ _ _ _ _ _ _ _ _ _ Hstable
              (conj Hpr (conj Htot (conj Hall Hmap))) Hnd Hq Ho Hrem Hbody)
    as (Hok1 & Hpr1 & Hq1 & _).
  destruct Hq1 as [Hq1|[Hq1 Hrem1]].
  - apply IH.
    + by rewrite Hpr1.
    + rewrite Hq1. cbn in Hnd. by apply NoDup_cons in Hnd as [_ ?].
    + rewrite Hq1. cbn in Hlen. lia.
  - rewrite execute_loop_stop by done. by eexists.
Qed.

Lemma execute_quantity_total (fuel : nat) (h : heap) (q : Quantity)
    (l : PriceLevel.t) :
  level_ok P h idx s (PriceLevel.price_ l, l) →
  NoDup (PriceLevel.orders_ l) →
  (length (PriceLevel.orders_ l) < fuel)%nat →
  is_Some (PriceLevel.execute_quantity fuel h q l).
Proof.
  intros Hok Hnd Hlen. unfold PriceLevel.execute_quantity.
  destruct (_ || _); [by eexists|]. by apply execute_loop_total.
Qed.

Lemma take_level_total (fuel : nat) (taker : ptr) (h : heap) (price : Price)
    (level : PriceLevel.t) (rest : list (Price * PriceLevel.t))
    (total rem : Quantity) (ms : list OrderBook.OrderMatch) :
  side_ok P h idx s ((price, level) :: rest) total →
  NoDup (level_ptrs ((price, level) :: rest)) →
  is_Some (h !! taker) →
  (length (PriceLevel.orders_ level) < fuel)%nat →
  is_Some (OrderBook.take_level fuel taker h price level rest total rem ms).
Proof.
  intros (Hsort & Htot & Hall) Hnd Htaker Hlen. unfold OrderBook.take_level.
  apply Forall_cons in Hall as [Hlvl _].
  rewrite level_ptrs_cons in Hnd. apply NoDup_app in Hnd as (Hnd1 & _ & _).
  assert (Hpr : PriceLevel.price_ level = price) by apply Hlvl.
  rewrite <- Hpr in Hlvl.
  destruct (execute_quantity_total fuel h rem level Hlvl Hnd1 Hlen)
    as [[[h1 level1] ex] Hexec].
  rewrite Hexec. cbn.
  destruct (execute_quantity_ok P idx s Hstable _ _ _ _ _ _ _ Hexec Hlvl Hnd1)
    as (_ & _ & _ & Hle & Hmk & _).
  destruct (record_matches_total h1 taker ex) with (ms := ms) (rem := rem)
    (total := total) as [[[ms1 rem1] total1] Hrec].
  - by eapply heap_le_is_Some.
  - eapply Forall_impl; [exact Hmk|]. intros [maker q] Hin. cbn in *.
    eapply heap_le_is_Some; [done|].
    destruct Hlvl as (_ & _ & Hords & _). rewrite Forall_forall in Hords.
    destruct (Hords maker Hin) as (o & Ho & _). eauto.
  - rewrite Hrec. cbn. by eexists.
Qed.

Lemma match_loop_total (past : Price → bool) (taker : ptr) (fuel : nat) :
  ∀ (h : heap) (lv : list (Price * PriceLevel.t)) (total rem : Quantity)
    (ms : list OrderBook.OrderMatch),
  side_ok P h idx s lv total →
  NoDup (level_ptrs lv) →
  is_Some (h !! taker) →
  (length lv + length (level_ptrs lv) < fuel)%nat →
  is_Some (OrderBook.match_loop fuel past taker h lv total rem ms).
Proof.
  induction fuel as [|fuel IH]; intros h lv total rem ms Hok Hnd Htaker Hlen;
    [lia|].
  destruct lv as [|[price level] rest]; cbn; [by eexists|].
  case_decide as Hrem; [|by eexists].
  destruct (past price); [by eexists|].
  rewrite level_ptrs_cons, length_app in Hlen. cbn in Hlen.
  destruct (take_level_total fuel taker h price level rest total rem ms
              Hok Hnd Htaker) as [[[[[h1 lv1] total1] rem1] ms1] Htake]; [lia|].
  rewrite Htake. cbn.
  destruct (take_level_ok P idx s Hstable _ _ _ _ _ _ _ _ _ _ _ _ _ _
              Htake Hok Hnd) as (Hok1 & Hnd1 & _ & _ & Hle1 & Hnext).
  destruct (heap_le_is_Some _ _ _ Hle1 Htaker) as [order Horder].
  rewrite Horder. cbn.
  destruct (bool_decide (rem1 ≤ ZERO)) eqn:Hbreak; cbn; [by eexists|].
  destruct (_ && _); [by eexists|].
  apply bool_decide_eq_false in Hbreak. unfold ZERO in Hbreak.
  destruct Hnext as [->|?]; [|lia].
  apply IH; [done|done|by rewrite Horder|lia].
Qed.

End total.

Section total_book.
Context (P : Order.t → Prop).
Hypothesis Hstable : exec_stable P.

Lemma match_order_total (past : Price → bool) (h : heap) (b : OrderBook.t)
    (order : ptr) (o : Order.t) :
  wf P h b →
  h !! order = Some o →
  order ∉ book_ptrs b →
  is_Some (OrderBook.match_order (enough_fuel b) past h b order o).
Proof.
  intros Hwf Ho Hnin. unfold OrderBook.match_order.
  set (opp := OrderBook.opposite (Order.side_ o)).
  pose proof (wf_nodup P h b Hwf) as Hnd.
  rewrite (book_ptrs_sides opp) in Hnd.
  apply NoDup_app in Hnd as (Hnd1 & _ & _).
  destruct (match_loop_total P (OrderBook.orders_ b) opp Hstable past order
              (enough_fuel b) h (OrderBook.side_levels opp b)
              (OrderBook.side_total opp b) (Order.remaining_quantity o) []
              (wf_side P h b Hwf opp) Hnd1)
    as [[[[[h1 lv1] total1] rem1] ms1] Hloop]; [by eexists| |].
  { unfold enough_fuel, book_ptrs. rewrite length_app.
    destruct opp; cbn; lia. }
  rewrite Hloop. cbn.
  destruct (match_loop_ok P (OrderBook.orders_ b) opp Hstable _ _ _ _ _ _ _
              _ _ _ _ _ _ Hloop (wf_side P h b Hwf opp) Hnd1)
    as (_ & _ & _ & _ & Hle1).
  destruct (Hle1 order o Ho) as (o1 & Ho1 & _). rewrite Ho1. cbn.
  destruct (_ && _); by eexists.
Qed.

Lemma add_order_total (h : heap) (b : OrderBook.t) (order : ptr) :
  wf P h b →
  order ∉ book_ptrs b →
  is_Some (OrderBook.add_order (enough_fuel b) h b order).
Proof.
  intros Hwf Hnin. unfold OrderBook.add_order.
  destruct (h !! order) as [o|] eqn:Ho; [|by eexists].
  destruct (Order.is_valid o); cbn; [|by eexists].
  set (o1 := Order.set_status ACCEPTED o).
  set (h1 := <[order := o1]> h).
  assert (Ho1 : h1 !! order = Some o1).
  { apply list_lookup_insert_eq. by eapply lookup_lt_Some. }
  assert (Hwf1 : wf P h1 b).
  { apply (wf_frame P h); [done| |].
    - intros p Hp. apply list_lookup_insert_ne. by intros <-.
    - eapply heap_le_insert; [done|apply static_eq_set_status]. }
  destruct (Order.type_ o) eqn:Hty; [| |by eexists..].
  - unfold OrderBook.match_limit_order. rewrite Ho1.
    rewrite decide_False by (cbn; rewrite Hty; auto).
    destruct (match_order_total
                (OrderBook.past_limit (Order.side_ o1) (Order.price_ o1))
                h1 b order o1 Hwf1 Ho1 Hnin) as [[[ms2 h2] b2] Hm].
    rewrite Hm. cbn.
    destruct (match_order_ok P Hstable _ _ _ _ _ _ _ _ _ Hm Hwf1 Ho1 Hnin)
      as (_ & _ & _ & _ & o2 & Ho2 & _).
    rewrite Ho2. cbn. destruct (_ && _); by eexists.
  - unfold OrderBook.match_market_order. rewrite Ho1.
    rewrite decide_False by (cbn; rewrite Hty; auto).
    by apply match_order_total.
Qed.

Lemma cancel_order_total (h : heap) (b : OrderBook.t) (id : OrderId) :
  wf P h b → is_Some (OrderBook.cancel_order h b id).
Proof.
  intros Hwf.
  destruct (OrderBook.orders_ b !! id) as [p|] eqn:Hidx; cycle 1.
  { rewrite (cancel_order_not_resting P); [by eexists|done|].
    intros p. by rewrite Hidx. }
  destruct (decide (p ∈ book_ptrs b)) as [Hp|Hp]; cycle 1.
  { rewrite (cancel_order_not_resting P); [by eexists|done|].
    intros p'. rewrite Hidx. by intros [= <-]. }
  destruct (cancel_order_resting P h b id p Hwf Hidx Hp)
    as (o & lvl & m1 & m2 & q1 & q2 & _ & _ & _ & _ & _ & _ & _ & _ & ->).
  by eexists.
Qed.

End total_book.

Section total_run.
Context (P : Order.t → Prop).
Hypothesis Hstable : exec_stable P.

Lemma cancel_and_replace_total (h : heap) (b : OrderBook.t) (id : OrderId)
    (p : ptr) (np : option Price) (nq : option Quantity) :
  wf P h b →
  is_Some (h !! p) →
  ∃ fuel, is_Some (OrderBook.cancel_and_replace fuel h b id p np nq).
Proof.
  intros Hwf Hp. unfold OrderBook.cancel_and_replace.
  destruct (cancel_order_total P h b id Hwf) as [[[c h1] b1] Hc].
  rewrite Hc. cbn.
  destruct (cancel_order_ok P _ _ _ _ _ _ Hc Hwf) as (Hwf1 & Hle1 & _).
  destruct c; cbn; [|exists O; by eexists].
  destruct (heap_le_is_Some _ _ _ Hle1 Hp) as [o1 Ho1]. rewrite Ho1. cbn.
  set (no := Order.make _ _ _ _ _ _ _).
  destruct (wf_alloc P h1 b1 no Hwf1) as (Hwf2 & Hnew & _).
  exists (enough_fuel b1). by apply (add_order_total P).
Qed.

Lemma modify_order_total (h : heap) (b : OrderBook.t) (id : OrderId)
    (np : option Price) (nq : option Quantity) :
  wf P h b →
  ∃ fuel, is_Some (OrderBook.modify_order fuel h b id np nq).
Proof.
  intros Hwf.
  destruct (OrderBook.orders_ b !! id) as [p|] eqn:Hidx; cycle 1.
  { exists O. unfold OrderBook.modify_order. rewrite Hidx.
    destruct np, nq; by eexists. }
  destruct (wf_index P h b Hwf id p Hidx) as (o & Ho & Hid).
  destruct (cancel_and_replace_total h b id p np nq Hwf) as [fuel Hcr];
    [by eexists|].
  assert (Hunf : ∀ fuel, OrderBook.modify_order fuel h b id np nq
    = match np, nq with
      | None, None => Some ([], h, b)
      | None, Some q =>
          if bool_decide (q ≤ Order.quantity_ o)
          then OrderBook.modify_in_place h b id p o q
          else OrderBook.cancel_and_replace fuel h b id p np nq
      | _, _ => OrderBook.cancel_and_replace fuel h b id p np nq
      end).
  { intros f. unfold OrderBook.modify_order. rewrite Hidx, Ho.
    by destruct np, nq. }
  destruct np as [pr|], nq as [q|]; try (exists fuel; by rewrite Hunf).
  destruct (decide (q ≤ Order.quantity_ o)) as [Hq|Hq]; cycle 1.
  { exists fuel. by rewrite Hunf, bool_decide_eq_false_2. }
  exists O.
  destruct (decide (p ∈ book_ptrs b)) as [Hp|Hp]; cycle 1.
  { rewrite (modify_order_stale P O h b id p o q) by done. by eexists. }
  destruct (decide (q < Order.executed_quantity_ o)) as [Hlt|Hge].
  { rewrite (modify_order_underflow P O h b id p o q) by done. by eexists. }
  destruct (modify_order_in_place P O h b id p q Hwf Hidx Hp)
    as (o2 & level & m1 & m2 & Ho2 & _ & _ & _ & Hres).
  rewrite Ho in Ho2. injection Ho2 as <-.
  rewrite Hres by lia. by eexists.
Qed.

(** Every operation on a well-formed book returns. *)
Lemma run_op_total (h : heap) (b : OrderBook.t) (op : Op) :
  wf P h b → ∃ fuel, is_Some (run_op fuel (h, b) op).
Proof.
  intros Hwf. destruct op as [id sy sd ty q pr tif|id|id np nq]; cbn.
  - set (o := Order.make id sy sd ty q pr tif).
    destruct (wf_alloc P h b o Hwf) as (Hwf1 & Hnew & _).
    exists (enough_fuel b).
    destruct (add_order_total P Hstable _ _ _ Hwf1 Hnew) as [[[ms h2] b2] ->].
    by eexists.
  - exists O. destruct (cancel_order_total P h b id Hwf) as [[[c h1] b1] ->].
    by eexists.
  - destruct (modify_order_total h b id np nq Hwf) as [fuel [[[ms h1] b1] Hm]].
    exists fuel. rewrite Hm. by eexists.
Qed.

End total_run.

(** ** Lookups beside the key that changed *)

Lemma find_other {V} (k k' : Price) (v : V) (m1 m2 : list (Price * V)) :
  k' ≠ k → PriceMap.find k' (m1 ++ (k, v) :: m2) = PriceMap.find k' (m1 ++ m2).
Proof.
  intros Hne. induction m1 as [|[k1 v1] m1 IH]; cbn.
  - by rewrite decide_False.
  - by rewrite IH.
Qed.

Lemma find_removed {V} (k : Price) (v : V) (m1 m2 : list (Price * V)) :
  NoDup (m1 ++ (k, v) :: m2).*1 → PriceMap.find k (m1 ++ m2) = None.
Proof.
  rewrite fmap_app, fmap_cons. cbn. intros Hnd. apply find_None.
  rewrite fmap_app. apply NoDup_app in Hnd as (_ & Hm1 & Hnd).
  apply NoDup_cons in Hnd as [Hm2 _].
  intros [Hin|Hin]%elem_of_app; [|done].
  apply (Hm1 _ Hin). left.
Qed.

(** ** Runs from the empty book *)

Lemma run_checked_reachable (fuel : nat) (ops : list Op) (h : heap)
    (b : OrderBook.t) :
  run_checked valid_opb fuel initial ops = Some (h, b) →
  reachable valid_op h b.
Proof.
  apply (reachable_run_checked valid_op valid_opb fuel ops valid_opb_sound).
  apply reach_init.
Qed.

Lemma run_checked_strict_reachable (fuel : nat) (ops : list Op) (h : heap)
    (b : OrderBook.t) :
  run_checked valid_op_strictb fuel initial ops = Some (h, b) →
  reachable valid_op_strict h b.
Proof.
  apply (reachable_run_checked valid_op_strict valid_op_strictb fuel ops
           valid_op_strictb_sound).
  apply reach_init.
Qed.

(** Evaluates the run of a goal [∃ h b, run = Some (h, b) ∧ _], gives its
    final state for [h] and [b], and keeps the equation as [Hrun]. *)
Ltac run_to_state Hrun :=
  lazymatch goal with
  | |- ∃ h b, ?run = Some (h, b) ∧ _ =>
      let st := eval vm_compute in run in
      lazymatch st with
      | Some (?h0, ?b0) =>
          exists h0, b0;
          assert (Hrun : run = Some (h0, b0)) by (vm_compute; reflexivity);
          split; [exact Hrun|]
      end
  end.

(** ** Orders that [add_order] does not add to the book *)

Section not_added.
Context (P : Order.t → Prop).
Hypothesis Hstable : exec_stable P.

Lemma add_order_not_added (fuel : nat) (h : heap) (b : OrderBook.t)
    (order : ptr) (o : Order.t) ms h' b' :
  OrderBook.add_order fuel h b order = Some (ms, h', b') →
  wf P h b →
  h !! order = Some o →
  order ∉ book_ptrs b →
  Order.type_ o = MARKET
  ∨ (Order.type_ o = LIMIT ∧ Order.time_in_force_ o = IOC) →
  OrderBook.orders_ b' = OrderBook.orders_ b
  ∧ (∀ p, p ∈ book_ptrs b' → p ∈ book_ptrs b).
Proof.
  unfold OrderBook.add_order. intros Hrun Hwf Ho Hnin Hkind.
  rewrite Ho in Hrun.
  destruct (Order.is_valid o); cbn in Hrun; cycle 1.
  { by injection Hrun as <- <- <-. }
  set (o1 := Order.set_status ACCEPTED o) in *.
  set (h1 := <[order := o1]> h) in *.
  assert (Hle1 : heap_le h h1)
    by (eapply heap_le_insert; [done|apply static_eq_set_status]).
  assert (Ho1 : h1 !! order = Some o1).
  { apply list_lookup_insert_eq. by eapply lookup_lt_Some. }
  assert (Hwf1 : wf P h1 b).
  { apply (wf_frame P h); [done| |done].
    intros p Hp. apply list_lookup_insert_ne. by intros <-. }
  destruct (Order.type_ o) eqn:Hty.
  - destruct Hkind as [?|[_ Htif]]; [done|].
    unfold OrderBook.match_limit_order in Hrun. rewrite Ho1 in Hrun.
    rewrite decide_False in Hrun by (cbn; rewrite Hty; auto).
    destruct (OrderBook.match_order fuel _ h1 b order o1)
      as [[[ms2 h2] b2]|] eqn:Hm; [|done]. cbn in Hrun.
    destruct (match_order_ok P Hstable _ _ _ _ _ _ _ _ _ Hm Hwf1 Ho1 Hnin)
      as (_ & Hidx2 & Hsub2 & _ & o2 & Ho2 & Hres).
    rewrite Ho2 in Hrun. cbn in Hrun.
    destruct (taker_result_static _ _ Hres) as (_ & _ & _ & _ & Htif2).
    cbn in Htif2. rewrite <- Htif2, Htif in Hrun.
    rewrite bool_decide_eq_false_2, andb_false_r in Hrun by auto.
    by injection Hrun as <- <- <-.
  - unfold OrderBook.match_market_order in Hrun. rewrite Ho1 in Hrun.
    rewrite decide_False in Hrun by (cbn; rewrite Hty; auto).
    destruct (match_order_ok P Hstable _ _ _ _ _ _ _ _ _ Hrun Hwf1 Ho1 Hnin)
      as (_ & Hidx2 & Hsub2 & _). done.
  - by destruct Hkind as [?|[? _]].
  - by destruct Hkind as [?|[? _]].
Qed.

End not_added.

(** ** The kind of order that rests *)

Lemma limit_order_static (o o' : Order.t) :
  static_eq o o' → limit_order o → limit_order o'.
Proof.
  intros (_ & _ & Hp & Hty & Htif) (? & ? & ?).
  unfold limit_order. rewrite <- Hp, <- Hty, <- Htif. done.
Qed.

Lemma exec_stable_limit_order : exec_stable limit_order.
Proof.
  intros o q Hk _ _ _ _.
  eapply limit_order_static; [apply static_eq_execute|done].
Qed.

Lemma limit_order_taker (o o' : Order.t) :
  (Order.type_ o = LIMIT → 0 < Order.price_ o) →
  taker_result (Order.set_status ACCEPTED o) o' →
  Order.time_in_force_ o' ≠ IOC →
  Order.type_ o' = LIMIT →
  limit_order o'.
Proof.
  intros Hpr Hres Htif Hty.
  destruct (taker_result_static _ _ Hres) as (_ & _ & Hp & Hty' & _).
  cbn in Hp, Hty'. split_and!; [done|done|].
  rewrite <- Hp. apply Hpr. congruence.
Qed.

Lemma reachable_limit_wf (h : heap) (b : OrderBook.t) :
  reachable valid_op h b → wf limit_order h b.
Proof.
  induction 1 as [symbol|h b op fuel h' b' _ IH Hvalid Hrun].
  - apply wf_initial.
  - refine (proj1 (run_op_wf _ exec_stable_limit_order _ _ _ _ _ _
                     Hrun IH _)).
    destruct op as [id sy sd ty q pr tif|id|id np nq]; [|done|].
    + destruct Hvalid as (_ & Hfresh & _ & Hpr). split; [done|].
      intros o' Hres _ Htif Hty.
      apply (limit_order_taker (Order.make id sy sd ty q pr tif)); try done.
      cbn. intros ->. specialize (Hpr eq_refl). lia.
    + destruct Hvalid as [Hnp Hnq]. split.
      * intros p o q _ _ Hk _ _ _.
        eapply limit_order_static; [|exact Hk].
        case_decide.
        -- apply static_eq_set_status.
        -- eapply static_eq_trans;
             [apply static_eq_set_quantity|apply static_eq_set_status].
      * intros p o o' _ _ (Hty & Htif & Hpr) Hres _ Htif' Hty'.
        eapply limit_order_taker; [|exact Hres|done|done].
        cbn. intros _. destruct np as [k|]; cbn; [|done].
        specialize (Hnp k eq_refl). lia.
Qed.

(** ** The price ladders and the depth snapshots *)

Lemma keys_sorted_BUY (lv : list (Price * PriceLevel.t)) :
  keys_sorted BUY lv ↔ StronglySorted Z.gt lv.*1.
Proof.
  unfold keys_sorted. induction (lv.*1) as [|k ks IH].
  - split; constructor.
  - split; intros Hs; inversion_clear Hs as [|? ? Hs' Hall];
      (constructor; [by apply IH|]);
      (eapply Forall_impl; [exact Hall|]); cbn; intros k';
      rewrite bool_decide_eq_true; done.
Qed.

Lemma keys_sorted_SELL (lv : list (Price * PriceLevel.t)) :
  keys_sorted SELL lv ↔ StronglySorted Z.lt lv.*1.
Proof.
  unfold keys_sorted. induction (lv.*1) as [|k ks IH].
  - split; constructor.
  - split; intros Hs; inversion_clear Hs as [|? ? Hs' Hall];
      (constructor; [by apply IH|]);
      (eapply Forall_impl; [exact Hall|]); cbn; intros k';
      rewrite bool_decide_eq_true; done.
Qed.

(** A key that comes after all the keys of the map is put at its end. *)
Lemma insert_last {V} (s : Side) (k : Price) (v : V) (m : list (Price * V)) :
  Forall (λ k', OrderBook.before s k' k = true) m.*1 →
  PriceMap.insert (OrderBook.before s) k v m = m ++ [(k, v)].
Proof.
  induction m as [|[k' v'] m IH]; cbn; [done|].
  intros Hall. apply Forall_cons in Hall as [Hk Hall].
  assert (k' ≠ k).
  { intros ->. by rewrite before_irrefl in Hk. }
  assert (OrderBook.before s k k' = false).
  { destruct s; cbn in *; apply bool_decide_eq_true in Hk;
      apply bool_decide_eq_false; lia. }
  rewrite decide_False by done. rewrite H0. by rewrite IH.
Qed.

Lemma snapshot_sorted (s : Side) (lv : list (Price * PriceLevel.t)) :
  ∀ acc : list (Price * Quantity),
  StronglySorted (λ a b, OrderBook.before s a b = true) (acc.*1 ++ lv.*1) →
  foldl (λ result kl,
           PriceMap.insert (OrderBook.before s) kl.1
             (PriceLevel.total_quantity_ kl.2) result) acc lv
  = acc ++ ((λ kl, (kl.1, PriceLevel.total_quantity_ kl.2)) <$> lv).
Proof.
  induction lv as [|[k l] lv IH]; intros acc Hs; cbn.
  - by rewrite app_nil_r.
  - cbn in Hs. rewrite insert_last.
    + rewrite IH; [by rewrite <- app_assoc|].
      rewrite fmap_app. cbn. by rewrite <- app_assoc.
    + clear IH. induction (acc.*1) as [|a ks IHk]; [constructor|].
      cbn in Hs. inversion_clear Hs as [|? ? Hs' Hall].
      constructor; [|by apply IHk].
      rewrite Forall_forall in Hall. apply Hall. set_solver.
Qed.

Lemma find_fmap_total (k : Price) (lv : list (Price * PriceLevel.t)) :
  PriceMap.find k ((λ kl, (kl.1, PriceLevel.total_quantity_ kl.2)) <$> lv)
  = PriceLevel.total_quantity_ <$> PriceMap.find k lv.
Proof.
  induction lv as [|[k' l] lv IH]; cbn; [done|]. by case_decide.
Qed.

Lemma level_totals_snapshot (lv : list (Price * PriceLevel.t)) :
  sumZ ((λ kl, (kl.1, PriceLevel.total_quantity_ kl.2)) <$> lv).*2
  = level_totals lv.
Proof.
  unfold level_totals. by rewrite <- list_fmap_compose.
Qed.

Lemma sorted_head_max (R : Z → Z → Prop) (k : Z) (ks : list Z) (x : Z) :
  StronglySorted R (k :: ks) → x ∈ k :: ks → x = k ∨ R k x.
Proof.
  intros Hs Hin. inversion_clear Hs as [|? ? _ Hall].
  apply elem_of_cons in Hin as [->|Hin]; [by left|right].
  rewrite Forall_forall in Hall. by apply Hall.
Qed.

(** ** What a walk over a side leaves behind *)

Lemma execute_loop_bound (fuel : nat) :
  ∀ (h : heap) (rem : Quantity) (l : PriceLevel.t)
    (ex : list (ptr * Quantity)) h' l' ex',
  PriceLevel.execute_loop fuel h rem l ex = Some (h', l', ex') →
  ∃ new, ex' = ex ++ new
         ∧ Forall (λ pq, 0 < pq.2) new
         ∧ (0 ≤ rem → sumZ new.*2 ≤ rem).
Proof.
  induction fuel as [|fuel IH]; intros h rem l ex h' l' ex' Hrun;
    cbn in Hrun; destruct (PriceLevel.orders_ l) as [|order rest] eqn:Hq.
  - injection Hrun as <- <- <-. exists []. rewrite app_nil_r.
    split_and!; [done|constructor|done].
  - case_decide; [done|]. injection Hrun as <- <- <-. exists [].
    rewrite app_nil_r. split_and!; [done|constructor|done].
  - injection Hrun as <- <- <-. exists []. rewrite app_nil_r.
    split_and!; [done|constructor|done].
  - case_decide as Hrem; cycle 1.
    { injection Hrun as <- <- <-. exists []. rewrite app_nil_r.
      split_and!; [done|constructor|done]. }
    destruct (h !! order) as [o|]; [|done]. cbn in Hrun.
    unfold PriceLevel.execute_body in Hrun.
    set (exec_qty := if decide (rem < Order.remaining_quantity o)
                     then rem else Order.remaining_quantity o) in *.
    assert (Hle : exec_qty ≤ rem)
      by (unfold exec_qty;
          destruct (decide (rem < Order.remaining_quantity o)); lia).
    unfold ZERO in *.
    destruct (decide (exec_qty > 0)) as [Hpos|Hnpos].
    + apply IH in Hrun as (new & -> & Hall & Hsum).
      exists ((order, exec_qty) :: new). rewrite <- app_assoc.
      split_and!; [done| |].
      * constructor; [cbn; lia|done].
      * intros _. cbn. rewrite sumZ_cons. lia.
    + apply IH in Hrun as (new & -> & Hall & Hsum).
      exists new. split_and!; [done|done|]. intros _. apply Hsum. lia.
Qed.

Lemma execute_quantity_bound (fuel : nat) (h : heap) (q : Quantity)
    (l : PriceLevel.t) h' l' ex :
  PriceLevel.execute_quantity fuel h q l = Some (h', l', ex) →
  Forall (λ pq, 0 < pq.2) ex ∧ 0 ≤ sumZ ex.*2 ∧ (0 ≤ q → sumZ ex.*2 ≤ q).
Proof.
  unfold PriceLevel.execute_quantity. intros Hrun.
  assert (Hpos : ∀ ex : list (ptr * Quantity),
            Forall (λ pq, 0 < pq.2) ex → 0 ≤ sumZ ex.*2).
  { induction 1 as [|[p x] ex' Hx _ IHx]; [done|].
    cbn in *. rewrite sumZ_cons. lia. }
  destruct (bool_decide (PriceLevel.orders_ l = [])
            || bool_decide (q ≤ ZERO)).
  - injection Hrun as <- <- <-. split_and!; [constructor|done|done].
  - apply execute_loop_bound in Hrun as (new & -> & Hall & Hsum).
    cbn. split_and!; [done|by apply Hpos|done].
Qed.

Lemma match_loop_shape (fuel : nat) (past : Price → bool) (taker : ptr) :
  ∀ (h : heap) (lv : list (Price * PriceLevel.t)) (total rem : Quantity)
    (ms : list OrderBook.OrderMatch) h' lv' total' rem' ms',
  OrderBook.match_loop fuel past taker h lv total rem ms
    = Some (h', lv', total', rem', ms') →
  (∃ dropped, lv.*1 = dropped ++ lv'.*1)
  ∧ (Forall (λ kl, PriceLevel.orders_ kl.2 ≠ []) lv →
     Forall (λ kl, PriceLevel.orders_ kl.2 ≠ []) lv')
  ∧ rem' ≤ rem
  ∧ (0 ≤ rem → 0 ≤ rem')
  ∧ total' = total - (rem - rem')
  ∧ (rem' ≤ 0
     ∨ lv' = []
     ∨ (∃ k l rest, lv' = (k, l) :: rest ∧ past k = true)
     ∨ (∃ t, h' !! taker = Some t ∧ Order.time_in_force_ t = FOK
             ∧ rem' < Order.quantity_ t)).
Proof.
  assert (Hstop : ∀ (h : heap) (lv : list (Price * PriceLevel.t))
                    (total rem : Quantity),
            rem ≤ 0 ∨ lv = []
            ∨ (∃ k l rest, lv = (k, l) :: rest ∧ past k = true) →
            (∃ dropped, lv.*1 = dropped ++ lv.*1)
            ∧ (Forall (λ kl, PriceLevel.orders_ kl.2 ≠ []) lv →
               Forall (λ kl, PriceLevel.orders_ kl.2 ≠ []) lv)
            ∧ rem ≤ rem ∧ (0 ≤ rem → 0 ≤ rem)
            ∧ total = total - (rem - rem)
            ∧ (rem ≤ 0 ∨ lv = []
               ∨ (∃ k l rest, lv = (k, l) :: rest ∧ past k = true)
               ∨ (∃ t, h !! taker = Some t ∧ Order.time_in_force_ t = FOK
                       ∧ rem < Order.quantity_ t))).
  { intros h lv total rem Hend.
    split_and!; [by exists []|done|done|done|lia|].
    destruct Hend as [?|[?|?]]; auto. }
  induction fuel as [|fuel IH];
    intros h lv total rem ms h' lv' total' rem' ms' Hrun.
  - destruct lv as [|[price level] rest]; cbn in Hrun.
    + injection Hrun as <- <- <- <- <-. apply Hstop. auto.
    + unfold ZERO in *. case_decide; [destruct (past price) eqn:Hp; [|done]|];
        injection Hrun as <- <- <- <- <-; apply Hstop; [|left; lia].
      right. right. eauto.
  - destruct lv as [|[price level] rest]; cbn in Hrun.
    + injection Hrun as <- <- <- <- <-. apply Hstop. auto.
    + unfold ZERO in *.
      case_decide as Hrem; [destruct (past price) eqn:Hp|];
        [injection Hrun as <- <- <- <- <-; apply Hstop; right; right; eauto
        | |injection Hrun as <- <- <- <- <-; apply Hstop; left; lia].
      destruct (OrderBook.take_level fuel taker h price level rest total rem ms)
        as [[[[[h1 lv1] total1] rem1] ms1]|] eqn:Htake; [|done].
      cbn in Hrun. unfold OrderBook.take_level in Htake.
      destruct (PriceLevel.execute_quantity fuel h rem level)
        as [[[h0 level1] ex]|] eqn:Hexec; [|done]. cbn in Htake.
      destruct (OrderBook.record_matches h0 taker ex ms rem total)
        as [[[ms0 rem0] total0]|] eqn:Hrec; [|done]. cbn in Htake.
      injection Htake as <- <- <- <- <-.
      apply record_matches_spec in Hrec as [-> ->].
      destruct (execute_quantity_bound _ _ _ _ _ _ _ Hexec)
        as (_ & Hs0 & Hsq).
      set (lv1 := if PriceLevel.is_empty level1 then rest
                  else (price, level1) :: rest) in *.
      assert (Hkeys : ∃ dropped, ((price, level) :: rest).*1
                                 = dropped ++ lv1.*1).
      { unfold lv1. destruct (PriceLevel.is_empty level1).
        - by exists [price].
        - by exists []. }
      assert (Hne : Forall (λ kl, PriceLevel.orders_ kl.2 ≠ [])
                      ((price, level) :: rest) →
                    Forall (λ kl, PriceLevel.orders_ kl.2 ≠ []) lv1).
      { intros [_ Hr]%Forall_cons. unfold lv1, PriceLevel.is_empty.
        destruct (decide (PriceLevel.orders_ level1 = [])) as [He|He].
        - by rewrite bool_decide_eq_true_2.
        - rewrite bool_decide_eq_false_2 by done. by constructor. }
      destruct (h0 !! taker) as [order|] eqn:Ht; [|done]. cbn in Hrun.
      destruct (bool_decide (rem - sumZ ex.*2 ≤ 0)
                || bool_decide (Order.time_in_force_ order = FOK)
                   && bool_decide (rem - sumZ ex.*2 < Order.quantity_ order))
        eqn:Hbrk.
      * injection Hrun as <- <- <- <- <-.
        split_and!; [done|done|lia|lia|lia|].
        apply orb_true_iff in Hbrk as [Hb|Hb].
        -- left. by apply bool_decide_eq_true in Hb.
        -- apply andb_true_iff in Hb as [Hf Hq].
           apply bool_decide_eq_true in Hf. apply bool_decide_eq_true in Hq.
           right. right. right. eauto.
      * apply IH in Hrun as ((d' & Hd') & Hne' & Hle' & Hpos' & Htot' & Hend').
        split_and!; [|auto|lia|lia|lia|done].
        destruct Hkeys as (d & Hd). exists (d ++ d').
        by rewrite Hd, Hd', app_assoc.
Qed.

(** ** The book after [add_limit_order_to_book], written out *)

Section add_to_book_form.
Context (P : Order.t → Prop).

Lemma add_limit_order_to_book_form (h : heap) (b : OrderBook.t)
    (order : ptr) (o : Order.t) :
  wf P h b →
  h !! order = Some o →
  Order.type_ o = LIMIT →
  Order.is_filled o = false →
  let s := Order.side_ o in
  let k := Order.price_ o in
  ∃ level m1 m2,
    (PriceMap.find k (OrderBook.side_levels s b) = Some level
     ∧ OrderBook.side_levels s b = m1 ++ (k, level) :: m2
     ∨ PriceMap.find k (OrderBook.side_levels s b) = None
       ∧ level = PriceLevel.make k
       ∧ OrderBook.side_levels s b = m1 ++ m2)
    ∧ (k ∉ m1.*1)
    ∧ PriceLevel.price_ level = k
    ∧ OrderBook.add_limit_order_to_book h b order
      = OrderBook.set_orders (<[Order.id_ o := order]> (OrderBook.orders_ b))
          (OrderBook.set_side s
             (m1 ++ (k, PriceLevel.mk k
                          (PriceLevel.total_quantity_ level
                           + Order.remaining_quantity o)
                          (PriceLevel.orders_ level ++ [order])
                          (<[Order.id_ o := order]>
                             (PriceLevel.order_map_ level)))
                 :: m2)
             (OrderBook.side_total s b + Order.remaining_quantity o) b).
Proof.
  intros Hwf Ho Hty Hfl s k.
  destruct (wf_side _ _ _ Hwf s) as (Hsort & Htot & Hall).
  unfold OrderBook.add_limit_order_to_book. rewrite Ho, Hfl.
  rewrite bool_decide_eq_false_2 by (intros Hne; by apply Hne). cbn.
  fold s k.
  destruct (PriceMap.find k (OrderBook.side_levels s b)) as [level|]
    eqn:Hfind.
  - destruct (find_split _ _ _ Hfind) as (m1 & m2 & Hlv & Hn).
    assert (Hpr : PriceLevel.price_ level = k).
    { rewrite Forall_forall in Hall.
      apply (Hall (k, level)). by apply find_Some_elem. }
    exists level, m1, m2. split_and!; [by left|done|done|].
    rewrite Hlv, set_middle by done.
    unfold PriceLevel.add_order. rewrite Ho.
    rewrite decide_False by (intros Hne; apply Hne; by rewrite Hpr).
    by rewrite Hpr.
  - destruct (insert_sorted s k (PriceLevel.make k) _ Hfind Hsort)
      as (m1 & m2 & Hlv & Hins & _).
    assert (Hn : k ∉ m1.*1).
    { apply find_None in Hfind. rewrite Hlv, fmap_app in Hfind.
      intros ?. apply Hfind, elem_of_app. by left. }
    exists (PriceLevel.make k), m1, m2.
    split_and!; [right; by split_and!|done|done|].
    rewrite Hins, set_middle by done.
    unfold PriceLevel.add_order. rewrite Ho. cbn.
    rewrite decide_False by (intros Hne; by apply Hne). done.
Qed.

End add_to_book_form.

Lemma static_eq_execute_tif (q : Quantity) (o : Order.t) :
  Order.time_in_force_ (Order.execute q o) = Order.time_in_force_ o.
Proof. by destruct (static_eq_execute q o) as (_ & _ & _ & _ & <-). Qed.

(** ** The book after matching, written out *)

Section match_order_form.
Context (P : Order.t → Prop).
Hypothesis Hstable : exec_stable P.

Lemma match_order_form (fuel : nat) (past : Price → bool) (h : heap)
    (b : OrderBook.t) (order : ptr) (o : Order.t) ms h' b' :
  OrderBook.match_order fuel past h b order o = Some (ms, h', b') →
  wf P h b →
  h !! order = Some o →
  order ∉ book_ptrs b →
  let opp := OrderBook.opposite (Order.side_ o) in
  ∃ lv' rem',
    b' = OrderBook.set_side opp lv'
           (OrderBook.side_total opp b
            - (Order.remaining_quantity o - rem')) b
    ∧ (∃ dropped, (OrderBook.side_levels opp b).*1 = dropped ++ lv'.*1)
    ∧ (Forall (λ kl, PriceLevel.orders_ kl.2 ≠ [])
         (OrderBook.side_levels opp b) →
       Forall (λ kl, PriceLevel.orders_ kl.2 ≠ []) lv')
    ∧ rem' ≤ Order.remaining_quantity o
    ∧ (0 ≤ Order.remaining_quantity o → 0 ≤ rem')
    ∧ (rem' ≤ 0
       ∨ lv' = []
       ∨ (∃ k l rest, lv' = (k, l) :: rest ∧ past k = true)
       ∨ (Order.time_in_force_ o = FOK ∧ rem' < Order.quantity_ o))
    ∧ (let o2 := Order.execute (Order.quantity_ o - rem') o in
       if bool_decide (Order.time_in_force_ o = FOK)
          && bool_decide (rem' > 0)
       then ms = [] ∧ h' !! order = Some (Order.set_status CANCELLED o2)
       else h' !! order = Some o2).
Proof.
  intros Hrun Hwf Ho Hnin opp. unfold OrderBook.match_order in Hrun.
  fold opp in Hrun.
  destruct (OrderBook.match_loop fuel past order h
              (OrderBook.side_levels opp b) (OrderBook.side_total opp b)
              (Order.remaining_quantity o) [])
    as [[[[[h1 lv1] total1] rem1] ms1]|] eqn:Hloop; [|done].
  cbn in Hrun.
  assert (Hnin' : order ∉ level_ptrs (OrderBook.side_levels opp b)).
  { intros Hin. apply Hnin, elem_of_book_ptrs. eauto. }
  assert (Hnd : NoDup (level_ptrs (OrderBook.side_levels opp b))).
  { pose proof (wf_nodup _ _ _ Hwf) as Hnd.
    rewrite (book_ptrs_sides opp) in Hnd. by apply NoDup_app in Hnd as [? _]. }
  destruct (match_loop_ok P (OrderBook.orders_ b) opp Hstable _ _ _ _ _ _ _
              _ _ _ _ _ _ Hloop (wf_side _ _ _ Hwf opp) Hnd)
    as (_ & _ & _ & Hfr & _).
  destruct (match_loop_shape _ _ _ _ _ _ _ _ _ _ _ _ _ Hloop)
    as (Hkeys & Hne & Hle & Hpos & Htot & Hend).
  rewrite (Hfr _ Hnin'), Ho in Hrun. cbn in Hrun.
  assert (Hlen : (order < length h1)%nat).
  { apply lookup_lt_is_Some. rewrite (Hfr _ Hnin'). eauto. }
  exists lv1, rem1. unfold ZERO in *.
  split_and!; [|done|done|done|done| |].
  - rewrite <- Htot.
    by destruct (bool_decide (Order.time_in_force_ o = FOK)
                 && bool_decide (rem1 > 0)) eqn:Hfok;
      rewrite static_eq_execute_tif in Hrun; rewrite Hfok in Hrun;
      injection Hrun as <- <- <-.
  - destruct Hend as [?|[?|[?|(t & Ht & Htif & Hq)]]]; auto.
    rewrite (Hfr _ Hnin'), Ho in Ht. injection Ht as <-. auto.
  - cbn. rewrite static_eq_execute_tif in Hrun.
    destruct (bool_decide (Order.time_in_force_ o = FOK)
              && bool_decide (rem1 > 0)) eqn:Hfok;
      injection Hrun as <- <- <-.
    + split; [done|]. by apply list_lookup_insert_eq.
    + by apply list_lookup_insert_eq.
Qed.

End match_order_form.

(** ** Non-empty levels and an uncrossed book *)

Lemma levels_nonempty_set_side (s : Side) lv total (b : OrderBook.t) :
  levels_nonempty b →
  Forall (λ kl, PriceLevel.orders_ kl.2 ≠ []) lv →
  levels_nonempty (OrderBook.set_side s lv total b).
Proof.
  intros Hne Hlv s'. destruct (side_cases s s') as [->| ->].
  - by rewrite side_levels_set_side.
  - rewrite side_levels_set_side_opp. apply Hne.
Qed.

Lemma levels_nonempty_set_orders idx (b : OrderBook.t) :
  levels_nonempty b → levels_nonempty (OrderBook.set_orders idx b).
Proof. intros Hne s. rewrite side_levels_set_orders. apply Hne. Qed.

(** The uncrossed book seen from side [s]: every price of the other side
    comes before every price of [s] in the order of [s]. *)
Lemma uncrossed_sides (s : Side) (b : OrderBook.t) :
  uncrossed b ↔
  ∀ k k', k ∈ (OrderBook.side_levels s b).*1 →
          k' ∈ (OrderBook.side_levels (OrderBook.opposite s) b).*1 →
          OrderBook.before s k' k = true.
Proof.
  unfold uncrossed. destruct s; cbn; split; intros H k k' Hk Hk'.
  - apply bool_decide_eq_true. specialize (H _ _ Hk Hk'). lia.
  - specialize (H _ _ Hk Hk'). apply bool_decide_eq_true in H. lia.
  - apply bool_decide_eq_true. specialize (H _ _ Hk' Hk). lia.
  - specialize (H _ _ Hk' Hk). apply bool_decide_eq_true in H. lia.
Qed.

Lemma past_limit_sorted (s : Side) (price k0 : Price) (l : PriceLevel.t)
    (rest : list (Price * PriceLevel.t)) (k' : Price) :
  keys_sorted (OrderBook.opposite s) ((k0, l) :: rest) →
  OrderBook.past_limit s price k0 = true →
  k' ∈ ((k0, l) :: rest).*1 →
  OrderBook.before s k' price = true.
Proof.
  unfold keys_sorted. cbn. intros Hs Hpast Hk'.
  inversion_clear Hs as [|? ? _ Hall].
  rewrite Forall_forall in Hall.
  apply elem_of_cons in Hk' as [->|Hk'].
  - destruct s; cbn in *; apply bool_decide_eq_true in Hpast;
      apply bool_decide_eq_true; lia.
  - specialize (Hall _ Hk').
    destruct s; cbn in *; apply bool_decide_eq_true in Hpast;
      apply bool_decide_eq_true in Hall; apply bool_decide_eq_true; lia.
Qed.

(** An order that has executed nothing and is not filled by the [execute]
    that follows a walk has a positive remainder. *)
Lemma execute_fresh_filled (o : Order.t) (rem : Quantity) :
  Order.executed_quantity_ o = 0 →
  rem ≤ Order.quantity_ o →
  (0 ≤ Order.quantity_ o → 0 ≤ rem) →
  Order.is_filled (Order.execute (Order.quantity_ o - rem) o) = false →
  0 < rem.
Proof.
  intros Hex Hle Hrem Hfl.
  destruct (decide (0 < rem)) as [|Hn]; [done|].
  exfalso. revert Hfl. destruct o as [i sy sd ty q e p tif st].
  cbn in Hex, Hle, Hrem. subst e.
  unfold Order.is_filled, Order.execute, Order.remaining_quantity, ZERO.
  cbn. repeat (case_decide; cbn); try lia.
  all: rewrite bool_decide_eq_true_2 by lia; done.
Qed.

Section add_order_inv.
Context (P : Order.t → Prop).
Hypothesis Hstable : exec_stable P.

Lemma add_order_inv (fuel : nat) (h : heap) (b : OrderBook.t) (order : ptr)
    (o : Order.t) ms h' b' :
  OrderBook.add_order fuel h b order = Some (ms, h', b') →
  wf P h b →
  h !! order = Some o →
  order ∉ book_ptrs b →
  (levels_nonempty b → levels_nonempty b')
  ∧ (Order.time_in_force_ o ≠ FOK →
     Order.executed_quantity_ o = 0 →
     uncrossed b → uncrossed b').
Proof.
  unfold OrderBook.add_order. intros Hrun Hwf Ho Hnin.
  rewrite Ho in Hrun.
  destruct (Order.is_valid o); cbn in Hrun; cycle 1.
  { by injection Hrun as <- <- <-. }
  set (o1 := Order.set_status ACCEPTED o) in *.
  set (h1 := <[order := o1]> h) in *.
  assert (Hle1 : heap_le h h1)
    by (eapply heap_le_insert; [done|apply static_eq_set_status]).
  assert (Ho1 : h1 !! order = Some o1).
  { apply list_lookup_insert_eq. by eapply lookup_lt_Some. }
  assert (Hwf1 : wf P h1 b).
  { apply (wf_frame P h); [done| |done].
    intros p Hp. apply list_lookup_insert_ne. by intros <-. }
  set (s := Order.side_ o) in *.
  set (opp := OrderBook.opposite s).
  assert (Hmatch : ∀ past ms2 h2 b2,
            OrderBook.match_order fuel past h1 b order o1
            = Some (ms2, h2, b2) →
            wf P h2 b2
            ∧ ∃ lv' total',
                b2 = OrderBook.set_side opp lv' total' b
                ∧ (∃ dropped, (OrderBook.side_levels opp b).*1
                              = dropped ++ lv'.*1)
                ∧ (levels_nonempty b → levels_nonempty b2)
                ∧ (Order.time_in_force_ o ≠ FOK →
                   Order.executed_quantity_ o = 0 →
                   uncrossed b →
                   uncrossed b2
                   ∧ ∃ o2, h2 !! order = Some o2
                           ∧ static_eq o o2
                           ∧ (Order.is_filled o2 = false →
                              lv' = []
                              ∨ ∃ k l rest, lv' = (k, l) :: rest
                                            ∧ past k = true))).
  { intros past ms2 h2 b2 Hm.
    destruct (match_order_ok P Hstable _ _ _ _ _ _ _ _ _ Hm Hwf1 Ho1 Hnin)
      as (Hwf2 & _).
    split; [done|].
    destruct (match_order_form P Hstable _ _ _ _ _ _ _ _ _ Hm Hwf1 Ho1 Hnin)
      as (lv' & rem' & Hb2 & (dropped & Hkeys) & Hne & Hle & Hpos & Hend
          & Htaker).
    cbn in Hb2, Hkeys, Hne. fold s opp in Hb2, Hkeys, Hne.
    eexists lv', _. split; [exact Hb2|]. split; [by exists dropped|].
    split.
    { intros Hb. rewrite Hb2. apply levels_nonempty_set_side; [done|].
      apply Hne, Hb. }
    intros Htif Hex Hunc.
    assert (Hunc2 : uncrossed b2).
    { rewrite Hb2. apply (uncrossed_sides opp).
      rewrite side_levels_set_side, side_levels_set_side_opp.
      intros k k' Hk Hk'.
      apply (proj1 (uncrossed_sides opp b) Hunc); [|done].
      rewrite Hkeys. apply elem_of_app. by right. }
    split; [done|].
    rewrite bool_decide_eq_false_2 in Htaker by done. cbn in Htaker.
    eexists. split; [exact Htaker|]. split.
    { eapply static_eq_trans;
        [apply (static_eq_set_status ACCEPTED)|apply static_eq_execute]. }
    intros Hfl.
    assert (0 < rem').
    { apply (execute_fresh_filled o1); [done| | |done].
      - revert Hle. unfold Order.remaining_quantity. cbn. lia.
      - revert Hpos. unfold Order.remaining_quantity. cbn. lia. }
    destruct Hend as [?|[?|[?|[? _]]]]; [lia|by left|by right|done]. }
  destruct (Order.type_ o) eqn:Hty; cbn in Hrun; rewrite ?Hty in Hrun.
  - (* LIMIT *)
    unfold OrderBook.match_limit_order in Hrun. rewrite Ho1 in Hrun.
    rewrite decide_False in Hrun by (cbn; rewrite Hty; auto).
    destruct (OrderBook.match_order fuel _ h1 b order o1)
      as [[[ms2 h2] b2]|] eqn:Hm; [|done]. cbn in Hrun.
    destruct (Hmatch _ _ _ _ Hm)
      as (Hwf2 & lv' & total' & Hb2 & Hkeys & Hne2 & Hunc2).
    destruct (h2 !! order) as [o2|] eqn:Ho2; [|done]. cbn in Hrun.
    destruct (negb (Order.is_filled o2)
              && bool_decide (Order.time_in_force_ o2 ≠ IOC)) eqn:Hadd;
      injection Hrun as <- <- <-; cycle 1.
    { split; [done|]. intros ? ? ?. by apply Hunc2. }
    apply andb_true_iff in Hadd as [Hnf _]. apply negb_true_iff in Hnf.
    assert (Hst : static_eq o o2).
    { destruct (Hle1 _ _ Ho) as (o1' & Ho1' & Hs1).
      destruct (match_order_ok P Hstable _ _ _ _ _ _ _ _ _ Hm Hwf1 Ho1 Hnin)
        as (_ & _ & _ & Hle2 & _).
      destruct (Hle2 _ _ Ho1') as (o2' & Ho2' & Hs2).
      assert (o2' = o2) as -> by congruence. by eapply static_eq_trans. }
    destruct Hst as (_ & Hsd & Hpr & Hty2 & _).
    destruct (add_limit_order_to_book_form P h2 b2 order o2 Hwf2 Ho2
                ltac:(congruence) Hnf)
      as (level & m1 & m2 & Hcase & Hk & Hlp & ->).
    rewrite <- Hsd, <- Hpr in *. fold s in Hcase |- *.
    assert (Hside2 : OrderBook.side_levels s b2 = OrderBook.side_levels s b).
    { rewrite Hb2. unfold opp. by destruct s. }
    rewrite Hside2 in Hcase.
    split.
    + intros Hb. apply levels_nonempty_set_orders.
      apply levels_nonempty_set_side; [by apply Hne2|].
      specialize (Hb s).
      assert (Forall (λ kl, PriceLevel.orders_ kl.2 ≠ []) (m1 ++ m2)).
      { destruct Hcase as [[_ Hlv]|(_ & _ & Hlv)]; rewrite Hlv in Hb;
          [|done].
        apply Forall_app in Hb as [H1 H2].
        apply Forall_cons in H2 as [_ H2]. by apply Forall_app. }
      apply Forall_app in H as [H1 H2]. apply Forall_app. split; [done|].
      constructor; [|done]. cbn. by intros [_ ?]%app_eq_nil.
    + intros Htif Hex Hunc.
      destruct (Hunc2 Htif Hex Hunc) as (Hu2 & o2' & Ho2' & _ & Hend).
      assert (o2' = o2) as -> by congruence. specialize (Hend Hnf).
      apply (uncrossed_sides s).
      rewrite !side_levels_set_orders, side_levels_set_side,
        side_levels_set_side_opp.
      assert (Hopp2 : OrderBook.side_levels opp b2 = lv')
        by (rewrite Hb2; apply side_levels_set_side).
      fold opp. rewrite Hopp2.
      intros k k' Hk0 Hk'.
      assert (Hold : k ∈ (OrderBook.side_levels s b).*1
                     ∨ k = Order.price_ o).
      { destruct Hcase as [[_ Hlv]|(_ & _ & Hlv)]; rewrite Hlv;
          revert Hk0; rewrite !fmap_app, !elem_of_app; cbn;
          rewrite ?elem_of_cons; clear; intuition. }
      destruct Hold as [Hold| ->].
      * apply (proj1 (uncrossed_sides s b2) Hu2).
        -- by rewrite Hside2.
        -- fold opp. by rewrite Hopp2.
      * destruct Hend as [->|(k0 & l0 & rest & -> & Hpast)];
          [by apply elem_of_nil in Hk'|].
        eapply past_limit_sorted; [|exact Hpast|exact Hk'].
        destruct (wf_side _ _ _ Hwf2 opp) as [Hs _].
        by rewrite Hopp2 in Hs.
  - (* MARKET *)
    unfold OrderBook.match_market_order in Hrun. rewrite Ho1 in Hrun.
    rewrite decide_False in Hrun by (cbn; rewrite Hty; auto).
    destruct (Hmatch _ _ _ _ Hrun)
      as (_ & lv' & total' & _ & _ & Hne2 & Hunc2).
    split; [done|]. intros ? ? ?. by apply Hunc2.
  - by injection Hrun as <- <- <-.
  - by injection Hrun as <- <- <-.
Qed.

End add_order_inv.

(** ** The two invariants through cancel, modify and a whole operation *)

Lemma levels_nonempty_initial (symbol : string) :
  levels_nonempty (OrderBook.make symbol).
Proof. intros []; constructor. Qed.

Lemma uncrossed_initial (symbol : string) : uncrossed (OrderBook.make symbol).
Proof. intros kb ka Hkb. by apply elem_of_nil in Hkb. Qed.

Section op_inv.
Context (P : Order.t → Prop).
Hypothesis Hstable : exec_stable P.

Lemma cancel_order_inv (h : heap) (b : OrderBook.t) (id : OrderId)
    (r : bool) h' b' :
  OrderBook.cancel_order h b id = Some (r, h', b') →
  wf P h b →
  (levels_nonempty b → levels_nonempty b')
  ∧ (uncrossed b → uncrossed b').
Proof.
  intros Hrun Hwf.
  destruct (OrderBook.orders_ b !! id) as [p|] eqn:Hidx; cycle 1.
  { rewrite (cancel_order_not_resting P) in Hrun; [|done|].
    - by injection Hrun as <- <- <-.
    - intros p. by rewrite Hidx. }
  destruct (decide (p ∈ book_ptrs b)) as [Hp|Hp]; cycle 1.
  { rewrite (cancel_order_not_resting P) in Hrun; [|done|].
    - by injection Hrun as <- <- <-.
    - intros p'. rewrite Hidx. by intros [= <-]. }
  destruct (cancel_order_resting P h b id p Hwf Hidx Hp)
    as (o & level & m1 & m2 & q1 & q2 & Ho & _ & Hlv & _ & _ & _ & _ & _
        & Hres).
  rewrite Hres in Hrun. injection Hrun as <- <- <-.
  set (s := Order.side_ o) in *.
  set (lv' := if decide (q1 ++ q2 = []) then m1 ++ m2 else _).
  assert (Hkeys : ∀ k, k ∈ lv'.*1 → k ∈ (OrderBook.side_levels s b).*1).
  { intros k. rewrite Hlv. unfold lv'. case_decide;
      rewrite !fmap_app, ?fmap_cons, !elem_of_app, ?elem_of_cons;
      cbn; clear; intuition. }
  split.
  - intros Hne. apply levels_nonempty_set_orders.
    apply levels_nonempty_set_side; [done|].
    specialize (Hne s). rewrite Hlv in Hne.
    apply Forall_app in Hne as [H1 H2]. apply Forall_cons in H2 as [_ H2].
    unfold lv'. case_decide; apply Forall_app; (split; [done|]); [done|].
    by constructor.
  - intros Hunc. apply (uncrossed_sides s).
    rewrite !side_levels_set_orders, side_levels_set_side,
      side_levels_set_side_opp.
    intros k k' Hk Hk'.
    apply (proj1 (uncrossed_sides s b) Hunc); [by apply Hkeys|done].
Qed.

Lemma cancel_and_replace_inv (fuel : nat) (h : heap) (b : OrderBook.t)
    (id : OrderId) (p : ptr) (o : Order.t)
    (np : option Price) (nq : option Quantity) ms h' b' :
  OrderBook.cancel_and_replace fuel h b id p np nq = Some (ms, h', b') →
  wf P h b →
  OrderBook.orders_ b !! id = Some p →
  h !! p = Some o →
  (levels_nonempty b → levels_nonempty b')
  ∧ ((p ∈ book_ptrs b → Order.time_in_force_ o ≠ FOK) →
     uncrossed b → uncrossed b').
Proof.
  unfold OrderBook.cancel_and_replace. intros Hrun Hwf Hidx Ho.
  destruct (OrderBook.cancel_order h b id) as [[[c h1] b1]|] eqn:Hc; [|done].
  cbn in Hrun.
  destruct (cancel_order_ok P _ _ _ _ _ _ Hc Hwf) as (Hwf1 & Hle1 & _ & Htrue).
  destruct (cancel_order_inv _ _ _ _ _ _ Hc Hwf) as [Hne1 Hunc1].
  destruct c; cbn in Hrun; cycle 1.
  { injection Hrun as <- <- <-. split; [done|]. intros _. done. }
  destruct (Htrue eq_refl) as (_ & p' & Hp' & Hpin & _).
  rewrite Hidx in Hp'. injection Hp' as <-.
  destruct (Hle1 _ _ Ho) as (o1 & Ho1 & Hst).
  rewrite Ho1 in Hrun. cbn in Hrun.
  set (no := Order.make _ _ _ _ _ _ _) in *.
  destruct (wf_alloc P h1 b1 no Hwf1) as (Hwf2 & Hnew & Hlk).
  destruct (add_order_inv P Hstable _ _ _ _ _ _ _ _ Hrun Hwf2 Hlk Hnew)
    as [Hne2 Hunc2].
  split; [auto|]. intros Htif Hunc. apply Hunc2; [|done|auto].
  cbn. destruct Hst as (_ & _ & _ & _ & <-). auto.
Qed.

Lemma modify_order_inv (fuel : nat) (h : heap) (b : OrderBook.t)
    (id : OrderId) (np : option Price) (nq : option Quantity) ms h' b' :
  OrderBook.modify_order fuel h b id np nq = Some (ms, h', b') →
  wf P h b →
  (levels_nonempty b → levels_nonempty b')
  ∧ ((∀ o, P o → Order.time_in_force_ o ≠ FOK) →
     uncrossed b → uncrossed b').
Proof.
  intros Hrun Hwf.
  assert (Hnop : Some (([] : list OrderBook.OrderMatch), h, b)
                 = Some (ms, h', b') →
                 (levels_nonempty b → levels_nonempty b')
                 ∧ ((∀ o, P o → Order.time_in_force_ o ≠ FOK) →
                    uncrossed b → uncrossed b')).
  { by intros [= <- <- <-]. }
  destruct (OrderBook.orders_ b !! id) as [p|] eqn:Hidx; cycle 1.
  { unfold OrderBook.modify_order in Hrun. rewrite Hidx in Hrun.
    destruct np, nq; by apply Hnop. }
  destruct (wf_index P h b Hwf id p Hidx) as (o & Ho & Hid).
  assert (Hreplace :
    OrderBook.cancel_and_replace fuel h b id p np nq = Some (ms, h', b') →
    (levels_nonempty b → levels_nonempty b')
    ∧ ((∀ o, P o → Order.time_in_force_ o ≠ FOK) →
       uncrossed b → uncrossed b')).
  { intros Hcr.
    destruct (cancel_and_replace_inv _ _ _ _ _ _ _ _ _ _ _ Hcr Hwf Hidx Ho)
      as [Hne Hunc].
    split; [done|]. intros HP. apply Hunc. intros Hp. apply HP.
    destruct (wf_resting P h b p Hwf Hp)
      as (o2 & _ & Ho2 & _ & _ & (o3 & Ho3 & _ & _ & _ & _ & _ & _ & ?)).
    congruence. }
  unfold OrderBook.modify_order in Hrun. rewrite Hidx, Ho in Hrun.
  cbn in Hrun.
  destruct np as [pr|], nq as [q|]; cbn in Hrun; try by apply Hreplace.
  - case_bool_decide as Hq; [|by apply Hreplace].
    assert (Hmod : OrderBook.modify_order fuel h b id None (Some q)
                   = OrderBook.modify_in_place h b id p o q).
    { unfold OrderBook.modify_order. rewrite Hidx, Ho. cbn.
      by rewrite bool_decide_eq_true_2. }
    rewrite <- Hmod in Hrun. clear Hmod.
    destruct (decide (p ∈ book_ptrs b)) as [Hp|Hp]; cycle 1.
    { rewrite (modify_order_stale P fuel h b id p o q) in Hrun by done.
      by injection Hrun as <- <- <-. }
    destruct (decide (q < Order.executed_quantity_ o)) as [Hlt|Hge].
    { rewrite (modify_order_underflow P fuel h b id p o q) in Hrun by done.
      by injection Hrun as <- <- <-. }
    destruct (modify_order_in_place P fuel h b id p q Hwf Hidx Hp)
      as (o2 & level & m1 & m2 & Ho2 & Hlv & Hpl & _ & Hres).
    rewrite Ho in Ho2. injection Ho2 as <-.
    rewrite Hres in Hrun by lia. injection Hrun as <- <- <-.
    set (s := Order.side_ o) in *. split.
    + intros Hne. apply levels_nonempty_set_side; [done|].
      specialize (Hne s). rewrite Hlv in Hne.
      apply Forall_app in Hne as [H1 H2]. apply Forall_cons in H2 as [H0 H2].
      apply Forall_app. split; [done|]. by constructor.
    + intros _ Hunc. apply (uncrossed_sides s).
      rewrite side_levels_set_side, side_levels_set_side_opp.
      intros k k' Hk Hk'.
      apply (proj1 (uncrossed_sides s b) Hunc); [|done].
      rewrite Hlv. revert Hk. by rewrite !fmap_app, !fmap_cons.
  - by apply Hnop.
Qed.

Lemma run_op_inv (fuel : nat) (h : heap) (b : OrderBook.t) (op : Op) h' b' :
  run_op fuel (h, b) op = Some (h', b') →
  wf P h b →
  (levels_nonempty b → levels_nonempty b')
  ∧ ((∀ o, P o → Order.time_in_force_ o ≠ FOK) →
     match op with
     | Submit _ _ _ _ _ _ tif => tif ≠ FOK
     | _ => True
     end →
     uncrossed b → uncrossed b').
Proof.
  intros Hrun Hwf.
  destruct op as [id sy sd ty q pr tif|id|id np nq]; cbn in Hrun.
  - set (o := Order.make id sy sd ty q pr tif) in *.
    destruct (wf_alloc P h b o Hwf) as (Hwf1 & Hnew & Hlk).
    destruct (OrderBook.add_order fuel (h ++ [o]) b (length h))
      as [[[ms h2] b2]|] eqn:Hadd; [|done].
    cbn in Hrun. injection Hrun as <- <-.
    destruct (add_order_inv P Hstable _ _ _ _ _ _ _ _ Hadd Hwf1 Hlk Hnew)
      as [Hne Hunc].
    split; [done|]. intros _ Htif. by apply Hunc.
  - destruct (OrderBook.cancel_order h b id) as [[[c h1] b1]|] eqn:Hc;
      [|done].
    cbn in Hrun. injection Hrun as <- <-.
    destruct (cancel_order_inv _ _ _ _ _ _ Hc Hwf) as [Hne Hunc].
    split; [done|]. intros _ _. done.
  - destruct (OrderBook.modify_order fuel h b id np nq)
      as [[[ms h1] b1]|] eqn:Hm; [|done].
    cbn in Hrun. injection Hrun as <- <-.
    destruct (modify_order_inv _ _ _ _ _ _ _ _ _ Hm Hwf) as [Hne Hunc].
    split; [done|]. intros HP _. by apply Hunc.
Qed.

End op_inv.

Lemma reachable_nonempty (h : heap) (b : OrderBook.t) :
  reachable valid_op h b → levels_nonempty b.
Proof.
  induction 1 as [symbol|h b op fuel h' b' Hr IH Hvalid Hrun].
  - apply levels_nonempty_initial.
  - by apply (run_op_inv _ exec_stable_True _ _ _ _ _ _ Hrun
                (reachable_wf _ _ Hr)).
Qed.

Lemma reachable_strict_valid (h : heap) (b : OrderBook.t) :
  reachable valid_op_strict h b → reachable valid_op h b.
Proof.
  induction 1 as [symbol|h b op fuel h' b' Hr IH [Hvalid _] Hrun].
  - apply reach_init.
  - by eapply reach_step.
Qed.

Lemma reachable_strict_uncrossed (h : heap) (b : OrderBook.t) :
  reachable valid_op_strict h b → uncrossed b.
Proof.
  induction 1 as [symbol|h b op fuel h' b' Hr IH [Hvalid Hstrict] Hrun].
  - apply uncrossed_initial.
  - apply (run_op_inv _ exec_stable_live _ _ _ _ _ _ Hrun
             (reachable_strict_wf _ _ Hr)); [|by destruct op|done].
    by intros o (_ & _ & ?).
Qed.

(** ** A price level stands for a resting order *)

Lemma level_has_order (h : heap) (b : OrderBook.t) (s : Side) (k : Price)
    (l : PriceLevel.t) :
  reachable valid_op h b →
  (k, l) ∈ OrderBook.side_levels s b →
  PriceLevel.orders_ l ≠ []
  ∧ PriceLevel.price_ l = k
  ∧ 0 < k
  ∧ ∀ p, p ∈ PriceLevel.orders_ l →
         ∃ o, resting h b p o ∧ Order.side_ o = s ∧ Order.price_ o = k.
Proof.
  intros Hr Hkl.
  pose proof (reachable_limit_wf _ _ Hr) as Hwf.
  pose proof (reachable_nonempty _ _ Hr s) as Hne.
  rewrite Forall_forall in Hne. specialize (Hne _ Hkl). cbn in Hne.
  destruct (wf_side _ _ _ Hwf s) as (_ & _ & Hall).
  rewrite Forall_forall in Hall.
  destruct (Hall _ Hkl) as (Hpr & _ & Hords & _). cbn in Hpr, Hords.
  rewrite Forall_forall in Hords.
  assert (Hrest : ∀ p, p ∈ PriceLevel.orders_ l →
            ∃ o, resting h b p o ∧ Order.side_ o = s ∧ Order.price_ o = k
                 ∧ 0 < Order.price_ o).
  { intros p Hp.
    destruct (Hords p Hp) as (o & Ho & Hpo & Hso & _ & _ & _ & _ & _ & _ & ?).
    exists o. split_and!; [split; [|done]|done|congruence|done].
    apply elem_of_book_ptrs. exists s. apply elem_of_level_ptrs. eauto. }
  split_and!; [done|done| |].
  - destruct (PriceLevel.orders_ l) as [|p ps] eqn:Hq; [done|].
    destruct (Hrest p) as (o & _ & _ & <- & ?); [left|done].
  - intros p Hp. destruct (Hrest p Hp) as (o & ? & ? & ? & _). eauto.
Qed.

Lemma best_price_level (s : Side) (b : OrderBook.t) (k : Price) :
  fst <$> head (OrderBook.side_levels s b) = Some k →
  ∃ l, (k, l) ∈ OrderBook.side_levels s b.
Proof.
  destruct (OrderBook.side_levels s b) as [|[k0 l0] lv]; [done|].
  cbn. intros [= <-]. exists l0. left.
Qed.

(** ** A limit order that finds nothing to trade with *)

Lemma match_loop_stop (fuel : nat) (past : Price → bool) (taker : ptr)
    (h : heap) (lv : list (Price * PriceLevel.t)) (total rem : Quantity)
    (ms : list OrderBook.OrderMatch) :
  (∀ k, fst <$> head lv = Some k → past k = true) →
  OrderBook.match_loop fuel past taker h lv total rem ms
  = Some (h, lv, total, rem, ms).
Proof.
  intros Hpast. destruct fuel, lv as [|[k l] lv]; cbn; try done.
  all: rewrite (Hpast k) by done; by case_decide.
Qed.

Lemma insert_alloc (h : heap) (o o' : Order.t) :
  <[length h := o']> (h ++ [o]) = h ++ [o'].
Proof. by rewrite insert_app_r_alt, Nat.sub_diag by lia. Qed.

Lemma book_eta (s : Side) (b : OrderBook.t) :
  OrderBook.set_orders (OrderBook.orders_ b)
    (OrderBook.set_side s (OrderBook.side_levels s b)
       (OrderBook.side_total s b) b) = b.
Proof. by destruct b, s. Qed.

Section rests.
Context (P : Order.t → Prop).

Lemma submit_rests_form (fuel : nat) (h : heap) (b : OrderBook.t)
    (id : OrderId) (symbol : string) (s : Side) (q : Quantity)
    (k : Price) :
  wf P h b →
  id ≠ INVALID_ORDER_ID →
  0 < q →
  (∀ k', fst <$> head (OrderBook.side_levels (OrderBook.opposite s) b)
         = Some k' → OrderBook.past_limit s k k' = true) →
  let o' := Order.mk id symbol s LIMIT q 0 k GTC ACCEPTED in
  ∃ level m1 m2,
    (PriceMap.find k (OrderBook.side_levels s b) = Some level
     ∧ OrderBook.side_levels s b = m1 ++ (k, level) :: m2
     ∨ PriceMap.find k (OrderBook.side_levels s b) = None
       ∧ level = PriceLevel.make k
       ∧ OrderBook.side_levels s b = m1 ++ m2)
    ∧ (k ∉ m1.*1)
    ∧ PriceLevel.price_ level = k
    ∧ OrderBook.add_order fuel
        (h ++ [Order.make id symbol s LIMIT q k GTC]) b (length h)
      = Some ([], h ++ [o'],
              OrderBook.set_orders (<[id := length h]> (OrderBook.orders_ b))
                (OrderBook.set_side s
                   (m1 ++ (k, PriceLevel.mk k
                                (PriceLevel.total_quantity_ level + q)
                                (PriceLevel.orders_ level ++ [length h])
                                (<[id := length h]>
                                   (PriceLevel.order_map_ level)))
                       :: m2)
                   (OrderBook.side_total s b + q) b)).
Proof.
  intros Hwf Hid Hq Hpast o'.
  set (o := Order.make id symbol s LIMIT q k GTC).
  assert (Hwf' : wf P (h ++ [o']) b).
  { destruct (wf_alloc P h b o' Hwf) as (? & _). done. }
  assert (Ho' : (h ++ [o']) !! length h = Some o')
    by (by rewrite list_lookup_middle).
  destruct (add_limit_order_to_book_form P _ _ _ _ Hwf' Ho' eq_refl)
    as (level & m1 & m2 & Hcase & Hk & Hpr & Hform).
  { unfold Order.is_filled. cbn.
    rewrite bool_decide_eq_false_2 by lia. done. }
  exists level, m1, m2. split_and!; [done|done|done|].
  cbn in Hform. change (Order.remaining_quantity o') with (q - 0) in Hform.
  rewrite Z.sub_0_r in Hform. rewrite <- Hform. clear Hform Hcase.
  unfold OrderBook.add_order.
  rewrite list_lookup_middle by done.
  assert (Order.is_valid o = true) as ->
    by (by apply bool_decide_eq_true_2).
  cbn [negb]. change (Order.set_status ACCEPTED o) with o'.
  rewrite insert_alloc. change (Order.type_ o') with LIMIT. cbn match.
  unfold OrderBook.match_limit_order.
  rewrite list_lookup_middle by done.
  rewrite decide_False by (intros Hne; by apply Hne).
  unfold OrderBook.match_order.
  rewrite match_loop_stop by done. cbn [mbind option_bind].
  rewrite list_lookup_middle by done. cbn [mbind option_bind].
  rewrite set_side_id.
  assert (Hex : Order.execute
                  (Order.quantity_ o' - Order.remaining_quantity o') o'
                = o').
  { unfold Order.execute, Order.remaining_quantity, ZERO. cbn.
    replace (q - (q - 0)) with 0 by lia.
    destruct (decide (0 > q - 0)) as [|_]; [lia|]. cbn.
    rewrite decide_False by lia. rewrite decide_False by lia. done. }
  rewrite Hex. change (Order.time_in_force_ o') with GTC.
  rewrite (bool_decide_eq_false_2 (GTC = FOK)) by done. cbn [andb].
  rewrite insert_alloc. cbn [mbind option_bind].
  rewrite list_lookup_middle by done. cbn [mbind option_bind].
  assert (Order.is_filled o' = false) as ->.
  { unfold Order.is_filled. cbn.
    rewrite bool_decide_eq_false_2 by lia. done. }
  rewrite (bool_decide_eq_true_2 (GTC ≠ IOC)) by done. done.
Qed.

End rests.

(** ** Cancelling the order that was just added *)

Lemma past_limit_best (s : Side) (k : Price) (b : OrderBook.t) :
  match s with
  | BUY => ∀ ba, OrderBook.best_ask b = Some ba → k < ba
  | SELL => ∀ bb, OrderBook.best_bid b = Some bb → bb < k
  end →
  ∀ k', fst <$> head (OrderBook.side_levels (OrderBook.opposite s) b)
        = Some k' → OrderBook.past_limit s k k' = true.
Proof.
  destruct s; cbn; intros H k' Hk'; apply bool_decide_eq_true;
    specialize (H k' Hk'); lia.
Qed.

Lemma orders_set_orders idx (b : OrderBook.t) :
  OrderBook.orders_ (OrderBook.set_orders idx b) = idx.
Proof. done. Qed.

Section cancel_rested.
Context (P : Order.t → Prop).

(** The book in which an order was appended to the level [level] at [k],
    and the cancel of that order, which gives the book back. *)
Lemma cancel_rested (h : heap) (b : OrderBook.t) (o' : Order.t)
    (level : PriceLevel.t) (m1 m2 : list (Price * PriceLevel.t)) :
  let id := Order.id_ o' in
  let s := Order.side_ o' in
  let k := Order.price_ o' in
  let q := Order.remaining_quantity o' in
  let p := length h in
  (OrderBook.side_levels s b = m1 ++ (k, level) :: m2
   ∧ PriceLevel.orders_ level ≠ []
   ∨ level = PriceLevel.make k ∧ OrderBook.side_levels s b = m1 ++ m2) →
  (k ∉ m1.*1) →
  PriceLevel.price_ level = k →
  (p ∉ PriceLevel.orders_ level) →
  PriceLevel.order_map_ level !! id = None →
  OrderBook.orders_ b !! id = None →
  OrderBook.cancel_order (h ++ [o'])
    (OrderBook.set_orders (<[id := p]> (OrderBook.orders_ b))
       (OrderBook.set_side s
          (m1 ++ (k, PriceLevel.mk k
                       (PriceLevel.total_quantity_ level + q)
                       (PriceLevel.orders_ level ++ [p])
                       (<[id := p]> (PriceLevel.order_map_ level)))
              :: m2)
          (OrderBook.side_total s b + q) b)) id
  = Some (true, h ++ [Order.cancel o'], b).
Proof.
  intros id s k q p Hcase Hk Hpr Hp Hmap Hidx.
  unfold OrderBook.cancel_order.
  rewrite orders_set_orders, lookup_insert_eq.
  rewrite list_lookup_middle by done. cbn [mbind option_bind].
  fold s k. rewrite side_levels_set_orders, side_levels_set_side.
  rewrite find_middle by done.
  unfold PriceLevel.remove_order. cbn [PriceLevel.order_map_].
  rewrite lookup_insert_eq, list_lookup_middle by done.
  cbn [mbind option_bind PriceLevel.orders_ PriceLevel.total_quantity_
       PriceLevel.price_].
  rewrite set_middle by done.
  rewrite (list_erase_middle p _ []) by done. rewrite app_nil_r.
  rewrite (delete_insert_eq (PriceLevel.order_map_ level)).
  rewrite (delete_id (PriceLevel.order_map_ level)) by done.
  fold q. replace (PriceLevel.total_quantity_ level + q - q)
    with (PriceLevel.total_quantity_ level) by lia.
  rewrite side_total_set_orders, side_total_set_side.
  replace (OrderBook.side_total s b + q - q)
    with (OrderBook.side_total s b) by lia.
  unfold OrderBook.remove_price_level_if_empty.
  rewrite side_levels_set_side, side_total_set_side.
  rewrite find_middle by done.
  unfold PriceLevel.is_empty. cbn [PriceLevel.orders_].
  change (<[p:=Order.cancel o']> (h ++ [o']))
    with (<[length h:=Order.cancel o']> (h ++ [o'])).
  rewrite insert_alloc.
  destruct Hcase as [[Hlv Hne]|[-> Hlv]].
  - rewrite bool_decide_eq_false_2 by done.
    replace (PriceLevel.mk k (PriceLevel.total_quantity_ level)
               (PriceLevel.orders_ level) (PriceLevel.order_map_ level))
      with level by (rewrite <- Hpr; by destruct level).
    rewrite <- Hlv. f_equal. f_equal. destruct b, s; cbn in *; f_equal;
      by rewrite delete_insert_eq, delete_id.
  - cbn. rewrite erase_middle by done. rewrite <- Hlv.
    f_equal. f_equal. destruct b, s; cbn in *; f_equal;
      by rewrite delete_insert_eq, delete_id.
Qed.

End cancel_rested.

(** ** The matches of a walk *)

Lemma matched_quantity_app (ms ms' : list OrderBook.OrderMatch) :
  matched_quantity (ms ++ ms') = matched_quantity ms + matched_quantity ms'.
Proof. unfold matched_quantity. by rewrite fmap_app, sumZ_app. Qed.

Lemma record_matches_new (h : heap) (taker : ptr)
    (ex : list (ptr * Quantity)) :
  ∀ (ms : list OrderBook.OrderMatch) (rem total : Quantity) ms' rem' total',
  OrderBook.record_matches h taker ex ms rem total = Some (ms', rem', total') →
  ∃ new, ms' = ms ++ new
    ∧ matched_quantity new = sumZ ex.*2
    ∧ Forall2 (λ pq m, ∃ mo t, h !! pq.1 = Some mo ∧ h !! taker = Some t
                 ∧ m = OrderBook.mkMatch (Order.id_ mo) (Order.id_ t)
                         (Order.price_ mo) pq.2) ex new.
Proof.
  induction ex as [|[maker x] ex IH]; intros ms rem total ms' rem' total' Hrun;
    cbn in Hrun.
  - injection Hrun as <- <- <-. exists []. rewrite app_nil_r.
    split_and!; [done|done|constructor].
  - unfold OrderBook.create_match in Hrun.
    destruct (h !! maker) as [mo|] eqn:Hmo; [|done].
    destruct (h !! taker) as [t|] eqn:Ht; [|done]. cbn in Hrun.
    apply IH in Hrun as (new & -> & Hsum & Hall).
    eexists (_ :: new). rewrite <- app_assoc. split_and!; [done| |].
    + unfold matched_quantity in *. cbn. rewrite !sumZ_cons, Hsum. done.
    + constructor; [|done]. exists mo, t. by split_and!.
Qed.

Section matches.
Context (P : Order.t → Prop) (idx : gmap OrderId ptr) (s : Side).
Hypothesis Hstable : exec_stable P.

Lemma take_level_matches (fuel : nat) (taker : ptr) (h : heap)
    (price : Price) (level : PriceLevel.t)
    (rest : list (Price * PriceLevel.t)) (total rem : Quantity)
    (ms : list OrderBook.OrderMatch) (t : Order.t) h1 lv1 total1 rem1 ms1 :
  OrderBook.take_level fuel taker h price level rest total rem ms
    = Some (h1, lv1, total1, rem1, ms1) →
  side_ok P h idx s ((price, level) :: rest) total →
  NoDup (level_ptrs ((price, level) :: rest)) →
  h !! taker = Some t →
  taker ∉ level_ptrs ((price, level) :: rest) →
  ∃ new, ms1 = ms ++ new
    ∧ matched_quantity new = rem - rem1
    ∧ Forall (λ m, OrderBook.taker_order_id m = Order.id_ t
                   ∧ 0 < OrderBook.match_quantity m
                   ∧ OrderBook.match_price m = price
                   ∧ ∃ p o, p ∈ PriceLevel.orders_ level ∧ h !! p = Some o
                            ∧ OrderBook.maker_order_id m = Order.id_ o
                            ∧ Order.price_ o = price) new.
Proof.
  unfold OrderBook.take_level. intros Hrun (Hsort & Htot & Hall) Hnd Ht Hnin.
  apply Forall_cons in Hall as [Hlvl Hrest].
  rewrite level_ptrs_cons in Hnd, Hnin.
  apply NoDup_app in Hnd as (Hnd1 & _ & _).
  destruct (PriceLevel.execute_quantity fuel h rem level)
    as [[[h' level1] ex]|] eqn:Hexec; [|done]. cbn in Hrun.
  destruct (OrderBook.record_matches h' taker ex ms rem total)
    as [[[ms' rem'] total']|] eqn:Hrec; [|done]. cbn in Hrun.
  injection Hrun as <- <- <- <- <-.
  pose proof (record_matches_spec _ _ _ _ _ _ _ _ _ Hrec) as [-> ->].
  apply record_matches_new in Hrec as (new & -> & Hsum & Hnew).
  assert (Hpr : PriceLevel.price_ level = price) by apply Hlvl.
  pose proof Hlvl as (_ & _ & Hords & _). cbn in Hords.
  rewrite Forall_forall in Hords.
  rewrite <- Hpr in Hlvl.
  destruct (execute_quantity_ok P idx s Hstable _ _ _ _ _ _ _ Hexec Hlvl Hnd1)
    as (_ & _ & Hfr & Hle & Hmk & _).
  destruct (execute_quantity_bound _ _ _ _ _ _ _ Hexec) as (Hpos & _).
  assert (Ht' : h' !! taker = Some t).
  { rewrite Hfr; [done|]. intros ?. apply Hnin, elem_of_app. by left. }
  exists new. split_and!; [done|lia|].
  revert Hmk Hpos. clear Hsum Hexec.
  induction Hnew as [|[maker x] m ex new Hm _ IH]; intros Hmk Hpos;
    [constructor|].
  apply Forall_cons in Hmk as [Hmaker Hmk].
  apply Forall_cons in Hpos as [Hx Hpos].
  constructor; [|by apply IH].
  destruct Hm as (mo & t0 & Hmo & Ht0 & ->). cbn in *.
  assert (t0 = t) as -> by congruence.
  destruct (Hords _ Hmaker) as (o & Ho & Hpo & _).
  destruct (Hle _ _ Ho) as (o' & Ho' & Hst).
  assert (o' = mo) as -> by congruence.
  destruct Hst as (Hid & _ & Hprice & _).
  split_and!; [done|done|congruence|].
  exists maker, o. split_and!; [done|done|done|congruence].
Qed.

Lemma match_loop_matches (fuel : nat) (past : Price → bool) (taker : ptr)
    (t : Order.t) :
  ∀ (h : heap) (lv : list (Price * PriceLevel.t)) (total rem : Quantity)
    (ms : list OrderBook.OrderMatch) h' lv' total' rem' ms',
  OrderBook.match_loop fuel past taker h lv total rem ms
    = Some (h', lv', total', rem', ms') →
  side_ok P h idx s lv total →
  NoDup (level_ptrs lv) →
  h !! taker = Some t →
  taker ∉ level_ptrs lv →
  ∃ new, ms' = ms ++ new
    ∧ matched_quantity new = rem - rem'
    ∧ Forall (match_against h lv past (Order.id_ t)) new.
Proof.
  assert (Hnone : ∀ (h : heap) lv (ms : list OrderBook.OrderMatch)
                    (rem : Quantity),
            ∃ new, ms = ms ++ new
              ∧ matched_quantity new = rem - rem
              ∧ Forall (match_against h lv past (Order.id_ t)) new).
  { intros. exists []. rewrite app_nil_r.
    split_and!; [done|unfold matched_quantity, sumZ; cbn; lia|constructor]. }
  induction fuel as [|fuel IH];
    intros h lv total rem ms h' lv' total' rem' ms' Hrun Hok Hnd Ht Hnin.
  - destruct lv as [|[price level] rest]; cbn in Hrun.
    + injection Hrun as <- <- <- <- <-. apply Hnone.
    + case_decide; [destruct (past price); [|done]|];
        injection Hrun as <- <- <- <- <-; apply Hnone.
  - destruct lv as [|[price level] rest]; cbn in Hrun.
    + injection Hrun as <- <- <- <- <-. apply Hnone.
    + case_decide; [destruct (past price) eqn:Hpast|];
        [injection Hrun as <- <- <- <- <-; apply Hnone
        | |injection Hrun as <- <- <- <- <-; apply Hnone].
      destruct (OrderBook.take_level fuel taker h price level rest total rem ms)
        as [[[[[h1 lv1] total1] rem1] ms1]|] eqn:Htake; [|done].
      cbn in Hrun.
      destruct (take_level_ok P idx s Hstable _ _ _ _ _ _ _ _ _ _ _ _ _ _
                  Htake Hok Hnd)
        as (Hok1 & Hnd1 & Hsub1 & Hfr1 & Hle1 & _).
      destruct (take_level_matches _ _ _ _ _ _ _ _ _ _ _ _ _ _ _
                  Htake Hok Hnd Ht Hnin)
        as (new1 & -> & Hsum1 & Hall1).
      assert (Hhere : Forall (match_against h ((price, level) :: rest) past
                                (Order.id_ t)) new1).
      { eapply Forall_impl; [exact Hall1|]. cbn.
        intros m (Hid & Hq & Hp & p & o & Hin & Ho & Hmk & Hpo).
        split_and!; [done|done|by rewrite Hp|].
        exists p, o. split_and!; [|done|done|congruence].
        rewrite level_ptrs_cons. apply elem_of_app. by left. }
      assert (Ht1 : h1 !! taker = Some t) by (by rewrite Hfr1).
      rewrite Ht1 in Hrun. cbn in Hrun.
      destruct (bool_decide (rem1 ≤ ZERO)
                || bool_decide (Order.time_in_force_ t = FOK)
                   && bool_decide (rem1 < Order.quantity_ t)).
      * injection Hrun as <- <- <- <- <-. by exists new1.
      * destruct (IH _ _ _ _ _ _ _ _ _ _ Hrun Hok1 Hnd1 Ht1)
          as (new2 & -> & Hsum2 & Hall2).
        { intros Hin. by apply Hnin, Hsub1. }
        exists (new1 ++ new2). rewrite <- app_assoc.
        split_and!; [done|rewrite matched_quantity_app; lia|].
        apply Forall_app. split; [done|].
        eapply Forall_impl; [exact Hall2|]. cbn.
        intros m (Hid & Hq & Hp & p & o1 & Hin & Ho1 & Hmk & Hpo).
        split_and!; [done|done|done|].
        assert (Hin' : p ∈ level_ptrs ((price, level) :: rest))
          by (by apply Hsub1).
        apply elem_of_level_ptrs in Hin' as (k0 & l0 & Hkl & Hpl).
        destruct Hok as (_ & _ & Hall). rewrite Forall_forall in Hall.
        destruct (Hall _ Hkl) as (_ & _ & Hords & _).
        rewrite Forall_forall in Hords.
        destruct (Hords _ Hpl) as (o & Ho & _).
        destruct (Hle1 _ _ Ho) as (o1' & Ho1' & Hst).
        assert (o1' = o1) as -> by congruence.
        destruct Hst as (Hid' & _ & Hprice & _).
        exists p, o. split_and!; [|done|congruence|congruence].
        apply elem_of_level_ptrs. eauto.
Qed.

End matches.

(** ** The matches that [add_order] returns *)

Lemma execute_fresh (o : Order.t) (x : Quantity) :
  Order.executed_quantity_ o = 0 →
  0 ≤ x → x ≤ Order.quantity_ o →
  Order.executed_quantity_ (Order.execute x o) = x.
Proof.
  intros He H0 Hle.
  destruct (execute_spec x o) as (Hq & Hrem & _).
  unfold Order.remaining_quantity in *. lia.
Qed.

Section add_order_matches.
Context (P : Order.t → Prop).
Hypothesis Hstable : exec_stable P.

Lemma match_order_matches (fuel : nat) (past : Price → bool) (h : heap)
    (b : OrderBook.t) (order : ptr) (o : Order.t) ms h' b' :
  OrderBook.match_order fuel past h b order o = Some (ms, h', b') →
  wf P h b →
  h !! order = Some o →
  order ∉ book_ptrs b →
  let opp := OrderBook.opposite (Order.side_ o) in
  ∃ new rem',
    Forall (match_against h (OrderBook.side_levels opp b) past (Order.id_ o))
      new
    ∧ matched_quantity new = Order.remaining_quantity o - rem'
    ∧ rem' ≤ Order.remaining_quantity o
    ∧ (0 ≤ Order.remaining_quantity o → 0 ≤ rem')
    ∧ (ms = new ∨ ms = [] ∧ Order.time_in_force_ o = FOK)
    ∧ OrderBook.side_total opp b'
      = OrderBook.side_total opp b - matched_quantity new
    ∧ OrderBook.side_levels (Order.side_ o) b'
      = OrderBook.side_levels (Order.side_ o) b
    ∧ OrderBook.side_total (Order.side_ o) b'
      = OrderBook.side_total (Order.side_ o) b
    ∧ ∃ o', h' !! order = Some o'
            ∧ taker_result o o'
            ∧ Order.executed_quantity_ o'
              = Order.executed_quantity_
                  (Order.execute (Order.quantity_ o - rem') o).
Proof.
  intros Hrun Hwf Ho Hnin opp. unfold OrderBook.match_order in Hrun.
  fold opp in Hrun.
  destruct (OrderBook.match_loop fuel past order h
              (OrderBook.side_levels opp b) (OrderBook.side_total opp b)
              (Order.remaining_quantity o) [])
    as [[[[[h1 lv1] total1] rem1] ms1]|] eqn:Hloop; [|done].
  cbn in Hrun.
  assert (Hnin' : order ∉ level_ptrs (OrderBook.side_levels opp b)).
  { intros Hin. apply Hnin, elem_of_book_ptrs. eauto. }
  assert (Hnd : NoDup (level_ptrs (OrderBook.side_levels opp b))).
  { pose proof (wf_nodup _ _ _ Hwf) as Hnd.
    rewrite (book_ptrs_sides opp) in Hnd. by apply NoDup_app in Hnd as [? _]. }
  destruct (match_loop_ok P (OrderBook.orders_ b) opp Hstable _ _ _ _ _ _ _
              _ _ _ _ _ _ Hloop (wf_side _ _ _ Hwf opp) Hnd)
    as (_ & _ & _ & Hfr & _).
  destruct (match_loop_shape _ _ _ _ _ _ _ _ _ _ _ _ _ Hloop)
    as (_ & _ & Hle & Hpos & Htot & _).
  destruct (match_loop_matches P (OrderBook.orders_ b) opp Hstable _ _ _ o
              _ _ _ _ _ _ _ _ _ _ Hloop (wf_side _ _ _ Hwf opp) Hnd Ho Hnin')
    as (new & Hms & Hsum & Hall).
  cbn in Hms. subst ms1.
  rewrite (Hfr _ Hnin'), Ho in Hrun. cbn in Hrun.
  assert (Hlen : (order < length h1)%nat).
  { apply lookup_lt_is_Some. rewrite (Hfr _ Hnin'). eauto. }
  assert (Hsides : ∀ lv total,
            OrderBook.side_levels (Order.side_ o)
              (OrderBook.set_side opp lv total b)
            = OrderBook.side_levels (Order.side_ o) b
            ∧ OrderBook.side_total (Order.side_ o)
                (OrderBook.set_side opp lv total b)
              = OrderBook.side_total (Order.side_ o) b).
  { intros. unfold opp. by destruct (Order.side_ o). }
  exists new, rem1. rewrite static_eq_execute_tif in Hrun.
  destruct (bool_decide (Order.time_in_force_ o = FOK)
            && bool_decide (rem1 > ZERO)) eqn:Hfok;
    injection Hrun as <- <- <-;
    (split_and!; [done|done|done|done| |
       rewrite side_total_set_side; lia|apply Hsides|apply Hsides|]).
  - right. split; [done|].
    apply andb_true_iff in Hfok as [Hf _]. by apply bool_decide_eq_true in Hf.
  - eexists. split; [by apply list_lookup_insert_eq|]. split; [|done].
    eexists. right. split; [|done].
    apply andb_true_iff in Hfok as [Hf _]. by apply bool_decide_eq_true in Hf.
  - by left.
  - eexists. split; [by apply list_lookup_insert_eq|]. split; [|done].
    eexists. by left.
Qed.

Lemma add_order_matches (fuel : nat) (h : heap) (b : OrderBook.t)
    (order : ptr) (o : Order.t) ms h' b' :
  OrderBook.add_order fuel h b order = Some (ms, h', b') →
  wf P h b →
  h !! order = Some o →
  order ∉ book_ptrs b →
  Order.executed_quantity_ o = 0 →
  0 ≤ Order.quantity_ o →
  let s := Order.side_ o in
  let opp := OrderBook.opposite s in
  Forall (λ m, OrderBook.taker_order_id m = Order.id_ o
               ∧ 0 < OrderBook.match_quantity m
               ∧ (Order.type_ o = LIMIT →
                  OrderBook.past_limit s (Order.price_ o)
                    (OrderBook.match_price m) = false)
               ∧ ∃ p mo, p ∈ level_ptrs (OrderBook.side_levels opp b)
                         ∧ h !! p = Some mo
                         ∧ OrderBook.maker_order_id m = Order.id_ mo
                         ∧ OrderBook.match_price m = Order.price_ mo) ms
  ∧ 0 ≤ matched_quantity ms ≤ Order.quantity_ o
  ∧ (Order.time_in_force_ o ≠ FOK →
     OrderBook.side_total opp b'
     = OrderBook.side_total opp b - matched_quantity ms
     ∧ ∃ o', h' !! order = Some o'
             ∧ Order.executed_quantity_ o' = matched_quantity ms).
Proof.
  intros Hrun Hwf Ho Hnin Hex Hq s opp. unfold OrderBook.add_order in Hrun.
  assert (Hzero : matched_quantity [] = 0) by done.
  rewrite Ho in Hrun.
  destruct (Order.is_valid o); cbn in Hrun; cycle 1.
  { injection Hrun as <- <- <-. rewrite Hzero.
    split_and!; [constructor|done|done|].
    intros _. split; [lia|]. exists o. split; [done|lia]. }
  set (o1 := Order.set_status ACCEPTED o) in *.
  set (h1 := <[order := o1]> h) in *.
  assert (Ho1 : h1 !! order = Some o1).
  { apply list_lookup_insert_eq. by eapply lookup_lt_Some. }
  assert (Hle1 : heap_le h h1)
    by (eapply heap_le_insert; [done|apply static_eq_set_status]).
  assert (Hfr1 : ∀ p, p ∈ book_ptrs b → h1 !! p = h !! p).
  { intros p Hp. apply list_lookup_insert_ne. by intros <-. }
  assert (Hwf1 : wf P h1 b) by (by apply (wf_frame P h)).
  assert (Hmatch : ∀ past ms2 h2 b2,
            OrderBook.match_order fuel past h1 b order o1
            = Some (ms2, h2, b2) →
            Forall (λ m, OrderBook.taker_order_id m = Order.id_ o
                         ∧ 0 < OrderBook.match_quantity m
                         ∧ past (OrderBook.match_price m) = false
                         ∧ ∃ p mo, p ∈ level_ptrs (OrderBook.side_levels opp b)
                                   ∧ h !! p = Some mo
                                   ∧ OrderBook.maker_order_id m = Order.id_ mo
                                   ∧ OrderBook.match_price m = Order.price_ mo)
              ms2
            ∧ 0 ≤ matched_quantity ms2 ≤ Order.quantity_ o
            ∧ (Order.time_in_force_ o ≠ FOK →
               OrderBook.side_total opp b2
               = OrderBook.side_total opp b - matched_quantity ms2
               ∧ ∃ o', h2 !! order = Some o'
                       ∧ Order.executed_quantity_ o' = matched_quantity ms2)).
  { intros past ms2 h2 b2 Hm.
    destruct (match_order_matches _ _ _ _ _ _ _ _ _ Hm Hwf1 Ho1 Hnin)
      as (new & rem' & Hall & Hsum & Hle & Hpos & Hms & Htot & _ & _
          & o' & Ho' & Hres & Hexq).
    cbn in Hall, Htot. fold s opp in Hall, Htot.
    change (Order.remaining_quantity o1) with (Order.remaining_quantity o)
      in *.
    assert (Hrq : Order.remaining_quantity o = Order.quantity_ o)
      by (unfold Order.remaining_quantity; lia).
    assert (Hnew : Forall (λ m, OrderBook.taker_order_id m = Order.id_ o
                     ∧ 0 < OrderBook.match_quantity m
                     ∧ past (OrderBook.match_price m) = false
                     ∧ ∃ p mo, p ∈ level_ptrs (OrderBook.side_levels opp b)
                               ∧ h !! p = Some mo
                               ∧ OrderBook.maker_order_id m = Order.id_ mo
                               ∧ OrderBook.match_price m = Order.price_ mo)
                     new).
    { eapply Forall_impl; [exact Hall|]. cbn.
      intros m (Hid & Hqm & Hp & p & mo & Hin & Hmo & Hmk & Hpm).
      split_and!; [done|done|done|].
      exists p, mo. split_and!; [done| |done|done].
      rewrite <- Hfr1; [done|]. apply elem_of_book_ptrs. eauto. }
    destruct Hms as [->|[-> Hfok]].
    - split_and!; [done|lia|lia|]. intros _. split; [done|].
      exists o'. split; [done|]. rewrite Hexq.
      change (Order.quantity_ o1) with (Order.quantity_ o).
      rewrite execute_fresh; [lia|exact Hex|lia|].
      change (Order.quantity_ o1) with (Order.quantity_ o). lia.
    - rewrite Hzero. split_and!; [constructor|done|lia|]. done. }
  destruct (Order.type_ o) eqn:Hty; cbn in Hrun; rewrite ?Hty in Hrun.
  - unfold OrderBook.match_limit_order in Hrun. rewrite Ho1 in Hrun.
    rewrite decide_False in Hrun by (cbn; rewrite Hty; auto).
    destruct (OrderBook.match_order fuel _ h1 b order o1)
      as [[[ms2 h2] b2]|] eqn:Hm; [|done]. cbn in Hrun.
    destruct (Hmatch _ _ _ _ Hm) as (Hall & Hsum & Hrest).
    destruct (match_order_ok P Hstable _ _ _ _ _ _ _ _ _ Hm Hwf1 Ho1 Hnin)
      as (Hwf2 & _ & _ & Hle2 & o2 & Ho2 & Hres).
    rewrite Ho2 in Hrun. cbn in Hrun.
    assert (Hall' : Forall (λ m, OrderBook.taker_order_id m = Order.id_ o
               ∧ 0 < OrderBook.match_quantity m
               ∧ (LIMIT = LIMIT →
                  OrderBook.past_limit s (Order.price_ o)
                    (OrderBook.match_price m) = false)
               ∧ ∃ p mo, p ∈ level_ptrs (OrderBook.side_levels opp b)
                         ∧ h !! p = Some mo
                         ∧ OrderBook.maker_order_id m = Order.id_ mo
                         ∧ OrderBook.match_price m = Order.price_ mo) ms2).
    { eapply Forall_impl; [exact Hall|]. cbn. intros m (? & ? & ? & ?).
      by split_and!. }
    destruct (negb (Order.is_filled o2)
              && bool_decide (Order.time_in_force_ o2 ≠ IOC)) eqn:Hadd;
      injection Hrun as <- <- <-; [|done].
    split_and!; [done|lia|lia|].
    intros Htif. destruct (Hrest Htif) as [Htot Hex2]. split; [|done].
    rewrite <- Htot.
    apply andb_true_iff in Hadd as [Hnf _]. apply negb_true_iff in Hnf.
    destruct (taker_result_static _ _ Hres) as (_ & Hsd & _ & Hty2 & _).
    cbn in Hsd, Hty2.
    destruct (add_limit_order_to_book_form P h2 b2 order o2 Hwf2 Ho2
                ltac:(congruence) Hnf)
      as (level & m1 & m2 & _ & _ & _ & ->).
    rewrite <- Hsd. fold s. unfold opp.
    by rewrite side_total_set_orders, side_total_set_side_opp.
  - unfold OrderBook.match_market_order in Hrun. rewrite Ho1 in Hrun.
    rewrite decide_False in Hrun by (cbn; rewrite Hty; auto).
    destruct (Hmatch _ _ _ _ Hrun) as (Hall & Hsum & Hrest).
    split_and!; [|lia|lia|done].
    eapply Forall_impl; [exact Hall|]. cbn. intros m (? & ? & ? & ?).
    by split_and!.
  - injection Hrun as <- <- <-. rewrite Hzero.
    split_and!; [constructor|done|done|]. intros _. split; [lia|].
    exists o1. split; [done|]. cbn. lia.
  - injection Hrun as <- <- <-. rewrite Hzero.
    split_and!; [constructor|done|done|]. intros _. split; [lia|].
    exists o1. split; [done|]. cbn. lia.
Qed.

End add_order_matches.

(** ** Totals are not negative *)

Section totals_nonneg.
Context (P : Order.t → Prop).

Lemma sum_remaining_nonneg (h : heap) (idx : gmap OrderId ptr) (s : Side)
    (l : PriceLevel.t) (ps : list ptr) :
  Forall (order_ok P h idx s l) ps → 0 ≤ sum_remaining h ps.
Proof.
  induction 1 as [|p ps (o & Ho & _ & _ & _ & _ & Hrem & _) _ IH].
  - by rewrite sum_remaining_nil.
  - rewrite sum_remaining_cons, (remaining_at_lookup _ _ _ Ho). lia.
Qed.

Lemma level_totals_nonneg (h : heap) (idx : gmap OrderId ptr) (s : Side)
    (lv : list (Price * PriceLevel.t)) :
  Forall (level_ok P h idx s) lv → 0 ≤ level_totals lv.
Proof.
  induction 1 as [|[k l] lv (_ & Htot & Hords & _) _ IH]; [done|].
  rewrite level_totals_cons. cbn in *. rewrite Htot.
  pose proof (sum_remaining_nonneg _ _ _ _ _ Hords). lia.
Qed.

Lemma side_total_nonneg (h : heap) (b : OrderBook.t) (s : Side) :
  wf P h b → 0 ≤ OrderBook.side_total s b.
Proof.
  intros Hwf. destruct (wf_side _ _ _ Hwf s) as (_ & -> & Hall).
  by eapply level_totals_nonneg.
Qed.

Lemma side_total_empty (h : heap) (b : OrderBook.t) (s : Side) :
  wf P h b → OrderBook.side_levels s b = [] → OrderBook.side_total s b = 0.
Proof.
  intros Hwf Hlv. destruct (wf_side _ _ _ Hwf s) as (_ & -> & _).
  by rewrite Hlv.
Qed.

(** The makers that a walk matches rest on the side it walks. *)
Lemma maker_resting (h : heap) (b : OrderBook.t) (s : Side) (p : ptr)
    (o mo : Order.t) :
  wf P h b →
  p ∈ level_ptrs (OrderBook.side_levels s b) →
  (h ++ [o]) !! p = Some mo →
  resting h b p mo ∧ Order.side_ mo = s.
Proof.
  intros Hwf Hp Hmo.
  apply elem_of_level_ptrs in Hp as (k & l & Hkl & Hpl).
  destruct (wf_side _ _ _ Hwf s) as (_ & _ & Hall).
  rewrite Forall_forall in Hall.
  destruct (Hall _ Hkl) as (_ & _ & Hords & _).
  rewrite Forall_forall in Hords.
  destruct (Hords _ Hpl) as (o0 & Ho0 & _ & Hs & _).
  rewrite (lookup_app_l_Some _ _ _ _ Ho0) in Hmo. injection Hmo as <-.
  split; [|done]. split; [|done].
  apply elem_of_book_ptrs. exists s. apply elem_of_level_ptrs. eauto.
Qed.

End totals_nonneg.

(** ** Price-time priority *)

Lemma priority_fill_nonpos (h : heap) (rem : Quantity) (ps : list ptr) :
  rem ≤ 0 → priority_fill h rem ps = [].
Proof. intros Hrem. destruct ps; cbn; [done|]. by rewrite decide_False by lia. Qed.

Lemma priority_fill_frame (h h' : heap) (ps : list ptr) :
  (∀ p, p ∈ ps → h' !! p = h !! p) →
  ∀ rem, priority_fill h' rem ps = priority_fill h rem ps.
Proof.
  induction ps as [|p ps IH]; intros Hfr rem; cbn; [done|].
  unfold remaining_at. rewrite (Hfr p) by set_solver.
  rewrite !IH by (intros; apply Hfr; set_solver). done.
Qed.

Lemma priority_fill_app (h : heap) (ps qs : list ptr) :
  ∀ rem, priority_fill h rem (ps ++ qs)
         = priority_fill h rem ps
           ++ priority_fill h (rem - sumZ (priority_fill h rem ps).*2) qs.
Proof.
  induction ps as [|p ps IH]; intros rem; cbn.
  - unfold sumZ. cbn. by rewrite Z.sub_0_r.
  - destruct (decide (rem > 0)) as [Hrem|Hrem]; cycle 1.
    { unfold sumZ. cbn. rewrite Z.sub_0_r. by rewrite priority_fill_nonpos by lia. }
    destruct (decide (rem `min` remaining_at h p > 0)).
    + cbn. rewrite sumZ_cons, IH. do 3 f_equal. lia.
    + apply IH.
Qed.

Lemma priority_fill_ptrs (h : heap) (ps : list ptr) :
  ∀ rem, Forall (λ pq, pq.1 ∈ ps) (priority_fill h rem ps).
Proof.
  induction ps as [|p ps IH]; intros rem; cbn; [constructor|].
  destruct (decide (rem > 0)); [|constructor].
  destruct (decide (_ > 0)).
  - constructor; [set_solver|].
    eapply Forall_impl; [apply IH|]. cbn. set_solver.
  - eapply Forall_impl; [apply IH|]. cbn. set_solver.
Qed.

(** What is allocated is the smaller of the quantity and what the queue
    holds. *)
Lemma priority_fill_sum (h : heap) (ps : list ptr) :
  Forall (λ p, 0 ≤ remaining_at h p) ps →
  ∀ rem, 0 ≤ rem →
    sumZ (priority_fill h rem ps).*2 = Z.min rem (sum_remaining h ps).
Proof.
  induction 1 as [|p ps Hp _ IH]; intros rem Hrem; cbn.
  - rewrite sum_remaining_nil. unfold sumZ. cbn. lia.
  - rewrite sum_remaining_cons.
    assert (Hnn : 0 ≤ sum_remaining h ps).
    { specialize (IH 0 ltac:(lia)).
      rewrite priority_fill_nonpos in IH by lia. unfold sumZ in IH at 1.
      cbn in IH. lia. }
    destruct (decide (rem > 0)); cycle 1.
    { unfold sumZ at 1. cbn. lia. }
    destruct (decide (_ > 0)).
    + cbn. rewrite sumZ_cons, IH by lia. lia.
    + rewrite IH by lia. lia.
Qed.

Lemma match_of_frame (h h' : heap) (tid : OrderId) (ps : list ptr)
    (pqs : list (ptr * Quantity)) (ms : list OrderBook.OrderMatch) :
  (∀ p o, p ∈ ps → h !! p = Some o →
     ∃ o', h' !! p = Some o' ∧ Order.id_ o' = Order.id_ o
           ∧ Order.price_ o' = Order.price_ o) →
  Forall (λ pq, pq.1 ∈ ps) pqs →
  Forall2 (match_of h tid) pqs ms →
  Forall2 (match_of h' tid) pqs ms.
Proof.
  intros Hfr Hin Hall. induction Hall as [|pq m pqs ms Hm _ IH];
    [constructor|].
  apply Forall_cons in Hin as [Hp Hin]. constructor; [|by apply IH].
  destruct Hm as (o & Ho & ->).
  destruct (Hfr _ _ Hp Ho) as (o' & Ho' & Hid & Hpr). exists o'.
  by rewrite Hid, Hpr.
Qed.

Lemma match_of_quantity (h : heap) (tid : OrderId)
    (pqs : list (ptr * Quantity)) (ms : list OrderBook.OrderMatch) :
  Forall2 (match_of h tid) pqs ms → matched_quantity ms = sumZ pqs.*2.
Proof.
  unfold matched_quantity.
  induction 1 as [|pq m pqs ms (o & _ & ->) _ IH]; [done|].
  cbn. by rewrite !sumZ_cons, IH.
Qed.

Lemma level_ptrs_within (past : Price → bool)
    (lv : list (Price * PriceLevel.t)) (p : ptr) :
  p ∈ level_ptrs (within_limit past lv) → p ∈ level_ptrs lv.
Proof.
  induction lv as [|[k l] lv IH]; cbn; [done|].
  destruct (past k); [by intros ?%elem_of_nil|].
  rewrite !level_ptrs_cons, !elem_of_app. intros [?|?]; auto.
Qed.

Lemma execute_body_step (h : heap) (rem : Quantity) (l : PriceLevel.t)
    (ex : list (ptr * Quantity)) (order : ptr) (rest : list ptr)
    (o : Order.t) h1 rem1 l1 ex1 :
  PriceLevel.execute_body h rem l ex order rest o = (h1, rem1, l1, ex1) →
  let x := Z.min rem (Order.remaining_quantity o) in
  (if decide (x > 0) then ex1 = ex ++ [(order, x)] ∧ rem1 = rem - x
   else ex1 = ex ∧ rem1 = rem)
  ∧ ∀ p, p ≠ order → h1 !! p = h !! p.
Proof.
  intros Hrun x. unfold PriceLevel.execute_body, ZERO in Hrun.
  assert (Hx : (if decide (rem < Order.remaining_quantity o)
                then rem else Order.remaining_quantity o) = x)
    by (subst x; destruct (decide (rem < Order.remaining_quantity o)); lia).
  rewrite Hx in Hrun.
  destruct (decide (x > 0)); injection Hrun as <- <- _ <-;
    (split; [done|]); intros p Hp; by apply list_lookup_insert_ne.
Qed.

Section fill.
Context (P : Order.t → Prop) (idx : gmap OrderId ptr) (s : Side).
Hypothesis Hstable : exec_stable P.

(** The loop of [execute_quantity] allocates to the queue from the
    front. *)
Lemma execute_loop_fill (fuel : nat) :
  ∀ (h : heap) (rem : Quantity) (l : PriceLevel.t)
    (ex : list (ptr * Quantity)) h' l' ex',
  PriceLevel.execute_loop fuel h rem l ex = Some (h', l', ex') →
  level_ok P h idx s (PriceLevel.price_ l, l) →
  NoDup (PriceLevel.orders_ l) →
  ex' = ex ++ priority_fill h rem (PriceLevel.orders_ l).
Proof.
  induction fuel as [|fuel IH]; intros h rem l ex h' l' ex' Hrun Hok Hnd;
    unfold ZERO in *.
  - destruct l as [pr tot [|order rest] map]; cbn in *; unfold ZERO in *.
    + injection Hrun as <- <- <-. by rewrite app_nil_r.
    + destruct (decide (rem > 0)); [done|]. injection Hrun as <- <- <-.
      by rewrite app_nil_r.
  - destruct (PriceLevel.orders_ l) as [|order rest] eqn:Hords.
    { destruct l as [pr tot ords map]; cbn in *. subst ords. cbn in Hrun.
      injection Hrun as <- <- <-. by rewrite app_nil_r. }
    assert (Hrun' :
      (if decide (rem > 0)
       then o ← h !! order;
            let '(h1, remaining1, l1, executed1) :=
              PriceLevel.execute_body h rem l ex order rest o in
            PriceLevel.execute_loop fuel h1 remaining1 l1 executed1
       else Some (h, l, ex)) = Some (h', l', ex')).
    { rewrite <- Hrun. destruct l as [pr tot ords map]; cbn in *.
      unfold ZERO. by subst ords. }
    clear Hrun. cbn [priority_fill].
    destruct (decide (rem > 0)) as [Hrem|Hrem]; cycle 1.
    { injection Hrun' as <- <- <-. by rewrite app_nil_r. }
    destruct (h !! order) as [o|] eqn:Ho; [|done]. cbn in Hrun'.
    destruct (PriceLevel.execute_body h rem l ex order rest o)
      as [[[h1 rem1] l1] ex1] eqn:Hbody.
    assert (Hnd0 : NoDup (PriceLevel.orders_ l)) by (by rewrite Hords).
    destruct (execute_body_ok P idx s _ _ _ _ _ _ _ _ _ _ _ Hstable Hok Hnd0
                Hords Ho Hrem Hbody)
      as (Hok1 & Hpr1 & Hpop & _ & _ & _ & _ & _).
    destruct (execute_body_step _ _ _ _ _ _ _ _ _ _ _ Hbody) as (Hstep & Hfr).
    rewrite <- Hpr1 in Hok1.
    apply NoDup_cons in Hnd as [Hnin Hnd].
    unfold remaining_at. rewrite Ho. cbn [from_option].
    assert (Hframe : ∀ r, priority_fill h1 r rest = priority_fill h r rest).
    { apply priority_fill_frame. intros p Hp. apply Hfr. by intros ->. }
    destruct Hpop as [Hpop|[Hpop Hrem1]].
    + apply IH in Hrun'; [|done|by rewrite Hpop].
      rewrite Hpop, Hframe in Hrun'.
      destruct (decide (_ > 0)); destruct Hstep as [-> ->];
        [by rewrite <- app_assoc in Hrun'|done].
    + apply IH in Hrun'; [|done|by rewrite Hpop].
      rewrite priority_fill_nonpos in Hrun' by done.
      destruct (decide (_ > 0)); destruct Hstep as [-> ->]; [|lia].
      rewrite priority_fill_nonpos by done. by rewrite app_nil_r in Hrun'.
Qed.

Lemma execute_quantity_fill (fuel : nat) (h : heap) (q : Quantity)
    (l : PriceLevel.t) h' l' ex :
  PriceLevel.execute_quantity fuel h q l = Some (h', l', ex) →
  level_ok P h idx s (PriceLevel.price_ l, l) →
  NoDup (PriceLevel.orders_ l) →
  ex = priority_fill h q (PriceLevel.orders_ l).
Proof.
  unfold PriceLevel.execute_quantity, ZERO. intros Hrun Hok Hnd.
  destruct (bool_decide (PriceLevel.orders_ l = [])
            || bool_decide (q ≤ 0)) eqn:Hearly.
  - injection Hrun as <- <- <-.
    apply orb_true_iff in Hearly as [Hb|Hb]; apply bool_decide_eq_true in Hb.
    + by rewrite Hb.
    + by rewrite priority_fill_nonpos.
  - by apply execute_loop_fill in Hrun.
Qed.

Lemma take_level_fill (fuel : nat) (taker : ptr) (h : heap)
    (price : Price) (level : PriceLevel.t)
    (rest : list (Price * PriceLevel.t)) (total rem : Quantity)
    (ms : list OrderBook.OrderMatch) (t : Order.t) h1 lv1 total1 rem1 ms1 :
  OrderBook.take_level fuel taker h price level rest total rem ms
    = Some (h1, lv1, total1, rem1, ms1) →
  side_ok P h idx s ((price, level) :: rest) total →
  NoDup (level_ptrs ((price, level) :: rest)) →
  h !! taker = Some t →
  taker ∉ level_ptrs ((price, level) :: rest) →
  (∀ p, p ∉ PriceLevel.orders_ level → h1 !! p = h !! p)
  ∧ ∃ new, ms1 = ms ++ new
      ∧ Forall2 (match_of h (Order.id_ t))
          (priority_fill h rem (PriceLevel.orders_ level)) new.
Proof.
  unfold OrderBook.take_level. intros Hrun (Hsort & Htot & Hall) Hnd Ht Hnin.
  apply Forall_cons in Hall as [Hlvl Hrest].
  rewrite level_ptrs_cons in Hnd, Hnin.
  apply NoDup_app in Hnd as (Hnd1 & _ & _).
  destruct (PriceLevel.execute_quantity fuel h rem level)
    as [[[h' level1] ex]|] eqn:Hexec; [|done]. cbn in Hrun.
  destruct (OrderBook.record_matches h' taker ex ms rem total)
    as [[[ms' rem'] total']|] eqn:Hrec; [|done]. cbn in Hrun.
  injection Hrun as <- <- <- <- <-.
  apply record_matches_new in Hrec as (new & -> & _ & Hnew).
  assert (Hpr : PriceLevel.price_ level = price) by apply Hlvl.
  pose proof Hlvl as (_ & _ & Hords & _). cbn in Hords.
  rewrite Forall_forall in Hords.
  rewrite <- Hpr in Hlvl.
  destruct (execute_quantity_ok P idx s Hstable _ _ _ _ _ _ _ Hexec Hlvl Hnd1)
    as (_ & _ & Hfr & Hle & Hmk & _).
  pose proof (execute_quantity_fill _ _ _ _ _ _ _ Hexec Hlvl Hnd1) as Hfill.
  split; [done|]. exists new. split; [done|]. rewrite <- Hfill.
  assert (Ht' : h' !! taker = Some t).
  { rewrite Hfr; [done|]. intros ?. apply Hnin, elem_of_app. by left. }
  clear Hfill Hexec. revert Hmk.
  induction Hnew as [|[maker x] m ex new Hm _ IH]; intros Hmk;
    [constructor|].
  apply Forall_cons in Hmk as [Hmaker Hmk].
  constructor; [|by apply IH].
  destruct Hm as (mo & t0 & Hmo & Ht0 & ->). cbn in *.
  assert (t0 = t) as -> by congruence.
  destruct (Hords _ Hmaker) as (o & Ho & _).
  destruct (Hle _ _ Ho) as (o' & Ho' & Hst).
  assert (o' = mo) as -> by congruence.
  destruct Hst as (Hid & _ & Hprice & _).
  exists o. split; [done|]. cbn. by rewrite Hid, Hprice.
Qed.

(** The walk of an order that is not FOK allocates its quantity over the
    queues of the levels within its limit, best level first. *)
Lemma match_loop_fill (fuel : nat) (past : Price → bool) (taker : ptr)
    (t : Order.t) :
  Order.time_in_force_ t ≠ FOK →
  ∀ (h : heap) (lv : list (Price * PriceLevel.t)) (total rem : Quantity)
    (ms : list OrderBook.OrderMatch) h' lv' total' rem' ms',
  OrderBook.match_loop fuel past taker h lv total rem ms
    = Some (h', lv', total', rem', ms') →
  side_ok P h idx s lv total →
  NoDup (level_ptrs lv) →
  h !! taker = Some t →
  taker ∉ level_ptrs lv →
  ∃ new, ms' = ms ++ new
    ∧ Forall2 (match_of h (Order.id_ t))
        (priority_fill h rem (level_ptrs (within_limit past lv))) new.
Proof.
  intros Htif.
  induction fuel as [|fuel IH];
    intros h lv total rem ms h' lv' total' rem' ms' Hrun Hok Hnd Ht Hnin.
  - destruct lv as [|[price level] rest]; cbn in Hrun.
    + injection Hrun as <- <- <- <- <-. exists []. rewrite app_nil_r.
      split; [done|constructor].
    + unfold ZERO in Hrun.
      destruct (decide (rem > 0)); [destruct (past price) eqn:Hpast; [|done]|];
        injection Hrun as <- <- <- <- <-; exists []; rewrite app_nil_r;
        (split; [done|]).
      * cbn. rewrite Hpast. constructor.
      * rewrite priority_fill_nonpos by lia. constructor.
  - destruct lv as [|[price level] rest]; cbn in Hrun.
    + injection Hrun as <- <- <- <- <-. exists []. rewrite app_nil_r.
      split; [done|constructor].
    + unfold ZERO in Hrun.
      destruct (decide (rem > 0)) as [Hrem|Hrem]; cycle 1.
      { injection Hrun as <- <- <- <- <-. exists []. rewrite app_nil_r.
        split; [done|]. rewrite priority_fill_nonpos by lia. constructor. }
      destruct (past price) eqn:Hpast.
      { injection Hrun as <- <- <- <- <-. exists []. rewrite app_nil_r.
        split; [done|]. cbn. rewrite Hpast. constructor. }
      destruct (OrderBook.take_level fuel taker h price level rest total rem ms)
        as [[[[[h1 lv1] total1] rem1] ms1]|] eqn:Htake; [|done].
      cbn in Hrun.
      destruct (take_level_ok P idx s Hstable _ _ _ _ _ _ _ _ _ _ _ _ _ _
                  Htake Hok Hnd)
        as (Hok1 & Hnd1 & Hsub1 & Hfr1 & Hle1 & Hexit).
      destruct (take_level_matches P idx s Hstable _ _ _ _ _ _ _ _ _ _ _ _ _
                  _ _ Htake Hok Hnd Ht Hnin)
        as (new0 & Hms0 & Hsum0 & _).
      destruct (take_level_fill _ _ _ _ _ _ _ _ _ _ _ _ _ _ _
                  Htake Hok Hnd Ht Hnin)
        as (Hfrl & new1 & -> & Hall1).
      apply app_inv_head in Hms0 as <-.
      pose proof (match_of_quantity _ _ _ _ Hall1) as Hq1.
      assert (Ht1 : h1 !! taker = Some t) by (by rewrite Hfr1).
      rewrite Ht1 in Hrun. cbn in Hrun.
      cbn [within_limit]. rewrite Hpast, level_ptrs_cons, priority_fill_app.
      rewrite <- Hq1, Hsum0.
      replace (rem - (rem - rem1)) with rem1 by lia.
      rewrite (bool_decide_eq_false_2 (Order.time_in_force_ t = FOK)) in Hrun
        by done.
      cbn [andb] in Hrun. rewrite orb_false_r in Hrun. unfold ZERO in Hrun.
      destruct (decide (rem1 ≤ 0)) as [Hrem1|Hrem1].
      * rewrite bool_decide_eq_true_2 in Hrun by done.
        injection Hrun as <- <- <- <- <-. exists new1. split; [done|].
        rewrite (priority_fill_nonpos h rem1) by done. by rewrite app_nil_r.
      * rewrite bool_decide_eq_false_2 in Hrun by done.
        destruct Hexit as [->|?]; [|lia].
        rewrite level_ptrs_cons in Hnd, Hnin.
        apply NoDup_app in Hnd as (_ & Hdisj & _).
        assert (Hkeep : ∀ p, p ∈ level_ptrs (within_limit past rest) →
                  h1 !! p = h !! p).
        { intros p Hp%level_ptrs_within. apply Hfrl.
          intros Hin. by apply (Hdisj p). }
        destruct (IH _ _ _ _ _ _ _ _ _ _ Hrun Hok1 Hnd1 Ht1)
          as (new2 & -> & Hall2).
        { intros Hin. apply Hnin, elem_of_app. by right. }
        exists (new1 ++ new2). rewrite <- app_assoc. split; [done|].
        apply Forall2_app; [done|].
        rewrite (priority_fill_frame h h1) in Hall2 by done.
        eapply match_of_frame; [|apply priority_fill_ptrs|exact Hall2].
        intros p o Hp Ho. exists o. by rewrite <- Hkeep.
Qed.

End fill.

Lemma within_limit_none (lv : list (Price * PriceLevel.t)) :
  within_limit (λ _, true) lv = [].
Proof. by destruct lv as [|[k l] lv]. Qed.

Section add_order_fill.
Context (P : Order.t → Prop).
Hypothesis Hstable : exec_stable P.

Lemma match_order_fill (fuel : nat) (past : Price → bool) (h : heap)
    (b : OrderBook.t) (order : ptr) (o : Order.t) ms h' b' :
  OrderBook.match_order fuel past h b order o = Some (ms, h', b') →
  wf P h b →
  h !! order = Some o →
  order ∉ book_ptrs b →
  Order.time_in_force_ o ≠ FOK →
  Forall2 (match_of h (Order.id_ o))
    (priority_fill h (Order.remaining_quantity o)
       (level_ptrs (within_limit past
          (OrderBook.side_levels (OrderBook.opposite (Order.side_ o)) b))))
    ms.
Proof.
  intros Hrun Hwf Ho Hnin Htif. unfold OrderBook.match_order in Hrun.
  set (opp := OrderBook.opposite (Order.side_ o)) in *.
  destruct (OrderBook.match_loop fuel past order h
              (OrderBook.side_levels opp b) (OrderBook.side_total opp b)
              (Order.remaining_quantity o) [])
    as [[[[[h1 lv1] total1] rem1] ms1]|] eqn:Hloop; [|done].
  cbn in Hrun.
  assert (Hnin' : order ∉ level_ptrs (OrderBook.side_levels opp b)).
  { intros Hin. apply Hnin, elem_of_book_ptrs. eauto. }
  assert (Hnd : NoDup (level_ptrs (OrderBook.side_levels opp b))).
  { pose proof (wf_nodup _ _ _ Hwf) as Hnd.
    rewrite (book_ptrs_sides opp) in Hnd. by apply NoDup_app in Hnd as [? _]. }
  destruct (match_loop_ok P (OrderBook.orders_ b) opp Hstable _ _ _ _ _ _ _
              _ _ _ _ _ _ Hloop (wf_side _ _ _ Hwf opp) Hnd)
    as (_ & _ & _ & Hfr & _).
  destruct (match_loop_fill P (OrderBook.orders_ b) opp Hstable _ _ _ o Htif
              _ _ _ _ _ _ _ _ _ _ Hloop (wf_side _ _ _ Hwf opp) Hnd Ho Hnin')
    as (new & Hms & Hall).
  cbn in Hms. subst ms1.
  rewrite (Hfr _ Hnin'), Ho in Hrun. cbn in Hrun.
  rewrite static_eq_execute_tif in Hrun.
  rewrite (bool_decide_eq_false_2 (Order.time_in_force_ o = FOK)) in Hrun
    by done.
  cbn in Hrun. by injection Hrun as <- _ _.
Qed.

(** The matches of an order that is not FOK are the allocation of its
    quantity over the opposite queues within its price test. *)
Lemma add_order_fill (fuel : nat) (h : heap) (b : OrderBook.t)
    (order : ptr) (o : Order.t) ms h' b' :
  OrderBook.add_order fuel h b order = Some (ms, h', b') →
  wf P h b →
  h !! order = Some o →
  order ∉ book_ptrs b →
  Order.is_valid o = true →
  Order.time_in_force_ o ≠ FOK →
  Forall2 (match_of h (Order.id_ o))
    (priority_fill h (Order.remaining_quantity o)
       (level_ptrs (within_limit
          (price_test (Order.type_ o) (Order.side_ o) (Order.price_ o))
          (OrderBook.side_levels (OrderBook.opposite (Order.side_ o)) b))))
    ms.
Proof.
  intros Hrun Hwf Ho Hnin Hval Htif. unfold OrderBook.add_order in Hrun.
  rewrite Ho, Hval in Hrun. cbn [negb] in Hrun.
  set (o1 := Order.set_status ACCEPTED o) in *.
  set (h1 := <[order := o1]> h) in *.
  assert (Ho1 : h1 !! order = Some o1).
  { apply list_lookup_insert_eq. by eapply lookup_lt_Some. }
  assert (Hfr1 : ∀ p, p ∈ book_ptrs b → h1 !! p = h !! p).
  { intros p Hp. apply list_lookup_insert_ne. by intros <-. }
  assert (Hwf1 : wf P h1 b).
  { apply (wf_frame P h); [done|done|].
    eapply heap_le_insert; [done|apply static_eq_set_status]. }
  assert (Hmatch : ∀ past ms2 h2 b2,
            OrderBook.match_order fuel past h1 b order o1
            = Some (ms2, h2, b2) →
            Forall2 (match_of h (Order.id_ o))
              (priority_fill h (Order.remaining_quantity o)
                 (level_ptrs (within_limit past
                    (OrderBook.side_levels
                       (OrderBook.opposite (Order.side_ o)) b))))
              ms2).
  { intros past ms2 h2 b2 Hm.
    pose proof (match_order_fill _ _ _ _ _ _ _ _ _ Hm Hwf1 Ho1 Hnin Htif)
      as Hall.
    change (Order.id_ o1) with (Order.id_ o) in Hall.
    change (Order.side_ o1) with (Order.side_ o) in Hall.
    change (Order.remaining_quantity o1) with (Order.remaining_quantity o)
      in Hall.
    assert (Hin : ∀ p, p ∈ level_ptrs (within_limit past
                      (OrderBook.side_levels
                         (OrderBook.opposite (Order.side_ o)) b)) →
              h1 !! p = h !! p).
    { intros p Hp%level_ptrs_within. apply Hfr1, elem_of_book_ptrs. eauto. }
    rewrite (priority_fill_frame h h1) in Hall by done.
    eapply match_of_frame; [|apply priority_fill_ptrs|exact Hall].
    intros p mo Hp Hmo. exists mo. by rewrite <- Hin. }
  change (Order.type_ o1) with (Order.type_ o) in Hrun.
  destruct (Order.type_ o) eqn:Hty; cbn [price_test].
  - unfold OrderBook.match_limit_order in Hrun. rewrite Ho1 in Hrun.
    rewrite decide_False in Hrun by (cbn; rewrite Hty; auto).
    destruct (OrderBook.match_order fuel _ h1 b order o1)
      as [[[ms2 h2] b2]|] eqn:Hm; [|done]. cbn in Hrun.
    apply Hmatch in Hm.
    destruct (h2 !! order) as [o2|]; [|done]. cbn in Hrun.
    destruct (_ && _); by injection Hrun as <- _ _.
  - unfold OrderBook.match_market_order in Hrun. rewrite Ho1 in Hrun.
    rewrite decide_False in Hrun by (cbn; rewrite Hty; auto).
    by apply Hmatch in Hrun.
  - injection Hrun as <- _ _. rewrite within_limit_none. constructor.
  - injection Hrun as <- _ _. rewrite within_limit_none. constructor.
Qed.

End add_order_fill.

(** The queues of a well-formed book hold no negative remainder. *)
Lemma wf_remaining_nonneg (P : Order.t → Prop) (h : heap) (b : OrderBook.t)
    (s : Side) (lv : list (Price * PriceLevel.t)) :
  wf P h b →
  (∀ p, p ∈ level_ptrs lv → p ∈ level_ptrs (OrderBook.side_levels s b)) →
  Forall (λ p, 0 ≤ remaining_at h p) (level_ptrs lv).
Proof.
  intros Hwf Hsub. apply Forall_forall. intros p Hp%Hsub.
  destruct (wf_resting P h b p Hwf) as (o & l & Ho & _ & _ & Hok).
  { apply elem_of_book_ptrs. eauto. }
  destruct Hok as (o' & Ho' & _ & _ & _ & _ & Hrem & _).
  rewrite (remaining_at_lookup _ _ _ Ho'). done.
Qed.

Lemma level_ptrs_nodup (lv : list (Price * PriceLevel.t)) (k : Price)
    (l : PriceLevel.t) :
  NoDup (level_ptrs lv) → (k, l) ∈ lv → NoDup (PriceLevel.orders_ l).
Proof.
  intros Hnd Hin. apply list_elem_of_split in Hin as (l1 & l2 & ->).
  rewrite level_ptrs_app, level_ptrs_cons in Hnd.
  apply NoDup_app in Hnd as (_ & _ & Hnd).
  by apply NoDup_app in Hnd as (? & _).
Qed.

(** The level of a well-formed book, as the lemmas on [execute_quantity]
    want it. *)
Lemma wf_level (P : Order.t → Prop) (h : heap) (b : OrderBook.t) (s : Side)
    (k : Price) (l : PriceLevel.t) :
  wf P h b →
  (k, l) ∈ OrderBook.side_levels s b →
  level_ok P h (OrderBook.orders_ b) s (PriceLevel.price_ l, l)
  ∧ NoDup (PriceLevel.orders_ l).
Proof.
  intros Hwf Hin. destruct (wf_side _ _ _ Hwf s) as (_ & _ & Hall).
  rewrite Forall_forall in Hall. pose proof (Hall _ Hin) as Hok.
  assert (Hpr : PriceLevel.price_ l = k) by apply Hok.
  rewrite Hpr. split; [done|].
  pose proof (wf_nodup _ _ _ Hwf) as Hnd.
  rewrite (book_ptrs_sides s) in Hnd. apply NoDup_app in Hnd as (Hnd & _).
  by eapply level_ptrs_nodup.
Qed.

(** ** A FOK order that the best level fills *)

Section first_level.
Context (P : Order.t → Prop) (idx : gmap OrderId ptr) (s : Side).
Hypothesis Hstable : exec_stable P.

Lemma take_level_first (fuel : nat) (taker : ptr) (h : heap)
    (price : Price) (level : PriceLevel.t)
    (rest : list (Price * PriceLevel.t)) (total rem : Quantity)
    (ms : list OrderBook.OrderMatch) h1 lv1 total1 rem1 ms1 :
  OrderBook.take_level fuel taker h price level rest total rem ms
    = Some (h1, lv1, total1, rem1, ms1) →
  side_ok P h idx s ((price, level) :: rest) total →
  NoDup (level_ptrs ((price, level) :: rest)) →
  rem ≤ PriceLevel.total_quantity_ level →
  rem1 ≤ 0.
Proof.
  unfold OrderBook.take_level. intros Hrun (Hsort & Htot & Hall) Hnd Hq.
  apply Forall_cons in Hall as [Hlvl Hrest].
  rewrite level_ptrs_cons in Hnd.
  apply NoDup_app in Hnd as (Hnd1 & _ & _).
  destruct (PriceLevel.execute_quantity fuel h rem level)
    as [[[h' level1] ex]|] eqn:Hexec; [|done]. cbn in Hrun.
  destruct (OrderBook.record_matches h' taker ex ms rem total)
    as [[[ms' rem'] total']|] eqn:Hrec; [|done]. cbn in Hrun.
  injection Hrun as <- <- <- <- <-.
  apply record_matches_spec in Hrec as [-> ->].
  assert (Hpr : PriceLevel.price_ level = price) by apply Hlvl.
  rewrite <- Hpr in Hlvl.
  destruct (execute_quantity_ok P idx s Hstable _ _ _ _ _ _ _ Hexec Hlvl Hnd1)
    as (Hok1 & _ & _ & _ & _ & Htot1 & [Hemp|Hdone]); [|done].
  destruct Hok1 as (_ & Hsum & _). cbn in Hsum.
  rewrite Hemp, sum_remaining_nil in Hsum. lia.
Qed.

Lemma match_loop_first_fills (fuel : nat) (past : Price → bool)
    (taker : ptr) (h : heap) (k0 : Price) (l0 : PriceLevel.t)
    (rest : list (Price * PriceLevel.t)) (total rem : Quantity)
    (ms : list OrderBook.OrderMatch) h' lv' total' rem' ms' :
  OrderBook.match_loop fuel past taker h ((k0, l0) :: rest) total rem ms
    = Some (h', lv', total', rem', ms') →
  side_ok P h idx s ((k0, l0) :: rest) total →
  NoDup (level_ptrs ((k0, l0) :: rest)) →
  past k0 = false →
  rem ≤ PriceLevel.total_quantity_ l0 →
  rem' ≤ 0.
Proof.
  intros Hrun Hok Hnd Hpast Hq.
  destruct fuel as [|fuel]; cbn in Hrun; unfold ZERO in Hrun;
    rewrite Hpast in Hrun;
    (destruct (decide (rem > 0)) as [Hrem|Hrem];
       [|injection Hrun as <- <- <- <- <-; lia]); [done|].
  destruct (OrderBook.take_level fuel taker h k0 l0 rest total rem ms)
    as [[[[[h1 lv1] total1] rem1] ms1]|] eqn:Htake; [|done].
  cbn in Hrun.
  pose proof (take_level_first _ _ _ _ _ _ _ _ _ _ _ _ _ _ Htake Hok Hnd Hq)
    as Hrem1.
  destruct (h1 !! taker) as [t|]; [|done]. cbn in Hrun.
  rewrite (bool_decide_eq_true_2 (rem1 ≤ 0)) in Hrun by done.
  cbn in Hrun. by injection Hrun as <- <- <- <- <-.
Qed.

End first_level.

Section fok_filled.
Context (P : Order.t → Prop).
Hypothesis Hstable : exec_stable P.

Lemma match_order_fok_filled (fuel : nat) (past : Price → bool) (h : heap)
    (b : OrderBook.t) (order : ptr) (o : Order.t) ms h' b'
    (k0 : Price) (l0 : PriceLevel.t) (rest : list (Price * PriceLevel.t)) :
  OrderBook.match_order fuel past h b order o = Some (ms, h', b') →
  wf P h b →
  h !! order = Some o →
  order ∉ book_ptrs b →
  Order.executed_quantity_ o = 0 →
  0 ≤ Order.quantity_ o →
  OrderBook.side_levels (OrderBook.opposite (Order.side_ o)) b
  = (k0, l0) :: rest →
  past k0 = false →
  Order.quantity_ o ≤ PriceLevel.total_quantity_ l0 →
  ∃ o', h' !! order = Some o' ∧ Order.is_filled o' = true.
Proof.
  intros Hrun Hwf Ho Hnin Hex Hq0 Hlv Hpast Hq.
  unfold OrderBook.match_order in Hrun.
  set (opp := OrderBook.opposite (Order.side_ o)) in *.
  destruct (OrderBook.match_loop fuel past order h
              (OrderBook.side_levels opp b) (OrderBook.side_total opp b)
              (Order.remaining_quantity o) [])
    as [[[[[h1 lv1] total1] rem1] ms1]|] eqn:Hloop; [|done].
  cbn in Hrun.
  assert (Hnin' : order ∉ level_ptrs (OrderBook.side_levels opp b)).
  { intros Hin. apply Hnin, elem_of_book_ptrs. eauto. }
  assert (Hnd : NoDup (level_ptrs (OrderBook.side_levels opp b))).
  { pose proof (wf_nodup _ _ _ Hwf) as Hnd.
    rewrite (book_ptrs_sides opp) in Hnd. by apply NoDup_app in Hnd as [? _]. }
  pose proof (wf_side _ _ _ Hwf opp) as Hside.
  destruct (match_loop_ok P (OrderBook.orders_ b) opp Hstable _ _ _ _ _ _ _
              _ _ _ _ _ _ Hloop Hside Hnd)
    as (_ & _ & _ & Hfr & _).
  destruct (match_loop_shape _ _ _ _ _ _ _ _ _ _ _ _ _ Hloop)
    as (_ & _ & Hle & Hpos & _).
  assert (Hrq : Order.remaining_quantity o = Order.quantity_ o)
    by (unfold Order.remaining_quantity; lia).
  rewrite Hlv in Hloop, Hside, Hnd.
  pose proof (match_loop_first_fills P (OrderBook.orders_ b) opp Hstable
                _ _ _ _ _ _ _ _ _ _ _ _ _ _ _ Hloop Hside Hnd Hpast
                ltac:(lia)) as Hrem1.
  assert (Hsame : h1 !! order = h !! order) by (by apply Hfr).
  rewrite Hsame, Ho in Hrun. cbn in Hrun.
  rewrite (bool_decide_eq_false_2 (rem1 > ZERO)) in Hrun
    by (unfold ZERO; lia).
  rewrite andb_false_r in Hrun. injection Hrun as <- <- <-.
  eexists. split.
  { apply list_lookup_insert_eq. apply lookup_lt_is_Some.
    rewrite Hsame. eauto. }
  destruct (Order.is_filled _) eqn:Hfl; [done|].
  apply execute_fresh_filled in Hfl; [lia|done|lia|lia].
Qed.

Lemma add_order_fok_filled (fuel : nat) (h : heap) (b : OrderBook.t)
    (order : ptr) (o : Order.t) ms h' b' :
  OrderBook.add_order fuel h b order = Some (ms, h', b') →
  wf P h b →
  h !! order = Some o →
  order ∉ book_ptrs b →
  Order.type_ o = LIMIT →
  Order.executed_quantity_ o = 0 →
  0 ≤ Order.quantity_ o →
  fok_fillable b (Order.side_ o) (Order.price_ o) (Order.quantity_ o) →
  wf P h' b'.
Proof.
  unfold OrderBook.add_order, fok_fillable.
  intros Hrun Hwf Ho Hnin Hty Hex Hq0 Hfill.
  destruct (OrderBook.side_levels (OrderBook.opposite (Order.side_ o)) b)
    as [|[k0 l0] rest] eqn:Hlv; [done|]. destruct Hfill as [Hpast Hq].
  rewrite Ho in Hrun.
  destruct (Order.is_valid o); cbn in Hrun; cycle 1.
  { by injection Hrun as <- <- <-. }
  set (o1 := Order.set_status ACCEPTED o) in *.
  set (h1 := <[order := o1]> h) in *.
  assert (Ho1 : h1 !! order = Some o1).
  { apply list_lookup_insert_eq. by eapply lookup_lt_Some. }
  assert (Hwf1 : wf P h1 b).
  { apply (wf_frame P h);
      [done| |eapply heap_le_insert; [done|apply static_eq_set_status]].
    intros p Hp. apply list_lookup_insert_ne. by intros <-. }
  rewrite Hty in Hrun.
  unfold OrderBook.match_limit_order in Hrun. rewrite Ho1 in Hrun.
  rewrite decide_False in Hrun by (cbn; rewrite Hty; auto).
  destruct (OrderBook.match_order fuel _ h1 b order o1)
    as [[[ms2 h2] b2]|] eqn:Hm; [|done]. cbn in Hrun.
  destruct (match_order_ok P Hstable _ _ _ _ _ _ _ _ _ Hm Hwf1 Ho1 Hnin)
    as (Hwf2 & _).
  destruct (match_order_fok_filled _ _ _ _ _ _ _ _ _ _ _ _ Hm Hwf1 Ho1 Hnin
              Hex Hq0 Hlv Hpast Hq) as (o2 & Ho2 & Hfl).
  rewrite Ho2 in Hrun. cbn in Hrun. rewrite Hfl in Hrun. cbn in Hrun.
  by injection Hrun as <- <- <-.
Qed.

End fok_filled.

(** ** Runs that leave no dead order on the book *)

Lemma reachable_live_wf (h : heap) (b : OrderBook.t) :
  reachable valid_op_live h b → wf live h b.
Proof.
  induction 1 as [symbol|h b op fuel h' b' _ IH Hvalid Hrun].
  { apply wf_initial. }
  destruct Hvalid as [Hvalid Hlive].
  destruct op as [id sy sd ty q pr tif|id|id np nq].
  - destruct (decide (ty = LIMIT ∧ tif = FOK)) as [[-> ->]|Hkind].
    + cbn in Hrun.
      set (o := Order.make id sy sd LIMIT q pr FOK) in *.
      destruct (OrderBook.add_order fuel (h ++ [o]) b (length h))
        as [[[ms h2] b2]|] eqn:Hadd; [|done].
      cbn in Hrun. injection Hrun as <- <-.
      destruct (wf_alloc _ h b o IH) as (Hwf1 & Hnew & Ho).
      destruct Hvalid as (_ & _ & Hq & _).
      apply (add_order_fok_filled _ exec_stable_live _ _ _ _ _ _ _ _ Hadd
               Hwf1 Ho Hnew eq_refl eq_refl ltac:(cbn; lia)).
      by apply Hlive.
    + refine (proj1 (run_op_wf _ exec_stable_live _ _ _ _ _ _ Hrun IH _)).
      split; [by destruct Hvalid as (_ & ? & _)|].
      intros o' Hres Hfl _ Hty.
      destruct (decide (tif = FOK)) as [->|Htif].
      * destruct (taker_result_static _ _ Hres) as (_ & _ & _ & Hty' & _).
        cbn in Hty'. exfalso. apply Hkind. split; [congruence|done].
      * by apply (live_taker (Order.make id sy sd ty q pr tif)).
  - by refine (proj1 (run_op_wf _ exec_stable_live _ _ _ _ _ _ Hrun IH _)).
  - refine (proj1 (run_op_wf _ exec_stable_live _ _ _ _ _ _ Hrun IH _)).
    split.
    + intros p o q Hidx Hrest (Hact & Hrem & Htif) -> -> Hq.
      specialize (Hlive q p o eq_refl eq_refl Hidx Hrest).
      destruct (decide (q < Order.executed_quantity_ o)).
      * split_and!; [by right|done|done].
      * split_and!; [by right| |done].
        unfold Order.remaining_quantity. cbn. lia.
    + intros p o o' Hidx [Hp Ho] (_ & _ & Htif) Hres Hfl _ _.
      by eapply live_taker; [|exact Hres|].
Qed.

Lemma fok_fillableb_sound (b : OrderBook.t) (s : Side) (k : Price)
    (q : Quantity) :
  fok_fillableb b s k q = true → fok_fillable b s k q.
Proof.
  unfold fok_fillableb, fok_fillable.
  destruct (OrderBook.side_levels _ b) as [|[k0 l0] rest]; [done|].
  rewrite andb_true_iff, negb_true_iff, bool_decide_eq_true. done.
Qed.

Lemma valid_op_liveb_sound (h : heap) (b : OrderBook.t) (op : Op) :
  valid_op_liveb (h, b) op = true → valid_op_live h b op.
Proof.
  unfold valid_op_liveb. rewrite andb_true_iff.
  intros [Hv Hs]. split; [by apply valid_opb_sound|].
  destruct op as [id sy sd ty q pr tif|id|id np nq]; [|done|].
  - intros -> ->. cbn in Hs. by apply fok_fillableb_sound.
  - intros q p o -> -> Hg [Hp Ho]. cbn in Hs. rewrite Hg, Ho in Hs.
    rewrite bool_decide_eq_true_2 in Hs by done.
    by apply bool_decide_eq_true in Hs.
Qed.

Lemma run_checked_live_reachable (fuel : nat) (ops : list Op) (h : heap)
    (b : OrderBook.t) :
  run_checked valid_op_liveb fuel initial ops = Some (h, b) →
  reachable valid_op_live h b.
Proof.
  apply (reachable_run_checked valid_op_live valid_op_liveb fuel ops
           valid_op_liveb_sound).
  apply reach_init.
Qed.

(** What [valid_op_strict] lets through, [valid_op_live] lets through. *)
Lemma valid_op_strict_live (h : heap) (b : OrderBook.t) (op : Op) :
  valid_op_strict h b op → valid_op_live h b op.
Proof.
  intros [Hv Hs]. split; [done|].
  destruct op as [id sy sd ty q pr tif|id|id np nq]; [done|done|].
  intros q p o _ Hq Hg [_ Ho]. specialize (Hs q p o Hq Hg Ho). lia.
Qed.

Lemma reachable_strict_live (h : heap) (b : OrderBook.t) :
  reachable valid_op_strict h b → reachable valid_op_live h b.
Proof.
  induction 1 as [symbol|h b op fuel h' b' Hr IH Hvalid Hrun].
  - apply reach_init.
  - eapply reach_step; [exact IH|by apply valid_op_strict_live|exact Hrun].
Qed.

(** ** A FOK order that the best level does not fill *)

Lemma sum_remaining_pos (h : heap) (ps : list ptr) :
  ps ≠ [] → Forall (λ p, 0 < remaining_at h p) ps → 0 < sum_remaining h ps.
Proof.
  intros Hne Hall. destruct Hall as [|p ps Hp Hall]; [done|].
  rewrite sum_remaining_cons.
  assert (0 ≤ sum_remaining h ps); [|lia].
  clear -Hall. induction Hall as [|q ps Hq _ IH].
  - by rewrite sum_remaining_nil.
  - rewrite sum_remaining_cons. lia.
Qed.

Section fok_short.
Context (idx : gmap OrderId ptr) (s : Side).

Lemma match_loop_fok_short (fuel : nat) (past : Price → bool) (taker : ptr)
    (t : Order.t) (h : heap) (lv : list (Price * PriceLevel.t))
    (total : Quantity) (ms : list OrderBook.OrderMatch)
    h' lv' total' rem' ms' :
  OrderBook.match_loop fuel past taker h lv total (Order.quantity_ t) ms
    = Some (h', lv', total', rem', ms') →
  side_ok live h idx s lv total →
  NoDup (level_ptrs lv) →
  Forall (λ kl, PriceLevel.orders_ kl.2 ≠ []) lv →
  h !! taker = Some t →
  taker ∉ level_ptrs lv →
  Order.time_in_force_ t = FOK →
  0 < Order.quantity_ t →
  match lv with
  | [] => True
  | (k0, l0) :: _ =>
      past k0 = true ∨ PriceLevel.total_quantity_ l0 < Order.quantity_ t
  end →
  0 < rem' ≤ Order.quantity_ t.
Proof.
  intros Hrun Hok Hnd Hne Ht Hnin Htif Hq Hshort.
  destruct lv as [|[k0 l0] rest].
  { destruct fuel; cbn in Hrun; injection Hrun as <- <- <- <- <-; lia. }
  assert (Hpos : Order.quantity_ t > ZERO) by (unfold ZERO; lia).
  destruct (past k0) eqn:Hpast.
  { destruct fuel; cbn in Hrun; rewrite Hpast in Hrun;
      rewrite decide_True in Hrun by done;
      injection Hrun as <- <- <- <- <-; lia. }
  destruct Hshort as [|Hshort]; [done|].
  destruct fuel as [|fuel]; cbn in Hrun; rewrite Hpast in Hrun;
    rewrite decide_True in Hrun by done; [done|].
  destruct (OrderBook.take_level fuel taker h k0 l0 rest total
              (Order.quantity_ t) ms)
    as [[[[[h1 lv1] total1] rem1] ms1]|] eqn:Htake; [|done].
  cbn in Hrun.
  destruct (take_level_ok live idx s exec_stable_live _ _ _ _ _ _ _ _ _ _ _
              _ _ _ Htake Hok Hnd)
    as (_ & _ & _ & Hfr1 & _).
  destruct (take_level_matches live idx s exec_stable_live _ _ _ _ _ _ _ _ _
              _ _ _ _ _ _ Htake Hok Hnd Ht Hnin)
    as (new0 & Hms0 & Hsum0 & _).
  destruct (take_level_fill live idx s exec_stable_live _ _ _ _ _ _ _ _ _
              _ _ _ _ _ _ Htake Hok Hnd Ht Hnin)
    as (_ & new1 & -> & Hall1).
  apply app_inv_head in Hms0 as <-.
  pose proof (match_of_quantity _ _ _ _ Hall1) as Hq1.
  destruct Hok as (_ & _ & Hall).
  apply Forall_cons in Hall as [(_ & Htot & Hords & _) _].
  apply Forall_cons in Hne as [Hne _]. cbn in Htot, Hords, Hne.
  assert (Hlive : Forall (λ p, 0 < remaining_at h p) (PriceLevel.orders_ l0)).
  { eapply Forall_impl; [exact Hords|]. cbn.
    intros p (o & Ho & _ & _ & _ & _ & _ & _ & _ & Hrem & _).
    by rewrite (remaining_at_lookup _ _ _ Ho). }
  pose proof (sum_remaining_pos _ _ Hne Hlive) as Hsum.
  rewrite priority_fill_sum in Hq1; [|by eapply Forall_impl; [exact Hlive|];
    cbn; intros; lia|lia].
  assert (Ht1 : h1 !! taker = Some t) by (by rewrite Hfr1).
  rewrite Ht1 in Hrun. cbn in Hrun.
  rewrite (bool_decide_eq_false_2 (rem1 ≤ ZERO)) in Hrun
    by (unfold ZERO; lia).
  rewrite (bool_decide_eq_true_2 (Order.time_in_force_ t = FOK)) in Hrun
    by done.
  rewrite (bool_decide_eq_true_2 (rem1 < Order.quantity_ t)) in Hrun by lia.
  cbn in Hrun. injection Hrun as <- <- <- <- <-. lia.
Qed.

End fok_short.

(** A LIMIT FOK order that the best level of the other side does not fill
    is cancelled and added to the book. *)
Lemma add_order_fok_rests (fuel : nat) (h : heap) (b : OrderBook.t)
    (order : ptr) (o : Order.t) ms h' b' :
  OrderBook.add_order fuel h b order = Some (ms, h', b') →
  wf live h b →
  levels_nonempty b →
  h !! order = Some o →
  order ∉ book_ptrs b →
  Order.is_valid o = true →
  Order.type_ o = LIMIT →
  Order.time_in_force_ o = FOK →
  Order.executed_quantity_ o = 0 →
  0 < Order.quantity_ o →
  ¬ fok_fillable b (Order.side_ o) (Order.price_ o) (Order.quantity_ o) →
  ∃ o', resting h' b' order o' ∧ Order.status_ o' = CANCELLED.
Proof.
  unfold OrderBook.add_order.
  intros Hrun Hwf Hne Ho Hnin Hval Hty Htif Hex Hq Hshort.
  rewrite Ho, Hval in Hrun. cbn [negb] in Hrun.
  set (o1 := Order.set_status ACCEPTED o) in *.
  set (h1 := <[order := o1]> h) in *.
  assert (Ho1 : h1 !! order = Some o1).
  { apply list_lookup_insert_eq. by eapply lookup_lt_Some. }
  assert (Hwf1 : wf live h1 b).
  { apply (wf_frame live h);
      [done| |eapply heap_le_insert; [done|apply static_eq_set_status]].
    intros p Hp. apply list_lookup_insert_ne. by intros <-. }
  change (Order.type_ o1) with (Order.type_ o) in Hrun. rewrite Hty in Hrun.
  unfold OrderBook.match_limit_order in Hrun. rewrite Ho1 in Hrun.
  rewrite decide_False in Hrun by (cbn; rewrite Hty; auto).
  destruct (OrderBook.match_order fuel _ h1 b order o1)
    as [[[ms2 h2] b2]|] eqn:Hm; [|done]. cbn in Hrun.
  destruct (match_order_ok live exec_stable_live _ _ _ _ _ _ _ _ _ Hm Hwf1
              Ho1 Hnin) as (Hwf2 & _ & Hsub2 & _).
  unfold OrderBook.match_order in Hm.
  change (Order.side_ o1) with (Order.side_ o) in Hm.
  change (Order.price_ o1) with (Order.price_ o) in Hm.
  assert (Hrq : Order.remaining_quantity o1 = Order.quantity_ o1)
    by (unfold Order.remaining_quantity; cbn; lia).
  rewrite Hrq in Hm.
  set (opp := OrderBook.opposite (Order.side_ o)) in *.
  destruct (OrderBook.match_loop fuel _ order h1
              (OrderBook.side_levels opp b) (OrderBook.side_total opp b)
              (Order.quantity_ o1) [])
    as [[[[[h3 lv3] total3] rem3] ms3]|] eqn:Hloop; [|done].
  cbn in Hm.
  assert (Hnin' : order ∉ level_ptrs (OrderBook.side_levels opp b)).
  { intros Hin. apply Hnin, elem_of_book_ptrs. eauto. }
  assert (Hnd : NoDup (level_ptrs (OrderBook.side_levels opp b))).
  { pose proof (wf_nodup _ _ _ Hwf) as Hnd.
    rewrite (book_ptrs_sides opp) in Hnd. by apply NoDup_app in Hnd as [? _]. }
  destruct (match_loop_ok live (OrderBook.orders_ b) opp exec_stable_live
              _ _ _ _ _ _ _ _ _ _ _ _ _ Hloop (wf_side _ _ _ Hwf1 opp) Hnd)
    as (_ & _ & _ & Hfr & _).
  destruct (match_loop_fok_short (OrderBook.orders_ b) opp _ _ _ o1 _ _ _ _
              _ _ _ _ _ Hloop (wf_side _ _ _ Hwf1 opp) Hnd (Hne opp) Ho1
              Hnin' Htif Hq) as [Hrem3 Hle3].
  { unfold fok_fillable in Hshort. fold opp in Hshort.
    destruct (OrderBook.side_levels opp b) as [|[k0 l0] rest]; [done|].
    destruct (OrderBook.past_limit (Order.side_ o) (Order.price_ o) k0);
      [by left|right].
    change (Order.quantity_ o1) with (Order.quantity_ o).
    destruct (decide (PriceLevel.total_quantity_ l0 < Order.quantity_ o));
      [done|]. exfalso. apply Hshort. split; [done|lia]. }
  assert (Hsame : h3 !! order = Some o1) by (by rewrite (Hfr _ Hnin')).
  rewrite Hsame in Hm. cbn in Hm.
  rewrite static_eq_execute_tif in Hm.
  rewrite (bool_decide_eq_true_2 (Order.time_in_force_ o1 = FOK)) in Hm
    by done.
  rewrite (bool_decide_eq_true_2 (rem3 > ZERO)) in Hm by (unfold ZERO; lia).
  cbn [andb] in Hm. injection Hm as <- <- <-.
  change (Order.quantity_ o1) with (Order.quantity_ o) in *.
  set (o2 := Order.set_status CANCELLED
               (Order.execute (Order.quantity_ o - rem3) o1)) in *.
  assert (Hlen : (order < length h3)%nat)
    by (by apply lookup_lt_is_Some; eexists).
  assert (Ho2 : <[order := o2]> h3 !! order = Some o2)
    by (by apply list_lookup_insert_eq).
  rewrite Ho2 in Hrun. cbn [mbind option_bind] in Hrun.
  assert (Hexq : Order.executed_quantity_ o2 = Order.quantity_ o - rem3).
  { unfold o2. cbn. apply execute_fresh; [done|lia|cbn; lia]. }
  assert (Hqt : Order.quantity_ o2 = Order.quantity_ o).
  { unfold o2. cbn.
    destruct (execute_spec (Order.quantity_ o - rem3) o1) as (-> & _).
    done. }
  assert (Hfl : Order.is_filled o2 = false).
  { unfold Order.is_filled. rewrite Hexq, Hqt.
    rewrite bool_decide_eq_false_2 by lia. done. }
  assert (Htif2 : Order.time_in_force_ o2 = FOK).
  { unfold o2. cbn. by rewrite static_eq_execute_tif. }
  assert (Hty2 : Order.type_ o2 = LIMIT).
  { unfold o2. cbn.
    destruct (static_eq_execute (Order.quantity_ o - rem3) o1)
      as (_ & _ & _ & <- & _). done. }
  rewrite Hfl, Htif2 in Hrun. cbn [negb andb] in Hrun.
  rewrite bool_decide_eq_true_2 in Hrun by done.
  injection Hrun as <- <- <-.
  exists o2. split; [|done]. split; [|done].
  destruct (add_limit_order_to_book_form live _ _ _ _ Hwf2 Ho2 Hty2 Hfl)
    as (level & m1 & m2 & _ & _ & _ & ->).
  apply elem_of_book_ptrs. exists (Order.side_ o2).
  rewrite side_levels_set_orders, side_levels_set_side.
  rewrite level_ptrs_app, level_ptrs_cons. cbn. set_solver.
Qed.

(** A modify without a price to exactly what a resting order has executed
    leaves the order on the book with nothing remaining. *)
Lemma modify_to_executed_rests (fuel : nat) (h : heap) (b : OrderBook.t)
    (id : OrderId) (p : ptr) (o : Order.t) ms h' b' :
  OrderBook.modify_order fuel h b id None
    (Some (Order.executed_quantity_ o)) = Some (ms, h', b') →
  wf live h b →
  OrderBook.orders_ b !! id = Some p →
  resting h b p o →
  ∃ o', resting h' b' p o' ∧ Order.remaining_quantity o' = 0.
Proof.
  intros Hrun Hwf Hidx [Hp Ho].
  destruct (modify_order_in_place live fuel h b id p
              (Order.executed_quantity_ o) Hwf Hidx Hp)
    as (o0 & level & m1 & m2 & Ho0 & Hlv & Hin & Hrem & Hres).
  assert (o0 = o) as -> by congruence.
  rewrite Hres in Hrun;
    [|lia|unfold Order.remaining_quantity in Hrem; lia].
  injection Hrun as <- <- <-.
  eexists. split; [split|].
  - apply elem_of_book_ptrs. exists (Order.side_ o).
    rewrite side_levels_set_side, level_ptrs_app, level_ptrs_cons.
    cbn. set_solver.
  - apply list_lookup_insert_eq. by eapply lookup_lt_Some.
  - unfold Order.remaining_quantity. cbn. lia.
Qed.

Lemma reachable_live_valid (h : heap) (b : OrderBook.t) :
  reachable valid_op_live h b → reachable valid_op h b.
Proof.
  induction 1 as [symbol|h b op fuel h' b' Hr IH [Hvalid _] Hrun].
  - apply reach_init.
  - by eapply reach_step.
Qed.

(** * Claims *)

(** C1 fails on the spec's scenario 4.  A sell order 2001 for 8 at 102
    rests, and a LIMIT FOK buy order 1005 for 10 at 103 is submitted.  The
    walk executes 8 against order 2001 before the FOK test is made, and
    nothing is undone: the match list that is returned is empty and the
    taker is CANCELLED, but order 2001 is FILLED and gone from the book, the
    ask total is 0, and the taker, having a remainder and not being IOC, is
    added to the bid side.  A MARKET FOK order leaves order 2001 filled in
    the same way. *)
Theorem fok_partial_fill_commits :
  let maker := Order.mk 2001 "AAPL" SELL LIMIT 80000 0 1020000 GTC ACCEPTED in
  ∃ h b,
    run_checked valid_opb 1 initial
      [ Submit 2001 "AAPL" SELL LIMIT 80000 1020000 GTC ]
    = Some (h, b)
    ∧ h = [maker]
    ∧ OrderBook.best_ask b = Some 1020000
    ∧ OrderBook.side_total SELL b = 80000
    ∧ (∃ h' b',
         OrderBook.add_order 5
           (h ++ [Order.make 1005 "AAPL" BUY LIMIT 100000 1030000 FOK]) b 1
         = Some ([], h', b')
         ∧ h' = [ Order.mk 2001 "AAPL" SELL LIMIT 80000 80000 1020000 GTC
                    FILLED;
                  Order.mk 1005 "AAPL" BUY LIMIT 100000 80000 1030000 FOK
                    CANCELLED ]
         ∧ OrderBook.best_ask b' = None
         ∧ OrderBook.side_total SELL b' = 0
         ∧ OrderBook.get_orders_at_level 1020000 SELL b' = []
         ∧ OrderBook.get_order 1005 b' = Some 1%nat
         ∧ OrderBook.get_orders_at_level 1030000 BUY b' = [1%nat]
         ∧ OrderBook.side_total BUY b' = 20000)
    ∧ (∃ h' b',
         OrderBook.add_order 5
           (h ++ [Order.make 1005 "AAPL" BUY MARKET 100000 0 FOK]) b 1
         = Some ([], h', b')
         ∧ h' = [ Order.mk 2001 "AAPL" SELL LIMIT 80000 80000 1020000 GTC
                    FILLED;
                  Order.mk 1005 "AAPL" BUY MARKET 100000 80000 0 FOK
                    CANCELLED ]
         ∧ OrderBook.best_ask b' = None
         ∧ OrderBook.side_total SELL b' = 0).
Proof.
  intros maker. run_to_state Hrun.
  do 3 (split; [reflexivity|]).
  split; eexists _, _; (split; [vm_compute; reflexivity|]);
    repeat split; vm_compute; reflexivity.
Qed.

(** C2 fails on an order that a modify has rewritten in place.  Order 1001
    is submitted and its quantity is lowered, which marks it REPLACED while
    it stays on the book.  [cancel_order] then finds it, takes it out of
    its level and of the id index and returns true, and its call of
    [Order::cancel] (under the comment "Mark the order as cancelled") does
    nothing, because [is_active] does not count REPLACED: the cancelled
    order is left REPLACED, not CANCELLED. *)
Theorem cancel_leaves_replaced :
  ∃ h b,
    run_checked valid_opb 2 initial
      [ Submit 1001 "AAPL" BUY LIMIT 100000 1000000 GTC;
        Modify 1001 None (Some 50000) ]
    = Some (h, b)
    ∧ reachable valid_op h b
    ∧ ∃ p o h' b' o',
        resting h b p o
        ∧ Order.id_ o = 1001%N
        ∧ OrderBook.cancel_order h b 1001 = Some (true, h', b')
        ∧ OrderBook.get_order 1001 b' = None
        ∧ book_ptrs b' = []
        ∧ h' !! p = Some o'
        ∧ Order.status_ o' = REPLACED
        ∧ Order.status_ o' ≠ CANCELLED.
Proof.
  run_to_state Hrun.
  split; [exact (run_checked_reachable _ _ _ _ Hrun)|].
  eexists 0%nat, _, _, _, _.
  split; [split; [vm_compute; left | vm_compute; reflexivity]|].
  do 6 (split; [vm_compute; reflexivity|]). discriminate.
Qed.

(** C3 fails on a partially filled order.  A buy order 1001 for 10 rests and
    has executed 4.  A modify to the quantity 2, with no new price, is
    refused by [PriceLevel::modify_order_quantity], and [modify_order] does
    not look at the refusal: the match list is empty, the book and the
    order's quantities are as before, but the order's status has gone from
    PARTIALLY_FILLED to REPLACED. *)
Theorem modify_underflow_replaced :
  let o := Order.mk 1001 "AAPL" BUY LIMIT 100000 40000 1000000 GTC
             PARTIALLY_FILLED in
  ∃ h b,
    run_checked valid_opb 2 initial
      [ Submit 1001 "AAPL" BUY LIMIT 100000 1000000 GTC;
        Submit 2001 "AAPL" SELL LIMIT 40000 1000000 GTC ]
    = Some (h, b)
    ∧ resting h b 0%nat o
    ∧ OrderBook.get_order 1001 b = Some 0%nat
    ∧ valid_op h b (Modify 1001 None (Some 20000))
    ∧ OrderBook.modify_order 5 h b 1001 None (Some 20000)
      = Some ([], <[0%nat := Order.set_status REPLACED o]> h, b)
    ∧ Order.status_ o = PARTIALLY_FILLED
    ∧ Order.status_ (Order.set_status REPLACED o) = REPLACED.
Proof.
  intros o. run_to_state Hrun.
  split; [split; [vm_compute; left | vm_compute; reflexivity]|].
  split; [vm_compute; reflexivity|].
  split; [apply valid_opb_sound; vm_compute; reflexivity|].
  split; [vm_compute; reflexivity|]. by split.
Qed.

(** C4 fails after a killed FOK order.  Sell orders rest at 102 (for 8) and
    at 104 (for 5).  A LIMIT FOK buy order for 10 at 105 trades 8 at 102,
    stops, and is cancelled with 2 remaining; since it is neither filled nor
    IOC, [add_order] adds it to the bid side at 105, above the best ask
    104.  All three operations are valid. *)
Theorem fok_remainder_crosses :
  ∃ h b,
    run_checked valid_opb 3 initial
      [ Submit 2001 "AAPL" SELL LIMIT 80000 1020000 GTC;
        Submit 2002 "AAPL" SELL LIMIT 50000 1040000 GTC;
        Submit 1005 "AAPL" BUY LIMIT 100000 1050000 FOK ]
    = Some (h, b)
    ∧ reachable valid_op h b
    ∧ OrderBook.best_bid b = Some 1050000
    ∧ OrderBook.best_ask b = Some 1040000
    ∧ ¬ (1050000 < 1040000).
Proof.
  run_to_state Hrun.
  split; [exact (run_checked_reachable _ _ _ _ Hrun)|].
  split; [reflexivity|]. split; [reflexivity|]. lia.
Qed.

(** C5 does not hold as it is stated.  A buy order for 10 rests, a sell for
    4 trades against it, and the buy order is modified in place to the
    quantity 4: all three operations are valid, and the buy order stays in
    its price level and in the id index with status REPLACED, which
    [is_active] does not count as active, and with nothing remaining. *)
Lemma resting_active_counterexample :
  ∃ h b,
    run_checked valid_opb 3 initial
      [ Submit 1001 "AAPL" BUY LIMIT 100000 1000000 GTC;
        Submit 2001 "AAPL" SELL LIMIT 40000 1000000 GTC;
        Modify 1001 None (Some 40000) ]
    = Some (h, b)
    ∧ reachable valid_op h b
    ∧ ∃ p o,
        resting h b p o
        ∧ OrderBook.get_order 1001 b = Some p
        ∧ Order.id_ o = 1001%N
        ∧ Order.status_ o = REPLACED
        ∧ Order.is_active o = false
        ∧ Order.remaining_quantity o = 0.
Proof.
  run_to_state Hrun.
  split; [exact (run_checked_reachable _ _ _ _ Hrun)|].
  eexists 0%nat, _.
  split; [split; [vm_compute; left | vm_compute; reflexivity]|].
  repeat split; vm_compute; reflexivity.
Qed.

(** C5, amended.  Two kinds of valid operation are left out: the submit of
    a LIMIT FOK order that is not filled whole (the best level of the other
    side is past its limit or holds less than its quantity), and a modify
    without a price that sets the quantity of a resting order to exactly
    what the order has executed.  After any run of the other valid
    operations, every order queued in a price level is the one the id index
    has for its id, its status is NEW, ACCEPTED, PARTIALLY_FILLED or
    REPLACED, and its remaining quantity is positive. *)
Theorem resting_orders_live (h : heap) (b : OrderBook.t) (p : ptr)
    (o : Order.t) :
  reachable valid_op_live h b →
  resting h b p o →
  OrderBook.get_order (Order.id_ o) b = Some p
  ∧ p ∈ OrderBook.get_orders_at_level (Order.price_ o) (Order.side_ o) b
  ∧ (Order.is_active o = true ∨ Order.status_ o = REPLACED)
  ∧ 0 < Order.remaining_quantity o.
Proof.
  intros Hr [Hp Ho]. pose proof (reachable_live_wf _ _ Hr) as Hwf.
  destruct (wf_resting _ _ _ _ Hwf Hp)
    as (o' & l & Ho' & Hfind & Hin & Hok).
  assert (o' = o) as -> by congruence.
  destruct Hok as (o' & Ho'' & _ & _ & _ & Hidx & _ & _ & Hact & Hrem & _).
  assert (o' = o) as -> by congruence.
  unfold OrderBook.get_order, OrderBook.get_orders_at_level.
  rewrite Hfind. auto.
Qed.

(** The amended invariant after a run that holds a LIMIT FOK order filled
    whole, a MARKET FOK order, a modify to a quantity below what the order
    has executed (refused by the level, the order marked REPLACED all the
    same) and a modify to another price: on the order that the first three
    have traded with or rewritten, and on the replacement that the last one
    has made. *)
Lemma resting_orders_live_witness :
  let o := Order.mk 1001 "AAPL" BUY LIMIT 100000 50000 1000000 GTC REPLACED in
  let o' := Order.mk 1002 "AAPL" BUY LIMIT 20000 0 995000 GTC ACCEPTED in
  ∃ h b,
    run_checked valid_op_liveb 4 initial
      [ Submit 1001 "AAPL" BUY LIMIT 100000 1000000 GTC;
        Submit 2001 "AAPL" SELL LIMIT 40000 1000000 FOK;
        Submit 2002 "AAPL" SELL MARKET 10000 0 FOK;
        Modify 1001 None (Some 30000);
        Submit 1002 "AAPL" BUY LIMIT 20000 990000 GTC;
        Modify 1002 (Some 995000) (Some 20000) ]
    = Some (h, b)
    ∧ book_ptrs b = [0%nat; 4%nat]
    ∧ (resting h b 0%nat o
       ∧ OrderBook.get_order (Order.id_ o) b = Some 0%nat
       ∧ 0%nat ∈ OrderBook.get_orders_at_level (Order.price_ o)
                   (Order.side_ o) b
       ∧ (Order.is_active o = true ∨ Order.status_ o = REPLACED)
       ∧ 0 < Order.remaining_quantity o)
    ∧ (resting h b 4%nat o'
       ∧ OrderBook.get_order (Order.id_ o') b = Some 4%nat
       ∧ 4%nat ∈ OrderBook.get_orders_at_level (Order.price_ o')
                   (Order.side_ o') b
       ∧ (Order.is_active o' = true ∨ Order.status_ o' = REPLACED)
       ∧ 0 < Order.remaining_quantity o').
Proof.
  intros o o'. run_to_state Hrun.
  pose proof (run_checked_live_reachable _ _ _ _ Hrun) as Hr.
  split; [reflexivity|].
  match goal with
  | |- (resting ?h ?b _ _ ∧ _) ∧ _ =>
      assert (Hrest : resting h b 0%nat o)
        by (split; [vm_compute; left | vm_compute; reflexivity]);
      assert (Hrest' : resting h b 4%nat o')
        by (split; [vm_compute; right; left | vm_compute; reflexivity])
  end.
  split.
  - split; [exact Hrest|]. exact (resting_orders_live _ _ _ _ Hr Hrest).
  - split; [exact Hrest'|]. exact (resting_orders_live _ _ _ _ Hr Hrest').
Defined.

(** C6.  In every state that valid submit, cancel and modify operations
    lead to, the cached total of each price level is the sum of the
    remaining quantities of the orders the level queues, and the total of
    each side is the sum of the totals of the side's levels.  Such a state is
    never stuck: every further operation returns, given enough fuel for its
    loops. *)
Theorem totals_invariant (h : heap) (b : OrderBook.t) :
  reachable valid_op h b →
  totals_ok h b ∧ ∀ op, ∃ fuel, is_Some (run_op fuel (h, b) op).
Proof.
  intros Hr. pose proof (reachable_wf _ _ Hr) as Hwf. split.
  - split.
    + intros s k l Hkl. destruct (wf_side _ _ _ Hwf s) as (_ & _ & Hall).
      rewrite Forall_forall in Hall. apply (Hall _ Hkl).
    + intros s. apply (wf_side _ _ _ Hwf s).
  - intros op. apply (run_op_total _ exec_stable_True _ _ _ Hwf).
Qed.

(** The invariant at the end of a run with two matches (a limit order and a
    market order as takers), an in-place modify and a cancel. *)
Lemma totals_invariant_witness :
  ∃ h b,
    run_checked valid_opb 8 initial
      [ Submit 1001 "AAPL" BUY LIMIT 100000 1000000 GTC;
        Submit 1002 "AAPL" BUY LIMIT 50000 990000 GTC;
        Submit 2001 "AAPL" SELL LIMIT 80000 1020000 GTC;
        Submit 2002 "AAPL" SELL LIMIT 40000 1000000 GTC;
        Modify 1002 None (Some 30000);
        Submit 1003 "AAPL" BUY MARKET 30000 0 IOC;
        Cancel 2001 ]
    = Some (h, b)
    ∧ OrderBook.get_quantity_at_level 1000000 BUY b = 60000
    ∧ OrderBook.get_quantity_at_level 990000 BUY b = 30000
    ∧ OrderBook.side_total BUY b = 90000
    ∧ OrderBook.side_total SELL b = 0
    ∧ totals_ok h b
    ∧ ∀ op, ∃ fuel, is_Some (run_op fuel (h, b) op).
Proof.
  run_to_state Hrun.
  do 4 (split; [vm_compute; reflexivity|]).
  apply totals_invariant.
  exact (run_checked_reachable _ _ _ _ Hrun).
Defined.




(** C8 fails on an id that the index still holds.  Sell order 2001 rests
    and the market buy order 3001 fills it: the matching functions pop the
    filled order from its level, and nothing erases it from the id index.
    The id 2001 rests no more, so a MARKET order, or a LIMIT IOC order, may
    be submitted under it: the order is added neither to a level nor to the
    index, as the claim says, but [get_order] of its id is not none
    afterwards: it is the sell order that was filled before. *)
Theorem taker_id_still_indexed :
  let filled := Order.mk 2001 "AAPL" SELL LIMIT 80000 80000 1020000 GTC
                  FILLED in
  ∃ h b,
    run_checked valid_opb 3 initial
      [ Submit 2001 "AAPL" SELL LIMIT 80000 1020000 GTC;
        Submit 3001 "AAPL" BUY MARKET 80000 0 GTC ]
    = Some (h, b)
    ∧ reachable valid_op h b
    ∧ book_ptrs b = []
    ∧ (∃ h' b',
         valid_op h b (Submit 2001 "AAPL" BUY MARKET 50000 0 GTC)
         ∧ OrderBook.add_order 3
             (h ++ [Order.make 2001 "AAPL" BUY MARKET 50000 0 GTC]) b 2
           = Some ([], h', b')
         ∧ book_ptrs b' = []
         ∧ OrderBook.get_order 2001 b' = Some 0%nat
         ∧ h' !! 0%nat = Some filled)
    ∧ (∃ h' b',
         valid_op h b (Submit 2001 "AAPL" BUY LIMIT 50000 1030000 IOC)
         ∧ OrderBook.add_order 3
             (h ++ [Order.make 2001 "AAPL" BUY LIMIT 50000 1030000 IOC]) b 2
           = Some ([], h', b')
         ∧ book_ptrs b' = []
         ∧ OrderBook.get_order 2001 b' = Some 0%nat
         ∧ h' !! 0%nat = Some filled).
Proof.
  intros filled. run_to_state Hrun.
  split; [exact (run_checked_reachable _ _ _ _ Hrun)|].
  split; [reflexivity|].
  split; eexists _, _;
    (split; [apply valid_opb_sound; vm_compute; reflexivity|]);
    repeat split; vm_compute; reflexivity.
Qed.

(** C9, the part that holds.  A value that is not a sentinel is written as
    the sign when negative, the decimal numeral of [|v| / 10000], a dot, and
    [|v| mod 10000] on exactly four digits. *)
Lemma to_string_format (v : Z) :
  v ≠ INVALID → v ≠ MAX_VALUE →
  to_string v
  = (if bool_decide (v < 0) then "-" else "")
      +:+ pretty (Z.abs v / 10000) +:+ "."
      +:+ four_digits (Z.abs v `mod` 10000).
Proof.
  intros Hinv Hmax. unfold to_string.
  case_decide; [done|]. case_decide; [done|].
  case_decide; [unfold MIN_VALUE, INVALID, int64_min, int64_lowest in *; lia|].
  unfold SCALE_FACTOR.
  assert (Habs : (if bool_decide (v < 0) then - v else v) = Z.abs v)
    by (case_bool_decide; lia).
  rewrite Habs.
  rewrite Z.quot_div_nonneg, Z.rem_mod_nonneg by lia.
  rewrite setw_setfill_four_digits; [done|].
  apply Z.mod_pos_bound. lia.
Qed.

(** The format on 150.25 and on -0.0005. *)
Lemma to_string_format_witness :
  to_string 1502500 = "150.2500" ∧ to_string (-5) = "-0.0005".
Proof.
  split.
  - rewrite (to_string_format 1502500);
      [vm_compute; reflexivity | vm_compute; discriminate
      | vm_compute; discriminate].
  - rewrite (to_string_format (-5));
      [vm_compute; reflexivity | vm_compute; discriminate
      | vm_compute; discriminate].
Defined.

(** C9, where it fails.  [INVALID] is [numeric_limits<int64_t>::lowest()] and
    [MIN_VALUE] is [numeric_limits<int64_t>::min()]: the same number.  The
    test for [INVALID] comes first, so the branch that returns the tag MIN is
    never taken. *)
Theorem to_string_MIN_VALUE :
  MIN_VALUE = INVALID
  ∧ to_string MIN_VALUE = "INVALID"
  ∧ to_string INVALID = "INVALID"
  ∧ to_string MAX_VALUE = "MAX".
Proof. repeat split; vm_compute; reflexivity. Qed.

(** C10.  [Order::execute] clamps its argument: whatever [exec_qty] is, the
    executed quantity grows by exactly [min exec_qty remaining], so that the
    executed quantity never exceeds the quantity and the remaining quantity
    is never negative afterwards; the status becomes FILLED when the executed
    quantity reaches the quantity, otherwise PARTIALLY_FILLED when the
    executed quantity is positive (and is otherwise left as it was). *)
Theorem execute_clamps (o : Order.t) (exec_qty : Quantity) :
  let o' := Order.execute exec_qty o in
  Order.executed_quantity_ o'
    = Order.executed_quantity_ o + Z.min exec_qty (Order.remaining_quantity o)
  ∧ Order.quantity_ o' = Order.quantity_ o
  ∧ Order.executed_quantity_ o' ≤ Order.quantity_ o'
  ∧ 0 ≤ Order.remaining_quantity o'
  ∧ Order.status_ o'
    = if decide (Order.executed_quantity_ o' = Order.quantity_ o') then FILLED
      else if decide (Order.executed_quantity_ o' > 0) then PARTIALLY_FILLED
      else Order.status_ o.
Proof.
  destruct o as [i sy sd ty q e p tif st].
  unfold Order.execute, Order.remaining_quantity, ZERO; cbn.
  repeat (case_decide; cbn in * ); repeat split; lia || reflexivity.
Qed.

(** * Further properties of the order book *)

(** What [cancel_order] does in a state that valid operations lead to.  It
    returns false and changes nothing when no order with the id rests.  When
    an order with the id rests, it returns true; the order's object is
    replaced by [Order::cancel] of it, whose status is CANCELLED when the
    order was active (NEW, ACCEPTED, PARTIALLY_FILLED) and is otherwise what
    it was; the order leaves the id index and the queue of its price level;
    the level's total and the side's total go down by the order's remaining
    quantity; the level is dropped exactly when the order was alone in it;
    the other levels of the side and the other side are as before. *)
Theorem cancel_order_contract (h : heap) (b : OrderBook.t) (id : OrderId) :
  reachable valid_op h b →
  (¬ resting_id h b id → OrderBook.cancel_order h b id = Some (false, h, b))
  ∧ (∀ p o, resting h b p o → Order.id_ o = id →
      let s := Order.side_ o in
      let k := Order.price_ o in
      ∃ b',
        OrderBook.cancel_order h b id
        = Some (true, <[p := Order.cancel o]> h, b')
        ∧ Order.status_ (Order.cancel o)
          = (if Order.is_active o then CANCELLED else Order.status_ o)
        ∧ OrderBook.get_order id b' = None
        ∧ ¬ resting_id (<[p := Order.cancel o]> h) b' id
        ∧ OrderBook.get_orders_at_level k s b'
          = list_erase p (OrderBook.get_orders_at_level k s b)
        ∧ OrderBook.get_quantity_at_level k s b'
          = OrderBook.get_quantity_at_level k s b
            - Order.remaining_quantity o
        ∧ OrderBook.side_total s b'
          = OrderBook.side_total s b - Order.remaining_quantity o
        ∧ (PriceMap.find k (OrderBook.side_levels s b') = None
           ↔ OrderBook.get_orders_at_level k s b = [p])
        ∧ (∀ k', k' ≠ k →
             PriceMap.find k' (OrderBook.side_levels s b')
             = PriceMap.find k' (OrderBook.side_levels s b))
        ∧ OrderBook.side_levels (OrderBook.opposite s) b'
          = OrderBook.side_levels (OrderBook.opposite s) b
        ∧ OrderBook.side_total (OrderBook.opposite s) b'
          = OrderBook.side_total (OrderBook.opposite s) b).
Proof.
  intros Hr. pose proof (reachable_wf _ _ Hr) as Hwf. split.
  - intros Hnr. apply (cancel_order_not_resting _ _ _ _ Hwf).
    intros p Hidx Hp. apply Hnr.
    destruct (wf_index _ _ _ Hwf _ _ Hidx) as (o & Ho & Hid).
    by exists p, o.
  - intros p o [Hp Ho] Hid s k.
    destruct (wf_resting _ _ _ _ Hwf Hp) as (o0 & l0 & Ho0 & _ & _ & Hok).
    assert (o0 = o) as -> by congruence.
    destruct Hok as (o0 & Ho0' & _ & _ & _ & Hidx & _).
    assert (o0 = o) as -> by congruence. rewrite Hid in Hidx.
    destruct (cancel_order_resting _ _ _ _ _ Hwf Hidx Hp)
      as (o0 & level & m1 & m2 & q1 & q2 & Ho1 & _ & Hlv & Hk & Hq & Hq1
          & Hq2 & _ & Hrun).
    assert (o0 = o) as -> by congruence.
    fold s k in Hlv, Hk, Hrun.
    destruct (cancel_order_ok _ _ _ _ _ _ _ Hrun Hwf) as (_ & _ & _ & Hgone).
    destruct (Hgone eq_refl) as [Hnr _].
    destruct (wf_side _ _ _ Hwf s) as (Hsort & _ & Hall).
    pose proof (keys_sorted_NoDup _ _ Hsort) as Hnd. rewrite Hlv in Hnd.
    rewrite Forall_forall in Hall.
    assert (Hin : (k, level) ∈ OrderBook.side_levels s b)
      by (rewrite Hlv; set_solver).
    destruct (Hall _ Hin) as (_ & Htot & _). cbn in Htot.
    eexists. split; [exact Hrun|].
    split; [unfold Order.cancel; by destruct (Order.is_active o)|].
    split; [unfold OrderBook.get_order; cbn; apply lookup_delete_eq|].
    split; [done|].
    unfold OrderBook.get_orders_at_level, OrderBook.get_quantity_at_level.
    rewrite side_levels_set_orders, side_total_set_orders,
      side_levels_set_side, side_total_set_side, Hlv.
    rewrite (find_middle k level m1 m2 Hk).
    unfold PriceLevel.get_all_orders. rewrite Hq, list_erase_middle by done.
    rewrite !side_levels_set_orders, !side_total_set_orders,
      side_levels_set_side_opp, side_total_set_side_opp.
    destruct (decide (q1 ++ q2 = [])) as [Hemp|Hne].
    + rewrite (find_removed _ _ _ _ Hnd).
      apply app_eq_nil in Hemp as [-> ->].
      rewrite Hq in Htot. cbn [app] in Htot.
      rewrite sum_remaining_cons, sum_remaining_nil,
        (remaining_at_lookup _ _ _ Ho) in Htot.
      split_and!; try done.
      * unfold ZERO. lia.
      * intros k' Hne. by rewrite find_other.
    + rewrite (find_middle k _ m1 m2 Hk). cbn.
      split_and!; try done.
      * split; [done|]. intros Heq. destruct Hne.
        destruct q1 as [|x q1]; [by injection Heq as ->|].
        injection Heq as _ Heq. by destruct q1.
      * intros k' Hne'. by rewrite !find_other.
Qed.

(** A book with two buy orders at one price, the first of them partially
    filled: cancelling an id that does not rest, and cancelling the
    first. *)
Lemma cancel_order_contract_witness :
  let o := Order.mk 1001 "AAPL" BUY LIMIT 100000 40000 1000000 GTC
             PARTIALLY_FILLED in
  ∃ h b,
    run_checked valid_opb 3 initial
      [ Submit 1001 "AAPL" BUY LIMIT 100000 1000000 GTC;
        Submit 1002 "AAPL" BUY LIMIT 50000 1000000 GTC;
        Submit 2001 "AAPL" SELL LIMIT 40000 1000000 GTC ]
    = Some (h, b)
    ∧ OrderBook.cancel_order h b 3003 = Some (false, h, b)
    ∧ ∃ b',
        OrderBook.cancel_order h b 1001
        = Some (true, <[0%nat := Order.cancel o]> h, b')
        ∧ Order.status_ (Order.cancel o) = CANCELLED
        ∧ OrderBook.get_order 1001 b' = None
        ∧ OrderBook.get_orders_at_level 1000000 BUY b' = [1%nat]
        ∧ OrderBook.get_quantity_at_level 1000000 BUY b' = 50000
        ∧ OrderBook.side_total BUY b' = 50000.
Proof.
  intros o. run_to_state Hrun.
  pose proof (run_checked_reachable _ _ _ _ Hrun) as Hr.
  split.
  - apply (cancel_order_contract _ _ 3003 Hr).
    apply resting_idb_false. vm_compute; reflexivity.
  - destruct (cancel_order_contract _ _ 1001 Hr) as [_ Hc].
    destruct (Hc 0%nat o)
      as (b' & Hcancel & Hst & Hidx & _ & Hq & Hl & Ht & _).
    + split; [vm_compute; left | vm_compute; reflexivity].
    + reflexivity.
    + exists b'. split; [exact Hcancel|]. split; [exact Hst|].
      split; [exact Hidx|]. split; [exact Hq|]. split; [exact Hl|exact Ht].
Defined.

(** In a state that valid operations lead to, the submit of a MARKET order,
    or of a LIMIT order with time in force IOC, returns, and whatever the
    order's remaining quantity then is, no price level queues the order and
    the id index is what it was: [get_order] of the order's id gives what
    it gave before, which is never the order. *)
Theorem market_ioc_not_added (h : heap) (b : OrderBook.t) (id : OrderId)
    (symbol : string) (side : Side) (type : OrderType) (quantity : Quantity)
    (price : Price) (tif : TimeInForce) :
  reachable valid_op h b →
  type = MARKET ∨ (type = LIMIT ∧ tif = IOC) →
  let '(h1, order) :=
    alloc h (Order.make id symbol side type quantity price tif) in
  (∃ fuel, is_Some (OrderBook.add_order fuel h1 b order))
  ∧ ∀ fuel ms h' b',
      OrderBook.add_order fuel h1 b order = Some (ms, h', b') →
      (order ∉ book_ptrs b')
      ∧ OrderBook.orders_ b' = OrderBook.orders_ b
      ∧ OrderBook.get_order id b' = OrderBook.get_order id b
      ∧ OrderBook.get_order id b' ≠ Some order.
Proof.
  intros Hr Hkind. cbn.
  set (o := Order.make id symbol side type quantity price tif).
  pose proof (reachable_wf _ _ Hr) as Hwf.
  destruct (wf_alloc _ h b o Hwf) as (Hwf1 & Hnin & Ho).
  split.
  - exists (enough_fuel b).
    by apply (add_order_total _ exec_stable_True).
  - intros fuel ms h' b' Hrun.
    destruct (add_order_not_added _ exec_stable_True _ _ _ _ _ _ _ _
                Hrun Hwf1 Ho Hnin Hkind) as [Hidx Hsub].
    unfold OrderBook.get_order. rewrite Hidx.
    split_and!; [by intros ?%Hsub|done|done|].
    intros Hp. destruct (wf_index _ _ _ Hwf _ _ Hp) as (o0 & Ho0 & _).
    apply lookup_lt_Some in Ho0. lia.
Qed.

(** The spec's scenario 3: a sell order for 8 at 102 rests, and a LIMIT IOC
    buy order for 10 at 103 trades 8 and leaves 2 that are not added; the
    same for a MARKET buy order for 10.  The ids are new to the index, and
    [get_order] of them is none afterwards. *)
Lemma market_ioc_not_added_witness :
  ∃ h b,
    run_checked valid_opb 1 initial
      [ Submit 2001 "AAPL" SELL LIMIT 80000 1020000 GTC ]
    = Some (h, b)
    ∧ (∃ ms h' b',
         OrderBook.add_order 5
           (h ++ [Order.make 1005 "AAPL" BUY LIMIT 100000 1030000 IOC]) b 1
         = Some (ms, h', b')
         ∧ ms = [OrderBook.mkMatch 2001 1005 1020000 80000]
         ∧ Order.remaining_quantity <$> h' !! 1%nat = Some 20000
         ∧ (1%nat ∉ book_ptrs b')
         ∧ OrderBook.orders_ b' = OrderBook.orders_ b
         ∧ OrderBook.get_order 1005 b' = None)
    ∧ (∃ ms h' b',
         OrderBook.add_order 5
           (h ++ [Order.make 1006 "AAPL" BUY MARKET 100000 0 GTC]) b 1
         = Some (ms, h', b')
         ∧ Order.remaining_quantity <$> h' !! 1%nat = Some 20000
         ∧ (1%nat ∉ book_ptrs b')
         ∧ OrderBook.orders_ b' = OrderBook.orders_ b
         ∧ OrderBook.get_order 1006 b' = None).
Proof.
  run_to_state Hrun.
  pose proof (run_checked_reachable _ _ _ _ Hrun) as Hr.
  split.
  - eexists _, _, _. split; [vm_compute; reflexivity|].
    split; [reflexivity|]. split; [reflexivity|].
    destruct (proj2 (market_ioc_not_added _ _ 1005 "AAPL" BUY LIMIT 100000
                       1030000 IOC Hr ltac:(right; by split))
                5%nat _ _ _ ltac:(vm_compute; reflexivity))
      as (Hnin & Hidx & Hget & _).
    split; [exact Hnin|]. split; [exact Hidx|]. exact Hget.
  - eexists _, _, _. split; [vm_compute; reflexivity|].
    split; [reflexivity|].
    destruct (proj2 (market_ioc_not_added _ _ 1006 "AAPL" BUY MARKET 100000
                       0 GTC Hr ltac:(by left))
                5%nat _ _ _ ltac:(vm_compute; reflexivity))
      as (Hnin & Hidx & Hget & _).
    split; [exact Hnin|]. split; [exact Hidx|]. exact Hget.
Defined.

(** Every order that rests on the book after a run of valid operations is a
    LIMIT order, not IOC, at a positive price, has not executed more than
    its quantity and does not have status FILLED; the book's id index and
    the index of the price level at the order's side and price both map the
    order's id to it, the level queues it, and no other resting order has
    its id. *)
Theorem resting_order_indexed (h : heap) (b : OrderBook.t) (p : ptr)
    (o : Order.t) :
  reachable valid_op h b →
  resting h b p o →
  Order.type_ o = LIMIT
  ∧ Order.time_in_force_ o ≠ IOC
  ∧ 0 < Order.price_ o
  ∧ Order.executed_quantity_ o ≤ Order.quantity_ o
  ∧ Order.status_ o ≠ FILLED
  ∧ OrderBook.get_order (Order.id_ o) b = Some p
  ∧ (∃ l, PriceMap.find (Order.price_ o)
            (OrderBook.side_levels (Order.side_ o) b) = Some l
          ∧ PriceLevel.price_ l = Order.price_ o
          ∧ PriceLevel.get_order (Order.id_ o) l = Some p
          ∧ p ∈ PriceLevel.get_all_orders l)
  ∧ (∀ p' o', resting h b p' o' → Order.id_ o' = Order.id_ o → p' = p).
Proof.
  intros Hr [Hp Ho]. pose proof (reachable_limit_wf _ _ Hr) as Hwf.
  destruct (wf_resting _ _ _ _ Hwf Hp) as (o0 & l & Ho0 & Hfind & Hin & Hok).
  assert (o0 = o) as -> by congruence.
  destruct Hok as (o0 & Ho0' & Hpr & _ & Hmap & Hidx & Hrem & Hst & Hk).
  assert (o0 = o) as -> by congruence.
  destruct Hk as (Hty & Htif & Hpos).
  unfold Order.remaining_quantity in Hrem.
  split_and!; [done|done|done|lia|done|done| |].
  - exists l. by split_and!.
  - intros p' o' [Hp' Ho'] Hid.
    destruct (wf_resting _ _ _ _ Hwf Hp')
      as (o1 & l1 & Ho1 & _ & _ & (o2 & Ho2 & _ & _ & _ & Hidx' & _)).
    assert (o2 = o') as -> by congruence.
    rewrite Hid, Hidx in Hidx'. congruence.
Qed.

(** The facts on the buy order that rests after a partial fill. *)
Lemma resting_order_indexed_witness :
  let o := Order.mk 1001 "AAPL" BUY LIMIT 100000 40000 1000000 GTC
             PARTIALLY_FILLED in
  ∃ h b,
    run_checked valid_opb 3 initial
      [ Submit 1001 "AAPL" BUY LIMIT 100000 1000000 GTC;
        Submit 1002 "AAPL" BUY LIMIT 50000 1000000 GTC;
        Submit 2001 "AAPL" SELL LIMIT 40000 1000000 GTC ]
    = Some (h, b)
    ∧ resting h b 0%nat o
    ∧ OrderBook.get_order 1001 b = Some 0%nat
    ∧ ∀ p' o', resting h b p' o' → Order.id_ o' = 1001%N → p' = 0%nat.
Proof.
  intros o. run_to_state Hrun.
  match goal with
  | |- resting ?h ?b _ _ ∧ _ => assert (Hrest : resting h b 0%nat o)
  end.
  { split; [vm_compute; left | vm_compute; reflexivity]. }
  split; [exact Hrest|].
  destruct (resting_order_indexed _ _ _ _
              (run_checked_reachable _ _ _ _ Hrun) Hrest)
    as (_ & _ & _ & _ & _ & Hidx & _ & Huniq).
  split; [exact Hidx|exact Huniq].
Defined.
(** After a run of valid operations [get_bid_prices] is strictly
    descending and [get_ask_prices] strictly ascending, so that no price
    comes twice; [best_bid] is the highest bid price and [best_ask] the
    lowest ask price. *)
Theorem price_ladders_sorted (h : heap) (b : OrderBook.t) :
  reachable valid_op h b →
  StronglySorted Z.gt (OrderBook.get_bid_prices b)
  ∧ StronglySorted Z.lt (OrderBook.get_ask_prices b)
  ∧ OrderBook.best_bid b = head (OrderBook.get_bid_prices b)
  ∧ OrderBook.best_ask b = head (OrderBook.get_ask_prices b)
  ∧ (∀ bb k, OrderBook.best_bid b = Some bb →
       k ∈ OrderBook.get_bid_prices b → k ≤ bb)
  ∧ (∀ ba k, OrderBook.best_ask b = Some ba →
       k ∈ OrderBook.get_ask_prices b → ba ≤ k).
Proof.
  intros Hr. pose proof (reachable_wf _ _ Hr) as Hwf.
  destruct (wf_side _ _ _ Hwf BUY) as (Hb%keys_sorted_BUY & _).
  destruct (wf_side _ _ _ Hwf SELL) as (Ha%keys_sorted_SELL & _).
  cbn in Hb, Ha.
  unfold OrderBook.get_bid_prices, OrderBook.get_ask_prices,
    OrderBook.best_bid, OrderBook.best_ask.
  split_and!; [done|done| | | |].
  - by destruct (OrderBook.bid_levels_ b).
  - by destruct (OrderBook.ask_levels_ b).
  - intros bb k Hbb Hk.
    destruct (OrderBook.bid_levels_ b) as [|[k0 l0] lv]; [done|].
    cbn in Hbb, Hb, Hk. injection Hbb as <-.
    destruct (sorted_head_max _ _ _ _ Hb Hk); lia.
  - intros ba k Hba Hk.
    destruct (OrderBook.ask_levels_ b) as [|[k0 l0] lv]; [done|].
    cbn in Hba, Ha, Hk. injection Hba as <-.
    destruct (sorted_head_max _ _ _ _ Ha Hk); lia.
Qed.

(** The ladders of a book with three bid levels and two ask levels,
    submitted out of order. *)
Lemma price_ladders_sorted_witness :
  ∃ h b,
    run_checked valid_opb 5 initial
      [ Submit 1001 "AAPL" BUY LIMIT 100000 990000 GTC;
        Submit 1002 "AAPL" BUY LIMIT 50000 1000000 GTC;
        Submit 2001 "AAPL" SELL LIMIT 80000 1030000 GTC;
        Submit 1003 "AAPL" BUY LIMIT 20000 980000 GTC;
        Submit 2002 "AAPL" SELL LIMIT 40000 1020000 GTC ]
    = Some (h, b)
    ∧ OrderBook.get_bid_prices b = [1000000; 990000; 980000]
    ∧ OrderBook.get_ask_prices b = [1020000; 1030000]
    ∧ StronglySorted Z.gt (OrderBook.get_bid_prices b)
    ∧ StronglySorted Z.lt (OrderBook.get_ask_prices b)
    ∧ OrderBook.best_bid b = head (OrderBook.get_bid_prices b)
    ∧ OrderBook.best_ask b = head (OrderBook.get_ask_prices b).
Proof.
  run_to_state Hrun.
  split; [reflexivity|]. split; [reflexivity|].
  destruct (price_ladders_sorted _ _ (run_checked_reachable _ _ _ _ Hrun))
    as (Hb & Ha & Hbb & Hba & _).
  split; [exact Hb|]. split; [exact Ha|]. split; [exact Hbb|exact Hba].
Defined.

(** After a run of valid operations the snapshots [get_bids] and
    [get_asks] list every price level once, in the order of the book's side
    (best price first), with the level's total quantity; a lookup in the
    snapshot gives [get_quantity_at_level], and the quantities of a snapshot
    add up to the total quantity of its side. *)
Theorem depth_snapshot (h : heap) (b : OrderBook.t) :
  reachable valid_op h b →
  OrderBook.get_bids b
  = (λ kl, (kl.1, PriceLevel.total_quantity_ kl.2))
      <$> OrderBook.bid_levels_ b
  ∧ OrderBook.get_asks b
    = (λ kl, (kl.1, PriceLevel.total_quantity_ kl.2))
        <$> OrderBook.ask_levels_ b
  ∧ (OrderBook.get_bids b).*1 = OrderBook.get_bid_prices b
  ∧ (OrderBook.get_asks b).*1 = OrderBook.get_ask_prices b
  ∧ (∀ k, default ZERO (PriceMap.find k (OrderBook.get_bids b))
          = OrderBook.get_quantity_at_level k BUY b)
  ∧ (∀ k, default ZERO (PriceMap.find k (OrderBook.get_asks b))
          = OrderBook.get_quantity_at_level k SELL b)
  ∧ sumZ (OrderBook.get_bids b).*2 = OrderBook.get_total_bid_quantity b
  ∧ sumZ (OrderBook.get_asks b).*2 = OrderBook.get_total_ask_quantity b.
Proof.
  intros Hr. pose proof (reachable_wf _ _ Hr) as Hwf.
  destruct (wf_side _ _ _ Hwf BUY) as (Hb & Htb & _).
  destruct (wf_side _ _ _ Hwf SELL) as (Ha & Hta & _).
  cbn in Hb, Ha, Htb, Hta.
  assert (Hbids : OrderBook.get_bids b
            = (λ kl, (kl.1, PriceLevel.total_quantity_ kl.2))
                <$> OrderBook.bid_levels_ b)
    by (unfold OrderBook.get_bids; by rewrite (snapshot_sorted BUY)).
  assert (Hasks : OrderBook.get_asks b
            = (λ kl, (kl.1, PriceLevel.total_quantity_ kl.2))
                <$> OrderBook.ask_levels_ b)
    by (unfold OrderBook.get_asks; by rewrite (snapshot_sorted SELL)).
  rewrite Hbids, Hasks.
  unfold OrderBook.get_bid_prices, OrderBook.get_ask_prices,
    OrderBook.get_quantity_at_level, OrderBook.get_total_bid_quantity,
    OrderBook.get_total_ask_quantity.
  rewrite !level_totals_snapshot, <- !list_fmap_compose.
  split_and!; try done.
  - intros k. rewrite find_fmap_total. cbn.
    by destruct (PriceMap.find k (OrderBook.bid_levels_ b)).
  - intros k. rewrite find_fmap_total. cbn.
    by destruct (PriceMap.find k (OrderBook.ask_levels_ b)).
Qed.

(** The snapshots of a book with two bid levels, one of them holding two
    orders, and one ask level. *)
Lemma depth_snapshot_witness :
  ∃ h b,
    run_checked valid_opb 4 initial
      [ Submit 1001 "AAPL" BUY LIMIT 100000 990000 GTC;
        Submit 1002 "AAPL" BUY LIMIT 50000 1000000 GTC;
        Submit 1003 "AAPL" BUY LIMIT 20000 990000 GTC;
        Submit 2001 "AAPL" SELL LIMIT 80000 1030000 GTC ]
    = Some (h, b)
    ∧ OrderBook.get_bids b = [(1000000, 50000); (990000, 120000)]
    ∧ OrderBook.get_asks b = [(1030000, 80000)]
    ∧ sumZ (OrderBook.get_bids b).*2 = OrderBook.get_total_bid_quantity b
    ∧ sumZ (OrderBook.get_asks b).*2 = OrderBook.get_total_ask_quantity b.
Proof.
  run_to_state Hrun.
  destruct (depth_snapshot _ _ (run_checked_reachable _ _ _ _ Hrun))
    as (Hb & Ha & _ & _ & _ & _ & Htb & Hta).
  split; [exact Hb|]. split; [exact Ha|]. split; [exact Htb|exact Hta].
Defined.
(** After a run of valid operations no price level is empty: a level that
    [find] returns queues at least one order, its price is its key and is
    positive, and every order it queues rests on the level's side at the
    level's price. *)
Theorem levels_never_empty (h : heap) (b : OrderBook.t) (s : Side)
    (k : Price) (l : PriceLevel.t) :
  reachable valid_op h b →
  PriceMap.find k (OrderBook.side_levels s b) = Some l →
  PriceLevel.is_empty l = false
  ∧ (0 < PriceLevel.order_count l)%nat
  ∧ is_Some (PriceLevel.get_first_order l)
  ∧ PriceLevel.price_ l = k
  ∧ 0 < k
  ∧ ∀ p, p ∈ PriceLevel.get_all_orders l →
         ∃ o, resting h b p o ∧ Order.side_ o = s ∧ Order.price_ o = k.
Proof.
  intros Hr Hfind%find_Some_elem.
  destruct (level_has_order _ _ _ _ _ Hr Hfind) as (Hne & Hpr & Hpos & Hall).
  unfold PriceLevel.is_empty, PriceLevel.order_count,
    PriceLevel.get_first_order, PriceLevel.get_all_orders.
  destruct (PriceLevel.orders_ l) as [|p ps]; [done|].
  split_and!; [by apply bool_decide_eq_false|cbn; lia|by eexists|done..].
Qed.

(** The level at 100 after one of its two orders was filled. *)
Lemma levels_never_empty_witness :
  ∃ h b,
    run_checked valid_opb 3 initial
      [ Submit 1001 "AAPL" BUY LIMIT 100000 1000000 GTC;
        Submit 1002 "AAPL" BUY LIMIT 50000 1000000 GTC;
        Submit 2001 "AAPL" SELL LIMIT 100000 1000000 GTC ]
    = Some (h, b)
    ∧ ∃ l, PriceMap.find 1000000 (OrderBook.side_levels BUY b) = Some l
           ∧ PriceLevel.get_all_orders l = [1%nat]
           ∧ PriceLevel.is_empty l = false
           ∧ (0 < PriceLevel.order_count l)%nat.
Proof.
  run_to_state Hrun. eexists. split; [reflexivity|]. split; [reflexivity|].
  refine (let H := levels_never_empty _ _ BUY 1000000 _
                     (run_checked_reachable _ _ _ _ Hrun) eq_refl in
          conj (proj1 H) (proj1 (proj2 H))).
Defined.

(** After a run of valid operations the best bid and the best ask are each
    the price of an order that rests on that side, and are positive. *)
Theorem best_prices_quoted (h : heap) (b : OrderBook.t) :
  reachable valid_op h b →
  (∀ k, OrderBook.best_bid b = Some k →
     0 < k ∧ ∃ p o, resting h b p o ∧ Order.side_ o = BUY
                    ∧ Order.price_ o = k
                    ∧ p ∈ OrderBook.get_orders_at_level k BUY b)
  ∧ (∀ k, OrderBook.best_ask b = Some k →
       0 < k ∧ ∃ p o, resting h b p o ∧ Order.side_ o = SELL
                      ∧ Order.price_ o = k
                      ∧ p ∈ OrderBook.get_orders_at_level k SELL b).
Proof.
  intros Hr. pose proof (reachable_wf _ _ Hr) as Hwf.
  assert (Hside : ∀ s k,
            fst <$> head (OrderBook.side_levels s b) = Some k →
            0 < k ∧ ∃ p o, resting h b p o ∧ Order.side_ o = s
                           ∧ Order.price_ o = k
                           ∧ p ∈ OrderBook.get_orders_at_level k s b).
  { intros s k [l Hkl]%best_price_level.
    destruct (level_has_order _ _ _ _ _ Hr Hkl) as (Hne & _ & Hpos & Hall).
    split; [done|].
    destruct (PriceLevel.orders_ l) as [|p ps] eqn:Hq; [done|].
    destruct (Hall p) as (o & Hrest & Hs & Hp); [left|].
    exists p, o. split_and!; [done..|].
    unfold OrderBook.get_orders_at_level.
    destruct (wf_side _ _ _ Hwf s) as (Hsort%keys_sorted_NoDup & _).
    rewrite (find_elem _ _ _ Hsort Hkl).
    unfold PriceLevel.get_all_orders. rewrite Hq. left. }
  split; intros k Hk; [apply (Hside BUY)|apply (Hside SELL)]; done.
Qed.

(** The best prices of a book with two levels on each side. *)
Lemma best_prices_quoted_witness :
  ∃ h b,
    run_checked valid_opb 4 initial
      [ Submit 1001 "AAPL" BUY LIMIT 100000 990000 GTC;
        Submit 1002 "AAPL" BUY LIMIT 50000 1000000 GTC;
        Submit 2001 "AAPL" SELL LIMIT 80000 1030000 GTC;
        Submit 2002 "AAPL" SELL LIMIT 40000 1020000 GTC ]
    = Some (h, b)
    ∧ OrderBook.best_bid b = Some 1000000
    ∧ OrderBook.best_ask b = Some 1020000
    ∧ (∃ p o, resting h b p o ∧ Order.side_ o = BUY
              ∧ Order.price_ o = 1000000
              ∧ p ∈ OrderBook.get_orders_at_level 1000000 BUY b)
    ∧ (∃ p o, resting h b p o ∧ Order.side_ o = SELL
              ∧ Order.price_ o = 1020000
              ∧ p ∈ OrderBook.get_orders_at_level 1020000 SELL b).
Proof.
  run_to_state Hrun. split; [reflexivity|]. split; [reflexivity|].
  destruct (best_prices_quoted _ _ (run_checked_reachable _ _ _ _ Hrun))
    as [Hb Ha].
  split; [exact (proj2 (Hb 1000000 eq_refl))
         |exact (proj2 (Ha 1020000 eq_refl))].
Defined.

(** In a run of valid operations with no FOK order, where every modify that
    gives a quantity gives more than the order has executed, the book is
    never crossed: every bid price is below every ask price, and so the
    best bid is below the best ask whenever both exist. *)
Theorem no_fok_never_crossed (h : heap) (b : OrderBook.t) :
  reachable valid_op_strict h b →
  (∀ kb ka, kb ∈ OrderBook.get_bid_prices b →
            ka ∈ OrderBook.get_ask_prices b → kb < ka)
  ∧ (∀ bb ba, OrderBook.best_bid b = Some bb →
              OrderBook.best_ask b = Some ba → bb < ba).
Proof.
  intros Hr. pose proof (reachable_strict_uncrossed _ _ Hr) as Hunc.
  split; [exact Hunc|].
  intros bb ba Hbb Hba. apply Hunc.
  - unfold OrderBook.best_bid in Hbb.
    destruct (OrderBook.bid_levels_ b) as [|[k l] lv]; [done|].
    injection Hbb as <-. left.
  - unfold OrderBook.best_ask in Hba.
    destruct (OrderBook.ask_levels_ b) as [|[k l] lv]; [done|].
    injection Hba as <-. left.
Qed.

(** A book after crossing limit orders, an IOC order, a market order and a
    modify to a new price. *)
Lemma no_fok_never_crossed_witness :
  ∃ h b,
    run_checked valid_op_strictb 8 initial
      [ Submit 1001 "AAPL" BUY LIMIT 100000 1000000 GTC;
        Submit 2001 "AAPL" SELL LIMIT 80000 1020000 GTC;
        Submit 2002 "AAPL" SELL LIMIT 50000 1040000 GTC;
        Submit 1002 "AAPL" BUY LIMIT 100000 1030000 GTC;
        Submit 2003 "AAPL" SELL LIMIT 30000 1010000 IOC;
        Submit 1003 "AAPL" BUY MARKET 10000 0 GTC;
        Modify 1001 (Some 1030000) None ]
    = Some (h, b)
    ∧ OrderBook.get_bid_prices b = [1030000]
    ∧ OrderBook.get_ask_prices b = [1040000]
    ∧ (∀ bb ba, OrderBook.best_bid b = Some bb →
                OrderBook.best_ask b = Some ba → bb < ba).
Proof.
  run_to_state Hrun. split; [reflexivity|]. split; [reflexivity|].
  exact (proj2 (no_fok_never_crossed _ _
                  (run_checked_strict_reachable _ _ _ _ Hrun))).
Defined.

(** In such a run, when both sides hold orders and the best ask is a price
    that an [int64_t] holds, [spread] is the best ask less the best bid and
    is positive.  When the sum of the two best prices is such a price too,
    [midpoint] is that sum halved, at least the best bid and below the best
    ask; when it is not, the sum wraps around and [midpoint] is
    negative. *)
Theorem spread_midpoint_bounds (h : heap) (b : OrderBook.t)
    (bb ba : Price) :
  reachable valid_op_strict h b →
  OrderBook.best_bid b = Some bb →
  OrderBook.best_ask b = Some ba →
  ba ≤ MAX_VALUE →
  OrderBook.spread b = Some (ba - bb)
  ∧ 0 < ba - bb
  ∧ (bb + ba ≤ MAX_VALUE →
     OrderBook.midpoint b = Some ((bb + ba) `quot` 2)
     ∧ bb ≤ (bb + ba) `quot` 2 < ba)
  ∧ (MAX_VALUE < bb + ba →
     ∃ m, OrderBook.midpoint b = Some m ∧ m < 0).
Proof.
  intros Hr Hbb Hba Hmax.
  pose proof (reachable_strict_uncrossed _ _ Hr) as Hunc.
  pose proof (reachable_strict_valid _ _ Hr) as Hv.
  destruct (best_price_level BUY _ _ Hbb) as [lb Hlb].
  destruct (best_price_level SELL _ _ Hba) as [la Hla].
  destruct (level_has_order _ _ _ _ _ Hv Hlb) as (_ & _ & Hpb & _).
  destruct (level_has_order _ _ _ _ _ Hv Hla) as (_ & _ & Hpa & _).
  assert (bb < ba).
  { apply Hunc.
    - change bb with (bb, lb).1. by apply list_elem_of_fmap_2.
    - change ba with (ba, la).1. by apply list_elem_of_fmap_2. }
  unfold OrderBook.spread, OrderBook.midpoint. rewrite Hbb, Hba.
  unfold MAX_VALUE in *.
  split_and!.
  - rewrite wrap64_small; [done|unfold int64_min, int64_max in *; lia].
  - lia.
  - intros Hsum.
    rewrite wrap64_small by (unfold int64_min, int64_max in *; lia).
    split_and!; [done| |].
    + apply Z.quot_le_lower_bound; lia.
    + apply Z.quot_lt_upper_bound; lia.
  - intros Hsum. eexists. split; [done|].
    rewrite wrap64_over by (unfold int64_max in *; lia).
    unfold int64_max in *.
    change (2 ^ 63) with 9223372036854775808 in *.
    change (2 ^ 64) with 18446744073709551616.
    pose proof (Z.quot_le_mono (bb + ba - 18446744073709551616) (-2) 2
                  ltac:(lia) ltac:(lia)) as Hle.
    change ((-2) `quot` 2) with (-1) in Hle. lia.
Qed.

(** Bid 100.01 and ask 100.04: spread 0.03, midpoint 100.025.  Bid 5e18 and
    ask 6e18, both prices that an [int64_t] holds: the spread is 1e18 and
    the midpoint is negative. *)
Lemma spread_midpoint_bounds_witness :
  (∃ h b,
     run_checked valid_op_strictb 2 initial
       [ Submit 1001 "AAPL" BUY LIMIT 100000 1000100 GTC;
         Submit 2001 "AAPL" SELL LIMIT 80000 1000400 GTC ]
     = Some (h, b)
     ∧ OrderBook.spread b = Some 300
     ∧ OrderBook.midpoint b = Some 1000250
     ∧ 1000100 ≤ 1000250 < 1000400)
  ∧ (∃ h b,
       run_checked valid_op_strictb 2 initial
         [ Submit 1001 "AAPL" BUY LIMIT 100000 5000000000000000000 GTC;
           Submit 2001 "AAPL" SELL LIMIT 80000 6000000000000000000 GTC ]
       = Some (h, b)
       ∧ OrderBook.spread b = Some 1000000000000000000
       ∧ ∃ m, OrderBook.midpoint b = Some m ∧ m < 0).
Proof.
  split.
  - run_to_state Hrun.
    destruct (spread_midpoint_bounds _ _ 1000100 1000400
                (run_checked_strict_reachable _ _ _ _ Hrun) eq_refl eq_refl)
      as (Hs & _ & Hm & _); [vm_compute; discriminate|].
    destruct Hm as [Hm Hb]; [vm_compute; discriminate|].
    split; [exact Hs|]. split; [exact Hm|exact Hb].
  - run_to_state Hrun.
    destruct (spread_midpoint_bounds _ _ 5000000000000000000
                6000000000000000000
                (run_checked_strict_reachable _ _ _ _ Hrun) eq_refl eq_refl)
      as (Hs & _ & _ & Hm); [vm_compute; discriminate|].
    split; [exact Hs|]. apply Hm. reflexivity.
Defined.
(** A valid GTC limit order whose price does not reach the best price of
    the other side trades nothing and is added to the book: [add_order]
    returns no match, whatever the fuel; the order is ACCEPTED with nothing
    executed; [get_order] of its id gives it; it is the last in the queue
    of the level at its price, behind the orders that were there; the
    level's quantity and the side's total go up by the order's quantity;
    the other levels, the other side and the other ids are as before. *)
Theorem limit_order_rests (fuel : nat) (h : heap) (b : OrderBook.t)
    (id : OrderId) (symbol : string) (s : Side) (q : Quantity) (k : Price) :
  reachable valid_op h b →
  valid_op h b (Submit id symbol s LIMIT q k GTC) →
  match s with
  | BUY => ∀ ba, OrderBook.best_ask b = Some ba → k < ba
  | SELL => ∀ bb, OrderBook.best_bid b = Some bb → bb < k
  end →
  let p := length h in
  let h' := h ++ [Order.mk id symbol s LIMIT q 0 k GTC ACCEPTED] in
  ∃ b',
    OrderBook.add_order fuel
      (h ++ [Order.make id symbol s LIMIT q k GTC]) b p
    = Some ([], h', b')
    ∧ run_op fuel (h, b) (Submit id symbol s LIMIT q k GTC) = Some (h', b')
    ∧ OrderBook.get_order id b' = Some p
    ∧ OrderBook.get_orders_at_level k s b'
      = OrderBook.get_orders_at_level k s b ++ [p]
    ∧ OrderBook.get_quantity_at_level k s b'
      = OrderBook.get_quantity_at_level k s b + q
    ∧ OrderBook.side_total s b' = OrderBook.side_total s b + q
    ∧ (∀ k', k' ≠ k →
         PriceMap.find k' (OrderBook.side_levels s b')
         = PriceMap.find k' (OrderBook.side_levels s b))
    ∧ OrderBook.side_levels (OrderBook.opposite s) b'
      = OrderBook.side_levels (OrderBook.opposite s) b
    ∧ OrderBook.side_total (OrderBook.opposite s) b'
      = OrderBook.side_total (OrderBook.opposite s) b
    ∧ (∀ i, i ≠ id → OrderBook.get_order i b' = OrderBook.get_order i b).
Proof.
  intros Hr (Hid & _ & Hq & _) Hbest p h'.
  pose proof (past_limit_best _ _ _ Hbest) as Hpast.
  pose proof (reachable_wf _ _ Hr) as Hwf.
  destruct (submit_rests_form _ fuel h b id symbol s q k Hwf Hid
              ltac:(lia) Hpast)
    as (level & m1 & m2 & Hcase & Hk & Hpr & Hadd).
  eexists. split; [exact Hadd|].
  split; [unfold run_op, alloc; by rewrite Hadd|].
  unfold OrderBook.get_order, OrderBook.get_orders_at_level,
    OrderBook.get_quantity_at_level.
  rewrite orders_set_orders, !side_levels_set_orders,
    !side_total_set_orders, side_levels_set_side, side_total_set_side,
    side_levels_set_side_opp, side_total_set_side_opp.
  rewrite find_middle by done. cbn.
  split; [apply lookup_insert_eq|].
  destruct Hcase as [[Hfind Hlv]|(Hfind & -> & Hlv)]; rewrite Hfind, Hlv.
  - split_and!; try done.
    + intros k' Hne. by rewrite !find_other.
    + intros i Hne. by apply lookup_insert_ne.
  - split_and!; try done.
    + intros k' Hne. by rewrite find_other.
    + intros i Hne. by apply lookup_insert_ne.
Qed.

(** A second buy order at 100 goes behind the first; the ask at 102 is not
    reached. *)
Lemma limit_order_rests_witness :
  ∃ h b,
    run_checked valid_opb 2 initial
      [ Submit 1001 "AAPL" BUY LIMIT 100000 1000000 GTC;
        Submit 2001 "AAPL" SELL LIMIT 80000 1020000 GTC ]
    = Some (h, b)
    ∧ ∃ b',
        run_op 0 (h, b) (Submit 1002 "AAPL" BUY LIMIT 50000 1000000 GTC)
        = Some (h ++ [Order.mk 1002 "AAPL" BUY LIMIT 50000 0 1000000 GTC
                        ACCEPTED], b')
        ∧ OrderBook.get_order 1002 b' = Some 2%nat
        ∧ OrderBook.get_orders_at_level 1000000 BUY b' = [0%nat; 2%nat]
        ∧ OrderBook.get_quantity_at_level 1000000 BUY b' = 150000
        ∧ OrderBook.side_total BUY b' = 150000.
Proof.
  run_to_state Hrun.
  pose proof (run_checked_reachable _ _ _ _ Hrun) as Hr.
  match goal with
  | |- ∃ b', run_op _ (?h, ?b) _ = _ ∧ _ =>
      destruct (limit_order_rests 0 h b 1002 "AAPL" BUY 50000 1000000 Hr)
        as (b' & _ & Hop & Hidx & Hq & Hl & Ht & _)
  end.
  - apply valid_opb_sound. vm_compute; reflexivity.
  - intros ba [= <-]. lia.
  - exists b'. split; [exact Hop|]. split; [exact Hidx|].
    split; [exact Hq|]. split; [exact Hl|exact Ht].
Defined.

(** Submitting such an order under an id that the index does not hold and
    cancelling it right away gives the book back exactly as it was; the
    order is left CANCELLED, with nothing executed. *)
Theorem submit_cancel_restores (fuel : nat) (h : heap) (b : OrderBook.t)
    (id : OrderId) (symbol : string) (s : Side) (q : Quantity) (k : Price) :
  reachable valid_op h b →
  valid_op h b (Submit id symbol s LIMIT q k GTC) →
  OrderBook.get_order id b = None →
  match s with
  | BUY => ∀ ba, OrderBook.best_ask b = Some ba → k < ba
  | SELL => ∀ bb, OrderBook.best_bid b = Some bb → bb < k
  end →
  run_ops fuel (h, b) [Submit id symbol s LIMIT q k GTC; Cancel id]
  = Some (h ++ [Order.mk id symbol s LIMIT q 0 k GTC CANCELLED], b).
Proof.
  intros Hr (Hid & Hfresh & Hq & _) Hidx Hbest.
  pose proof (past_limit_best _ _ _ Hbest) as Hpast.
  pose proof (reachable_wf _ _ Hr) as Hwf.
  destruct (submit_rests_form _ fuel h b id symbol s q k Hwf Hid
              ltac:(lia) Hpast)
    as (level & m1 & m2 & Hcase & Hk & Hpr & Hadd).
  set (o' := Order.mk id symbol s LIMIT q 0 k GTC ACCEPTED) in *.
  assert (Hnew : length h ∉ book_ptrs b)
    by (by destruct (wf_alloc _ h b o' Hwf) as (_ & ? & _)).
  assert (Hin : ∀ p, OrderBook.side_levels s b = m1 ++ (k, level) :: m2 →
            p ∈ PriceLevel.orders_ level → p ∈ book_ptrs b).
  { intros p Hlv Hp. apply elem_of_book_ptrs. exists s.
    apply elem_of_level_ptrs. exists k, level. split; [|done].
    rewrite Hlv. set_solver. }
  match type of Hadd with
  | _ = Some (_, _, ?b1) =>
      assert (Hop : run_op fuel (h, b) (Submit id symbol s LIMIT q k GTC)
                    = Some (h ++ [o'], b1))
        by (unfold run_op, alloc; by rewrite Hadd)
  end.
  cbn [run_ops]. rewrite Hop. cbn [mbind option_bind]. unfold run_op.
  pose proof (cancel_rested h b o' level m1 m2) as Hc.
  unfold o' in Hc. cbn in Hc. fold o' in Hc.
  unfold Order.remaining_quantity in Hc. cbn in Hc.
  rewrite Z.sub_0_r in Hc. rewrite Hc; [done| |done|done| | |done].
  - destruct Hcase as [[Hfind Hlv]|(Hfind & -> & Hlv)]; [left|right; done].
    split; [done|].
    pose proof (reachable_nonempty _ _ Hr s) as Hne.
    rewrite Forall_forall in Hne. apply (Hne (k, level)).
    rewrite Hlv. set_solver.
  - destruct Hcase as [[Hfind Hlv]|(Hfind & -> & Hlv)];
      [|by intros ?%elem_of_nil].
    intros Hp. by apply Hnew, Hin.
  - destruct Hcase as [[Hfind Hlv]|(Hfind & -> & Hlv)]; [|done].
    destruct (PriceLevel.order_map_ level !! id) as [p'|] eqn:Hmap; [|done].
    exfalso.
    destruct (wf_side _ _ _ Hwf s) as (_ & _ & Hall).
    rewrite Forall_forall in Hall.
    destruct (Hall (k, level)) as (_ & _ & _ & Hm);
      [rewrite Hlv; set_solver|].
    destruct (Hm _ _ Hmap) as (Hp' & o2 & Ho2 & Hid2). cbn in Hp'.
    apply Hfresh. exists p', o2. split; [split; [by apply Hin|done]|done].
Qed.

(** A sell order at 103 is added behind the ask at 102 and cancelled. *)
Lemma submit_cancel_restores_witness :
  ∃ h b,
    run_checked valid_opb 2 initial
      [ Submit 1001 "AAPL" BUY LIMIT 100000 1000000 GTC;
        Submit 2001 "AAPL" SELL LIMIT 80000 1020000 GTC ]
    = Some (h, b)
    ∧ run_ops 0 (h, b)
        [Submit 2002 "AAPL" SELL LIMIT 50000 1030000 GTC; Cancel 2002]
      = Some (h ++ [Order.mk 2002 "AAPL" SELL LIMIT 50000 0 1030000 GTC
                      CANCELLED], b).
Proof.
  run_to_state Hrun.
  apply submit_cancel_restores.
  - exact (run_checked_reachable _ _ _ _ Hrun).
  - apply valid_opb_sound. vm_compute; reflexivity.
  - reflexivity.
  - intros bb [= <-]. lia.
Defined.

(** A modify that gives no price and a quantity between what the order has
    executed and its quantity keeps the resting order where it is: the
    queue of its level is the same list, so the order keeps its time
    priority; [get_order] still gives the same object, now with the new
    quantity and status REPLACED, and with what it had executed; the
    level's quantity and the side's total go down by the decrease; no match
    is made. *)
Theorem modify_keeps_priority (fuel : nat) (h : heap) (b : OrderBook.t)
    (p : ptr) (o : Order.t) (q : Quantity) :
  reachable valid_op h b →
  resting h b p o →
  Order.executed_quantity_ o ≤ q →
  q ≤ Order.quantity_ o →
  let id := Order.id_ o in
  let s := Order.side_ o in
  let k := Order.price_ o in
  let o' := Order.mk id (Order.symbol_ o) s (Order.type_ o) q
              (Order.executed_quantity_ o) k (Order.time_in_force_ o)
              REPLACED in
  ∃ b',
    OrderBook.modify_order fuel h b id None (Some q)
    = Some ([], <[p := o']> h, b')
    ∧ OrderBook.get_order id b' = Some p
    ∧ OrderBook.get_orders_at_level k s b'
      = OrderBook.get_orders_at_level k s b
    ∧ OrderBook.get_quantity_at_level k s b'
      = OrderBook.get_quantity_at_level k s b - (Order.quantity_ o - q)
    ∧ OrderBook.side_total s b'
      = OrderBook.side_total s b - (Order.quantity_ o - q)
    ∧ (∀ k', k' ≠ k →
         PriceMap.find k' (OrderBook.side_levels s b')
         = PriceMap.find k' (OrderBook.side_levels s b))
    ∧ OrderBook.side_levels (OrderBook.opposite s) b'
      = OrderBook.side_levels (OrderBook.opposite s) b
    ∧ OrderBook.side_total (OrderBook.opposite s) b'
      = OrderBook.side_total (OrderBook.opposite s) b.
Proof.
  intros Hr [Hp Ho] Hge Hle id s k o'.
  pose proof (reachable_wf _ _ Hr) as Hwf.
  destruct (wf_resting _ _ _ _ Hwf Hp) as (o0 & l0 & Ho0 & _ & _ & Hok).
  assert (o0 = o) as -> by congruence.
  destruct Hok as (o0 & Ho0' & _ & _ & _ & Hidx & _).
  assert (o0 = o) as -> by congruence.
  destruct (modify_order_in_place _ fuel h b id p q Hwf Hidx Hp)
    as (o0 & level & m1 & m2 & Ho1 & Hlv & Hin & _ & Hres).
  assert (o0 = o) as -> by congruence.
  fold s k in Hlv, Hres.
  destruct (wf_side _ _ _ Hwf s) as (Hsort%keys_sorted_NoDup & _).
  assert (Hk : k ∉ m1.*1).
  { rewrite Hlv, fmap_app, fmap_cons in Hsort.
    apply NoDup_app in Hsort as (_ & Hdisj & _).
    intros Hk. apply (Hdisj _ Hk). left. }
  eexists. split; [exact (Hres Hge Hle)|].
  unfold OrderBook.get_order, OrderBook.get_orders_at_level,
    OrderBook.get_quantity_at_level.
  rewrite orders_set_side, side_levels_set_side, side_total_set_side,
    side_levels_set_side_opp, side_total_set_side_opp, Hlv.
  rewrite !find_middle by done. cbn.
  unfold Order.remaining_quantity. cbn.
  split_and!; [done|done|lia|lia| |done|done].
  intros k' Hne. by rewrite !find_other.
Qed.

(** The first of two buy orders at 100 has executed 4 of 10 and is
    modified to 6: it stays at the head of the queue. *)
Lemma modify_keeps_priority_witness :
  let o := Order.mk 1001 "AAPL" BUY LIMIT 100000 40000 1000000 GTC
             PARTIALLY_FILLED in
  ∃ h b,
    run_checked valid_opb 3 initial
      [ Submit 1001 "AAPL" BUY LIMIT 100000 1000000 GTC;
        Submit 1002 "AAPL" BUY LIMIT 50000 1000000 GTC;
        Submit 2001 "AAPL" SELL LIMIT 40000 1000000 GTC ]
    = Some (h, b)
    ∧ ∃ b',
        OrderBook.modify_order 0 h b 1001 None (Some 60000)
        = Some ([], <[0%nat := Order.mk 1001 "AAPL" BUY LIMIT 60000 40000
                                 1000000 GTC REPLACED]> h, b')
        ∧ OrderBook.get_orders_at_level 1000000 BUY b' = [0%nat; 1%nat]
        ∧ OrderBook.get_quantity_at_level 1000000 BUY b' = 70000
        ∧ OrderBook.side_total BUY b' = 70000.
Proof.
  intros o. run_to_state Hrun.
  pose proof (run_checked_reachable _ _ _ _ Hrun) as Hr.
  match goal with
  | |- ∃ b', OrderBook.modify_order _ ?h ?b _ _ _ = _ ∧ _ =>
      destruct (modify_keeps_priority 0 h b 0%nat o 60000 Hr)
        as (b' & Hm & _ & Hq & Hl & Ht & _)
  end.
  - split; [vm_compute; left | vm_compute; reflexivity].
  - cbn. lia.
  - cbn. lia.
  - exists b'. split; [exact Hm|]. split; [exact Hq|].
    split; [exact Hl|exact Ht].
Defined.

(** A modify of a resting order that gives a new price, or a quantity above
    the order's quantity, is a cancel followed by the submit of a new order
    with the same id, symbol, side, type and time in force, the new price
    (or the old one), and the new quantity or else the old order's whole
    quantity: both give the same result, the same heap and the same
    book. *)
Theorem modify_is_cancel_submit (fuel : nat) (h : heap) (b : OrderBook.t)
    (p : ptr) (o : Order.t) (np : option Price) (nq : option Quantity) :
  reachable valid_op h b →
  resting h b p o →
  (is_Some np ∨ ∃ q, nq = Some q ∧ Order.quantity_ o < q) →
  run_op fuel (h, b) (Modify (Order.id_ o) np nq)
  = run_ops fuel (h, b)
      [ Cancel (Order.id_ o);
        Submit (Order.id_ o) (Order.symbol_ o) (Order.side_ o)
          (Order.type_ o) (default (Order.quantity_ o) nq)
          (default (Order.price_ o) np) (Order.time_in_force_ o) ].
Proof.
  intros Hr [Hp Ho] Hkind.
  pose proof (reachable_wf _ _ Hr) as Hwf.
  destruct (wf_resting _ _ _ _ Hwf Hp) as (o0 & l0 & Ho0 & _ & _ & Hok).
  assert (o0 = o) as -> by congruence.
  destruct Hok as (o0 & Ho0' & _ & _ & _ & Hidx & _).
  assert (o0 = o) as -> by congruence.
  destruct (cancel_order_resting _ _ _ _ _ Hwf Hidx Hp)
    as (o0 & level & m1 & m2 & q1 & q2 & Ho1 & _ & _ & _ & _ & _ & _ & _
        & Hc).
  assert (o0 = o) as -> by congruence.
  set (h1 := <[p := Order.cancel o]> h) in *.
  match type of Hc with
  | _ = Some (_, _, ?b0) => set (b1 := b0) in *
  end.
  assert (Hcancel : run_op fuel (h, b) (Cancel (Order.id_ o))
                    = Some (h1, b1))
    by (unfold run_op; by rewrite Hc).
  assert (Hnot : match np, nq with
                 | None, Some q => bool_decide (q ≤ Order.quantity_ o)
                 | _, _ => false
                 end = false).
  { destruct np as [k|], nq as [q|]; try done.
    destruct Hkind as [[? [=]]|(q' & [= <-] & Hq)].
    apply bool_decide_eq_false. lia. }
  assert (Hmod : OrderBook.modify_order fuel h b (Order.id_ o) np nq
                 = OrderBook.cancel_and_replace fuel h b (Order.id_ o) p
                     np nq).
  { unfold OrderBook.modify_order. rewrite Hidx, Ho.
    cbn [mbind option_bind]. rewrite Hnot.
    destruct np, nq; try done.
    by destruct Hkind as [[? [=]]|(q' & [=] & _)]. }
  cbn [run_ops]. rewrite Hcancel. cbn [mbind option_bind].
  unfold run_op. rewrite Hmod. unfold OrderBook.cancel_and_replace.
  rewrite Hc. cbn [mbind option_bind negb].
  assert (Hh1 : h1 !! p = Some (Order.cancel o))
    by (apply list_lookup_insert_eq; by eapply lookup_lt_Some).
  rewrite Hh1. cbn [mbind option_bind].
  destruct (cancel_fields o) as (_ & -> & -> & -> & -> & _ & -> & ->).
  unfold alloc.
  by destruct (OrderBook.add_order fuel _ _ _) as [[[ms h2] b2]|].
Qed.

(** A buy order at 100 that has executed 4 of 10 is moved to 101, where it
    trades with the ask at 101. *)
Lemma modify_is_cancel_submit_witness :
  let o := Order.mk 1001 "AAPL" BUY LIMIT 100000 40000 1000000 GTC
             PARTIALLY_FILLED in
  ∃ h b,
    run_checked valid_opb 3 initial
      [ Submit 1001 "AAPL" BUY LIMIT 100000 1000000 GTC;
        Submit 2001 "AAPL" SELL LIMIT 40000 1000000 GTC;
        Submit 2002 "AAPL" SELL LIMIT 30000 1010000 GTC ]
    = Some (h, b)
    ∧ resting h b 0%nat o
    ∧ run_op 5 (h, b) (Modify 1001 (Some 1010000) None)
      = run_ops 5 (h, b)
          [ Cancel 1001;
            Submit 1001 "AAPL" BUY LIMIT 100000 1010000 GTC ].
Proof.
  intros o. run_to_state Hrun.
  pose proof (run_checked_reachable _ _ _ _ Hrun) as Hr.
  match goal with
  | |- resting ?h ?b _ _ ∧ _ => assert (Hrest : resting h b 0%nat o)
  end.
  { split; [vm_compute; left | vm_compute; reflexivity]. }
  split; [exact Hrest|].
  apply (modify_is_cancel_submit 5 _ _ 0%nat o (Some 1010000) None Hr Hrest).
  left. by eexists.
Defined.

(** Executing an order in two steps is executing the sum in one: for an
    order that has not executed more than its quantity and quantities that
    are not negative, [execute b] after [execute a] gives the same order,
    status included, as [execute (a + b)]. *)
Theorem execute_twice (o : Order.t) (a b : Quantity) :
  Order.executed_quantity_ o ≤ Order.quantity_ o →
  0 ≤ a → 0 ≤ b →
  Order.execute b (Order.execute a o) = Order.execute (a + b) o.
Proof.
  destruct o as [i sy sd ty q e p tif st]. cbn. intros He Ha Hb.
  unfold Order.execute, Order.remaining_quantity, Order.set_status,
    Order.set_executed_quantity, ZERO; cbn.
  repeat (case_decide; cbn in * ); try lia; f_equal; lia.
Qed.

(** Executing 3 and then 9 of an order for 10, as against 12 at once. *)
Lemma execute_twice_witness :
  let o := Order.mk 1001 "AAPL" BUY LIMIT 100000 0 1000000 GTC ACCEPTED in
  Order.execute 90000 (Order.execute 30000 o) = Order.execute 120000 o
  ∧ Order.execute 120000 o
    = Order.mk 1001 "AAPL" BUY LIMIT 100000 100000 1000000 GTC FILLED.
Proof.
  intros o. split; [|reflexivity].
  apply (execute_twice o 30000 90000); cbn; lia.
Defined.

(** An order that has not executed more than its quantity and is not yet
    FILLED is filled by [execute] exactly when the quantity to execute is at
    least what remains. *)
Theorem execute_fills_iff (o : Order.t) (q : Quantity) :
  Order.executed_quantity_ o ≤ Order.quantity_ o →
  Order.status_ o ≠ FILLED →
  Order.is_filled (Order.execute q o) = true
  ↔ Order.remaining_quantity o ≤ q.
Proof.
  intros He Hst.
  destruct (execute_spec q o) as (Hq & Hrem & _ & Hfilled & _).
  unfold Order.is_filled. rewrite orb_true_iff, !bool_decide_eq_true.
  unfold Order.remaining_quantity in *. split.
  - intros [Heq|Hf]; [lia|]. destruct (Hfilled Hf); [done|lia].
  - intros Hle. left. lia.
Qed.

(** An order for 10 that has executed 4: executing 6 fills it. *)
Lemma execute_fills_iff_witness :
  let o := Order.mk 1001 "AAPL" BUY LIMIT 100000 40000 1000000 GTC
             PARTIALLY_FILLED in
  Order.is_filled (Order.execute 60000 o) = true
  ↔ Order.remaining_quantity o ≤ 60000.
Proof.
  intros o. apply (execute_fills_iff o 60000); [cbn; lia|done].
Defined.

(** A price level takes an order only at its own price.  An order at the
    level's price that the level does not hold yet is appended to the queue
    and indexed under its id, and the level's quantity goes up by what
    remains of the order; [remove_order] of the id then gives back the level
    as it was. *)
Theorem level_add_remove (h : heap) (l : PriceLevel.t) (order : ptr)
    (o : Order.t) :
  h !! order = Some o →
  (Order.price_ o ≠ PriceLevel.price_ l → PriceLevel.add_order h order l = l)
  ∧ (Order.price_ o = PriceLevel.price_ l →
     (order ∉ PriceLevel.orders_ l) →
     PriceLevel.order_map_ l !! Order.id_ o = None →
     let l' := PriceLevel.add_order h order l in
     PriceLevel.get_order (Order.id_ o) l' = Some order
     ∧ PriceLevel.get_all_orders l' = PriceLevel.get_all_orders l ++ [order]
     ∧ PriceLevel.get_first_order l'
       = Some (default order (PriceLevel.get_first_order l))
     ∧ PriceLevel.order_count l' = S (PriceLevel.order_count l)
     ∧ PriceLevel.total_quantity_ l'
       = PriceLevel.total_quantity_ l + Order.remaining_quantity o
     ∧ PriceLevel.remove_order h (Order.id_ o) l' = Some (true, l)).
Proof.
  intros Ho. unfold PriceLevel.add_order. rewrite Ho. split.
  - intros Hne. by rewrite decide_True.
  - intros Heq Hnin Hmap. rewrite decide_False by (intros Hne; by apply Hne).
    unfold PriceLevel.get_order, PriceLevel.get_all_orders,
      PriceLevel.get_first_order, PriceLevel.order_count,
      PriceLevel.remove_order.
    cbn. rewrite lookup_insert_eq, Ho. cbn.
    split_and!; [done|done| | |done|].
    + by destruct (PriceLevel.orders_ l).
    + rewrite length_app. cbn. lia.
    + rewrite (list_erase_middle order _ []) by done.
      rewrite app_nil_r, delete_insert_eq, delete_id by done.
      replace (PriceLevel.total_quantity_ l + Order.remaining_quantity o
               - Order.remaining_quantity o)
        with (PriceLevel.total_quantity_ l) by lia.
      by destruct l.
Qed.

(** A second order at 100 is added to a level that holds one, and removed
    again; an order at 101 is not taken. *)
Lemma level_add_remove_witness :
  let h := [ Order.mk 1001 "AAPL" BUY LIMIT 100000 0 1000000 GTC ACCEPTED;
             Order.mk 1002 "AAPL" BUY LIMIT 50000 20000 1000000 GTC
               PARTIALLY_FILLED;
             Order.mk 1003 "AAPL" BUY LIMIT 50000 0 1010000 GTC ACCEPTED ] in
  let l := PriceLevel.mk 1000000 100000 [0%nat] {[ 1001%N := 0%nat ]} in
  PriceLevel.add_order h 2 l = l
  ∧ PriceLevel.get_all_orders (PriceLevel.add_order h 1 l) = [0%nat; 1%nat]
  ∧ PriceLevel.total_quantity_ (PriceLevel.add_order h 1 l) = 130000
  ∧ PriceLevel.remove_order h 1002 (PriceLevel.add_order h 1 l)
    = Some (true, l).
Proof.
  intros h l.
  split.
  - refine (proj1 (level_add_remove h l 2 _ eq_refl) _). cbn. lia.
  - destruct (proj2 (level_add_remove h l 1 _ eq_refl))
      as (_ & Hq & _ & _ & Ht & Hr); [reflexivity| |reflexivity|].
    + cbn. by intros [= ]%list_elem_of_singleton.
    + split; [exact Hq|]. split; [exact Ht|exact Hr].
Defined.


(** Every match that a valid submit reports names the submitted order as
    taker and an order that was resting on the opposite side as maker, has
    a positive quantity and is priced at the maker's price; for a LIMIT
    order that price is never worse than the limit (at most the limit for
    a buy, at least the limit for a sell). *)
Theorem matches_respect_limit (fuel : nat) (h : heap) (b : OrderBook.t)
    (id : OrderId) (symbol : string) (s : Side) (ty : OrderType)
    (q : Quantity) (k : Price) (tif : TimeInForce) ms h' b' :
  reachable valid_op h b →
  valid_op h b (Submit id symbol s ty q k tif) →
  OrderBook.add_order fuel (h ++ [Order.make id symbol s ty q k tif]) b
    (length h) = Some (ms, h', b') →
  Forall (λ m,
    OrderBook.taker_order_id m = id
    ∧ 0 < OrderBook.match_quantity m
    ∧ (ty = LIMIT → match s with
                    | BUY => OrderBook.match_price m ≤ k
                    | SELL => k ≤ OrderBook.match_price m
                    end)
    ∧ ∃ p mo, resting h b p mo
              ∧ Order.side_ mo = OrderBook.opposite s
              ∧ Order.id_ mo = OrderBook.maker_order_id m
              ∧ Order.price_ mo = OrderBook.match_price m) ms.
Proof.
  intros Hr (_ & _ & Hq & _) Hadd.
  pose proof (reachable_wf _ _ Hr) as Hwf.
  set (o := Order.make id symbol s ty q k tif) in *.
  destruct (wf_alloc _ h b o Hwf) as (Hwf1 & Hnew & Ho).
  destruct (add_order_matches _ exec_stable_True _ _ _ _ _ _ _ _ Hadd Hwf1
              Ho Hnew eq_refl ltac:(cbn; lia)) as (Hms & _).
  cbn in Hms. eapply Forall_impl; [exact Hms|].
  intros m (Htk & Hpos & Hlim & p & mo & Hp & Hmo & Hmk & Hpr).
  split; [done|]. split; [done|]. split.
  - intros Hty. specialize (Hlim Hty). unfold OrderBook.past_limit in Hlim.
    destruct s; apply bool_decide_eq_false in Hlim; lia.
  - destruct (maker_resting _ _ _ _ _ _ _ Hwf Hp Hmo) as [Hrest Hside].
    by exists p, mo.
Qed.

(** A sell for 150 at 99.50 against bids at 101 (100), 100 (100) and 99
    (100): two matches, at 101 and at 100, none at 99. *)
Lemma matches_respect_limit_witness :
  ∃ h b,
    run_checked valid_opb 3 initial
      [ Submit 1001 "AAPL" BUY LIMIT 100000 1010000 GTC;
        Submit 1002 "AAPL" BUY LIMIT 100000 1000000 GTC;
        Submit 1003 "AAPL" BUY LIMIT 100000 990000 GTC ]
    = Some (h, b)
    ∧ ∃ m1 m2 h' b',
        OrderBook.add_order 5 (h ++ [Order.make 2001 "AAPL" SELL LIMIT
                                       150000 995000 GTC]) b (length h)
        = Some ([m1; m2], h', b')
        ∧ (OrderBook.taker_order_id m1 = 2001%N
           ∧ 995000 ≤ OrderBook.match_price m1)
        ∧ (OrderBook.taker_order_id m2 = 2001%N
           ∧ 995000 ≤ OrderBook.match_price m2).
Proof.
  run_to_state Hrun.
  pose proof (run_checked_reachable _ _ _ _ Hrun) as Hr.
  match goal with
  | |- ∃ m1 m2 h' b', OrderBook.add_order _ (?h ++ _) ?b _ = _ ∧ _ =>
      destruct (OrderBook.add_order 5 (h ++ [Order.make 2001 "AAPL" SELL
                  LIMIT 150000 995000 GTC]) b (length h))
        as [[[ms h'] b']|] eqn:Hadd; [|by vm_compute in Hadd];
      assert (Hv : valid_op h b
                (Submit 2001 "AAPL" SELL LIMIT 150000 995000 GTC))
        by (apply valid_opb_sound; vm_compute; reflexivity);
      pose proof (matches_respect_limit _ _ _ _ _ _ _ _ _ _ _ _ _ Hr Hv Hadd)
        as Hms
  end.
  destruct ms as [|m1 [|m2 [|m3 ms]]]; try by vm_compute in Hadd.
  exists m1, m2, h', b'. split; [done|].
  apply Forall_cons in Hms as [(Ht1 & _ & Hl1 & _) Hms].
  apply Forall_cons in Hms as [(Ht2 & _ & Hl2 & _) _].
  split; (split; [done|auto]).
Defined.

(** The matches of a valid submit never add up to more than the order's
    quantity.  Unless the order is FOK, what they add up to is exactly
    what the order has executed afterwards and exactly what the total of
    the opposite side has gone down by. *)
Theorem matched_quantity_conserved (fuel : nat) (h : heap) (b : OrderBook.t)
    (id : OrderId) (symbol : string) (s : Side) (ty : OrderType)
    (q : Quantity) (k : Price) (tif : TimeInForce) ms h' b' :
  reachable valid_op h b →
  valid_op h b (Submit id symbol s ty q k tif) →
  OrderBook.add_order fuel (h ++ [Order.make id symbol s ty q k tif]) b
    (length h) = Some (ms, h', b') →
  0 ≤ matched_quantity ms ≤ q
  ∧ (tif ≠ FOK →
     OrderBook.side_total (OrderBook.opposite s) b'
     = OrderBook.side_total (OrderBook.opposite s) b - matched_quantity ms
     ∧ ∃ o', h' !! length h = Some o'
             ∧ Order.executed_quantity_ o' = matched_quantity ms).
Proof.
  intros Hr (_ & _ & Hq & _) Hadd.
  pose proof (reachable_wf _ _ Hr) as Hwf.
  set (o := Order.make id symbol s ty q k tif) in *.
  destruct (wf_alloc _ h b o Hwf) as (Hwf1 & Hnew & Ho).
  destruct (add_order_matches _ exec_stable_True _ _ _ _ _ _ _ _ Hadd Hwf1
              Ho Hnew eq_refl ltac:(cbn; lia)) as (_ & Hsum & Hcons).
  split; [exact Hsum|exact Hcons].
Qed.

(** The sell for 150 above: 100 and 50 are matched, the bid side goes from
    300 to 150 and the order has executed 150. *)
Lemma matched_quantity_conserved_witness :
  ∃ h b,
    run_checked valid_opb 3 initial
      [ Submit 1001 "AAPL" BUY LIMIT 100000 1010000 GTC;
        Submit 1002 "AAPL" BUY LIMIT 100000 1000000 GTC;
        Submit 1003 "AAPL" BUY LIMIT 100000 990000 GTC ]
    = Some (h, b)
    ∧ ∃ ms h' b',
        OrderBook.add_order 5 (h ++ [Order.make 2001 "AAPL" SELL LIMIT
                                       150000 995000 GTC]) b (length h)
        = Some (ms, h', b')
        ∧ matched_quantity ms = 150000
        ∧ OrderBook.side_total BUY b'
          = OrderBook.side_total BUY b - matched_quantity ms
        ∧ ∃ o', h' !! length h = Some o'
                ∧ Order.executed_quantity_ o' = matched_quantity ms.
Proof.
  run_to_state Hrun.
  pose proof (run_checked_reachable _ _ _ _ Hrun) as Hr.
  match goal with
  | |- ∃ ms h' b', OrderBook.add_order _ (?h ++ _) ?b _ = _ ∧ _ =>
      destruct (OrderBook.add_order 5 (h ++ [Order.make 2001 "AAPL" SELL
                  LIMIT 150000 995000 GTC]) b (length h))
        as [[[ms h'] b']|] eqn:Hadd; [|by vm_compute in Hadd];
      assert (Hv : valid_op h b
                (Submit 2001 "AAPL" SELL LIMIT 150000 995000 GTC))
        by (apply valid_opb_sound; vm_compute; reflexivity);
      destruct (matched_quantity_conserved _ _ _ _ _ _ _ _ _ _ _ _ _
                  Hr Hv Hadd) as (_ & Hcons)
  end.
  destruct (Hcons ltac:(done)) as (Htot & Hex).
  exists ms, h', b'. split; [done|]. split; [|split; [exact Htot|exact Hex]].
  vm_compute in Hadd. injection Hadd as <- _ _. reflexivity.
Defined.


(** A valid MARKET order that is not FOK takes all it can: what is matched
    is the smaller of its quantity and the total quantity of the opposite
    side, whatever the prices.  The opposite total goes down by that much,
    the order's own side is left as it was (a market order never rests),
    and the order is left executed by that amount. *)
Theorem market_order_sweeps (fuel : nat) (h : heap) (b : OrderBook.t)
    (id : OrderId) (symbol : string) (s : Side) (q : Quantity) (k : Price)
    (tif : TimeInForce) ms h' b' :
  reachable valid_op h b →
  valid_op h b (Submit id symbol s MARKET q k tif) →
  tif ≠ FOK →
  OrderBook.add_order fuel (h ++ [Order.make id symbol s MARKET q k tif]) b
    (length h) = Some (ms, h', b') →
  let avail := OrderBook.side_total (OrderBook.opposite s) b in
  matched_quantity ms = Z.min q avail
  ∧ OrderBook.side_total (OrderBook.opposite s) b' = avail - Z.min q avail
  ∧ OrderBook.side_levels s b' = OrderBook.side_levels s b
  ∧ OrderBook.side_total s b' = OrderBook.side_total s b
  ∧ OrderBook.orders_ b' = OrderBook.orders_ b
  ∧ h' !! length h
    = Some (Order.execute (Z.min q avail)
              (Order.set_status ACCEPTED
                 (Order.make id symbol s MARKET q k tif))).
Proof.
  intros Hr Hv Htif Hadd avail.
  pose proof Hv as (Hid & _ & Hq & _).
  pose proof (reachable_wf _ _ Hr) as Hwf.
  set (o := Order.make id symbol s MARKET q k tif) in *.
  destruct (wf_alloc _ h b o Hwf) as (Hwf1 & Hnew & Ho).
  destruct (add_order_matches _ exec_stable_True _ _ _ _ _ _ _ _ Hadd Hwf1
              Ho Hnew eq_refl ltac:(cbn; lia)) as (_ & _ & Hcons).
  destruct (Hcons Htif) as (Htot & _). cbn in Htot. fold avail in Htot.
  unfold OrderBook.add_order in Hadd. rewrite Ho in Hadd.
  assert (Hval : Order.is_valid o = true)
    by (apply bool_decide_eq_true_2; exact Hid).
  rewrite Hval in Hadd. cbn [negb] in Hadd.
  set (o1 := Order.set_status ACCEPTED o) in *.
  set (h1 := <[length h := o1]> (h ++ [o])) in *.
  assert (Ho1 : h1 !! length h = Some o1).
  { apply list_lookup_insert_eq. by eapply lookup_lt_Some. }
  assert (Hwf2 : wf (λ _, True) h1 b).
  { apply (wf_frame _ (h ++ [o]));
      [done| |eapply heap_le_insert; [done|apply static_eq_set_status]].
    intros p Hp. apply list_lookup_insert_ne. by intros <-. }
  change (Order.type_ o1) with MARKET in Hadd. cbn match in Hadd.
  unfold OrderBook.match_market_order in Hadd. rewrite Ho1 in Hadd.
  rewrite decide_False in Hadd by (cbn; auto).
  destruct (match_order_ok _ exec_stable_True _ _ _ _ _ _ _ _ _ Hadd Hwf2
              Ho1 Hnew) as (Hwf' & Hidx & _).
  destruct (match_order_form _ exec_stable_True _ _ _ _ _ _ _ _ _ Hadd Hwf2
              Ho1 Hnew) as (lv' & rem' & Hb' & _ & _ & Hle & Hge & Hend & Hres).
  change (Order.side_ o1) with s in *.
  change (Order.remaining_quantity o1) with (q - 0) in *.
  change (Order.quantity_ o1) with q in *.
  change (Order.time_in_force_ o1) with tif in *.
  rewrite Z.sub_0_r in *. specialize (Hge ltac:(lia)).
  rewrite bool_decide_eq_false_2 in Hres by done. cbn [andb] in Hres.
  pose proof (side_total_nonneg _ _ _ (OrderBook.opposite s) Hwf') as Hnn.
  assert (Hx : q - rem' = Z.min q avail).
  { destruct Hend as [Hz|[Hnil|[(k0 & l0 & rest & _ & [=])|[Hf _]]]];
      [| |done].
    - rewrite Hb', side_total_set_side in Hnn. fold avail in Hnn. lia.
    - pose proof (side_total_empty _ _ _ (OrderBook.opposite s) Hwf') as Hz.
      rewrite Hb', side_levels_set_side, side_total_set_side in Hz.
      fold avail in Hz. specialize (Hz Hnil). lia. }
  rewrite Hb', side_total_set_side in Htot. fold avail in Htot.
  assert (HM : matched_quantity ms = q - rem') by (clear -Htot; lia).
  rewrite Hres, HM, Hx.
  split; [done|]. rewrite Hb' at 1. rewrite side_total_set_side, Hx.
  split; [done|]. rewrite Hb'.
  split; [by destruct s|]. split; [by destruct s|].
  split; [by destruct s|done].
Qed.

(** A market sell for 250 against bids of 100 and 100: both bids are taken,
    200 is matched and the order is left partially filled; nothing rests
    on the ask side. *)
Lemma market_order_sweeps_witness :
  ∃ h b,
    run_checked valid_opb 2 initial
      [ Submit 1001 "AAPL" BUY LIMIT 100000 1010000 GTC;
        Submit 1002 "AAPL" BUY LIMIT 100000 1000000 GTC ]
    = Some (h, b)
    ∧ ∃ ms h' b',
        OrderBook.add_order 4 (h ++ [Order.make 2001 "AAPL" SELL MARKET
                                       250000 0 GTC]) b (length h)
        = Some (ms, h', b')
        ∧ matched_quantity ms = 200000
        ∧ OrderBook.side_total BUY b' = 0
        ∧ OrderBook.side_levels SELL b' = []
        ∧ h' !! 2%nat = Some (Order.mk 2001 "AAPL" SELL MARKET 250000 200000
                                0 GTC PARTIALLY_FILLED).
Proof.
  run_to_state Hrun.
  pose proof (run_checked_reachable _ _ _ _ Hrun) as Hr.
  match goal with
  | |- ∃ ms h' b', OrderBook.add_order _ (?h ++ _) ?b _ = _ ∧ _ =>
      destruct (OrderBook.add_order 4 (h ++ [Order.make 2001 "AAPL" SELL
                  MARKET 250000 0 GTC]) b (length h))
        as [[[ms h'] b']|] eqn:Hadd; [|by vm_compute in Hadd];
      assert (Hv : valid_op h b
                (Submit 2001 "AAPL" SELL MARKET 250000 0 GTC))
        by (apply valid_opb_sound; vm_compute; reflexivity);
      destruct (market_order_sweeps _ _ _ _ _ _ _ _ _ _ _ _
                  Hr Hv ltac:(done) Hadd) as (Hm & Ht & Hl & _ & _ & Ho)
  end.
  exists ms, h', b'. split; [done|].
  split; [exact Hm|]. split; [exact Ht|]. split; [exact Hl|exact Ho].
Defined.


(** Price-time priority.  The matches of a valid submit that is not FOK
    are, one for one and in this order, the allocation of the order's
    quantity over the opposite queue: best price level first, within a
    level the order that arrived first, each maker filled completely
    before the next one is touched, up to the first level that the
    order's price test refuses.  What is matched is the smaller of the
    order's quantity and what those levels hold. *)
Theorem price_time_priority (fuel : nat) (h : heap) (b : OrderBook.t)
    (id : OrderId) (symbol : string) (s : Side) (ty : OrderType)
    (q : Quantity) (k : Price) (tif : TimeInForce) ms h' b' :
  reachable valid_op h b →
  valid_op h b (Submit id symbol s ty q k tif) →
  tif ≠ FOK →
  OrderBook.add_order fuel (h ++ [Order.make id symbol s ty q k tif]) b
    (length h) = Some (ms, h', b') →
  let queue :=
    level_ptrs (within_limit (price_test ty s k)
                  (OrderBook.side_levels (OrderBook.opposite s) b)) in
  Forall2 (match_of h id) (priority_fill h q queue) ms
  ∧ matched_quantity ms = Z.min q (sum_remaining h queue).
Proof.
  intros Hr (Hid & _ & Hq & _) Htif Hadd queue.
  pose proof (reachable_wf _ _ Hr) as Hwf.
  set (o := Order.make id symbol s ty q k tif) in *.
  destruct (wf_alloc _ h b o Hwf) as (Hwf1 & Hnew & Ho).
  pose proof (add_order_fill _ exec_stable_True _ _ _ _ _ _ _ _ Hadd Hwf1 Ho
                Hnew ltac:(by apply bool_decide_eq_true_2) Htif) as Hall.
  change (Order.id_ o) with id in Hall.
  change (Order.type_ o) with ty in Hall.
  change (Order.side_ o) with s in Hall.
  change (Order.price_ o) with k in Hall.
  change (Order.remaining_quantity o) with (q - 0) in Hall.
  rewrite Z.sub_0_r in Hall. fold queue in Hall.
  assert (Hsub : ∀ p, p ∈ queue →
            p ∈ level_ptrs (OrderBook.side_levels (OrderBook.opposite s) b))
    by (intros p; apply level_ptrs_within).
  assert (Hin : ∀ p, p ∈ queue → (h ++ [o]) !! p = h !! p).
  { intros p Hp%Hsub.
    destruct (wf_valid _ h b p Hwf) as [mo Hmo];
      [apply elem_of_book_ptrs; eauto|].
    rewrite Hmo. by apply lookup_app_l_Some. }
  rewrite (priority_fill_frame h (h ++ [o])) in Hall by done.
  assert (Hall' : Forall2 (match_of h id) (priority_fill h q queue) ms).
  { eapply match_of_frame; [|apply priority_fill_ptrs|exact Hall].
    intros p mo Hp Hmo. exists mo. by rewrite <- Hin. }
  split; [done|].
  rewrite (match_of_quantity _ _ _ _ Hall').
  apply priority_fill_sum; [|lia].
  by eapply wf_remaining_nonneg.
Qed.

(** Bids of 100 and 50 at 101 and of 100 at 100; a sell for 120 with limit
    100.50 takes the first bid at 101 whole and 20 of the second, and does
    not reach the level at 100. *)
Lemma price_time_priority_witness :
  ∃ h b,
    run_checked valid_opb 3 initial
      [ Submit 1001 "AAPL" BUY LIMIT 100000 1010000 GTC;
        Submit 1003 "AAPL" BUY LIMIT 100000 1000000 GTC;
        Submit 1002 "AAPL" BUY LIMIT 50000 1010000 GTC ]
    = Some (h, b)
    ∧ ∃ ms h' b',
        OrderBook.add_order 5 (h ++ [Order.make 2001 "AAPL" SELL LIMIT
                                       120000 1005000 GTC]) b (length h)
        = Some (ms, h', b')
        ∧ Forall2 (match_of h 2001) [(0%nat, 100000); (2%nat, 20000)] ms
        ∧ matched_quantity ms = 120000.
Proof.
  run_to_state Hrun.
  pose proof (run_checked_reachable _ _ _ _ Hrun) as Hr.
  match goal with
  | |- ∃ ms h' b', OrderBook.add_order _ (?h ++ _) ?b _ = _ ∧ _ =>
      destruct (OrderBook.add_order 5 (h ++ [Order.make 2001 "AAPL" SELL
                  LIMIT 120000 1005000 GTC]) b (length h))
        as [[[ms h'] b']|] eqn:Hadd; [|by vm_compute in Hadd];
      assert (Hv : valid_op h b
                (Submit 2001 "AAPL" SELL LIMIT 120000 1005000 GTC))
        by (apply valid_opb_sound; vm_compute; reflexivity);
      destruct (price_time_priority _ _ _ _ _ _ _ _ _ _ _ _ _
                  Hr Hv ltac:(done) Hadd) as (Hall & Hsum)
  end.
  exists ms, h', b'. split; [done|]. split; [exact Hall|exact Hsum].
Defined.

(** [PriceLevel::execute_quantity] on a level of the book serves the queue
    of the level from the front: the pairs it returns are the allocation of
    the quantity over the queue, they add up to the smaller of the
    quantity and the level's total, the total goes down by that much, and
    what is left of the queue is a tail of it. *)
Theorem execute_quantity_fifo (fuel : nat) (h : heap) (b : OrderBook.t)
    (s : Side) (k : Price) (l : PriceLevel.t) (q : Quantity) h' l' ex :
  reachable valid_op h b →
  (k, l) ∈ OrderBook.side_levels s b →
  PriceLevel.execute_quantity fuel h q l = Some (h', l', ex) →
  ex = priority_fill h q (PriceLevel.orders_ l)
  ∧ sumZ ex.*2 = Z.min (Z.max q 0) (PriceLevel.total_quantity_ l)
  ∧ PriceLevel.total_quantity_ l'
    = PriceLevel.total_quantity_ l - sumZ ex.*2
  ∧ ∃ served, PriceLevel.orders_ l = served ++ PriceLevel.orders_ l'.
Proof.
  intros Hr Hin Hrun.
  pose proof (reachable_wf _ _ Hr) as Hwf.
  destruct (wf_level _ _ _ _ _ _ Hwf Hin) as [Hok Hnd].
  destruct (execute_quantity_ok _ _ _ exec_stable_True _ _ _ _ _ _ _ Hrun
              Hok Hnd) as (_ & Hpop & _ & _ & _ & Htot & _).
  pose proof (execute_quantity_fill _ _ _ exec_stable_True _ _ _ _ _ _ _
                Hrun Hok Hnd) as Hex.
  split; [done|]. split; [|done].
  destruct Hok as (_ & Hsum & Hords & _). cbn in Hsum, Hords.
  pose proof (sum_remaining_nonneg _ _ _ _ _ _ Hords) as Hnn.
  rewrite Hex, Hsum.
  destruct (decide (q ≤ 0)) as [Hq|Hq].
  - rewrite priority_fill_nonpos by done. unfold sumZ. cbn. lia.
  - rewrite priority_fill_sum; [lia| |lia].
    eapply Forall_impl; [exact Hords|]. cbn.
    intros p (o & Ho & _ & _ & _ & _ & Hrem & _).
    by rewrite (remaining_at_lookup _ _ _ Ho).
Qed.

(** The level at 101 with bids of 100 and 50: executing 120 serves the
    first bid whole and 20 of the second, which stays at the front. *)
Lemma execute_quantity_fifo_witness :
  ∃ h b,
    run_checked valid_opb 3 initial
      [ Submit 1001 "AAPL" BUY LIMIT 100000 1010000 GTC;
        Submit 1003 "AAPL" BUY LIMIT 100000 1000000 GTC;
        Submit 1002 "AAPL" BUY LIMIT 50000 1010000 GTC ]
    = Some (h, b)
    ∧ ∃ l h' l',
        PriceMap.find 1010000 (OrderBook.bid_levels_ b) = Some l
        ∧ PriceLevel.execute_quantity 3 h 120000 l
          = Some (h', l', [(0%nat, 100000); (2%nat, 20000)])
        ∧ PriceLevel.total_quantity_ l' = 30000
        ∧ PriceLevel.orders_ l' = [2%nat].
Proof.
  run_to_state Hrun.
  pose proof (run_checked_reachable _ _ _ _ Hrun) as Hr.
  match goal with
  | |- ∃ l h' l', PriceMap.find _ (OrderBook.bid_levels_ ?b) = _ ∧ _ =>
      destruct (PriceMap.find 1010000 (OrderBook.bid_levels_ b))
        as [l|] eqn:Hfind; [|by vm_compute in Hfind];
      assert (Hin : (1010000, l) ∈ OrderBook.side_levels BUY b)
        by (vm_compute in Hfind; injection Hfind as <-; cbn; set_solver)
  end.
  match goal with
  | |- ∃ l0 h' l', _ ∧ PriceLevel.execute_quantity _ ?h _ _ = _ ∧ _ =>
      destruct (PriceLevel.execute_quantity 3 h 120000 l)
        as [[[h' l'] ex]|] eqn:Hex;
        [|vm_compute in Hfind; injection Hfind as <-; by vm_compute in Hex];
      destruct (execute_quantity_fifo _ _ _ _ _ _ _ _ _ _ Hr Hin Hex)
        as (Hfill & _ & Htot & _)
  end.
  exists l, h', l'. split; [done|].
  vm_compute in Hfind. injection Hfind as <-.
  split; [rewrite Hex, Hfill; reflexivity|].
  split; [rewrite Htot, Hfill; reflexivity|].
  vm_compute in Hex. by injection Hex as _ <- _.
Defined.


(** What is left of a valid GTC limit order after matching rests.  With
    [m] the quantity that was matched: the order object is the submitted
    one executed by [m]; if [m] is less than the order's quantity, the
    order is indexed under its id and is the last in the queue of the
    level at its price, and that level's quantity and its side's total go
    up by the remainder; if not, the order is filled and its own side and
    the index are as they were. *)
Theorem remainder_rests (fuel : nat) (h : heap) (b : OrderBook.t)
    (id : OrderId) (symbol : string) (s : Side) (q : Quantity) (k : Price)
    ms h' b' :
  reachable valid_op h b →
  valid_op h b (Submit id symbol s LIMIT q k GTC) →
  OrderBook.add_order fuel (h ++ [Order.make id symbol s LIMIT q k GTC]) b
    (length h) = Some (ms, h', b') →
  let p := length h in
  let m := matched_quantity ms in
  h' !! p
  = Some (Order.execute m (Order.mk id symbol s LIMIT q 0 k GTC ACCEPTED))
  ∧ if decide (m < q)
    then OrderBook.get_order id b' = Some p
         ∧ OrderBook.get_orders_at_level k s b'
           = OrderBook.get_orders_at_level k s b ++ [p]
         ∧ OrderBook.get_quantity_at_level k s b'
           = OrderBook.get_quantity_at_level k s b + (q - m)
         ∧ OrderBook.side_total s b' = OrderBook.side_total s b + (q - m)
    else m = q
         ∧ OrderBook.side_levels s b' = OrderBook.side_levels s b
         ∧ OrderBook.side_total s b' = OrderBook.side_total s b
         ∧ OrderBook.orders_ b' = OrderBook.orders_ b.
Proof.
  intros Hr Hv Hadd p m.
  pose proof Hv as (Hid & _ & Hq & _).
  pose proof (reachable_wf _ _ Hr) as Hwf.
  set (o := Order.make id symbol s LIMIT q k GTC) in *.
  destruct (wf_alloc _ h b o Hwf) as (Hwf1 & Hnew & Ho).
  fold p in Hadd, Hnew, Ho.
  unfold OrderBook.add_order in Hadd. rewrite Ho in Hadd.
  assert (Hval : Order.is_valid o = true)
    by (apply bool_decide_eq_true_2; exact Hid).
  rewrite Hval in Hadd. cbn [negb] in Hadd.
  set (o1 := Order.mk id symbol s LIMIT q 0 k GTC ACCEPTED) in *.
  change (Order.set_status ACCEPTED o) with o1 in Hadd.
  set (h1 := <[p := o1]> (h ++ [o])) in *.
  assert (Ho1 : h1 !! p = Some o1).
  { apply list_lookup_insert_eq. by eapply lookup_lt_Some. }
  assert (Hwf2 : wf (λ _, True) h1 b).
  { apply (wf_frame _ (h ++ [o]));
      [done| |eapply heap_le_insert; [done|apply static_eq_set_status]].
    intros p0 Hp. apply list_lookup_insert_ne. by intros <-. }
  change (Order.type_ o1) with LIMIT in Hadd. cbn match in Hadd.
  unfold OrderBook.match_limit_order in Hadd. rewrite Ho1 in Hadd.
  rewrite decide_False in Hadd by (intros Hne; by apply Hne).
  destruct (OrderBook.match_order fuel _ h1 b p o1)
    as [[[ms2 h2] b2]|] eqn:Hm; [|done]. cbn in Hadd.
  destruct (match_order_ok _ exec_stable_True _ _ _ _ _ _ _ _ _ Hm Hwf2
              Ho1 Hnew) as (Hwf' & Hidx & _).
  destruct (match_order_matches _ exec_stable_True _ _ _ _ _ _ _ _ _ Hm Hwf2
              Ho1 Hnew)
    as (new & rem0 & _ & Hsum & _ & _ & Hms & Htot & _).
  destruct Hms as [->|[_ [=]]].
  destruct (match_order_form _ exec_stable_True _ _ _ _ _ _ _ _ _ Hm Hwf2
              Ho1 Hnew) as (lv' & rem' & Hb2 & _ & _ & Hle & Hge & _ & Hres).
  change (Order.side_ o1) with s in *.
  change (Order.remaining_quantity o1) with (q - 0) in *.
  change (Order.quantity_ o1) with q in *.
  change (Order.time_in_force_ o1) with GTC in *.
  rewrite Z.sub_0_r in *. specialize (Hge ltac:(lia)).
  cbn [bool_decide decide_rel andb] in Hres.
  assert (HM : matched_quantity new = q - rem').
  { rewrite Hb2, side_total_set_side in Htot. clear -Htot. lia. }
  set (o2 := Order.execute (q - rem') o1) in *.
  assert (Hfl : Order.is_filled o2 = bool_decide (rem' = 0)).
  { unfold o2, o1, Order.is_filled, Order.execute, Order.remaining_quantity,
      ZERO. cbn. clear -Hle Hge Hq.
    repeat (case_decide; cbn); repeat case_bool_decide; try done; lia. }
  destruct (static_eq_execute (q - rem') o1) as (Hid2 & Hs2 & Hk2 & Hty2 & Htif2).
  fold o2 in Hid2, Hs2, Hk2, Hty2, Htif2. cbn in Hid2, Hs2, Hk2, Hty2, Htif2.
  assert (Hrem2 : Order.remaining_quantity o2 = rem').
  { destruct (execute_spec (q - rem') o1) as (_ & Hr2 & _). fold o2 in Hr2.
    rewrite Hr2. unfold Order.remaining_quantity. cbn. lia. }
  rewrite Hres in Hadd. cbn [mbind option_bind] in Hadd.
  rewrite Hfl, <- Htif2 in Hadd.
  rewrite (bool_decide_eq_true_2 (GTC ≠ IOC)) in Hadd by done.
  rewrite andb_true_r in Hadd.
  assert (Hown : OrderBook.side_levels s b2 = OrderBook.side_levels s b
                 ∧ OrderBook.side_total s b2 = OrderBook.side_total s b).
  { rewrite Hb2. by destruct s. }
  destruct Hown as [Hlv2 Htot2].
  destruct (decide (rem' = 0)) as [Hz|Hnz].
  - rewrite bool_decide_eq_true_2 in Hadd by done. cbn in Hadd.
    injection Hadd as <- <- <-. subst m. rewrite HM.
    split; [exact Hres|].
    rewrite decide_False by lia. split_and!; [lia|done|done|done].
  - rewrite bool_decide_eq_false_2 in Hadd by done. cbn in Hadd.
    injection Hadd as <- <- <-. subst m. rewrite HM.
    split; [exact Hres|]. rewrite decide_True by lia.
    destruct (add_limit_order_to_book_form _ _ _ _ _ Hwf' Hres)
      as (level & m1 & m2 & Hcase & Hk & Hpr & Hform).
    { by rewrite <- Hty2. }
    { rewrite Hfl. by apply bool_decide_eq_false_2. }
    rewrite <- Hid2, <- Hs2, <- Hk2, Hrem2, Htot2 in Hform.
    rewrite <- Hs2, <- Hk2, Hlv2 in Hcase. rewrite <- Hk2 in Hk, Hpr.
    rewrite Hform.
    unfold OrderBook.get_order, OrderBook.get_orders_at_level,
      OrderBook.get_quantity_at_level.
    rewrite orders_set_orders, !side_levels_set_orders,
      !side_total_set_orders, side_levels_set_side, side_total_set_side.
    rewrite find_middle by done. cbn.
    replace (q - (q - rem')) with rem' by lia.
    split; [apply lookup_insert_eq|].
    destruct Hcase as [[Hfind Hlv]|(Hfind & -> & Hlv)]; by rewrite Hfind.
Qed.

(** A bid for 100 at 101; a sell for 150 with limit 100 trades 100 and its
    remainder of 50 rests at 100 on the ask side. *)
Lemma remainder_rests_witness :
  ∃ h b,
    run_checked valid_opb 1 initial
      [ Submit 1001 "AAPL" BUY LIMIT 100000 1010000 GTC ]
    = Some (h, b)
    ∧ ∃ ms h' b',
        OrderBook.add_order 3 (h ++ [Order.make 2001 "AAPL" SELL LIMIT
                                       150000 1000000 GTC]) b (length h)
        = Some (ms, h', b')
        ∧ matched_quantity ms = 100000
        ∧ h' !! 1%nat = Some (Order.mk 2001 "AAPL" SELL LIMIT 150000 100000
                                1000000 GTC PARTIALLY_FILLED)
        ∧ OrderBook.get_order 2001 b' = Some 1%nat
        ∧ OrderBook.get_orders_at_level 1000000 SELL b' = [1%nat]
        ∧ OrderBook.get_quantity_at_level 1000000 SELL b' = 50000
        ∧ OrderBook.side_total SELL b' = 50000.
Proof.
  run_to_state Hrun.
  pose proof (run_checked_reachable _ _ _ _ Hrun) as Hr.
  match goal with
  | |- ∃ ms h' b', OrderBook.add_order _ (?h ++ _) ?b _ = _ ∧ _ =>
      destruct (OrderBook.add_order 3 (h ++ [Order.make 2001 "AAPL" SELL
                  LIMIT 150000 1000000 GTC]) b (length h))
        as [[[ms h'] b']|] eqn:Hadd; [|by vm_compute in Hadd];
      assert (Hv : valid_op h b
                (Submit 2001 "AAPL" SELL LIMIT 150000 1000000 GTC))
        by (apply valid_opb_sound; vm_compute; reflexivity);
      pose proof (remainder_rests _ _ _ _ _ _ _ _ _ _ _ Hr Hv Hadd)
        as (Ho & Hrest)
  end.
  assert (Hm : matched_quantity ms = 100000).
  { vm_compute in Hadd. injection Hadd as <- _ _. reflexivity. }
  rewrite Hm in Ho, Hrest. cbn [decide_rel] in Hrest.
  destruct Hrest as (Hidx & Hords & Hqty & Htot).
  exists ms, h', b'. split; [done|]. split; [done|].
  split; [exact Ho|]. split; [exact Hidx|]. split; [exact Hords|].
  split; [exact Hqty|exact Htot].
Defined.


(** No operation takes an order object away or rewrites what identifies
    it: after any valid operation, every order that existed before still
    exists at the same place with the same id, side, price, type and time
    in force.  (A modify that needs another price or a larger quantity
    makes a new object and leaves the old one, cancelled.) *)
Theorem orders_keep_identity (fuel : nat) (h : heap) (b : OrderBook.t)
    (op : Op) h' b' :
  reachable valid_op h b →
  valid_op h b op →
  run_op fuel (h, b) op = Some (h', b') →
  ∀ p o, h !! p = Some o →
    ∃ o', h' !! p = Some o'
          ∧ Order.id_ o' = Order.id_ o
          ∧ Order.side_ o' = Order.side_ o
          ∧ Order.price_ o' = Order.price_ o
          ∧ Order.type_ o' = Order.type_ o
          ∧ Order.time_in_force_ o' = Order.time_in_force_ o.
Proof.
  intros Hr Hvalid Hrun p o Ho.
  pose proof (reachable_wf _ _ Hr) as Hwf.
  assert (Hle : heap_le h h').
  { refine (proj2 (run_op_wf _ exec_stable_True _ _ _ _ _ _ Hrun Hwf _)).
    destruct op as [id sy sd ty q pr tif|id|id np nq]; [|done|done].
    by destruct Hvalid as (_ & ? & _). }
  destruct (Hle p o Ho) as (o' & Ho' & Hid & Hs & Hk & Hty & Htif).
  exists o'. by split_and!.
Qed.

(** Order 1001 rests at 100; a modify to the price 101 leaves the object
    at address 0 with its id and its price. *)
Lemma orders_keep_identity_witness :
  ∃ h b,
    run_checked valid_opb 1 initial
      [ Submit 1001 "AAPL" BUY LIMIT 100000 1000000 GTC ]
    = Some (h, b)
    ∧ ∃ h' b' o',
        run_op 2 (h, b) (Modify 1001 (Some 1010000) None) = Some (h', b')
        ∧ h' !! 0%nat = Some o'
        ∧ Order.id_ o' = 1001%N
        ∧ Order.price_ o' = 1000000.
Proof.
  run_to_state Hrun.
  pose proof (run_checked_reachable _ _ _ _ Hrun) as Hr.
  match goal with
  | |- ∃ h' b' o', run_op _ (?h, ?b) ?op = _ ∧ _ =>
      destruct (run_op 2 (h, b) op) as [[h' b']|] eqn:Hop;
        [|by vm_compute in Hop];
      assert (Hv : valid_op h b op)
        by (apply valid_opb_sound; vm_compute; reflexivity);
      destruct (orders_keep_identity _ _ _ _ _ _ Hr Hv Hop 0%nat _ eq_refl)
        as (o' & Ho' & Hid & _ & Hk & _)
  end.
  exists h', b', o'. split; [done|]. split; [exact Ho'|].
  split; [exact Hid|exact Hk].
Defined.

(** Every operation on a book that valid operations have produced
    returns: the loops of the matching functions and of
    [execute_quantity] end.  For a submit the fuel [enough_fuel] of the
    book, which counts its levels and resting orders, is enough. *)
Theorem operations_return (h : heap) (b : OrderBook.t) :
  reachable valid_op h b →
  (∀ id symbol s ty q k tif,
     is_Some (run_op (enough_fuel b) (h, b) (Submit id symbol s ty q k tif)))
  ∧ ∀ op, ∃ fuel, is_Some (run_op fuel (h, b) op).
Proof.
  intros Hr. pose proof (reachable_wf _ _ Hr) as Hwf. split.
  - intros id symbol s ty q k tif. cbn.
    set (o := Order.make id symbol s ty q k tif).
    destruct (wf_alloc _ h b o Hwf) as (Hwf1 & Hnew & _).
    destruct (add_order_total _ exec_stable_True _ _ _ Hwf1 Hnew)
      as [[[ms h2] b2] ->].
    by eexists.
  - intros op. by apply (run_op_total _ exec_stable_True).
Qed.

(** Two bids and an ask rest; a market sell that walks both bid levels
    returns with the fuel 1 + 3 + 3. *)
Lemma operations_return_witness :
  ∃ h b,
    run_checked valid_opb 2 initial
      [ Submit 1001 "AAPL" BUY LIMIT 100000 1010000 GTC;
        Submit 1002 "AAPL" BUY LIMIT 100000 1000000 GTC;
        Submit 2001 "AAPL" SELL LIMIT 100000 1020000 GTC ]
    = Some (h, b)
    ∧ enough_fuel b = 7%nat
    ∧ is_Some (run_op 7 (h, b)
                 (Submit 2002 "AAPL" SELL MARKET 250000 0 GTC)).
Proof.
  run_to_state Hrun.
  pose proof (run_checked_reachable _ _ _ _ Hrun) as Hr.
  split; [reflexivity|].
  match goal with
  | |- is_Some (run_op _ (?h, ?b) _) =>
      exact (proj1 (operations_return h b Hr) 2002%N "AAPL" SELL MARKET
               250000 0 GTC)
  end.
Defined.


(** The two kinds of valid operation that the invariant on resting orders
    leaves out both break it, whenever they are run in a state that the
    other valid operations lead to: a LIMIT FOK order that is not filled
    whole ends on the book with status CANCELLED, and a modify without a
    price to exactly what a resting order has executed leaves that order on
    the book with nothing remaining. *)
Theorem left_out_operations_break (fuel : nat) (h : heap) (b : OrderBook.t)
    (op : Op) h' b' :
  reachable valid_op_live h b →
  valid_op h b op →
  ¬ valid_op_live h b op →
  run_op fuel (h, b) op = Some (h', b') →
  ∃ p o,
    resting h' b' p o
    ∧ (Order.status_ o = CANCELLED ∨ Order.remaining_quantity o = 0)
    ∧ ¬ ((Order.is_active o = true ∨ Order.status_ o = REPLACED)
         ∧ 0 < Order.remaining_quantity o).
Proof.
  intros Hr Hv Hnl Hrun.
  pose proof (reachable_live_wf _ _ Hr) as Hwf.
  pose proof (reachable_nonempty _ _ (reachable_live_valid _ _ Hr)) as Hne.
  assert (Hbreak : ∀ p o,
            resting h' b' p o →
            Order.status_ o = CANCELLED ∨ Order.remaining_quantity o = 0 →
            ∃ p o,
              resting h' b' p o
              ∧ (Order.status_ o = CANCELLED
                 ∨ Order.remaining_quantity o = 0)
              ∧ ¬ ((Order.is_active o = true ∨ Order.status_ o = REPLACED)
                   ∧ 0 < Order.remaining_quantity o)).
  { intros p o Hrest Hbad. exists p, o. split_and!; [done|done|].
    intros [[Hact|Hrep] Hrem]; destruct Hbad as [Hst|Hz]; try lia.
    - unfold Order.is_active in Hact. by rewrite Hst in Hact.
    - by rewrite Hst in Hrep. }
  destruct op as [id sy sd ty q pr tif|id|id np nq].
  - destruct (decide (ty = LIMIT)) as [->|Hty];
      [|exfalso; apply Hnl; split; [done|by intros ?]].
    destruct (decide (tif = FOK)) as [->|Htif];
      [|exfalso; apply Hnl; split; [done|by intros _ ?]].
    assert (Hshort : ¬ fok_fillable b sd pr q).
    { intros Hf. apply Hnl. split; [done|by intros _ _]. }
    cbn in Hrun. set (o := Order.make id sy sd LIMIT q pr FOK) in *.
    destruct (OrderBook.add_order fuel (h ++ [o]) b (length h))
      as [[[ms h2] b2]|] eqn:Hadd; [|done].
    cbn in Hrun. injection Hrun as <- <-.
    destruct (wf_alloc _ h b o Hwf) as (Hwf1 & Hnew & Ho).
    destruct Hv as (Hid & _ & Hq & _).
    destruct (add_order_fok_rests _ _ _ _ _ _ _ _ Hadd Hwf1 Hne Ho Hnew)
      as (o' & Hrest & Hst); try done.
    + by apply bool_decide_eq_true_2.
    + cbn. lia.
    + apply (Hbreak _ _ Hrest). by left.
  - exfalso. apply Hnl. by split.
  - destruct np as [pr|];
      [exfalso; apply Hnl; split; [done|]; by intros q p o [=]|].
    destruct nq as [q|];
      [|exfalso; apply Hnl; split; [done|]; by intros q p o _ [=]].
    destruct (OrderBook.get_order id b) as [p|] eqn:Hg;
      [|exfalso; apply Hnl; split; [done|];
        intros q0 p o _ _ Hg'; congruence].
    destruct (decide (p ∈ book_ptrs b)) as [Hp|Hp]; cycle 1.
    { exfalso. apply Hnl. split; [done|].
      intros q0 p0 o _ _ Hg' [Hp0 _].
      assert (p0 = p) as -> by congruence. done. }
    destruct (wf_valid _ h b p Hwf Hp) as [o Ho].
    destruct (decide (q = Order.executed_quantity_ o)) as [->|Hneq]; cycle 1.
    { exfalso. apply Hnl. split; [done|].
      intros q0 p0 o0 _ [= <-] Hg' [_ Ho0].
      assert (p0 = p) as -> by congruence. congruence. }
    unfold run_op in Hrun.
    destruct (OrderBook.modify_order fuel h b id None
                (Some (Order.executed_quantity_ o)))
      as [[[ms h2] b2]|] eqn:Hm; [|done].
    cbn in Hrun. injection Hrun as <- <-.
    destruct (modify_to_executed_rests _ _ _ _ _ _ _ _ _ Hm Hwf Hg
                (conj Hp Ho)) as (o' & Hrest & Hz).
    apply (Hbreak _ _ Hrest). by right.
Qed.

(** The spec's scenario 4: a sell order for 8 at 102 rests, and a LIMIT FOK
    buy order for 10 at 103 is submitted.  The best ask level holds 8, less
    than 10: the order is left out, and it ends on the book, cancelled. *)
Lemma left_out_operations_break_witness :
  ∃ h b,
    run_checked valid_op_liveb 1 initial
      [ Submit 2001 "AAPL" SELL LIMIT 80000 1020000 GTC ]
    = Some (h, b)
    ∧ valid_op_liveb (h, b)
        (Submit 1005 "AAPL" BUY LIMIT 100000 1030000 FOK) = false
    ∧ ∃ h' b' p o,
        run_op 3 (h, b) (Submit 1005 "AAPL" BUY LIMIT 100000 1030000 FOK)
        = Some (h', b')
        ∧ resting h' b' p o
        ∧ (Order.status_ o = CANCELLED ∨ Order.remaining_quantity o = 0).
Proof.
  run_to_state Hrun.
  pose proof (run_checked_live_reachable _ _ _ _ Hrun) as Hr.
  split; [reflexivity|].
  match goal with
  | |- ∃ h' b' p o, run_op _ (?h, ?b) ?op = _ ∧ _ =>
      destruct (run_op 3 (h, b) op) as [[h' b']|] eqn:Hop;
        [|by vm_compute in Hop];
      assert (Hv : valid_op h b op)
        by (apply valid_opb_sound; vm_compute; reflexivity);
      assert (Hnl : ¬ valid_op_live h b op)
        by (intros [_ Hl]; specialize (Hl eq_refl eq_refl);
            destruct Hl as [_ Hq]; vm_compute in Hq; by apply Hq);
      destruct (left_out_operations_break _ _ _ _ _ _ Hr Hv Hnl Hop)
        as (p & o & Hrest & Hbad & _)
  end.
  exists h', b', p, o. split; [done|]. split; [exact Hrest|exact Hbad].
Defined.
